(** * behave: the Gherkin parser of [behave/parser.py]

    A shallow embedding of [behave.parser.Parser] and of the properties
    stated about it.  The parser is a line driven state machine over a
    mutable [Parser] object; the objects of [behave.model] it builds
    (Feature, Rule, Background, Scenario, Examples) are shared between the
    parser attributes and the tree, so they live in an object store and are
    named by references.  Parser methods are state passing functions that
    either raise or return a value and the next parser state. *)

From Stdlib Require Import Ascii String DecimalString.
From stdpp Require Import base option list gmap strings.

Open Scope string_scope.
Open Scope list_scope.
Open Scope nat_scope.

(** ** Python strings

    [str] values are modelled by [string]; a character is a code point below
    256.  The functions below are the [str] methods the parser calls. *)
Module PyStr.

(** [str.isspace] on one character: TAB, LF, VT, FF, CR, FS, GS, RS, US,
    SPACE, NEL (0x85) and NBSP (0xA0). *)
Definition isspace (c : ascii) : bool :=
  let n := nat_of_ascii c in
  ((9 <=? n) && (n <=? 13)) || ((28 <=? n) && (n <=? 32))
  || (n =? 133) || (n =? 160).

(** The line boundaries of [str.splitlines]: LF, VT, FF, CR, FS, GS, RS and
    NEL; CR LF counts once. *)
Definition is_linebreak (c : ascii) : bool :=
  let n := nat_of_ascii c in
  ((10 <=? n) && (n <=? 13)) || ((28 <=? n) && (n <=? 30)) || (n =? 133).

Definition LF : ascii := ascii_of_nat 10.
Definition CR : ascii := ascii_of_nat 13.

Definition is_empty (s : string) : bool :=
  match s with EmptyString => true | String _ _ => false end.

Fixpoint lstrip (s : string) : string :=
  match s with
  | String c s' => if isspace c then lstrip s' else s
  | EmptyString => EmptyString
  end.

Fixpoint rstrip (s : string) : string :=
  match s with
  | String c s' =>
      let r := rstrip s' in
      if is_empty r && isspace c then EmptyString else String c r
  | EmptyString => EmptyString
  end.

Definition strip (s : string) : string := rstrip (lstrip s).

(** [s.startswith(pre)] *)
Fixpoint startswith (s pre : string) {struct pre} : bool :=
  match pre with
  | EmptyString => true
  | String a pre' =>
      match s with
      | String b s' => Ascii.eqb a b && startswith s' pre'
      | EmptyString => false
      end
  end.
Arguments startswith s pre : simpl nomatch.

Fixpoint endswith_char (s : string) (c : ascii) : bool :=
  match s with
  | String d EmptyString => Ascii.eqb d c
  | String _ s' => endswith_char s' c
  | EmptyString => false
  end.

(** [str.lower] on the code points below 256: A-Z, and 0xC0-0xDE but 0xD7. *)
Definition lower_char (c : ascii) : ascii :=
  let n := nat_of_ascii c in
  if ((65 <=? n) && (n <=? 90))
     || ((192 <=? n) && (n <=? 222) && negb (n =? 215))
  then ascii_of_nat (n + 32) else c.

Fixpoint lower (s : string) : string :=
  match s with
  | String c s' => String (lower_char c) (lower s')
  | EmptyString => EmptyString
  end.

(** Slices [s[n:]], [s[:n]] and [s[1:-1]]. *)
Fixpoint drop (n : nat) (s : string) : string :=
  match n, s with
  | S n', String _ s' => drop n' s'
  | _, _ => s
  end.

Fixpoint take (n : nat) (s : string) : string :=
  match n, s with
  | S n', String c s' => String c (take n' s')
  | _, _ => EmptyString
  end.

Fixpoint remove_last (s : string) : string :=
  match s with
  | String c EmptyString => EmptyString
  | String c s' => String c (remove_last s')
  | EmptyString => EmptyString
  end.

Definition slice_1_m1 (s : string) : string := remove_last (drop 1 s).

Fixpoint contains (s : string) (c : ascii) : bool :=
  match s with
  | String d s' => Ascii.eqb d c || contains s' c
  | EmptyString => false
  end.

(** [re.match(r"^(|.+)\|$", s)]: up to one final LF, [s] ends with a pipe
    and there is no LF before that pipe. *)
Definition matches_row_pattern (s : string) : bool :=
  let body := if endswith_char s LF then remove_last s else s in
  endswith_char body "|" && negb (contains (remove_last body) LF).

(** [s.index(c)]; [None] stands for the ValueError of a missing character. *)
Fixpoint index (s : string) (c : ascii) : option nat :=
  match s with
  | String d s' => if Ascii.eqb d c then Some 0 else S <$> index s' c
  | EmptyString => None
  end.

(** [sep.join(l)] *)
Fixpoint join (sep : string) (l : list string) : string :=
  match l with
  | [] => EmptyString
  | [x] => x
  | x :: l' => x +:+ sep +:+ join sep l'
  end.

Definition snoc (s : string) (c : ascii) : string := s +:+ String c EmptyString.

(** [s.split()]: the maximal runs of characters that are not whitespace. *)
Fixpoint split_go (cur : string) (s : string) : list string :=
  match s with
  | String c s' =>
      if isspace c
      then (if is_empty cur then split_go EmptyString s'
            else cur :: split_go EmptyString s')
      else split_go (snoc cur c) s'
  | EmptyString => if is_empty cur then [] else [cur]
  end.

Definition split (s : string) : list string := split_go EmptyString s.

(** [s.splitlines()]; [after_cr] records that the previous character was a
    CR, whose following LF belongs to the same boundary. *)
Fixpoint splitlines_go (after_cr : bool) (cur : string) (s : string)
  : list string :=
  match s with
  | String c s' =>
      if after_cr && Ascii.eqb c LF then splitlines_go false cur s'
      else if is_linebreak c
           then cur :: splitlines_go (Ascii.eqb c CR) EmptyString s'
           else splitlines_go false (snoc cur c) s'
  | EmptyString => if is_empty cur then [] else [cur]
  end.

Definition splitlines (s : string) : list string :=
  splitlines_go false EmptyString s.

(** [re.split(r"(?<!\\)\|", s)]: cut at every pipe that does not follow a
    backslash. *)
Fixpoint split_unescaped_pipes (after_backslash : bool) (cur : string)
    (s : string) : list string :=
  match s with
  | String c s' =>
      if Ascii.eqb c "|" && negb after_backslash
      then cur :: split_unescaped_pipes false EmptyString s'
      else split_unescaped_pipes (Ascii.eqb c "\") (snoc cur c) s'
  | EmptyString => [cur]
  end.

(** [cell.replace("\\|", "|")] *)
Fixpoint unescape_pipes (s : string) : string :=
  match s with
  | String c1 (String c2 s' as rest) =>
      if Ascii.eqb c1 "\" && Ascii.eqb c2 "|"
      then String "|" (unescape_pipes s')
      else String c1 (unescape_pipes rest)
  | _ => s
  end.

(** [str.upper], on the letters a-z; the parser applies it to the names of
    step types and of states only. *)
Definition upper_char (c : ascii) : ascii :=
  let n := nat_of_ascii c in
  if (97 <=? n) && (n <=? 122) then ascii_of_nat (n - 32) else c.

Fixpoint upper (s : string) : string :=
  match s with
  | String c s' => String (upper_char c) (upper s')
  | EmptyString => EmptyString
  end.

(** ["%d" % n] *)
Definition of_nat (n : nat) : string := NilZero.string_of_uint (Nat.to_uint n).

(** Truth value of a string: the empty string is false. *)
Definition truthy (s : string) : bool := negb (is_empty s).

End PyStr.

(** ** Exceptions and results *)

(** [ParserError] keeps the arguments of its constructor; the printed
    message is [make_annotated] of them.  The other constructors are the
    built-in exceptions a method can run into.  [DanglingReference] has no
    Python counterpart: it is the result of reading a reference that the
    store does not hold. *)
Inductive exn :=
| ParserError (message : string) (line : nat) (filename : option string)
              (line_text : option string) (reason : option string)
| LanguageNotSupported (language : string)
| KeyError (key : string)
| AttributeError (attribute : string)
| TypeError (what : string)
| IndexError
| ValueError
| DanglingReference.

Inductive result (A : Type) :=
| Ok (a : A)
| Raise (e : exn).
Arguments Ok {A} a.
Arguments Raise {A} e.

(** [ParserError.make_annotated] *)
Definition make_annotated (message : string) (line_number : nat)
    (line_text reason : option string) : string :=
  let message :=
    if line_number =? 0 then message
    else message +:+ " at line " +:+ PyStr.of_nat line_number in
  let message :=
    match line_text with
    | Some t => if PyStr.truthy t
                then message +:+ ": " +:+ String (ascii_of_nat 34)
                       (PyStr.strip t +:+ String (ascii_of_nat 34) "")
                else message
    | None => message
    end in
  match reason with
  | Some r => if PyStr.truthy r
              then message +:+ String PyStr.LF "REASON: " +:+ r else message
  | None => message
  end.

(** ** The data model of [behave.model]

    The classes are declared outside the parser; the records keep the
    attributes the parser reads and writes. *)
Module Model.

(** A reference to an object of the store. *)
Abbreviation ref := nat.

Record Tag := { tag_name : string; tag_line : nat }.

Record Row := { row_headings : list string; cells : list string; row_line : nat }.

Record Table := { headings : list string; table_line : nat; rows : list Row }.

(** [Table(headings, line=...)] *)
Definition new_table (hs : list string) (line : nat) : Table :=
  {| headings := hs; table_line := line; rows := [] |}.

(** [table.add_row(cells, line)] *)
Definition add_row (t : Table) (cs : list string) (line : nat) : Table :=
  {| headings := headings t; table_line := table_line t;
     rows := rows t ++ [ {| row_headings := headings t; cells := cs;
                            row_line := line |} ] |}.

Record Text := {
  text_value : string;
  content_type : string;
  text_line : option nat
}.

Record Step := {
  step_filename : option string;
  step_line : nat;
  step_keyword : string;
  step_type : string;
  step_name : string;
  step_text : option Text;
  step_table : option Table
}.

Definition new_step (filename : option string) (line : nat)
    (keyword ty name : string) : Step :=
  {| step_filename := filename; step_line := line; step_keyword := keyword;
     step_type := ty; step_name := name; step_text := None;
     step_table := None |}.

Definition step_set_text (s : Step) (t : Text) : Step :=
  {| step_filename := step_filename s; step_line := step_line s;
     step_keyword := step_keyword s; step_type := step_type s;
     step_name := step_name s; step_text := Some t;
     step_table := step_table s |}.

Definition step_set_table (s : Step) (t : option Table) : Step :=
  {| step_filename := step_filename s; step_line := step_line s;
     step_keyword := step_keyword s; step_type := step_type s;
     step_name := step_name s; step_text := step_text s;
     step_table := t |}.

Definition step_set_name (s : Step) (n : string) : Step :=
  {| step_filename := step_filename s; step_line := step_line s;
     step_keyword := step_keyword s; step_type := step_type s;
     step_name := n; step_text := step_text s;
     step_table := step_table s |}.

(** What every statement starts with: position, keyword and name. *)
Record Header := {
  filename : option string;
  line : nat;
  keyword : string;
  name : string
}.

Record Feature := {
  feature_header : Header;
  feature_tags : list Tag;
  feature_language : string;
  feature_description : list string;
  feature_background : option ref;
  feature_scenarios : list ref;
  feature_rules : list ref;
  feature_parser : option nat
}.

Record Rule := {
  rule_header : Header;
  rule_tags : list Tag;
  rule_description : list string;
  rule_background : option ref;
  rule_scenarios : list ref;
  rule_parent : option ref
}.

Record Background := {
  background_header : Header;
  background_description : list string;
  background_steps : list Step;
  background_parent : option ref
}.

(** [Scenario], and [ScenarioOutline] which adds the [examples]. *)
Record Scenario := {
  scenario_header : Header;
  scenario_tags : list Tag;
  scenario_description : list string;
  scenario_steps : list Step
}.

Record Examples := {
  examples_header : Header;
  examples_tags : list Tag;
  examples_table : option Table
}.

Inductive obj :=
| OFeature (f : Feature)
| ORule (r : Rule)
| OBackground (b : Background)
| OScenario (s : Scenario)
| OScenarioOutline (s : Scenario) (examples : list ref)
| OExamples (e : Examples).

(** *** Attribute access, by class.  [None] is an AttributeError. *)

Definition get_steps (o : obj) : option (list Step) :=
  match o with
  | OBackground b => Some (background_steps b)
  | OScenario s | OScenarioOutline s _ => Some (scenario_steps s)
  | _ => None
  end.

Definition scenario_with_steps (s : Scenario) (l : list Step) : Scenario :=
  {| scenario_header := scenario_header s; scenario_tags := scenario_tags s;
     scenario_description := scenario_description s; scenario_steps := l |}.

Definition set_steps (l : list Step) (o : obj) : option obj :=
  match o with
  | OBackground b =>
      Some (OBackground
        {| background_header := background_header b;
           background_description := background_description b;
           background_steps := l;
           background_parent := background_parent b |})
  | OScenario s => Some (OScenario (scenario_with_steps s l))
  | OScenarioOutline s ex => Some (OScenarioOutline (scenario_with_steps s l) ex)
  | _ => None
  end.

(** [o.description.append(line)] *)
Definition append_description (text : string) (o : obj) : option obj :=
  match o with
  | OFeature f =>
      Some (OFeature
        {| feature_header := feature_header f; feature_tags := feature_tags f;
           feature_language := feature_language f;
           feature_description := feature_description f ++ [text];
           feature_background := feature_background f;
           feature_scenarios := feature_scenarios f;
           feature_rules := feature_rules f;
           feature_parser := feature_parser f |})
  | ORule r =>
      Some (ORule
        {| rule_header := rule_header r; rule_tags := rule_tags r;
           rule_description := rule_description r ++ [text];
           rule_background := rule_background r;
           rule_scenarios := rule_scenarios r;
           rule_parent := rule_parent r |})
  | OBackground b =>
      Some (OBackground
        {| background_header := background_header b;
           background_description := background_description b ++ [text];
           background_steps := background_steps b;
           background_parent := background_parent b |})
  | OScenario s =>
      Some (OScenario
        {| scenario_header := scenario_header s;
           scenario_tags := scenario_tags s;
           scenario_description := scenario_description s ++ [text];
           scenario_steps := scenario_steps s |})
  | OScenarioOutline s ex =>
      Some (OScenarioOutline
        {| scenario_header := scenario_header s;
           scenario_tags := scenario_tags s;
           scenario_description := scenario_description s ++ [text];
           scenario_steps := scenario_steps s |} ex)
  | OExamples _ => None
  end.

(** [container.background], for the two scenario containers. *)
Definition get_background (o : obj) : option (option ref) :=
  match o with
  | OFeature f => Some (feature_background f)
  | ORule r => Some (rule_background r)
  | _ => None
  end.

Definition set_background (b : option ref) (o : obj) : option obj :=
  match o with
  | OFeature f =>
      Some (OFeature
        {| feature_header := feature_header f; feature_tags := feature_tags f;
           feature_language := feature_language f;
           feature_description := feature_description f;
           feature_background := b;
           feature_scenarios := feature_scenarios f;
           feature_rules := feature_rules f;
           feature_parser := feature_parser f |})
  | ORule r =>
      Some (ORule
        {| rule_header := rule_header r; rule_tags := rule_tags r;
           rule_description := rule_description r;
           rule_background := b;
           rule_scenarios := rule_scenarios r;
           rule_parent := rule_parent r |})
  | _ => None
  end.

Definition get_scenarios (o : obj) : option (list ref) :=
  match o with
  | OFeature f => Some (feature_scenarios f)
  | ORule r => Some (rule_scenarios r)
  | _ => None
  end.

(** [container.add_scenario(scenario)] *)
Definition add_scenario (s : ref) (o : obj) : option obj :=
  match o with
  | OFeature f =>
      Some (OFeature
        {| feature_header := feature_header f; feature_tags := feature_tags f;
           feature_language := feature_language f;
           feature_description := feature_description f;
           feature_background := feature_background f;
           feature_scenarios := feature_scenarios f ++ [s];
           feature_rules := feature_rules f;
           feature_parser := feature_parser f |})
  | ORule r =>
      Some (ORule
        {| rule_header := rule_header r; rule_tags := rule_tags r;
           rule_description := rule_description r;
           rule_background := rule_background r;
           rule_scenarios := rule_scenarios r ++ [s];
           rule_parent := rule_parent r |})
  | _ => None
  end.

(** [feature.rules.append(rule)], the list part of [add_rule]. *)
Definition append_rule (r : ref) (o : obj) : option obj :=
  match o with
  | OFeature f =>
      Some (OFeature
        {| feature_header := feature_header f; feature_tags := feature_tags f;
           feature_language := feature_language f;
           feature_description := feature_description f;
           feature_background := feature_background f;
           feature_scenarios := feature_scenarios f;
           feature_rules := feature_rules f ++ [r];
           feature_parser := feature_parser f |})
  | _ => None
  end.

Definition set_rule_parent (parent : ref) (o : obj) : option obj :=
  match o with
  | ORule r =>
      Some (ORule
        {| rule_header := rule_header r; rule_tags := rule_tags r;
           rule_description := rule_description r;
           rule_background := rule_background r;
           rule_scenarios := rule_scenarios r;
           rule_parent := Some parent |})
  | _ => None
  end.

Definition set_background_parent (parent : ref) (o : obj) : option obj :=
  match o with
  | OBackground b =>
      Some (OBackground
        {| background_header := background_header b;
           background_description := background_description b;
           background_steps := background_steps b;
           background_parent := Some parent |})
  | _ => None
  end.

(** [feature.parser = parser] *)
Definition set_parser (parser : nat) (o : obj) : option obj :=
  match o with
  | OFeature f =>
      Some (OFeature
        {| feature_header := feature_header f; feature_tags := feature_tags f;
           feature_language := feature_language f;
           feature_description := feature_description f;
           feature_background := feature_background f;
           feature_scenarios := feature_scenarios f;
           feature_rules := feature_rules f;
           feature_parser := Some parser |})
  | _ => None
  end.

(** [outline.examples.append(examples)] *)
Definition append_examples (e : ref) (o : obj) : option obj :=
  match o with
  | OScenarioOutline s ex => Some (OScenarioOutline s (ex ++ [e]))
  | _ => None
  end.

(** [examples.table = table] *)
Definition set_examples_table (t : option Table) (o : obj) : option obj :=
  match o with
  | OExamples e =>
      Some (OExamples
        {| examples_header := examples_header e;
           examples_tags := examples_tags e; examples_table := t |})
  | _ => None
  end.

(** [isinstance(o, model.ScenarioOutline)] *)
Definition is_scenario_outline (o : obj) : bool :=
  match o with OScenarioOutline _ _ => true | _ => false end.

End Model.

(** ** The parser *)
Module Parser.
Import Model.

(** The keywords of one language: concept name to its ordered aliases (one
    entry of [i18n.languages]). *)
Abbreviation Keywords := (gmap string (list string)).

Definition DEFAULT_LANGUAGE : string := "en".

(** [class State(Enum)] *)
Inductive State :=
| INITIAL | FEATURE | RULE | BACKGROUND | SCENARIO | TAGGABLE_STATEMENT
| STEPS | STEP | MULTILINE_TEXT | TABLE.

#[global] Instance State_eq_dec : EqDecision State.
Proof. solve_decision. Defined.

(** [state.name.lower()] *)
Definition state_name (s : State) : string :=
  match s with
  | INITIAL => "initial" | FEATURE => "feature" | RULE => "rule"
  | BACKGROUND => "background" | SCENARIO => "scenario"
  | TAGGABLE_STATEMENT => "taggable_statement" | STEPS => "steps"
  | STEP => "step" | MULTILINE_TEXT => "multiline_text" | TABLE => "table"
  end.

(** The attributes of a [Parser] instance.  [self_id] is the identity of the
    instance, [store] holds the model objects created so far; an attribute
    that names such an object holds its reference. *)
Record Parser := {
  self_id : nat;
  self_language : option string;
  self_variant : string;
  self_keywords : option Keywords;
  self_state : State;
  self_line : nat;
  self_last_step_type : option string;
  self_multiline_start : option nat;
  self_multiline_leading : option nat;
  self_multiline_terminator : option string;
  self_filename : option string;
  self_scenario_container : option ref;
  self_feature : option ref;
  self_rule : option ref;
  self_parent : option ref;
  self_statement : option ref;
  self_tags : list Tag;
  self_lines : list string;
  self_table : option Table;
  self_examples : option ref;
  store : list obj
}.

Definition set_language (v : option string) (p : Parser) : Parser :=
  {| self_id := self_id p;
     self_language := v;
     self_variant := self_variant p;
     self_keywords := self_keywords p;
     self_state := self_state p;
     self_line := self_line p;
     self_last_step_type := self_last_step_type p;
     self_multiline_start := self_multiline_start p;
     self_multiline_leading := self_multiline_leading p;
     self_multiline_terminator := self_multiline_terminator p;
     self_filename := self_filename p;
     self_scenario_container := self_scenario_container p;
     self_feature := self_feature p;
     self_rule := self_rule p;
     self_parent := self_parent p;
     self_statement := self_statement p;
     self_tags := self_tags p;
     self_lines := self_lines p;
     self_table := self_table p;
     self_examples := self_examples p;
     store := store p |}.

Definition set_keywords (v : option Keywords) (p : Parser) : Parser :=
  {| self_id := self_id p;
     self_language := self_language p;
     self_variant := self_variant p;
     self_keywords := v;
     self_state := self_state p;
     self_line := self_line p;
     self_last_step_type := self_last_step_type p;
     self_multiline_start := self_multiline_start p;
     self_multiline_leading := self_multiline_leading p;
     self_multiline_terminator := self_multiline_terminator p;
     self_filename := self_filename p;
     self_scenario_container := self_scenario_container p;
     self_feature := self_feature p;
     self_rule := self_rule p;
     self_parent := self_parent p;
     self_statement := self_statement p;
     self_tags := self_tags p;
     self_lines := self_lines p;
     self_table := self_table p;
     self_examples := self_examples p;
     store := store p |}.

Definition set_state (v : State) (p : Parser) : Parser :=
  {| self_id := self_id p;
     self_language := self_language p;
     self_variant := self_variant p;
     self_keywords := self_keywords p;
     self_state := v;
     self_line := self_line p;
     self_last_step_type := self_last_step_type p;
     self_multiline_start := self_multiline_start p;
     self_multiline_leading := self_multiline_leading p;
     self_multiline_terminator := self_multiline_terminator p;
     self_filename := self_filename p;
     self_scenario_container := self_scenario_container p;
     self_feature := self_feature p;
     self_rule := self_rule p;
     self_parent := self_parent p;
     self_statement := self_statement p;
     self_tags := self_tags p;
     self_lines := self_lines p;
     self_table := self_table p;
     self_examples := self_examples p;
     store := store p |}.

Definition set_line (v : nat) (p : Parser) : Parser :=
  {| self_id := self_id p;
     self_language := self_language p;
     self_variant := self_variant p;
     self_keywords := self_keywords p;
     self_state := self_state p;
     self_line := v;
     self_last_step_type := self_last_step_type p;
     self_multiline_start := self_multiline_start p;
     self_multiline_leading := self_multiline_leading p;
     self_multiline_terminator := self_multiline_terminator p;
     self_filename := self_filename p;
     self_scenario_container := self_scenario_container p;
     self_feature := self_feature p;
     self_rule := self_rule p;
     self_parent := self_parent p;
     self_statement := self_statement p;
     self_tags := self_tags p;
     self_lines := self_lines p;
     self_table := self_table p;
     self_examples := self_examples p;
     store := store p |}.

Definition set_last_step_type (v : option string) (p : Parser) : Parser :=
  {| self_id := self_id p;
     self_language := self_language p;
     self_variant := self_variant p;
     self_keywords := self_keywords p;
     self_state := self_state p;
     self_line := self_line p;
     self_last_step_type := v;
     self_multiline_start := self_multiline_start p;
     self_multiline_leading := self_multiline_leading p;
     self_multiline_terminator := self_multiline_terminator p;
     self_filename := self_filename p;
     self_scenario_container := self_scenario_container p;
     self_feature := self_feature p;
     self_rule := self_rule p;
     self_parent := self_parent p;
     self_statement := self_statement p;
     self_tags := self_tags p;
     self_lines := self_lines p;
     self_table := self_table p;
     self_examples := self_examples p;
     store := store p |}.

Definition set_multiline_start (v : option nat) (p : Parser) : Parser :=
  {| self_id := self_id p;
     self_language := self_language p;
     self_variant := self_variant p;
     self_keywords := self_keywords p;
     self_state := self_state p;
     self_line := self_line p;
     self_last_step_type := self_last_step_type p;
     self_multiline_start := v;
     self_multiline_leading := self_multiline_leading p;
     self_multiline_terminator := self_multiline_terminator p;
     self_filename := self_filename p;
     self_scenario_container := self_scenario_container p;
     self_feature := self_feature p;
     self_rule := self_rule p;
     self_parent := self_parent p;
     self_statement := self_statement p;
     self_tags := self_tags p;
     self_lines := self_lines p;
     self_table := self_table p;
     self_examples := self_examples p;
     store := store p |}.

Definition set_multiline_leading (v : option nat) (p : Parser) : Parser :=
  {| self_id := self_id p;
     self_language := self_language p;
     self_variant := self_variant p;
     self_keywords := self_keywords p;
     self_state := self_state p;
     self_line := self_line p;
     self_last_step_type := self_last_step_type p;
     self_multiline_start := self_multiline_start p;
     self_multiline_leading := v;
     self_multiline_terminator := self_multiline_terminator p;
     self_filename := self_filename p;
     self_scenario_container := self_scenario_container p;
     self_feature := self_feature p;
     self_rule := self_rule p;
     self_parent := self_parent p;
     self_statement := self_statement p;
     self_tags := self_tags p;
     self_lines := self_lines p;
     self_table := self_table p;
     self_examples := self_examples p;
     store := store p |}.

Definition set_multiline_terminator (v : option string) (p : Parser) : Parser :=
  {| self_id := self_id p;
     self_language := self_language p;
     self_variant := self_variant p;
     self_keywords := self_keywords p;
     self_state := self_state p;
     self_line := self_line p;
     self_last_step_type := self_last_step_type p;
     self_multiline_start := self_multiline_start p;
     self_multiline_leading := self_multiline_leading p;
     self_multiline_terminator := v;
     self_filename := self_filename p;
     self_scenario_container := self_scenario_container p;
     self_feature := self_feature p;
     self_rule := self_rule p;
     self_parent := self_parent p;
     self_statement := self_statement p;
     self_tags := self_tags p;
     self_lines := self_lines p;
     self_table := self_table p;
     self_examples := self_examples p;
     store := store p |}.

Definition set_filename (v : option string) (p : Parser) : Parser :=
  {| self_id := self_id p;
     self_language := self_language p;
     self_variant := self_variant p;
     self_keywords := self_keywords p;
     self_state := self_state p;
     self_line := self_line p;
     self_last_step_type := self_last_step_type p;
     self_multiline_start := self_multiline_start p;
     self_multiline_leading := self_multiline_leading p;
     self_multiline_terminator := self_multiline_terminator p;
     self_filename := v;
     self_scenario_container := self_scenario_container p;
     self_feature := self_feature p;
     self_rule := self_rule p;
     self_parent := self_parent p;
     self_statement := self_statement p;
     self_tags := self_tags p;
     self_lines := self_lines p;
     self_table := self_table p;
     self_examples := self_examples p;
     store := store p |}.

Definition set_scenario_container (v : option ref) (p : Parser) : Parser :=
  {| self_id := self_id p;
     self_language := self_language p;
     self_variant := self_variant p;
     self_keywords := self_keywords p;
     self_state := self_state p;
     self_line := self_line p;
     self_last_step_type := self_last_step_type p;
     self_multiline_start := self_multiline_start p;
     self_multiline_leading := self_multiline_leading p;
     self_multiline_terminator := self_multiline_terminator p;
     self_filename := self_filename p;
     self_scenario_container := v;
     self_feature := self_feature p;
     self_rule := self_rule p;
     self_parent := self_parent p;
     self_statement := self_statement p;
     self_tags := self_tags p;
     self_lines := self_lines p;
     self_table := self_table p;
     self_examples := self_examples p;
     store := store p |}.

Definition set_feature (v : option ref) (p : Parser) : Parser :=
  {| self_id := self_id p;
     self_language := self_language p;
     self_variant := self_variant p;
     self_keywords := self_keywords p;
     self_state := self_state p;
     self_line := self_line p;
     self_last_step_type := self_last_step_type p;
     self_multiline_start := self_multiline_start p;
     self_multiline_leading := self_multiline_leading p;
     self_multiline_terminator := self_multiline_terminator p;
     self_filename := self_filename p;
     self_scenario_container := self_scenario_container p;
     self_feature := v;
     self_rule := self_rule p;
     self_parent := self_parent p;
     self_statement := self_statement p;
     self_tags := self_tags p;
     self_lines := self_lines p;
     self_table := self_table p;
     self_examples := self_examples p;
     store := store p |}.

Definition set_rule (v : option ref) (p : Parser) : Parser :=
  {| self_id := self_id p;
     self_language := self_language p;
     self_variant := self_variant p;
     self_keywords := self_keywords p;
     self_state := self_state p;
     self_line := self_line p;
     self_last_step_type := self_last_step_type p;
     self_multiline_start := self_multiline_start p;
     self_multiline_leading := self_multiline_leading p;
     self_multiline_terminator := self_multiline_terminator p;
     self_filename := self_filename p;
     self_scenario_container := self_scenario_container p;
     self_feature := self_feature p;
     self_rule := v;
     self_parent := self_parent p;
     self_statement := self_statement p;
     self_tags := self_tags p;
     self_lines := self_lines p;
     self_table := self_table p;
     self_examples := self_examples p;
     store := store p |}.

Definition set_parent (v : option ref) (p : Parser) : Parser :=
  {| self_id := self_id p;
     self_language := self_language p;
     self_variant := self_variant p;
     self_keywords := self_keywords p;
     self_state := self_state p;
     self_line := self_line p;
     self_last_step_type := self_last_step_type p;
     self_multiline_start := self_multiline_start p;
     self_multiline_leading := self_multiline_leading p;
     self_multiline_terminator := self_multiline_terminator p;
     self_filename := self_filename p;
     self_scenario_container := self_scenario_container p;
     self_feature := self_feature p;
     self_rule := self_rule p;
     self_parent := v;
     self_statement := self_statement p;
     self_tags := self_tags p;
     self_lines := self_lines p;
     self_table := self_table p;
     self_examples := self_examples p;
     store := store p |}.

Definition set_statement (v : option ref) (p : Parser) : Parser :=
  {| self_id := self_id p;
     self_language := self_language p;
     self_variant := self_variant p;
     self_keywords := self_keywords p;
     self_state := self_state p;
     self_line := self_line p;
     self_last_step_type := self_last_step_type p;
     self_multiline_start := self_multiline_start p;
     self_multiline_leading := self_multiline_leading p;
     self_multiline_terminator := self_multiline_terminator p;
     self_filename := self_filename p;
     self_scenario_container := self_scenario_container p;
     self_feature := self_feature p;
     self_rule := self_rule p;
     self_parent := self_parent p;
     self_statement := v;
     self_tags := self_tags p;
     self_lines := self_lines p;
     self_table := self_table p;
     self_examples := self_examples p;
     store := store p |}.

Definition set_tags (v : list Tag) (p : Parser) : Parser :=
  {| self_id := self_id p;
     self_language := self_language p;
     self_variant := self_variant p;
     self_keywords := self_keywords p;
     self_state := self_state p;
     self_line := self_line p;
     self_last_step_type := self_last_step_type p;
     self_multiline_start := self_multiline_start p;
     self_multiline_leading := self_multiline_leading p;
     self_multiline_terminator := self_multiline_terminator p;
     self_filename := self_filename p;
     self_scenario_container := self_scenario_container p;
     self_feature := self_feature p;
     self_rule := self_rule p;
     self_parent := self_parent p;
     self_statement := self_statement p;
     self_tags := v;
     self_lines := self_lines p;
     self_table := self_table p;
     self_examples := self_examples p;
     store := store p |}.

Definition set_lines (v : list string) (p : Parser) : Parser :=
  {| self_id := self_id p;
     self_language := self_language p;
     self_variant := self_variant p;
     self_keywords := self_keywords p;
     self_state := self_state p;
     self_line := self_line p;
     self_last_step_type := self_last_step_type p;
     self_multiline_start := self_multiline_start p;
     self_multiline_leading := self_multiline_leading p;
     self_multiline_terminator := self_multiline_terminator p;
     self_filename := self_filename p;
     self_scenario_container := self_scenario_container p;
     self_feature := self_feature p;
     self_rule := self_rule p;
     self_parent := self_parent p;
     self_statement := self_statement p;
     self_tags := self_tags p;
     self_lines := v;
     self_table := self_table p;
     self_examples := self_examples p;
     store := store p |}.

Definition set_table (v : option Table) (p : Parser) : Parser :=
  {| self_id := self_id p;
     self_language := self_language p;
     self_variant := self_variant p;
     self_keywords := self_keywords p;
     self_state := self_state p;
     self_line := self_line p;
     self_last_step_type := self_last_step_type p;
     self_multiline_start := self_multiline_start p;
     self_multiline_leading := self_multiline_leading p;
     self_multiline_terminator := self_multiline_terminator p;
     self_filename := self_filename p;
     self_scenario_container := self_scenario_container p;
     self_feature := self_feature p;
     self_rule := self_rule p;
     self_parent := self_parent p;
     self_statement := self_statement p;
     self_tags := self_tags p;
     self_lines := self_lines p;
     self_table := v;
     self_examples := self_examples p;
     store := store p |}.

Definition set_examples (v : option ref) (p : Parser) : Parser :=
  {| self_id := self_id p;
     self_language := self_language p;
     self_variant := self_variant p;
     self_keywords := self_keywords p;
     self_state := self_state p;
     self_line := self_line p;
     self_last_step_type := self_last_step_type p;
     self_multiline_start := self_multiline_start p;
     self_multiline_leading := self_multiline_leading p;
     self_multiline_terminator := self_multiline_terminator p;
     self_filename := self_filename p;
     self_scenario_container := self_scenario_container p;
     self_feature := self_feature p;
     self_rule := self_rule p;
     self_parent := self_parent p;
     self_statement := self_statement p;
     self_tags := self_tags p;
     self_lines := self_lines p;
     self_table := self_table p;
     self_examples := v;
     store := store p |}.

Definition set_store (v : list obj) (p : Parser) : Parser :=
  {| self_id := self_id p;
     self_language := self_language p;
     self_variant := self_variant p;
     self_keywords := self_keywords p;
     self_state := self_state p;
     self_line := self_line p;
     self_last_step_type := self_last_step_type p;
     self_multiline_start := self_multiline_start p;
     self_multiline_leading := self_multiline_leading p;
     self_multiline_terminator := self_multiline_terminator p;
     self_filename := self_filename p;
     self_scenario_container := self_scenario_container p;
     self_feature := self_feature p;
     self_rule := self_rule p;
     self_parent := self_parent p;
     self_statement := self_statement p;
     self_tags := self_tags p;
     self_lines := self_lines p;
     self_table := self_table p;
     self_examples := self_examples p;
     store := v |}.

(** *** The method monad: a method reads and writes the instance and may
    raise. *)
Definition M (A : Type) : Type := Parser -> result (A * Parser).

#[global] Instance M_ret : MRet M := fun A a p => Ok (a, p).
#[global] Instance M_bind : MBind M := fun A B f m p =>
  match m p with
  | Ok (a, p') => f a p'
  | Raise e => Raise e
  end.

#[global] Instance M_fmap : FMap M := fun A B f m => a ← m; mret (f a).

Definition raise {A} (e : exn) : M A := fun _ => Raise e.
Definition get : M Parser := fun p => Ok (p, p).
Definition modify (f : Parser -> Parser) : M unit := fun p => Ok (tt, f p).

(** [x.attribute] where [x] may be [None]. *)
Definition the {A} (attribute : string) (x : option A) : M A :=
  match x with
  | Some a => mret a
  | None => raise (AttributeError attribute)
  end.

(** Creating, reading and updating a model object. *)
Definition new (o : obj) : M ref := fun p =>
  Ok (length (store p), set_store (store p ++ [o]) p).

Definition deref (r : ref) : M obj := fun p =>
  match store p !! r with
  | Some o => Ok (o, p)
  | None => Raise DanglingReference
  end.

Definition update (attribute : string) (r : ref) (f : obj -> option obj)
  : M unit :=
  o ← deref r;
  match f o with
  | Some o' => modify (fun p => set_store (<[r := o']> (store p)) p)
  | None => raise (AttributeError attribute)
  end.

(** [x or DEFAULT_LANGUAGE] *)
Definition or_default (language : option string) : string :=
  match language with
  | Some l => if PyStr.truthy l then l else DEFAULT_LANGUAGE
  | None => DEFAULT_LANGUAGE
  end.

Definition truthy_opt (x : option string) : bool :=
  match x with Some s => PyStr.truthy s | None => false end.

(** The value of [x] when [x] is true: neither [None] nor empty. *)
Definition known (x : option string) : option string :=
  match x with
  | Some s => if PyStr.truthy s then Some s else None
  | None => None
  end.

(** [l[-1] = f(l[-1])] *)
Fixpoint map_last {A} (f : A -> A) (l : list A) : list A :=
  match l with
  | [] => []
  | [x] => [f x]
  | x :: l' => x :: map_last f l'
  end.

Section WithEnvironment.

(** [i18n.languages], the keyword table, and the setting read from the
    environment variable BEHAVE_STRIP_STEPS_WITH_TRAILING_COLON. *)
Variable languages : gmap string Keywords.
Variable STRIP_STEPS_WITH_TRAILING_COLON : bool.

(** Modelled from the spec: [i18n.languages[language]], the lookup in the
    keyword table of the module [behave/i18n.py]; for a language that is
    not a key of the table it fails with LanguageNotSupported. *)
Definition languages_at (language : string) : M Keywords :=
  match languages !! language with
  | Some k => mret k
  | None => raise (LanguageNotSupported language)
  end.

(** The attributes [Parser.__init__] starts from. *)
Definition blank (id : nat) (language : option string) (variant : string)
  : Parser :=
  {| self_id := id; self_language := language; self_variant := variant;
     self_keywords := None; self_state := INITIAL; self_line := 0;
     self_last_step_type := None; self_multiline_start := None;
     self_multiline_leading := None; self_multiline_terminator := None;
     self_filename := None; self_scenario_container := None;
     self_feature := None; self_rule := None; self_parent := None;
     self_statement := None; self_tags := []; self_lines := [];
     self_table := None; self_examples := None; store := [] |}.

(** [Parser.__init__] *)
Definition __init__ (id : nat) (language variant : option string)
  : result Parser :=
  let variant :=
    match variant with
    | Some v => if PyStr.truthy v then v else "feature"
    | None => "feature"
    end in
  let p := blank id language variant in
  match
    (_ ← languages_at (or_default language);
     if truthy_opt language
     then k ← languages_at (default DEFAULT_LANGUAGE language);
          modify (set_keywords (Some k))
     else mret tt) p
  with
  | Ok (_, p') => Ok p'
  | Raise e => Raise e
  end.

(** [Parser.reset] *)
Definition reset (filename : option string) : M unit :=
  p ← get;
  let language := or_default (self_language p) in
  modify (set_language (Some language));;
  k ← languages_at language;
  modify (set_keywords (Some k));;
  modify (set_state INITIAL);;
  modify (set_line 0);;
  modify (set_last_step_type None);;
  modify (set_multiline_start None);;
  modify (set_multiline_leading None);;
  modify (set_multiline_terminator None);;
  modify (set_filename filename);;
  modify (set_scenario_container None);;
  modify (set_feature None);;
  modify (set_rule None);;
  modify (set_parent None);;
  modify (set_statement None);;
  modify (set_tags []);;
  modify (set_lines []);;
  modify (set_table None);;
  modify (set_examples None).

(** [self.keywords[concept]] *)
Definition keywords_at (concept : string) : M (list string) :=
  p ← get;
  match self_keywords p with
  | None => raise (TypeError "'NoneType' object is not subscriptable")
  | Some k =>
      match k !! concept with
      | Some aliases => mret aliases
      | None => raise (KeyError concept)
      end
  end.

Definition keywords_falsy (k : option Keywords) : bool :=
  match k with
  | None => true
  | Some k => bool_decide (k = ∅)
  end.

(** [Parser.match_keyword] *)
Definition match_keyword (keyword line : string) : M (option string) :=
  p ← get;
  (if keywords_falsy (self_keywords p)
   then modify (set_language (Some DEFAULT_LANGUAGE));;
        k ← languages_at DEFAULT_LANGUAGE;
        modify (set_keywords (Some k))
   else mret tt);;
  aliases ← keywords_at keyword;
  mret (List.find (fun alias => PyStr.startswith line (alias +:+ ":")) aliases).

(** The statement name [line[len(keyword) + 1:].strip()]. *)
Definition name_after (keyword line : string) : string :=
  PyStr.strip (PyStr.drop (String.length keyword + 1) line).

Definition header_here (p : Parser) (keyword line : string) : Header :=
  {| filename := self_filename p; line := self_line p; keyword := keyword;
     name := name_after keyword line |}.

(** [Parser._build_feature] *)
Definition _build_feature (keyword line : string) : M unit :=
  p ← get;
  let language := or_default (self_language p) in
  feature ← new (OFeature
    {| feature_header := header_here p keyword line;
       feature_tags := self_tags p; feature_language := language;
       feature_description := []; feature_background := None;
       feature_scenarios := []; feature_rules := [];
       feature_parser := None |});
  modify (set_feature (Some feature));;
  modify (set_scenario_container (Some feature));;
  modify (set_rule None);;
  modify (set_tags []).

(** Modelled from the spec: [Feature.add_rule] of [behave/model.py].  The
    rule joins the rules of the feature and has the feature as its parent;
    when the feature has a Background, the rule starts with a default
    Background that has no steps of its own, through which it inherits the
    background steps of the feature. *)
Definition add_rule (feature rule : ref) : M unit :=
  update "rules" feature (append_rule rule);;
  update "parent" rule (set_rule_parent feature);;
  f ← deref feature;
  match get_background f with
  | Some (Some _) =>
      p ← get;
      b ← new (OBackground
        {| background_header :=
             {| filename := self_filename p; line := self_line p;
                keyword := ""; name := "" |};
           background_description := []; background_steps := [];
           background_parent := Some rule |});
      update "background" rule (set_background (Some b))
  | _ => mret tt
  end.

(** Modelled from the spec: [container.add_background] of
    [behave/model.py]: the container holds the Background, which has the
    container as its parent. *)
Definition add_background (container background : ref) : M unit :=
  update "parent" background (set_background_parent container);;
  update "add_background" container (set_background (Some background)).

(** Modelled from the spec: the property [Background.inherited_steps] of
    [behave/model.py]: for the Background of a Rule, the steps of the
    Background of the Feature the Rule belongs to; none otherwise. *)
Definition inherited_steps (b : Background) : M (list Step) :=
  match background_parent b with
  | None => mret []
  | Some parent =>
      o ← deref parent;
      match o with
      | ORule r =>
          match rule_parent r with
          | None => mret []
          | Some feature =>
              f ← deref feature;
              match get_background f with
              | Some (Some fb) =>
                  o ← deref fb;
                  mret (default [] (get_steps o))
              | _ => mret []
              end
          end
      | _ => mret []
      end
  end.

(** [Parser._build_rule_statement] *)
Definition _build_rule_statement (keyword line : string) : M unit :=
  p ← get;
  rule ← new (ORule
    {| rule_header := header_here p keyword line; rule_tags := self_tags p;
       rule_description := []; rule_background := None;
       rule_scenarios := []; rule_parent := None |});
  modify (set_rule (Some rule));;
  modify (set_scenario_container (Some rule));;
  modify (set_statement (Some rule));;
  (match self_feature p with
   | Some feature => add_rule feature rule
   | None => mret tt
   end);;
  modify (set_tags []).

(** [" @".join(self.tags)] *)
Definition join_tags (ts : list Tag) : string :=
  PyStr.join " @" (map tag_name ts).

(** [Parser._build_background_statement] *)
Definition _build_background_statement (keyword line : string) : M unit :=
  p ← get;
  (match self_tags p with
   | _ :: _ =>
       raise (ParserError ("Background supports no tags: @" +:+
                           join_tags (self_tags p))
                (self_line p) (self_filename p) (Some line) None)
   | [] => mret tt
   end);;
  (match self_scenario_container p with
   | Some container =>
       c ← deref container;
       b ← the "background" (get_background c);
       match b with
       | Some b =>
           ob ← deref b;
           steps ← the "steps" (get_steps ob);
           match steps with
           | _ :: _ =>
               raise (ParserError "Second Background (can have only one)"
                        (self_line p) (self_filename p) (Some line) None)
           | [] => mret tt
           end
       | None => mret tt
       end
   | None => mret tt
   end);;
  background ← new (OBackground
    {| background_header := header_here p keyword line;
       background_description := []; background_steps := [];
       background_parent := None |});
  container ← the "add_background" (self_scenario_container p);
  add_background container background;;
  modify (set_statement (Some background)).

Definition new_scenario (p : Parser) (keyword line : string) : Scenario :=
  {| scenario_header := header_here p keyword line;
     scenario_tags := self_tags p; scenario_description := [];
     scenario_steps := [] |}.

(** [Parser._build_scenario_statement] *)
Definition _build_scenario_statement (keyword line : string) : M unit :=
  p ← get;
  scenario ← new (OScenario (new_scenario p keyword line));
  modify (set_statement (Some scenario));;
  (match self_scenario_container p with
   | Some container => update "add_scenario" container (add_scenario scenario)
   | None => mret tt
   end);;
  modify (set_tags []).

(** [Parser._build_scenario_outline_statement] *)
Definition _build_scenario_outline_statement (keyword line : string)
  : M unit :=
  p ← get;
  template ← new (OScenarioOutline (new_scenario p keyword line) []);
  modify (set_statement (Some template));;
  container ← the "add_scenario" (self_scenario_container p);
  update "add_scenario" container (add_scenario template);;
  modify (set_tags []).

(** [Parser._build_examples] *)
Definition _build_examples (keyword line : string) : M unit :=
  p ← get;
  let message := "Examples must only appear inside scenario outline" in
  let not_an_outline :=
    raise (ParserError message (self_line p) (self_filename p) (Some line)
             None) in
  match self_statement p with
  | None => not_an_outline
  | Some statement =>
      o ← deref statement;
      if is_scenario_outline o
      then
        examples ← new (OExamples
          {| examples_header := header_here p keyword line;
             examples_tags := self_tags p; examples_table := None |});
        modify (set_examples (Some examples));;
        update "examples" statement (append_examples examples);;
        modify (set_tags [])
      else not_an_outline
  end.

(** [Parser.diagnose_feature_usage_error] and its siblings. *)
Definition diagnose_feature_usage_error : M string :=
  p ← get;
  match self_feature p with
  | Some _ => mret "Multiple features in one file are not supported."
  | None => mret "Feature should not be used here."
  end.

Definition diagnose_rule_usage_error : string :=
  "Rule should not be used here.".

Definition diagnose_background_usage_error : M string :=
  p ← get;
  has_scenarios ←
    match self_scenario_container p with
    | Some container =>
        c ← deref container;
        scenarios ← the "scenarios" (get_scenarios c);
        mret (match scenarios with [] => false | _ :: _ => true end)
    | None => mret false
    end;
  if has_scenarios : bool
  then mret "Background may not occur after Scenario/ScenarioOutline."
  else match self_tags p with
       | _ :: _ => mret "Background does not support tags."
       | [] => mret "Background should not be used here."
       end.

Definition diagnose_scenario_usage_error : M string :=
  p ← get;
  match self_scenario_container p with
  | None => mret "Scenario may not occur before Feature."
  | Some _ => mret "Scenario should not be used here."
  end.

Definition diagnose_scenario_outline_usage_error : M string :=
  p ← get;
  match self_scenario_container p with
  | None => mret "ScenarioOutline may not occur before Feature."
  | Some _ => mret "ScenarioOutline should not be used here."
  end.

(** [Parser.ask_parse_failure_oracle] *)
Definition ask_parse_failure_oracle (line : string) : M (option string) :=
  feature_keyword ← match_keyword "feature" line;
  if known feature_keyword is Some _ then Some <$> diagnose_feature_usage_error
  else
  rule_keyword ← match_keyword "rule" line;
  if known rule_keyword is Some _ then mret (Some diagnose_rule_usage_error)
  else
  background_keyword ← match_keyword "background" line;
  if known background_keyword is Some _
  then Some <$> diagnose_background_usage_error
  else
  scenario_keyword ← match_keyword "scenario" line;
  if known scenario_keyword is Some _ then Some <$> diagnose_scenario_usage_error
  else
  scenario_outline_keyword ← match_keyword "scenario_outline" line;
  if known scenario_outline_keyword is Some _
  then Some <$> diagnose_scenario_outline_usage_error
  else
  p ← get;
  if String.eqb (self_variant p) "feature"
     && (if self_feature p is Some _ then false else true)
  then mret (Some "No feature found.")
  else mret None.

(** [Parser._normalize_step_name] *)
Definition _normalize_step_name (step : Step) : Step :=
  if STRIP_STEPS_WITH_TRAILING_COLON && PyStr.endswith_char (step_name step) ":"
  then step_set_name step (PyStr.remove_last (step_name step))
  else step.

(** [step = self.statement.steps[-1]] followed by the changes [f] to that
    step. *)
Definition update_last_step (f : Step -> Step) : M unit :=
  p ← get;
  statement ← the "steps" (self_statement p);
  o ← deref statement;
  steps ← the "steps" (get_steps o);
  match steps with
  | [] => raise IndexError
  | _ :: _ => update "steps" statement (set_steps (map_last f steps))
  end.

(** [self.statement.steps.append(step)] *)
Definition append_step (step : Step) : M unit :=
  p ← get;
  statement ← the "steps" (self_statement p);
  o ← deref statement;
  steps ← the "steps" (get_steps o);
  update "steps" statement (set_steps (steps ++ [step])).

(** [self.statement.steps], read. *)
Definition statement_steps : M (list Step) :=
  p ← get;
  statement ← the "steps" (self_statement p);
  o ← deref statement;
  the "steps" (get_steps o).

(** The loop of [Parser.parse_tags] over the words of the line. *)
Fixpoint collect_tags (line_number : nat) (file : option string)
    (line : string) (words : list string) : result (list Tag) :=
  match words with
  | [] => Ok []
  | word :: rest =>
      if PyStr.startswith word "@" then
        match collect_tags line_number file line rest with
        | Ok ts =>
            Ok ({| tag_name := PyStr.drop 1 word; tag_line := line_number |}
                :: ts)
        | Raise e => Raise e
        end
      else if PyStr.startswith word "#" then Ok []
      else Raise (ParserError
                    ("tag: " +:+ word +:+ " (line: " +:+ line +:+ ")")
                    line_number file None None)
  end.

(** [Parser.parse_tags].  The ParserError of the first branch is built
    without its line argument, which is a TypeError. *)
Definition parse_tags (line : string) : M (list Tag) :=
  if negb (PyStr.startswith line "@")
  then raise (TypeError "ParserError() missing argument: 'line'")
  else
    p ← get;
    match collect_tags (self_line p) (self_filename p) line (PyStr.split line)
    with
    | Ok ts => mret ts
    | Raise e => raise e
    end.

(** [Parser._select_last_background_step_type] *)
Definition _select_last_background_step_type : M (option string) :=
  p ← get;
  match self_scenario_container p with
  | None => mret None
  | Some container =>
      c ← deref container;
      b ← the "background" (get_background c);
      match b with
      | None => mret None
      | Some b =>
          this_background ← deref b;
          match this_background with
          | OBackground bg =>
              this_background_steps ←
                match background_steps bg with
                | [] => inherited_steps bg
                | _ :: _ => mret (background_steps bg)
                end;
              mret (step_type <$> last this_background_steps)
          | _ => raise (AttributeError "steps")
          end
      end
  end.

(** The body of the loops of [Parser.parse_step], entered once the line
    starts with the alias [kw] of [step_type]. *)
Definition make_step (step_type kw line : string) : M Step :=
  let step_text_after_keyword :=
    PyStr.strip (PyStr.drop (String.length kw) line) in
  p ← get;
  step_type ←
    match (if PyStr.startswith kw "*" then known (self_last_step_type p)
           else None) with
    | Some last => mret last
    | None =>
        if String.eqb step_type "and" || String.eqb step_type "but" then
          match known (self_last_step_type p) with
          | Some last => mret last
          | None =>
              last ← _select_last_background_step_type;
              modify (set_last_step_type last);;
              match known last with
              | Some last => mret last
              | None =>
                  raise (ParserError
                           (PyStr.upper step_type +:+
                            "-STEP REQUIRES: An previous Given/When/Then step.")
                           (self_line p) (self_filename p) None None)
              end
          end
        else
          modify (set_last_step_type (Some step_type));;
          mret step_type
    end;
  mret (new_step (self_filename p) (self_line p) (PyStr.rstrip kw) step_type
          step_text_after_keyword).

Definition line_starts_with_keyword (line kw : string) : bool :=
  PyStr.startswith line kw
  || PyStr.startswith (PyStr.lower line) (PyStr.lower kw).

(** The inner loop of [Parser.parse_step]: [for kw in
    self.keywords[step_type]]. *)
Fixpoint parse_step_aliases (step_type line : string) (kws : list string)
  : M (option Step) :=
  match kws with
  | [] => mret None
  | kw :: rest =>
      if line_starts_with_keyword line kw
      then Some <$> make_step step_type kw line
      else parse_step_aliases step_type line rest
  end.

(** The outer loop: [for step_type in (...)]. *)
Fixpoint parse_step_types (line : string) (step_types : list string)
  : M (option Step) :=
  match step_types with
  | [] => mret None
  | step_type :: rest =>
      kws ← keywords_at step_type;
      step ← parse_step_aliases step_type line kws;
      match step with
      | Some step => mret (Some step)
      | None => parse_step_types line rest
      end
  end.

(** [Parser.parse_step] *)
Definition parse_step (line : string) : M (option Step) :=
  parse_step_types line ["given"; "when"; "then"; "and"; "but"].

Definition extend_tags (ts : list Tag) : M unit :=
  modify (fun p => set_tags (self_tags p ++ ts) p).

(** [Parser.action_initial] *)
Definition action_initial (line : string) : M bool :=
  let line := PyStr.strip line in
  if PyStr.startswith line "@" then
    ts ← parse_tags line;
    extend_tags ts;;
    mret true
  else
    feature_keyword ← match_keyword "feature" line;
    match known feature_keyword with
    | Some feature_keyword =>
        _build_feature feature_keyword line;;
        modify (set_state FEATURE);;
        mret true
    | None => mret false
    end.

(** [Parser.subaction_detect_taggable_statement] *)
Definition subaction_detect_taggable_statement (line : string) : M bool :=
  if PyStr.startswith line "@" then
    ts ← parse_tags line;
    extend_tags ts;;
    modify (set_state TAGGABLE_STATEMENT);;
    mret true
  else
  rule_keyword ← match_keyword "rule" line;
  if known rule_keyword is Some rule_keyword then
    _build_rule_statement rule_keyword line;;
    modify (set_state RULE);;
    mret true
  else
  scenario_keyword ← match_keyword "scenario" line;
  if known scenario_keyword is Some scenario_keyword then
    _build_scenario_statement scenario_keyword line;;
    modify (set_state SCENARIO);;
    mret true
  else
  template_keyword ← match_keyword "scenario_outline" line;
  if known template_keyword is Some template_keyword then
    _build_scenario_outline_statement template_keyword line;;
    modify (set_state SCENARIO);;
    mret true
  else
  examples_keyword ← match_keyword "examples" line;
  if known examples_keyword is Some examples_keyword then
    _build_examples examples_keyword line;;
    modify (set_state TABLE);;
    mret true
  else mret false.

(** [self.feature.description.append(line)] and the like. *)
Definition describe (attribute : string) (target : option ref)
    (line : string) : M unit :=
  r ← the attribute target;
  update attribute r (append_description line).

(** [Parser.action_feature] *)
Definition action_feature (line : string) : M bool :=
  let line := PyStr.strip line in
  detected ← subaction_detect_taggable_statement line;
  if detected : bool then mret true
  else
    background_keyword ← match_keyword "background" line;
    match known background_keyword with
    | Some background_keyword =>
        _build_background_statement background_keyword line;;
        modify (set_state BACKGROUND);;
        mret true
    | None =>
        p ← get;
        describe "description" (self_feature p) line;;
        mret true
    end.

(** [Parser.action_taggable_statement] *)
Definition action_taggable_statement (line : string) : M bool :=
  let line := PyStr.strip line in
  detected ← subaction_detect_taggable_statement line;
  if detected : bool then mret true else mret false.

(** [Parser.action_rule] *)
Definition action_rule (line : string) : M bool :=
  let line := PyStr.strip line in
  detected ← subaction_detect_taggable_statement line;
  if detected : bool then mret true
  else
    background_keyword ← match_keyword "background" line;
    match known background_keyword with
    | Some background_keyword =>
        _build_background_statement background_keyword line;;
        modify (set_state BACKGROUND);;
        mret true
    | None =>
        p ← get;
        describe "description" (self_rule p) line;;
        mret true
    end.

(** [Parser.action_scenario] *)
Definition action_scenario (line : string) : M bool :=
  modify (set_last_step_type None);;
  let line := PyStr.strip line in
  step ← parse_step line;
  match step with
  | Some step =>
      modify (set_state STEPS);;
      append_step step;;
      mret true
  | None =>
      detected ← subaction_detect_taggable_statement line;
      if detected : bool then mret true
      else
        p ← get;
        describe "description" (self_statement p) line;;
        mret true
  end.

(** [Parser.action_background] *)
Definition action_background (line : string) : M bool :=
  action_scenario line.

(** The cells of a table row: [line[1:-1]] is cut at the pipes that are not
    escaped, and each cell is unescaped and stripped. *)
Definition row_cells (line : string) : list string :=
  map (fun cell => PyStr.strip (PyStr.unescape_pipes cell))
      (PyStr.split_unescaped_pipes false "" (PyStr.slice_1_m1 line)).

(** The branch of [Parser.action_table] for a line that starts with a pipe:
    one row of the table.  [line] is stripped already.  A row that does
    not match the pattern of a row is logged with [self.feature.filename]. *)
Definition action_table_row (line : string) : M bool :=
  p ← get;
  (if negb (PyStr.matches_row_pattern line)
   then _ ← the "filename" (self_feature p); mret tt
   else mret tt);;
  let cells := row_cells line in
  match self_table p with
  | None =>
      modify (set_table (Some (new_table cells (self_line p))));;
      mret true
  | Some t =>
      if negb (length cells =? length (headings t))
      then raise (ParserError "Malformed table" (self_line p)
                    (self_filename p) None None)
      else modify (set_table (Some (add_row t cells (self_line p))));;
           mret true
  end.

Definition is_fence (stripped : string) : bool :=
  PyStr.startswith stripped (String (ascii_of_nat 34)
     (String (ascii_of_nat 34) (String (ascii_of_nat 34) "")))
  || PyStr.startswith stripped "'''".

(** [Parser.action_steps].  Its call of [action_table] passes a stripped
    line that starts with a pipe, for which [action_table] is
    [action_table_row] (lemma [action_table_on_row]). *)
Definition action_steps (line : string) : M bool :=
  let stripped := PyStr.lstrip line in
  if is_fence stripped then
    steps ← statement_steps;
    p ← get;
    match steps with
    | [] => raise (ParserError "Multi-line text before any step"
                     (self_line p) (self_filename p) None None)
    | _ :: _ =>
        modify (set_state MULTILINE_TEXT);;
        modify (set_multiline_start (Some (self_line p)));;
        modify (set_multiline_terminator (Some (PyStr.take 3 stripped)));;
        leading ←
          match stripped with
          | String c _ =>
              if PyStr.index line c is Some i then mret i
              else raise ValueError
          | EmptyString => raise IndexError
          end;
        modify (set_multiline_leading (Some leading));;
        mret true
    end
  else
    let line := PyStr.strip line in
    step ← parse_step line;
    match step with
    | Some step =>
        append_step step;;
        mret true
    | None =>
        detected ← subaction_detect_taggable_statement line;
        if detected : bool then mret true
        else if PyStr.startswith line "|" then
          steps ← statement_steps;
          p ← get;
          match steps with
          | [] => raise (ParserError "TABLE-START without step detected"
                           (self_line p) (self_filename p) None None)
          | _ :: _ =>
              modify (set_state TABLE);;
              action_table_row line
          end
        else mret false
    end.

(** [Parser.action_multiline_text].  A slice bound that is [None] keeps
    the whole line. *)
Definition action_multiline_text (line : string) : M bool :=
  p ← get;
  terminator ←
    match self_multiline_terminator p with
    | Some t => mret t
    | None => raise (TypeError "startswith first arg must be str")
    end;
  if PyStr.startswith (PyStr.strip line) terminator then
    let text := PyStr.join (String PyStr.LF "") (self_lines p) in
    update_last_step (fun this_step =>
      _normalize_step_name
        (step_set_text this_step
           {| text_value := text; content_type := "text/plain";
              text_line := self_multiline_start p |}));;
    modify (set_lines []);;
    modify (set_multiline_terminator None);;
    modify (set_state STEPS);;
    mret true
  else
    let text_line :=
      PyStr.rstrip (match self_multiline_leading p with
                    | Some n => PyStr.drop n line
                    | None => line
                    end) in
    modify (fun p => set_lines (self_lines p ++ [text_line]) p);;
    let removed_line_prefix :=
      match self_multiline_leading p with
      | Some n => PyStr.take n line
      | None => line
      end in
    if PyStr.truthy (PyStr.strip removed_line_prefix)
    then raise (ParserError
                  ("BAD-INDENT in multiline text: Line '" +:+ line +:+
                   "' would strip leading '" +:+ removed_line_prefix +:+ "'")
                  (self_line p) (self_filename p) None None)
    else mret true.

(** [Parser.action_table] *)
Definition action_table (line : string) : M bool :=
  let line := PyStr.strip line in
  if negb (PyStr.startswith line "|") then
    p ← get;
    (match self_examples p with
     | Some examples =>
         update "table" examples (set_examples_table (self_table p));;
         modify (set_examples None)
     | None =>
         update_last_step (fun step =>
           _normalize_step_name (step_set_table step (self_table p)))
     end);;
    modify (set_table None);;
    modify (set_state STEPS);;
    action_steps line
  else action_table_row line.

(** [getattr(self, "action_" + state_name, None)]: every state but STEP has
    its method. *)
Definition action_of (s : State) : option (string -> M bool) :=
  match s with
  | INITIAL => Some action_initial
  | FEATURE => Some action_feature
  | RULE => Some action_rule
  | BACKGROUND => Some action_background
  | SCENARIO => Some action_scenario
  | TAGGABLE_STATEMENT => Some action_taggable_statement
  | STEPS => Some action_steps
  | STEP => None
  | MULTILINE_TEXT => Some action_multiline_text
  | TABLE => Some action_table
  end.

(** The language named by the body of a comment, [line] being the comment
    without its [#], stripped. *)
Definition language_comment (line : string) : option string :=
  if PyStr.startswith (PyStr.lower (PyStr.lstrip line)) "language:"
  then Some (PyStr.strip (PyStr.drop 9 line))
  else None.

(** [Parser.action] *)
Definition action (line : string) : M unit :=
  p ← get;
  if PyStr.startswith (PyStr.strip line) "#"
     && negb (bool_decide (self_state p = MULTILINE_TEXT))
  then
    if negb (bool_decide (self_state p = INITIAL))
       || (if self_tags p is [] then false else true)
       || negb (String.eqb (self_variant p) "feature")
    then mret tt
    else
      let line := PyStr.strip (PyStr.drop 1 (PyStr.strip line)) in
      match language_comment line with
      | Some language =>
          modify (set_language (Some language));;
          k ← languages_at language;
          modify (set_keywords (Some k))
      | None => mret tt
      end
  else
    match action_of (self_state p) with
    | None =>
        raise (ParserError
                 ("Parser in unknown state State." +:+
                  PyStr.upper (state_name (self_state p)) +:+ ";")
                 (self_line p) (self_filename p) (Some (PyStr.strip line))
                 None)
    | Some func =>
        accepted ← func line;
        if accepted : bool then mret tt
        else
          let line := PyStr.strip line in
          p ← get;
          let msg := String PyStr.LF "Parser failure in state=" +:+
                     state_name (self_state p) in
          reason ← ask_parse_failure_oracle line;
          raise (ParserError msg (self_line p) (self_filename p) (Some line)
                   reason)
    end.

(** The loop [for line in text.splitlines()] of [_parse_loop]. *)
Fixpoint feed (text_lines : list string) : M unit :=
  match text_lines with
  | [] => mret tt
  | line :: rest =>
      modify (fun p => set_line (self_line p + 1) p);;
      p ← get;
      (if PyStr.is_empty (PyStr.strip line)
          && negb (bool_decide (self_state p = MULTILINE_TEXT))
       then mret tt
       else action line);;
      feed rest
  end.

(** The end of the text: an open table is closed. *)
Definition close_table : M unit :=
  p ← get;
  match self_table p with
  | Some _ => _ ← action_table ""; mret tt
  | None => mret tt
  end.

(** [Parser._parse_loop] *)
Definition _parse_loop (text : string) (initial_state : option State)
    (filename : option string) : M unit :=
  reset filename;;
  (match initial_state with
   | Some s => modify (set_state s)
   | None => mret tt
   end);;
  p ← get;
  (if bool_decide (self_state p = STEPS) then
     aliases ← keywords_at "scenario";
     match aliases with
     | keyword :: _ => _build_scenario_statement keyword (keyword +:+ ":")
     | [] => raise IndexError
     end
   else mret tt);;
  feed (PyStr.splitlines text);;
  close_table.

(** [Parser.parse] *)
Definition parse (text : string) (filename : option string)
  : M (option ref) :=
  _parse_loop text None filename;;
  p ← get;
  match self_feature p with
  | Some feature =>
      update "parser" feature (set_parser (self_id p));;
      mret (Some feature)
  | None => mret None
  end.

(** [Parser.parse_rule] *)
Definition parse_rule (text : string) (filename : option string)
  : M (option ref) :=
  _parse_loop text (Some RULE) filename;;
  p ← get;
  mret (self_rule p).

(** [Parser.parse_scenario] *)
Definition parse_scenario (text : string) (filename : option string)
  : M (option ref) :=
  _parse_loop text (Some SCENARIO) filename;;
  p ← get;
  mret (self_statement p).

(** [Parser.parse_steps]: the text is read once by the loop written out
    here and once more by [_parse_loop]. *)
Definition parse_steps (text : string) (filename : option string)
  : M (list Step) :=
  p ← get;
  (if truthy_opt (self_language p) then mret tt
   else modify (set_language (Some DEFAULT_LANGUAGE)));;
  reset None;;
  modify (set_filename filename);;
  statement ← new (OScenario
    {| scenario_header := {| Model.filename := filename; line := 0;
                             keyword := "scenario"; name := "" |};
       scenario_tags := []; scenario_description := [];
       scenario_steps := [] |});
  modify (set_statement (Some statement));;
  modify (set_state STEPS);;
  feed (PyStr.splitlines text);;
  close_table;;
  _parse_loop text (Some STEPS) filename;;
  statement_steps.

End WithEnvironment.

(** A method call on an instance: the value returned and the instance
    afterwards, or the exception. *)
Definition run {A} (m : M A) (p : Parser) : result (A * Parser) := m p.

End Parser.

(** ** The functions of the module *)

(** [e.filename = filename] in the handlers of the parse functions. *)
Definition with_filename {A} (filename : option string) (r : result A)
  : result A :=
  match r with
  | Raise (ParserError message line _ line_text reason) =>
      Raise (ParserError message line filename line_text reason)
  | _ => r
  end.

(** [parse_feature]: the whole-file entry point.  [id] is the identity of
    the [Parser] instance the call creates. *)
Definition parse_feature (languages : gmap string Parser.Keywords)
    (strip_colon : bool) (id : nat) (text : string)
    (language filename : option string)
  : result (option Model.ref * Parser.Parser) :=
  with_filename filename
    match Parser.__init__ languages id language None with
    | Ok parser => Parser.parse languages strip_colon text filename parser
    | Raise e => Raise e
    end.

(** [parse_tags] of the module. *)
Definition parse_tags (languages : gmap string Parser.Keywords)
    (id : nat) (text : string) : result (list Model.Tag) :=
  if PyStr.is_empty text then Ok []
  else
    match Parser.__init__ languages id None (Some "tags") with
    | Ok parser =>
        match Parser.parse_tags text parser with
        | Ok (ts, _) => Ok ts
        | Raise e => Raise e
        end
    | Raise e => Raise e
    end.

(** [parse_rule] of the module. *)
Definition parse_rule (languages : gmap string Parser.Keywords)
    (strip_colon : bool) (id : nat) (text : string)
    (language filename : option string)
  : result (option Model.ref * Parser.Parser) :=
  with_filename filename
    match Parser.__init__ languages id language (Some "rule") with
    | Ok parser => Parser.parse_rule languages strip_colon text filename parser
    | Raise e => Raise e
    end.

(** [parse_scenario] of the module. *)
Definition parse_scenario (languages : gmap string Parser.Keywords)
    (strip_colon : bool) (id : nat) (text : string)
    (language filename : option string)
  : result (option Model.ref * Parser.Parser) :=
  with_filename filename
    match Parser.__init__ languages id language (Some "scenario") with
    | Ok parser =>
        Parser.parse_scenario languages strip_colon text filename parser
    | Raise e => Raise e
    end.

(** [parse_steps] of the module. *)
Definition parse_steps (languages : gmap string Parser.Keywords)
    (strip_colon : bool) (id : nat) (text : string)
    (language filename : option string)
  : result (list Model.Step * Parser.Parser) :=
  with_filename filename
    match Parser.__init__ languages id language (Some "steps") with
    | Ok parser => Parser.parse_steps languages strip_colon text filename parser
    | Raise e => Raise e
    end.

(** [parse_step] of the module.  Its ParserError is built without the line
    argument, which is a TypeError, raised outside the handler that sets
    the file name. *)
Definition parse_step (languages : gmap string Parser.Keywords)
    (strip_colon : bool) (id : nat) (text : string)
    (language filename : option string)
  : result (Model.Step * Parser.Parser) :=
  match parse_steps languages strip_colon id text language filename with
  | Ok ([step], p) => Ok (step, p)
  | Ok (_, _) => Raise (TypeError "ParserError() missing argument: 'line'")
  | Raise e => Raise e
  end.

(** The TypeError of a [ParserError] that is built without its line. *)
Definition missing_line : exn :=
  TypeError "ParserError() missing argument: 'line'".

(** ** A keyword table to run the parser on

    Modelled from the spec: the English entry of [i18n.languages] in
    [behave/i18n.py], with the keywords the spec names: the block keywords
    are matched with a colon, the step keywords carry their trailing space
    and the bullet [*] is an alias of every step type. *)
Definition english : Parser.Keywords :=
  {[ "feature" := ["Feature"; "Business Need"; "Ability"];
     "rule" := ["Rule"];
     "background" := ["Background"];
     "scenario" := ["Example"; "Scenario"];
     "scenario_outline" := ["Scenario Outline"; "Scenario Template"];
     "examples" := ["Examples"; "Scenarios"];
     "given" := ["* "; "Given "];
     "when" := ["* "; "When "];
     "then" := ["* "; "Then "];
     "and" := ["* "; "And "];
     "but" := ["* "; "But "] ]}.

Definition sample_languages : gmap string Parser.Keywords :=
  {[ "en" := english ]}.

(** Text is written with [\n] standing for LF. *)
Fixpoint nl (s : string) : string :=
  match s with
  | String "\" (String "n" s') => String PyStr.LF (nl s')
  | String c s' => String c (nl s')
  | EmptyString => EmptyString
  end.

(** The instance after [_parse_loop] has read the lines of [text] in a
    whole-file parse of the sample table (the blank instance if that
    raises). *)
Definition after_lines (text : string) : Parser.Parser :=
  match Parser.__init__ sample_languages 0 None None with
  | Ok p =>
      match (Parser.reset sample_languages None;;
             Parser.feed sample_languages false (PyStr.splitlines text)) p
      with
      | Ok (_, p') => p'
      | Raise _ => Parser.blank 0 None "feature"
      end
  | Raise _ => Parser.blank 0 None "feature"
  end.

(** The texts the properties are run on. *)
Definition in_docstring : Parser.Parser :=
  Eval vm_compute in
    after_lines (nl "Feature: F\n Scenario: S\n  Given x\n    '''\n    hello\n").


Definition in_bare_scenario : Parser.Parser :=
  Eval vm_compute in
    Parser.set_last_step_type None
      (after_lines (nl "Feature: F\n Scenario: S\n")).

(** After the first step of a scenario. *)
Definition after_when_step : Parser.Parser :=
  Eval vm_compute in
    after_lines (nl "Feature: F\n Scenario: S\n  When a\n").

Definition bullet_text : string := nl "Feature: F\nScenario: A\n* x\n".

Definition two_features_text : string := nl "Feature: A\nFeature: B\n".

Definition feature_after_steps_text : string :=
  nl "Feature: A\nScenario: S\nGiven x\nFeature: B\n".




Definition no_feature_text : string := nl "\n# only a comment\n@wip @slow\n".

Definition language_comment_text : string := nl "# language: xx\n".

Definition after_given_step : Parser.Parser :=
  Eval vm_compute in
    Parser.set_line 4 (after_lines (nl "Feature: A\nScenario: S\nGiven x\n")).

Definition outline_text : string :=
  nl "Feature: F\n Scenario Outline: S\n  Given <n>\n  Examples:\n   | n |\n   | 1 |\n   | 2 |\n".

(** Texts and instances for the further properties. *)
Definition comments_only_text : string := nl "# nothing here\n\n   \n".

(** The instance of [parse_steps] after its scenario got a first step. *)
Definition after_lone_step : Parser.Parser :=
  Eval vm_compute in
  match Parser.__init__ sample_languages 0 None (Some "steps") with
  | Ok p =>
      match Parser._parse_loop sample_languages false "Given a table"
              (Some Parser.STEPS) None p with
      | Ok (_, p') => p'
      | Raise _ => p
      end
  | Raise _ => Parser.blank 0 None "steps"
  end.

Definition tags_text : string := nl "@a @b\n  @c # rest @d\n@e".

Definition free_text_sample : string := nl "# a rule\n\nAll users are named\n".

(** A text that ends in a table, and the instances of its parse: new, and
    after its last line. *)
Definition open_table_text : string :=
  nl "Feature: F\n Scenario: S\n  Given x\n    | a | b |\n    | 1 | 2 |".

Definition new_instance : Parser.Parser :=
  Eval vm_compute in
  match Parser.__init__ sample_languages 0 None None with
  | Ok p => p
  | Raise _ => Parser.blank 0 None "feature"
  end.

Definition in_open_table : Parser.Parser :=
  Eval vm_compute in after_lines open_table_text.

(** * Properties

    ** Reasoning about methods

    [hoare P m Q E]: run from an instance that satisfies [P], the method [m]
    either returns a value and an instance that satisfy [Q], or raises an
    exception that satisfies [E]. *)
Module Hoare.
Import Model Parser.

Definition hoare {A} (P : Parser -> Prop) (m : M A)
    (Q : A -> Parser -> Prop) (E : exn -> Prop) : Prop :=
  forall p, P p ->
    match m p with
    | Ok (a, p') => Q a p'
    | Raise e => E e
    end.

End Hoare.

(** ** Tables are rectangular; reasons come from the oracle only *)
Module Tables.
Import Model Parser Hoare.

Definition rectangular (t : Table) : Prop :=
  Forall (fun r => length (cells r) = length (headings t)) (rows t).

(** The tables an object of the model holds. *)
Definition tables_of_steps (steps : list Step) : list Table :=
  omap step_table steps.

Definition tables_of (o : obj) : list Table :=
  match o with
  | OBackground b => tables_of_steps (background_steps b)
  | OScenario s | OScenarioOutline s _ => tables_of_steps (scenario_steps s)
  | OExamples e => option_list (examples_table e)
  | OFeature _ | ORule _ => []
  end.

Definition table_ok (t : option Table) : Prop :=
  match t with Some t => rectangular t | None => True end.

(** The semantic types of a step. *)
Definition semantic_types : list string := ["given"; "when"; "then"].

(** A step is sound: its table is rectangular and its type is a semantic
    type. *)
Definition step_ok (s : Step) : Prop :=
  table_ok (step_table s) /\ step_type s ∈ semantic_types.

Definition obj_ok (o : obj) : Prop :=
  match get_steps o with
  | Some steps => Forall step_ok steps
  | None => Forall rectangular (tables_of o)
  end.

Definition type_ok (t : option string) : Prop :=
  match t with Some t => t ∈ semantic_types | None => True end.

(** The objects the parser has built are sound and the table it is reading
    is rectangular. *)
Definition tables_ok (p : Parser) : Prop :=
  Forall obj_ok (store p) /\ table_ok (self_table p).

(** Only the failure of [action] on a rejected line carries a reason. *)
Definition no_reason (e : exn) : Prop :=
  match e with
  | ParserError _ _ _ _ (Some _) => False
  | _ => True
  end.

(** The invariant of a parse: the objects are sound, the last step type is
    a semantic type and the instance is the one of identity [id]. *)
Definition inv (id : nat) (p : Parser) : Prop :=
  tables_ok p /\ type_ok (self_last_step_type p) /\ self_id p = id.

(** A method keeps the invariant and returns a value that satisfies [V]. *)
Definition keeps (id : nat) {A} (m : M A) (V : A -> Prop) : Prop :=
  hoare (inv id) m (fun a p => inv id p /\ V a) no_reason.

Definition any {A} : A -> Prop := fun _ => True.

Definition runs_ok (id : nat) {A} (m : M A) : Prop :=
  hoare (inv id) m (fun _ => inv id) (fun _ => True).

(** The handler of the state is called with the line: the line is neither
    skipped as blank nor taken as a comment. *)
Definition dispatched (p : Parser) (line : string) : Prop :=
  PyStr.is_empty (PyStr.strip line)
    && negb (bool_decide (self_state p = MULTILINE_TEXT)) = false
  /\ PyStr.startswith (PyStr.strip line) "#"
       && negb (bool_decide (self_state p = MULTILINE_TEXT)) = false.

(** Some line of the text is rejected by the handler of the state it is
    read in: the handler returns False. *)
Inductive rejected (languages : gmap string Keywords) (strip_colon : bool)
  : list string -> Parser -> Prop :=
| rejected_here line rest p func p' :
    dispatched (set_line (self_line p + 1) p) line ->
    action_of languages strip_colon (self_state p) = Some func ->
    func line (set_line (self_line p + 1) p) = Ok (false, p') ->
    rejected languages strip_colon (line :: rest) p
| rejected_later line rest p p' :
    feed languages strip_colon [line] p = Ok (tt, p') ->
    rejected languages strip_colon rest p' ->
    rejected languages strip_colon (line :: rest) p.

End Tables.

(** ** The words of the claims *)

(** The warning for a row that does not match the pattern of a row reads
    the file name of the feature: the row matches or a feature exists. *)
Definition loggable (p : Parser.Parser) (line : string) : Prop :=
  PyStr.matches_row_pattern line = true \/ is_Some (Parser.self_feature p).

(** The tag parser in the words of its description: for each word in order,
    a word that starts with [#] ends the line, a word that starts with [@]
    gives its name, and any other word is a bad tag ([None]). *)
Fixpoint tag_words (words : list string) : option (list string) :=
  match words with
  | [] => Some []
  | word :: rest =>
      if PyStr.startswith word "#" then Some []
      else if PyStr.startswith word "@"
           then cons (PyStr.drop 1 word) <$> tag_words rest
           else None
  end.

Definition tags_at (line_number : nat) (names : list string)
  : list Model.Tag :=
  map (fun n => {| Model.tag_name := n; Model.tag_line := line_number |})
      names.

(** All the characters of [s] are whitespace. *)
Fixpoint all_space (s : string) : bool :=
  match s with
  | String c s' => PyStr.isspace c && all_space s'
  | EmptyString => true
  end.

Definition step_types : list string := ["given"; "when"; "then"; "and"; "but"].

(** The step type and alias a line is matched with: the first alias, in the
    order of the step types and of their aliases, that the line starts
    with. *)
Fixpoint matched_keyword (k : Parser.Keywords) (line : string)
    (types : list string) : option (string * string) :=
  match types with
  | [] => None
  | ty :: rest =>
      match k !! ty with
      | None => None
      | Some kws =>
          match List.find (Parser.line_starts_with_keyword line) kws with
          | Some kw => Some (ty, kw)
          | None => matched_keyword k line rest
          end
      end
  end.

(** [background.inherited_steps], read off the store. *)
Definition inherited_steps_of (st : list Model.obj) (bg : Model.Background)
  : list Model.Step :=
  match Model.background_parent bg with
  | None => []
  | Some parent =>
      match st !! parent with
      | Some (Model.ORule r) =>
          match Model.rule_parent r with
          | None => []
          | Some feature =>
              match st !! feature with
              | Some f =>
                  match Model.get_background f with
                  | Some (Some fb) =>
                      match st !! fb with
                      | Some o => default [] (Model.get_steps o)
                      | None => []
                      end
                  | _ => []
                  end
              | None => []
              end
          end
      | _ => []
      end
  end.

(** The steps of the applicable Background: its own steps, or the steps it
    inherits when it has none. *)
Definition applicable_steps (st : list Model.obj) (bg : Model.Background)
  : list Model.Step :=
  match Model.background_steps bg with
  | [] => inherited_steps_of st bg
  | _ :: _ => Model.background_steps bg
  end.

(** The Background of the current scenario container. *)
Definition container_background (p : Parser.Parser)
  : option Model.Background :=
  match Parser.self_scenario_container p with
  | None => None
  | Some c =>
      match Parser.store p !! c with
      | Some oc =>
          match Model.get_background oc with
          | Some (Some b) =>
              match Parser.store p !! b with
              | Some (Model.OBackground bg) => Some bg
              | _ => None
              end
          | _ => None
          end
      | None => None
      end
  end.

Definition last_background_step_type (p : Parser.Parser) : option string :=
  match container_background p with
  | Some bg => Model.step_type <$> last (applicable_steps (Parser.store p) bg)
  | None => None
  end.

(** The type of the nearest typed predecessor of a step: the last step type
    of the block if there is one, the type of the last step of the
    applicable Background otherwise. *)
Definition nearest_typed_predecessor (p : Parser.Parser) : option string :=
  match Parser.known (Parser.self_last_step_type p) with
  | Some last => Some last
  | None => Parser.known (last_background_step_type p)
  end.

(** The references from the container to its Background, and from there to
    the inherited steps, are references to objects of the store of the
    classes expected: what holds of any Python state. *)
Definition inherited_readable (st : list Model.obj) (bg : Model.Background)
  : Prop :=
  match Model.background_parent bg with
  | None => True
  | Some parent =>
      match st !! parent with
      | Some (Model.ORule r) =>
          match Model.rule_parent r with
          | None => True
          | Some feature =>
              match st !! feature with
              | Some f =>
                  match Model.get_background f with
                  | Some (Some fb) => is_Some (st !! fb)
                  | _ => True
                  end
              | None => False
              end
          end
      | Some _ => True
      | None => False
      end
  end.

Definition background_readable (p : Parser.Parser) : Prop :=
  match Parser.self_scenario_container p with
  | None => True
  | Some c =>
      match Parser.store p !! c with
      | Some oc =>
          match Model.get_background oc with
          | Some (Some b) =>
              match Parser.store p !! b with
              | Some (Model.OBackground bg) =>
                  inherited_readable (Parser.store p) bg
              | _ => False
              end
          | Some None => True
          | None => False
          end
      | None => False
      end
  end.

(** The step [parse_step] builds from the alias [kw] with the type [ty]. *)
Definition step_of (p : Parser.Parser) (kw ty line : string) : Model.Step :=
  Model.new_step (Parser.self_filename p) (Parser.self_line p)
    (PyStr.rstrip kw) ty (PyStr.strip (PyStr.drop (String.length kw) line)).

(** The line starts with an alias of the feature keyword of [k], followed
    by a colon. *)
Definition feature_line (k : Parser.Keywords) (line : string) : Prop :=
  exists aliases alias,
    k !! "feature" = Some aliases
    /\ List.find (fun alias => PyStr.startswith line (alias +:+ ":")) aliases
       = Some alias
    /\ PyStr.truthy alias = true.

(** The description of the feature the parser holds. *)
Definition description_of (p : Parser.Parser) (f : Model.ref)
  : option (list string) :=
  match Parser.store p !! f with
  | Some (Model.OFeature feature) => Some (Model.feature_description feature)
  | _ => None
  end.

Definition multiple_features : string :=
  "Multiple features in one file are not supported.".



(** A line that the initial state takes without building a feature: a blank
    line, a comment whose language, if it names one, is supported, or a
    line of tags. *)
Definition harmless (languages : gmap string Parser.Keywords)
    (line : string) : Prop :=
  PyStr.is_empty (PyStr.strip line) = true
  \/ (PyStr.startswith (PyStr.strip line) "#" = true
      /\ match Parser.language_comment
                 (PyStr.strip (PyStr.drop 1 (PyStr.strip line))) with
         | Some language => is_Some (languages !! language)
         | None => True
         end)
  \/ (PyStr.startswith (PyStr.strip line) "@" = true
      /\ is_Some (tag_words (PyStr.split (PyStr.strip line)))).

(** The parser waits for the feature. *)
Definition idle (p : Parser.Parser) : Prop :=
  Parser.self_state p = Parser.INITIAL
  /\ Parser.self_feature p = None
  /\ Parser.self_table p = None
  /\ Parser.self_variant p = "feature".

Definition no_feature_found : string := "No feature found.".

(** ** The words of the further properties *)

(** A line that the loop over the lines passes over once a statement is
    open: a blank line or a comment. *)
Definition skippable (line : string) : Prop :=
  PyStr.is_empty (PyStr.strip line) = true
  \/ PyStr.startswith (PyStr.strip line) "#" = true.

(** The instance [Parser.reset] leaves, [k] being the keywords of the
    language of the instance. *)
Definition after_reset (k : Parser.Keywords) (filename : option string)
    (p : Parser.Parser) : Parser.Parser :=
  {| Parser.self_id := Parser.self_id p;
     Parser.self_language :=
       Some (Parser.or_default (Parser.self_language p));
     Parser.self_variant := Parser.self_variant p;
     Parser.self_keywords := Some k;
     Parser.self_state := Parser.INITIAL;
     Parser.self_line := 0;
     Parser.self_last_step_type := None;
     Parser.self_multiline_start := None;
     Parser.self_multiline_leading := None;
     Parser.self_multiline_terminator := None;
     Parser.self_filename := filename;
     Parser.self_scenario_container := None;
     Parser.self_feature := None;
     Parser.self_rule := None;
     Parser.self_parent := None;
     Parser.self_statement := None;
     Parser.self_tags := [];
     Parser.self_lines := [];
     Parser.self_table := None;
     Parser.self_examples := None;
     Parser.store := Parser.store p |}.

(** No alias of [concept] in [k], followed by a colon, starts the line. *)
Definition no_keyword (k : Parser.Keywords) (line concept : string) : Prop :=
  exists aliases,
    k !! concept = Some aliases
    /\ List.find (fun alias => PyStr.startswith line (alias +:+ ":")) aliases
       = None.

(** No alias of the step type [ty] starts the line. *)
Definition no_step_keyword (k : Parser.Keywords) (line ty : string) : Prop :=
  exists aliases,
    k !! ty = Some aliases
    /\ List.find (Parser.line_starts_with_keyword line) aliases = None.

(** Free text: a line that is neither skipped nor a line of tags and that
    starts with none of the block keywords of [k]. *)
Definition free_text (k : Parser.Keywords) (line : string) : Prop :=
  PyStr.is_empty (PyStr.strip line) = false
  /\ PyStr.startswith (PyStr.strip line) "#" = false
  /\ PyStr.startswith (PyStr.strip line) "@" = false
  /\ Forall (no_keyword k (PyStr.strip line))
       ["rule"; "scenario"; "scenario_outline"; "examples"; "background"].

(** Two instances that a new parse cannot tell apart: what [reset] keeps. *)
Definition same_after_reset (p q : Parser.Parser) : Prop :=
  Parser.self_id p = Parser.self_id q
  /\ Parser.or_default (Parser.self_language p)
     = Parser.or_default (Parser.self_language q)
  /\ Parser.self_variant p = Parser.self_variant q
  /\ Parser.store p = Parser.store q.

(** No character of [s] is whitespace. *)
Fixpoint no_space (s : string) : bool :=
  match s with
  | String c s' => negb (PyStr.isspace c) && no_space s'
  | EmptyString => true
  end.

(** Two results of [parse_step] that differ in the case of the step name
    at most. *)
Definition same_but_case (r r' : result (option Model.Step * Parser.Parser))
  : Prop :=
  match r, r' with
  | Ok (Some s, q), Ok (Some s', q') =>
      q = q'
      /\ Model.step_type s = Model.step_type s'
      /\ Model.step_keyword s = Model.step_keyword s'
      /\ Model.step_line s = Model.step_line s'
      /\ PyStr.lower (Model.step_name s) = PyStr.lower (Model.step_name s')
  | Ok (None, q), Ok (None, q') => q = q'
  | Raise e, Raise e' => e = e'
  | _, _ => False
  end.

(** Writing a row: every pipe of a cell is escaped with a backslash, the
    cell is padded with one space on each side, and the cells stand
    between pipes: [| a | b |]. *)
Fixpoint escape_then (cell rest : string) : string :=
  match cell with
  | String c cell' =>
      if Ascii.eqb c "|" then String "\" (String "|" (escape_then cell' rest))
      else String c (escape_then cell' rest)
  | EmptyString => rest
  end.

Definition pad_then (cell rest : string) : string :=
  String " " (escape_then cell (String " " rest)).

Fixpoint cells_between_pipes (row : list string) : string :=
  match row with
  | [] => ""
  | [cell] => pad_then cell ""
  | cell :: row' => pad_then cell (String "|" (cells_between_pipes row'))
  end.

Definition render_row (row : list string) : string :=
  String "|" (cells_between_pipes row +:+ "|").

(** A cell as the parser returns it: without whitespace at its ends; the
    rendering above needs it free of backslashes. *)
Definition plain_cell (cell : string) : Prop :=
  PyStr.lstrip cell = cell /\ PyStr.rstrip cell = cell
  /\ PyStr.contains cell "\" = false.

(** ** Failures that are reported

    A whole-file parse reads references it has made itself and attributes
    of objects it has built itself: the classes of the objects the parser
    attributes name, and the state the parser is in, tell that these reads
    succeed. *)
Module Sound.
Import Model Parser.

(** The concepts a keyword table has to know. *)
Definition concepts : list string :=
  ["feature"; "rule"; "background"; "scenario"; "scenario_outline";
   "examples"; "given"; "when"; "then"; "and"; "but"].

Definition complete (k : Keywords) : Prop :=
  Forall (fun concept => is_Some (k !! concept)) concepts.

Definition all_complete (languages : gmap string Keywords) : Prop :=
  forall language k, languages !! language = Some k -> complete k.

(** The failures the parser reports by itself. *)
Definition reported (e : exn) : Prop :=
  match e with
  | ParserError _ _ _ _ _ | LanguageNotSupported _ => True
  | _ => False
  end.

(** The class of an object. *)
Inductive kind :=
| KFeature | KRule | KBackground | KScenario | KScenarioOutline | KExamples.

Definition kind_of (o : obj) : kind :=
  match o with
  | OFeature _ => KFeature
  | ORule _ => KRule
  | OBackground _ => KBackground
  | OScenario _ => KScenario
  | OScenarioOutline _ _ => KScenarioOutline
  | OExamples _ => KExamples
  end.

Definition kind_at (st : list obj) (r : ref) : option kind :=
  kind_of <$> st !! r.

(** The number of steps of an object, 0 for one without steps. *)
Definition steps_len (o : obj) : nat := length (default [] (get_steps o)).

(** The classes with steps and a description. *)
Definition with_steps (k : kind) : Prop :=
  k = KBackground \/ k = KScenario \/ k = KScenarioOutline.

Definition container_kind (k : kind) : Prop := k = KFeature \/ k = KRule.

(** The references an object holds and the parser follows lead to objects
    of the store, a Background where one is expected. *)
Definition closed (st : list obj) (o : obj) : Prop :=
  match o with
  | OFeature f =>
      forall b, feature_background f = Some b ->
                kind_at st b = Some KBackground
  | ORule r =>
      (forall b, rule_background r = Some b ->
                 kind_at st b = Some KBackground)
      /\ (forall f, rule_parent r = Some f -> is_Some (kind_at st f))
  | OBackground b =>
      forall c, background_parent b = Some c -> is_Some (kind_at st c)
  | _ => True
  end.

(** The keywords of the instance are a table of [languages], and its
    attributes name objects of the classes expected. *)
Record typed (languages : gmap string Keywords) (p : Parser) : Prop := {
  typed_keywords :
    exists language k,
      languages !! language = Some k /\ self_keywords p = Some k;
  typed_store : Forall (closed (store p)) (store p);
  typed_feature :
    forall f, self_feature p = Some f -> kind_at (store p) f = Some KFeature;
  typed_rule :
    forall r, self_rule p = Some r -> kind_at (store p) r = Some KRule;
  typed_container :
    forall c, self_scenario_container p = Some c ->
              exists k, kind_at (store p) c = Some k /\ container_kind k;
  typed_statement :
    forall s, self_statement p = Some s -> is_Some (kind_at (store p) s);
  typed_examples :
    forall e, self_examples p = Some e ->
              kind_at (store p) e = Some KExamples
}.

Arguments typed_keywords {languages} p _.
Arguments typed_store {languages} p _.
Arguments typed_feature {languages} p _ f _.
Arguments typed_rule {languages} p _ r _.
Arguments typed_container {languages} p _ c _.
Arguments typed_statement {languages} p _ s _.
Arguments typed_examples {languages} p _ e _.

(** The current statement has a step. *)
Definition has_step (p : Parser) : Prop :=
  exists s o,
    self_statement p = Some s /\ store p !! s = Some o /\ 1 <= steps_len o.

(** What the state [s] tells about the attributes. *)
Record fits (s : State) (p : Parser) : Prop := {
  fits_feature :
    s <> INITIAL ->
    is_Some (self_feature p) /\ is_Some (self_scenario_container p);
  fits_rule : s = RULE -> is_Some (self_rule p);
  fits_statement :
    s ∈ [SCENARIO; BACKGROUND; STEPS; MULTILINE_TEXT; TABLE] ->
    exists r k,
      self_statement p = Some r /\ kind_at (store p) r = Some k
      /\ with_steps k;
  fits_multiline :
    s = MULTILINE_TEXT ->
    has_step p /\ is_Some (self_multiline_terminator p);
  fits_table : s = TABLE -> self_examples p = None -> has_step p;
  fits_open_table : is_Some (self_table p) -> s = TABLE
}.

Definition sound (languages : gmap string Keywords) (p : Parser) : Prop :=
  typed languages p /\ fits (self_state p) p.

(** A method that fails reports the failure; [Q] holds of what it
    returns. *)
Definition reports {A} (r : result (A * Parser)) (Q : A -> Parser -> Prop)
  : Prop :=
  match r with
  | Ok (a, p') => Q a p'
  | Raise e => reported e
  end.

(** The store [st'] keeps the objects of [st], with their classes and at
    least their steps. *)
Definition kept (st st' : list obj) : Prop :=
  forall r o, st !! r = Some o ->
    exists o', st' !! r = Some o' /\ kind_of o' = kind_of o
               /\ steps_len o <= steps_len o'.

(** No step keyword of the tables is empty. *)
Definition wordy (languages : gmap string Keywords) : Prop :=
  forall language k ty aliases,
    languages !! language = Some k -> k !! ty = Some aliases ->
    ty ∈ ["given"; "when"; "then"; "and"; "but"] ->
    Forall (fun alias => alias <> "") aliases.

(** What a handler leaves: a sound instance when it takes the line, an
    instance whose attributes are typed when it does not. *)
Definition taken (languages : gmap string Keywords) (accepted : bool)
    (p : Parser) : Prop :=
  if accepted then sound languages p else typed languages p.

End Sound.

(** ** Where a failure is reported

    A [ParserError] names the line the parser is reading and the file of
    the parse; its line text, when it has one, is the line, stripped. *)
Module Located.
Import Model Parser Hoare.

(** The parser reads line [n] of the file [f]. *)
Definition at_line (n : nat) (f : option string) (p : Parser) : Prop :=
  self_line p = n /\ self_filename p = f.

(** A [ParserError] is one of line [n] of the file [f], without a line
    text or with the text [t]. *)
Definition located (n : nat) (f : option string) (t : option string)
    (e : exn) : Prop :=
  match e with
  | ParserError _ line filename line_text _ =>
      line = n /\ filename = f /\ (line_text = None \/ line_text = t)
  | _ => True
  end.

(** A method stays on the line, and the failures it reports are of the
    line. *)
Definition stays (n : nat) (f t : option string) {A} (m : M A) : Prop :=
  hoare (at_line n f) m (fun _ p => at_line n f p) (located n f t).

(** The failure of a parse of the lines [text_lines] that has read [n]
    lines before them. *)
Definition located_in (n : nat) (f : option string)
    (text_lines : list string) (e : exn) : Prop :=
  match e with
  | ParserError _ line filename line_text _ =>
      filename = f
      /\ exists i text_line,
           text_lines !! i = Some text_line /\ line = n + i + 1
           /\ (line_text = None \/ line_text = Some (PyStr.strip text_line))
  | _ => True
  end.

End Located.

(** ** Steps that are written and read

    Steps as a text has them: Given, When and Then followed by a name. *)
Inductive semantic := Given | When | Then.

Definition type_of (s : semantic) : string :=
  match s with Given => "given" | When => "when" | Then => "then" end.

Definition word_of (s : semantic) : string :=
  match s with Given => "Given" | When => "When" | Then => "Then" end.

(** The line of a step. *)
Definition write_step (step : semantic * string) : string :=
  word_of step.1 +:+ " " +:+ step.2.

(** A name that [strip] keeps: not empty, no whitespace at its ends. *)
Definition plain_name (name : string) : Prop :=
  PyStr.lstrip name = name /\ PyStr.rstrip name = name /\ name <> "".

(** The step the parser makes of the step [step] on line [n]. *)
Definition read_step (filename : option string) (n : nat)
    (step : semantic * string) : Model.Step :=
  Model.new_step filename n (word_of step.1) (type_of step.1) step.2.

(** The line is the line of a step of the type [ty], written with the
    alias [kw] of the table [k], which is not the bullet. *)
Definition step_written (k : Parser.Keywords) (line ty kw : string) : Prop :=
  PyStr.is_empty (PyStr.strip line) = false
  /\ PyStr.startswith (PyStr.strip line) "#" = false
  /\ Parser.is_fence (PyStr.lstrip line) = false
  /\ matched_keyword k (PyStr.strip line)
       ["given"; "when"; "then"; "and"; "but"] = Some (ty, kw)
  /\ ty ∈ ["given"; "when"; "then"]
  /\ PyStr.startswith kw "*" = false.

(** The instance reads the steps of the statement [r], which has the
    steps [acc], and no table is open. *)
Definition taking (k : Parser.Keywords) (r : Model.ref)
    (acc : list Model.Step) (p : Parser.Parser) : Prop :=
  Parser.self_state p = Parser.STEPS
  /\ Parser.self_keywords p = Some k
  /\ Parser.self_statement p = Some r
  /\ (exists o, Parser.store p !! r = Some o /\ Model.get_steps o = Some acc)
  /\ Parser.self_table p = None.

(** ** A feature that is written and read

    A scenario as a text has it: its name and its steps; a feature: its
    name and its scenarios. *)
Abbreviation written_scenario :=
  (string * list (semantic * string))%type.

Definition scenario_lines (scenario : written_scenario) : list string :=
  ("Scenario: " +:+ scenario.1) :: map write_step scenario.2.

Definition write_feature (name : string)
    (scenarios : list written_scenario) : list string :=
  ("Feature: " +:+ name) :: flat_map scenario_lines scenarios.

(** The objects the parser makes of the scenarios that follow line [n]. *)
Fixpoint read_scenarios (filename : option string) (n : nat)
    (scenarios : list written_scenario) : list Model.obj :=
  match scenarios with
  | [] => []
  | scenario :: rest =>
      Model.OScenario
        {| Model.scenario_header :=
             {| Model.filename := filename; Model.line := n + 1;
                Model.keyword := "Scenario"; Model.name := scenario.1 |};
           Model.scenario_tags := []; Model.scenario_description := [];
           Model.scenario_steps :=
             imap (fun i => read_step filename (n + 1 + i + 1)) scenario.2 |}
      :: read_scenarios filename (n + 1 + length scenario.2) rest
  end.

(** The feature of line 1, whose scenarios are the objects 1 to [count]. *)
Definition read_header (filename : option string) (parser : option nat)
    (name : string) (count : nat) : Model.obj :=
  Model.OFeature
    {| Model.feature_header :=
         {| Model.filename := filename; Model.line := 1;
            Model.keyword := "Feature"; Model.name := name |};
       Model.feature_tags := []; Model.feature_language := "en";
       Model.feature_description := []; Model.feature_background := None;
       Model.feature_scenarios := seq 1 count; Model.feature_rules := [];
       Model.feature_parser := parser |}.

(** The store of a parse of the feature: the feature, then its scenarios
    in their order. *)
Definition read_feature (filename : option string) (parser : option nat)
    (name : string) (scenarios : list written_scenario) : list Model.obj :=
  read_header filename parser name (length scenarios)
  :: read_scenarios filename 1 scenarios.

(** The instance builds the feature: its attributes name the feature
    and its store holds what the feature line and the lines of
    [scenarios] tell. *)
Record reading (id : nat) (filename : option string) (name : string)
    (scenarios : list written_scenario) (p : Parser.Parser) : Prop := {
  reading_id : Parser.self_id p = id;
  reading_feature : Parser.self_feature p = Some 0;
  reading_container : Parser.self_scenario_container p = Some 0;
  reading_keywords : Parser.self_keywords p = Some english;
  reading_tags : Parser.self_tags p = [];
  reading_table : Parser.self_table p = None;
  reading_filename : Parser.self_filename p = filename;
  reading_store :
    Parser.store p = read_feature filename None name scenarios;
  reading_examples : Parser.self_examples p = None;
  reading_lines : Parser.self_lines p = []
}.

(** The instance has read the feature line and the lines of [scenarios],
    and no more. *)
Definition building (id : nat) (filename : option string) (name : string)
    (scenarios : list written_scenario) (p : Parser.Parser) : Prop :=
  reading id filename name scenarios p
  /\ Parser.self_line p = length (write_feature name scenarios)
  /\ match scenarios with
     | [] => Parser.self_state p = Parser.FEATURE
     | _ :: _ =>
         (Parser.self_state p = Parser.SCENARIO
          \/ Parser.self_state p = Parser.STEPS)
         /\ Parser.self_statement p = Some (length scenarios)
     end.

(** A scenario whose name and step names are plain. *)
Definition plain_scenario (scenario : written_scenario) : Prop :=
  plain_name scenario.1 /\ Forall (fun step => plain_name step.2) scenario.2.

(** A feature to read back. *)
Definition login_text : string :=
  nl ("Feature: Login\nScenario: Good password\nGiven a user\n"
      +:+ "When the user logs in\nThen all is well\nScenario: Empty\n"
      +:+ "Scenario: Bad password\nWhen the user fails\n").

Definition login_scenarios : list written_scenario :=
  [("Good password",
    [(Given, "a user"); (When, "the user logs in"); (Then, "all is well")]);
   ("Empty", []);
   ("Bad password", [(When, "the user fails")])].

(** ** A table that is written and read

    The table the parser makes of the rows that follow line [n]: the first
    row gives the headings. *)
Definition read_table (n : nat) (headings : list string)
    (rows : list (list string)) : Model.Table :=
  {| Model.headings := headings; Model.table_line := n + 1;
     Model.rows :=
       imap (fun i row =>
               {| Model.row_headings := headings; Model.cells := row;
                  Model.row_line := n + 1 + i + 1 |}) rows |}.

(** The table [t] after the rows that follow line [n]. *)
Fixpoint add_rows (t : Model.Table) (n : nat) (rows : list (list string))
  : Model.Table :=
  match rows with
  | [] => t
  | row :: rest => add_rows (Model.add_row t row (n + 1)) (n + 1) rest
  end.

(** The step of line [n] that has the table [table]: its name loses a
    colon at its end when the setting [strip_colon] is on. *)
Definition read_table_step (strip_colon : bool) (filename : option string)
    (n : nat) (step : semantic * string) (table : Model.Table)
  : Model.Step :=
  {| Model.step_filename := filename; Model.step_line := n;
     Model.step_keyword := word_of step.1; Model.step_type := type_of step.1;
     Model.step_name :=
       if strip_colon && PyStr.endswith_char step.2 ":"
       then PyStr.remove_last step.2 else step.2;
     Model.step_text := None; Model.step_table := Some table |}.

(** A row to write under the headings [headings]: as many cells, all of
    them plain. *)
Definition plain_row (headings row : list string) : Prop :=
  length row = length headings /\ Forall plain_cell row.

(** A scenario with a table under its last step. *)
Definition table_text : string :=
  nl ("Feature: Login\nScenario: Users\nGiven the users:\n"
      +:+ "| name | role |\n| ann | admin |\n| bob | a\|b |").

(** ** A doc-string that is written and read

    The lines of a doc-string: the fence after an indent, the lines of the
    text, and the fence again. *)
Definition fence : string := "'''".

Definition docstring_lines (indent : string) (text_lines : list string)
  : list string :=
  [indent +:+ fence] ++ text_lines ++ [indent +:+ fence].

(** The text the parser makes of the lines, the fence being on line [n]
    at column [k]: each line without its first [k] characters and without
    the whitespace at its end. *)
Definition read_text (n k : nat) (text_lines : list string) : Model.Text :=
  {| Model.text_value :=
       PyStr.join (String PyStr.LF "")
         (map (fun l => PyStr.rstrip (PyStr.drop k l)) text_lines);
     Model.content_type := "text/plain";
     Model.text_line := Some n |}.

(** The step of line [n] that has the text [text]: its name loses a colon
    at its end when the setting [strip_colon] is on. *)
Definition read_text_step (strip_colon : bool) (filename : option string)
    (n : nat) (step : semantic * string) (text : Model.Text)
  : Model.Step :=
  {| Model.step_filename := filename; Model.step_line := n;
     Model.step_keyword := word_of step.1; Model.step_type := type_of step.1;
     Model.step_name :=
       if strip_colon && PyStr.endswith_char step.2 ":"
       then PyStr.remove_last step.2 else step.2;
     Model.step_text := Some text; Model.step_table := None |}.

(** A line of the text of a doc-string at column [k]: it does not close
    the doc-string, and its first [k] characters are whitespace. *)
Definition inner_line (k : nat) (l : string) : Prop :=
  PyStr.startswith (PyStr.strip l) fence = false
  /\ PyStr.truthy (PyStr.strip (PyStr.take k l)) = false.

(** A scenario with a doc-string under its last step. *)
Definition docstring_text : string :=
  nl ("Feature: Mail\nScenario: Send\nGiven the text:\n"
      +:+ "    '''\n    Dear Ann,\n\n      see you.  \n    '''\n").

(** ** The block the parser fills

    What a whole-file parse keeps between two lines: the last step type
    is the type of the last step of the statement that is filled, the
    Background of the container has no steps while the state is Feature
    or Rule, and no line of a doc-string is pending outside a
    doc-string. *)
Module Blocks.
Import Model Parser Hoare.

(** The types of the steps of an object, [None] for one without steps. *)
Definition types_of (o : obj) : option (list string) :=
  map step_type <$> get_steps o.

Definition types_at (st : list obj) (r : option ref)
  : option (list string) :=
  match r with
  | Some r => match st !! r with Some o => types_of o | None => None end
  | None => None
  end.

(** [container.background], [None] without a container or a Background. *)
Definition background_at (st : list obj) (c : option ref) : option ref :=
  match c with
  | Some c =>
      match st !! c with
      | Some o => match get_background o with Some b => b | None => None end
      | None => None
      end
  | None => None
  end.

(** The block: the types of the steps of the current statement. *)
Definition block (p : Parser) : option (list string) :=
  types_at (store p) (self_statement p).

(** The types of the steps of the Background of the container. *)
Definition ground (p : Parser) : option (list string) :=
  types_at (store p) (background_at (store p) (self_scenario_container p)).

Definition bounded (st : list obj) (r : option ref) : Prop :=
  match r with Some r => r < length st | None => True end.

(** The references the block and the ground are read through are
    references of the store. *)
Definition valid (p : Parser) : Prop :=
  bounded (store p) (self_statement p)
  /\ bounded (store p) (self_scenario_container p)
  /\ bounded (store p)
       (background_at (store p) (self_scenario_container p)).

(** The instance is in state [s] with the last step type [l], the block
    [b], the ground [g] and the pending lines [ls]. *)
Definition sees (s : State) (l : option string) (b g : option (list string))
    (ls : list string) (p : Parser) : Prop :=
  valid p /\ self_state p = s /\ self_last_step_type p = l
  /\ block p = b /\ ground p = g /\ self_lines p = ls.

(** A Background without steps, or none. *)
Definition bare (g : option (list string)) : Prop := g = None \/ g = Some [].

(** The last step type is the type of the last step of the block. *)
Definition follows (l : option string) (b : option (list string)) : Prop :=
  forall tys, b = Some tys -> l = last tys.

(** What holds between two lines, by the state. *)
Definition steady (s : State) (l : option string)
    (b g : option (list string)) (ls : list string) : Prop :=
  match s with
  | INITIAL | FEATURE | RULE => b = None /\ bare g /\ ls = []
  | SCENARIO | BACKGROUND => bare b /\ ls = []
  | STEPS | TABLE | TAGGABLE_STATEMENT => follows l b /\ ls = []
  | MULTILINE_TEXT => follows l b
  | STEP => False
  end.

Definition in_order (p : Parser) : Prop :=
  valid p
  /\ steady (self_state p) (self_last_step_type p) (block p) (ground p)
       (self_lines p).

Definition second_message : string :=
  "Second Background (can have only one)".

(** The failure is not the one of a second Background. *)
Definition no_second (e : exn) : Prop :=
  match e with
  | ParserError message _ _ _ _ => message <> second_message
  | _ => True
  end.

(** A change of an object that keeps its steps and its Background. *)
Definition benign (f : obj -> option obj) : Prop :=
  forall o o', f o = Some o' ->
    types_of o' = types_of o /\ get_background o' = get_background o.

(** A method that changes neither the state, the last step type, the
    block, the ground nor the pending lines. *)
Definition same {A} (m : M A) : Prop :=
  forall s l b g ls,
    hoare (sees s l b g ls) m (fun _ => sees s l b g ls) no_second.

(** The result of [parse_step]: with a step, the last step type is the
    type of the step; without one, nothing has changed. *)
Definition stepped (s : State) (l : option string)
    (b g : option (list string)) (ls : list string) (a : option Step)
    (p : Parser) : Prop :=
  match a with
  | Some st => sees s (Some (step_type st)) b g ls p
  | None => sees s l b g ls p
  end.

(** What a handler leaves when it takes the line. *)
Definition settled (a : bool) (p : Parser) : Prop :=
  if a then in_order p else valid p.

End Blocks.

(** ** The parse so far

    The whole-file parse of a text that starts with the lines [before]
    has read these lines and is at the instance [p]. *)
Definition reads (languages : gmap string Parser.Keywords)
    (strip_colon : bool) (id : nat) (language filename : option string)
    (before : list string) (p : Parser.Parser) : Prop :=
  exists p0 p1,
    Parser.__init__ languages id language None = Ok p0
    /\ Parser.reset languages filename p0 = Ok (tt, p1)
    /\ Parser.feed languages strip_colon before p1 = Ok (tt, p).

(** * Proofs

    ** The rules of the method logic *)
Module HoareFacts.
Import Model Parser Hoare.

Lemma hoare_ret {A} P (a : A) (Q : A -> Parser -> Prop) E :
  (forall p, P p -> Q a p) -> hoare P (mret a) Q E.
Proof. intros H p Hp. apply H, Hp. Qed.

Lemma hoare_raise {A} P e (Q : A -> Parser -> Prop) (E : exn -> Prop) :
  E e -> hoare P (raise e) Q E.
Proof. intros H p _. exact H. Qed.

Lemma hoare_bind {A B} P (m : M A) (f : A -> M B) Q R E :
  hoare P m Q E -> (forall a, hoare (Q a) (f a) R E) ->
  hoare P (m ≫= f) R E.
Proof.
  intros Hm Hf p Hp. specialize (Hm p Hp).
  unfold mbind, M_bind. destruct (m p) as [[a p']|e]; [|exact Hm].
  apply (Hf a p' Hm).
Qed.

Lemma hoare_weaken {A} (P P' : Parser -> Prop) (m : M A)
    (Q Q' : A -> Parser -> Prop) E :
  hoare P' m Q' E -> (forall p, P p -> P' p) ->
  (forall a p, Q' a p -> Q a p) -> hoare P m Q E.
Proof.
  intros H HP HQ p Hp. specialize (H p (HP p Hp)).
  destruct (m p) as [[a p']|e]; auto.
Qed.

(** The instance read by [get] satisfies the precondition. *)
Lemma hoare_get {B} P (f : Parser -> M B) R E :
  (forall p0, P p0 -> hoare (fun p => p = p0) (f p0) R E) ->
  hoare P (get ≫= f) R E.
Proof.
  intros H p Hp. unfold mbind, M_bind, get. apply (H p Hp p eq_refl).
Qed.

Lemma hoare_modify P (g : Parser -> Parser) (Q : unit -> Parser -> Prop) E :
  (forall p, P p -> Q tt (g p)) -> hoare P (modify g) Q E.
Proof. intros H p Hp. apply H, Hp. Qed.

Lemma hoare_the {A} P attribute (x : option A) (Q : A -> Parser -> Prop)
    (E : exn -> Prop) :
  (forall a, x = Some a -> forall p, P p -> Q a p) ->
  E (AttributeError attribute) ->
  hoare P (the attribute x) Q E.
Proof.
  intros H HE p Hp. destruct x as [a|]; simpl; [apply (H a eq_refl p Hp)|].
  exact HE.
Qed.

Lemma hoare_fmap {A B} P (g : A -> B) (m : M A) (Q : B -> Parser -> Prop) E :
  hoare P m (fun a p => Q (g a) p) E -> hoare P (g <$> m) Q E.
Proof.
  intros H. unfold fmap, M_fmap. eapply hoare_bind; [exact H|].
  intros a. apply hoare_ret. auto.
Qed.

End HoareFacts.

(** ** The invariant of the parser *)
Module TablesFacts.
Import Model Parser Hoare HoareFacts Tables.

Lemma steps_ok_tables steps :
  Forall step_ok steps -> Forall rectangular (tables_of_steps steps).
Proof.
  unfold tables_of_steps, step_ok, table_ok.
  induction 1 as [|s steps [Ht _] _ IH]; simpl; [constructor|].
  destruct (step_table s) as [t|]; simpl; [constructor; assumption|exact IH].
Qed.

Lemma obj_ok_tables o : obj_ok o -> Forall rectangular (tables_of o).
Proof.
  unfold obj_ok. destruct o; simpl; auto using steps_ok_tables.
Qed.

Lemma get_steps_ok o steps :
  obj_ok o -> get_steps o = Some steps -> Forall step_ok steps.
Proof. unfold obj_ok. intros H E. rewrite E in H. exact H. Qed.

Lemma set_steps_ok steps o o' :
  Forall step_ok steps -> set_steps steps o = Some o' -> obj_ok o'.
Proof.
  unfold obj_ok. intros H E.
  destruct o; simpl in *; inversion E; subst; exact H.
Qed.

Lemma known_Some x t : known x = Some t -> x = Some t.
Proof.
  unfold known. destruct x as [s|]; [|discriminate].
  destruct (PyStr.truthy s); [auto|discriminate].
Qed.

Lemma new_table_rectangular cs n : rectangular (new_table cs n).
Proof. constructor. Qed.

Lemma add_row_rectangular t cs n :
  rectangular t -> length cs = length (headings t) ->
  rectangular (add_row t cs n).
Proof.
  unfold rectangular. intros H E. simpl. apply Forall_app. split; [exact H|].
  repeat constructor. exact E.
Qed.

Lemma map_last_ok (f : Step -> Step) steps :
  (forall s, step_ok s -> step_ok (f s)) ->
  Forall step_ok steps -> Forall step_ok (map_last f steps).
Proof.
  intros Hf. induction steps as [|s [|s' steps] IH]; intros H.
  - constructor.
  - inversion H; subst. constructor; [auto|constructor].
  - inversion H; subst. constructor; [assumption|]. apply IH. assumption.
Qed.

Section Preservation.

Variable languages : gmap string Keywords.
Variable strip_colon : bool.
Variable id : nat.

#[local] Abbreviation inv := (Tables.inv id).
#[local] Abbreviation keeps := (Tables.keeps id).
#[local] Abbreviation runs_ok := (Tables.runs_ok id).
#[local] Abbreviation rejected := (Tables.rejected languages strip_colon).

Lemma keeps_ret {A} (a : A) (V : A -> Prop) : V a -> keeps (mret a) V.
Proof. intros H p Hp. split; assumption. Qed.

Lemma keeps_raise {A} e (V : A -> Prop) : no_reason e -> keeps (raise e) V.
Proof. intros H p _. exact H. Qed.

Lemma keeps_bind {A B} (m : M A) (f : A -> M B) V W :
  keeps m V -> (forall a, V a -> keeps (f a) W) -> keeps (m ≫= f) W.
Proof.
  intros Hm Hf p Hp. specialize (Hm p Hp).
  unfold mbind, M_bind. destruct (m p) as [[a p']|e]; [|exact Hm].
  destruct Hm as [Hp' Ha]. apply (Hf a Ha p' Hp').
Qed.

Lemma keeps_get {B} (f : Parser -> M B) W :
  (forall p0, inv p0 -> keeps (f p0) W) -> keeps (get ≫= f) W.
Proof. intros H p Hp. unfold mbind, M_bind, get. apply (H p Hp p Hp). Qed.

Lemma keeps_weaken {A} (m : M A) (V W : A -> Prop) :
  keeps m V -> (forall a, V a -> W a) -> keeps m W.
Proof.
  intros H HV p Hp. specialize (H p Hp).
  destruct (m p) as [[a p']|e]; [|exact H]. destruct H. split; auto.
Qed.

Lemma keeps_fmap {A B} (g : A -> B) (m : M A) (W : B -> Prop) :
  keeps m (fun a => W (g a)) -> keeps (g <$> m) W.
Proof.
  intros H. unfold fmap, M_fmap. eapply keeps_bind; [exact H|].
  intros a Ha. apply keeps_ret. exact Ha.
Qed.

(** A change of attributes that leaves the store and the open table alone. *)
Lemma keeps_modify (g : Parser -> Parser) :
  (forall p, store (g p) = store p) ->
  (forall p, self_table (g p) = self_table p) ->
  (forall p, self_last_step_type (g p) = self_last_step_type p) ->
  (forall p, self_id (g p) = self_id p) ->
  keeps (modify g) any.
Proof.
  intros Hs Ht Hl Hi p [[H1 H2] [H3 H4]]. simpl. unfold inv, tables_ok.
  rewrite Hs, Ht, Hl, Hi. repeat split; assumption.
Qed.

Lemma keeps_set_table t : table_ok t -> keeps (modify (set_table t)) any.
Proof. intros H p [[H1 H2] [H3 H4]]. simpl. repeat split; assumption. Qed.

Lemma keeps_set_last_step_type t :
  type_ok t -> keeps (modify (set_last_step_type t)) any.
Proof. intros H p [[H1 H2] [H3 H4]]. simpl. repeat split; assumption. Qed.

Lemma keeps_the {A} attribute (x : option A) :
  keeps (the attribute x) (fun a => x = Some a).
Proof. intros p Hp. destruct x; simpl; [split; auto|exact I]. Qed.

Lemma keeps_new o : obj_ok o -> keeps (new o) any.
Proof.
  intros Ho p [[H1 H2] [H3 H4]]. simpl. repeat split; [|assumption..].
  apply Forall_app. split; [assumption|]. constructor; [exact Ho|constructor].
Qed.

Lemma keeps_deref r : keeps (deref r) obj_ok.
Proof.
  intros p [[H1 H2] [H3 H4]]. unfold deref.
  destruct (store p !! r) as [o|] eqn:E.
  - repeat split; try assumption.
    eapply Forall_forall in H1; [exact H1|]. eapply list_elem_of_lookup_2, E.
  - exact I.
Qed.

Lemma keeps_update attribute r (f : obj -> option obj) :
  (forall o o', obj_ok o -> f o = Some o' -> obj_ok o') ->
  keeps (update attribute r f) any.
Proof.
  intros Hf. unfold update. eapply keeps_bind; [apply keeps_deref|].
  intros o Ho. destruct (f o) as [o'|] eqn:E.
  - intros p [[H1 H2] [H3 H4]]. simpl. repeat split; [|assumption..].
    apply Forall_insert; [assumption|]. eapply Hf; eassumption.
  - apply keeps_raise. exact I.
Qed.

(** The updates that touch neither a table nor the steps. *)
Lemma keeps_update_plain attribute r (f : obj -> option obj) :
  (forall o o', f o = Some o' ->
     tables_of o' = tables_of o /\ get_steps o' = get_steps o) ->
  keeps (update attribute r f) any.
Proof.
  intros Hf. apply keeps_update. intros o o' Ho E.
  destruct (Hf o o' E) as [Ht Hs]. unfold obj_ok. rewrite Hs, Ht. exact Ho.
Qed.

Lemma keeps_languages_at l : keeps (languages_at languages l) any.
Proof.
  unfold languages_at. destruct (languages !! l).
  - apply keeps_ret. exact I.
  - apply keeps_raise. exact I.
Qed.

Create HintDb keeps.
#[local] Hint Resolve keeps_the keeps_deref keeps_languages_at : keeps.
#[local] Hint Extern 0 (keeps (modify (set_table _)) _) =>
  apply keeps_set_table; solve [exact I | assumption] : keeps.
#[local] Hint Extern 0 (keeps (modify (set_last_step_type None)) _) =>
  apply keeps_set_last_step_type; exact I : keeps.
#[local] Hint Extern 1 (keeps (modify _) _) =>
  apply keeps_modify; intros; reflexivity : keeps.
#[local] Hint Extern 1 (keeps (new _) _) =>
  apply keeps_new; constructor : keeps.
#[local] Hint Extern 1 (keeps (update _ _ _) _) =>
  apply keeps_update_plain; intros [] ? [= <-]; split; reflexivity : keeps.

(** One step through the body of a method. *)
Ltac keeps_step :=
  lazymatch goal with
  | |- keeps (mret _) _ => apply keeps_ret; try exact I
  | |- keeps (raise _) _ => apply keeps_raise; exact I
  | |- keeps (mbind _ get) _ => apply keeps_get; intros ? ?
  | |- keeps (mbind _ _) _ =>
      first [ eapply keeps_bind; [solve [eauto with keeps]|intros ? ?]
            | eapply keeps_bind with (V := any); [|intros ? ?] ]
  | |- keeps (fmap _ _) _ => apply keeps_fmap
  | |- keeps (match ?x with _ => _ end) _ => destruct x eqn:?
  | |- keeps (if ?x then _ else _) _ => destruct x eqn:?
  | |- keeps _ _ => solve [eauto with keeps]
  end.

Ltac keeps_auto := repeat keeps_step.

Lemma keeps_reset filename : keeps (reset languages filename) any.
Proof. unfold reset. keeps_auto. Qed.

Lemma keeps_keywords_at concept : keeps (keywords_at concept) any.
Proof. unfold keywords_at. keeps_auto. Qed.
#[local] Hint Resolve keeps_keywords_at : keeps.

Lemma keeps_match_keyword keyword line :
  keeps (match_keyword languages keyword line) any.
Proof. unfold match_keyword. keeps_auto. Qed.
#[local] Hint Resolve keeps_match_keyword : keeps.

Lemma keeps__build_feature keyword line :
  keeps (_build_feature keyword line) any.
Proof. unfold _build_feature. keeps_auto. Qed.

Lemma keeps_add_rule feature rule : keeps (add_rule feature rule) any.
Proof. unfold add_rule. keeps_auto. Qed.

Lemma keeps_add_background container background :
  keeps (add_background container background) any.
Proof. unfold add_background. keeps_auto. Qed.
#[local] Hint Resolve keeps__build_feature keeps_add_rule
  keeps_add_background : keeps.

Lemma keeps__build_rule_statement keyword line :
  keeps (_build_rule_statement keyword line) any.
Proof. unfold _build_rule_statement. keeps_auto. Qed.

Lemma keeps__build_background_statement keyword line :
  keeps (_build_background_statement keyword line) any.
Proof. unfold _build_background_statement. keeps_auto. Qed.

Lemma keeps__build_scenario_statement keyword line :
  keeps (_build_scenario_statement keyword line) any.
Proof. unfold _build_scenario_statement. keeps_auto. Qed.

Lemma keeps__build_scenario_outline_statement keyword line :
  keeps (_build_scenario_outline_statement keyword line) any.
Proof. unfold _build_scenario_outline_statement. keeps_auto. Qed.

Lemma keeps__build_examples keyword line :
  keeps (_build_examples keyword line) any.
Proof. unfold _build_examples. keeps_auto. Qed.
#[local] Hint Resolve keeps__build_rule_statement
  keeps__build_background_statement keeps__build_scenario_statement
  keeps__build_scenario_outline_statement keeps__build_examples : keeps.

Lemma keeps_statement_steps : keeps statement_steps (Forall step_ok).
Proof.
  unfold statement_steps. keeps_step. keeps_step. keeps_step.
  eapply keeps_weaken; [apply keeps_the|]. intros steps E.
  eapply get_steps_ok; eassumption.
Qed.

Lemma keeps_append_step step : step_ok step -> keeps (append_step step) any.
Proof.
  intros Hs. unfold append_step. keeps_step. keeps_step. keeps_step.
  keeps_step. apply keeps_update. intros o o' _. apply set_steps_ok.
  apply Forall_app. split; [eapply get_steps_ok; eassumption|].
  constructor; [exact Hs|constructor].
Qed.

Lemma keeps_update_last_step f :
  (forall s, step_ok s -> step_ok (f s)) -> keeps (update_last_step f) any.
Proof.
  intros Hf. unfold update_last_step. keeps_step. keeps_step. keeps_step.
  keeps_step. keeps_step; [keeps_step|].
  apply keeps_update. intros o o' _. apply set_steps_ok.
  apply map_last_ok; [exact Hf|]. eapply get_steps_ok; eassumption.
Qed.

Lemma _normalize_step_name_ok s :
  step_ok s -> step_ok (_normalize_step_name strip_colon s).
Proof. unfold _normalize_step_name. destruct (_ && _); auto. Qed.

Lemma keeps_parse_tags line : keeps (Parser.parse_tags line) any.
Proof.
  unfold Parser.parse_tags. keeps_step; [keeps_step|]. keeps_step.
  destruct (collect_tags _ _ _ _) as [ts|e] eqn:E; [keeps_step|].
  apply keeps_raise.
  revert e E. generalize (PyStr.split line).
  induction l as [|word rest IH]; simpl; intros e E; [discriminate|].
  destruct (PyStr.startswith word "@").
  - destruct (collect_tags _ _ _ rest); [discriminate|].
    inversion E; subst. apply IH. reflexivity.
  - destruct (PyStr.startswith word "#"); [discriminate|].
    inversion E; subst. exact I.
Qed.

Lemma keeps_inherited_steps b :
  keeps (inherited_steps b) (Forall step_ok).
Proof.
  unfold inherited_steps.
  repeat (keeps_step; try solve [constructor]).
  destruct (get_steps a1) as [steps|] eqn:E; simpl; [|constructor].
  eapply get_steps_ok; eassumption.
Qed.

Lemma last_step_type_ok steps :
  Forall step_ok steps -> type_ok (step_type <$> last steps).
Proof.
  intros H. destruct (last steps) as [s|] eqn:E; simpl; [|exact I].
  apply last_Some_elem_of in E. rewrite Forall_forall in H.
  apply (H s E).
Qed.

Lemma keeps__select_last_background_step_type :
  keeps _select_last_background_step_type type_ok.
Proof.
  unfold _select_last_background_step_type.
  keeps_step. keeps_step; [|keeps_step]. keeps_step. keeps_step.
  keeps_step; [|keeps_step]. keeps_step.
  destruct a1; try (keeps_step; fail).
  eapply keeps_bind with (V := Forall step_ok).
  - destruct (background_steps b) as [|s l] eqn:E.
    + apply keeps_inherited_steps.
    + apply keeps_ret. rewrite <- E.
      eapply get_steps_ok; [eassumption|reflexivity].
  - intros steps Hsteps. apply keeps_ret. apply last_step_type_ok, Hsteps.
Qed.
#[local] Hint Resolve keeps__select_last_background_step_type
  keeps_parse_tags keeps_statement_steps : keeps.

Lemma keeps_make_step ty kw line :
  ty ∈ ["given"; "when"; "then"; "and"; "but"] ->
  keeps (make_step ty kw line) step_ok.
Proof.
  intros Hty. unfold make_step. keeps_step.
  assert (type_ok (self_last_step_type p0)) as Hlast by apply H.
  eapply keeps_bind with (V := fun t => t ∈ semantic_types).
  2: { intros t Ht. apply keeps_ret. split; [exact I|exact Ht]. }
  assert (forall last, known (self_last_step_type p0) = Some last ->
                       last ∈ semantic_types) as Hknown.
  { intros last E. apply known_Some in E. rewrite E in Hlast. exact Hlast. }
  destruct (if PyStr.startswith kw "*" then _ else _) as [last|] eqn:Estar.
  { apply keeps_ret. apply Hknown.
    destruct (PyStr.startswith kw "*"); [exact Estar|discriminate]. }
  destruct (String.eqb ty "and" || String.eqb ty "but") eqn:Eab.
  - destruct (known (self_last_step_type p0)) as [last|] eqn:E.
    + apply keeps_ret. apply Hknown. reflexivity.
    + eapply keeps_bind;
        [apply keeps__select_last_background_step_type|].
      intros last Hl.
      eapply keeps_bind; [apply keeps_set_last_step_type, Hl|]. intros _ _.
      destruct (known last) as [t|] eqn:Et; [|keeps_step].
      apply keeps_ret. apply known_Some in Et. subst last. exact Hl.
  - assert (ty ∈ semantic_types) as Hsem.
    { rewrite !elem_of_cons in Hty. unfold semantic_types.
      rewrite !elem_of_cons.
      destruct Hty as [->|[->|[->|[->|[->|Hty]]]]]; auto; try discriminate;
        inversion Hty. }
    eapply keeps_bind; [apply keeps_set_last_step_type, Hsem|]. intros _ _.
    apply keeps_ret. exact Hsem.
Qed.

Lemma keeps_parse_step_aliases ty line kws :
  ty ∈ ["given"; "when"; "then"; "and"; "but"] ->
  keeps (parse_step_aliases ty line kws) (option_Forall step_ok).
Proof.
  intros Hty. induction kws as [|kw rest IH]; simpl.
  - apply keeps_ret. constructor.
  - destruct (line_starts_with_keyword line kw); [|exact IH].
    apply keeps_fmap. eapply keeps_weaken; [apply keeps_make_step, Hty|].
    intros s Hs. constructor. exact Hs.
Qed.

Lemma keeps_parse_step_types line types :
  Forall (fun ty => ty ∈ ["given"; "when"; "then"; "and"; "but"]) types ->
  keeps (parse_step_types line types) (option_Forall step_ok).
Proof.
  induction 1 as [|ty rest Hty _ IH]; simpl.
  - apply keeps_ret. constructor.
  - keeps_step. eapply keeps_bind; [apply keeps_parse_step_aliases, Hty|].
    intros [step|] Hs; [|exact IH]. apply keeps_ret. exact Hs.
Qed.

Lemma keeps_parse_step line :
  keeps (parse_step line) (option_Forall step_ok).
Proof.
  apply keeps_parse_step_types. rewrite Forall_forall. auto.
Qed.

#[local] Hint Resolve keeps_parse_step : keeps.

Lemma keeps_extend_tags ts : keeps (extend_tags ts) any.
Proof. unfold extend_tags. keeps_auto. Qed.
#[local] Hint Resolve keeps_extend_tags : keeps.

Ltac step_is_ok :=
  match goal with
  | H : option_Forall step_ok (Some _) |- _ => inversion H; assumption
  end.

Lemma keeps_action_initial line :
  keeps (action_initial languages line) any.
Proof. unfold action_initial. keeps_auto. Qed.

Lemma keeps_subaction_detect_taggable_statement line :
  keeps (subaction_detect_taggable_statement languages line) any.
Proof. unfold subaction_detect_taggable_statement. keeps_auto. Qed.
#[local] Hint Resolve keeps_subaction_detect_taggable_statement : keeps.

Lemma keeps_describe attribute target line :
  keeps (describe attribute target line) any.
Proof. unfold describe. keeps_auto. Qed.
#[local] Hint Resolve keeps_describe : keeps.

Lemma keeps_action_feature line :
  keeps (action_feature languages line) any.
Proof. unfold action_feature. keeps_auto. Qed.

Lemma keeps_action_taggable_statement line :
  keeps (action_taggable_statement languages line) any.
Proof. unfold action_taggable_statement. keeps_auto. Qed.

Lemma keeps_action_rule line : keeps (action_rule languages line) any.
Proof. unfold action_rule. keeps_auto. Qed.

Lemma keeps_action_scenario line :
  keeps (action_scenario languages line) any.
Proof.
  unfold action_scenario. keeps_step. keeps_step.
  destruct a0 as [step|]; [|keeps_auto].
  keeps_step. eapply keeps_bind; [|intros; keeps_step].
  apply keeps_append_step. step_is_ok.
Qed.

Lemma keeps_action_background line :
  keeps (action_background languages line) any.
Proof. apply keeps_action_scenario. Qed.

Lemma keeps_action_table_row line : keeps (action_table_row line) any.
Proof.
  unfold action_table_row. keeps_step. destruct H as [[_ Ht] _].
  eapply keeps_bind with (V := any); [keeps_auto|]. intros _ _.
  destruct (self_table p0) as [t|] eqn:E.
  - destruct (negb _) eqn:Hlen; [keeps_step|].
    eapply keeps_bind; [|intros; keeps_step].
    apply keeps_set_table. apply add_row_rectangular; [exact Ht|].
    apply negb_false_iff, Nat.eqb_eq in Hlen. exact Hlen.
  - eapply keeps_bind; [|intros; keeps_step].
    apply keeps_set_table. apply new_table_rectangular.
Qed.
#[local] Hint Resolve keeps_action_table_row : keeps.

Lemma keeps_action_steps line : keeps (action_steps languages line) any.
Proof.
  unfold action_steps. destruct (is_fence _); [keeps_auto|].
  keeps_step. destruct a as [step|]; [|keeps_auto].
  eapply keeps_bind; [|intros; keeps_step].
  apply keeps_append_step. step_is_ok.
Qed.
#[local] Hint Resolve keeps_action_steps : keeps.

Lemma keeps_action_multiline_text line :
  keeps (action_multiline_text strip_colon line) any.
Proof.
  unfold action_multiline_text. keeps_step.
  eapply keeps_bind with (V := any); [keeps_auto|]. intros terminator _.
  keeps_step; [|keeps_auto].
  eapply keeps_bind; [|intros; keeps_auto].
  apply keeps_update_last_step. intros s Hs.
  apply _normalize_step_name_ok. exact Hs.
Qed.

Lemma keeps_action_table line :
  keeps (action_table languages strip_colon line) any.
Proof.
  unfold action_table. keeps_step; [|keeps_auto].
  keeps_step. destruct H as [[_ Ht] _].
  eapply keeps_bind with (V := any); [|intros; keeps_auto].
  destruct (self_examples p0) as [examples|].
  - keeps_step; [|keeps_auto]. apply keeps_update.
    intros [] o' _ [= <-]. unfold obj_ok. simpl.
    destruct (self_table p0); repeat constructor. exact Ht.
  - apply keeps_update_last_step. intros s [_ Hty].
    apply _normalize_step_name_ok. split; [exact Ht|exact Hty].
Qed.

Lemma keeps_action_of s func line :
  action_of languages strip_colon s = Some func -> keeps (func line) any.
Proof.
  destruct s; intros [= <-];
    auto using keeps_action_initial, keeps_action_feature, keeps_action_rule,
      keeps_action_background, keeps_action_scenario,
      keeps_action_taggable_statement, keeps_action_steps,
      keeps_action_multiline_text, keeps_action_table.
Qed.

(** *** The loop over the lines

    [action] may raise with a reason, so that the loop is followed with any
    exception allowed. *)
Lemma keeps_runs_ok {A} (m : M A) V : keeps m V -> runs_ok m.
Proof.
  intros H p Hp. specialize (H p Hp).
  destruct (m p) as [[a p']|e]; [apply H|exact I].
Qed.

Lemma runs_ok_bind {A B} (m : M A) (f : A -> M B) :
  runs_ok m -> (forall a, runs_ok (f a)) -> runs_ok (m ≫= f).
Proof. intros Hm Hf. eapply hoare_bind; [exact Hm|exact Hf]. Qed.

Lemma runs_ok_get {B} (f : Parser -> M B) :
  (forall p0, runs_ok (f p0)) -> runs_ok (get ≫= f).
Proof. intros H p Hp. unfold mbind, M_bind, get. apply (H p p Hp). Qed.

Lemma runs_ok_action line : runs_ok (action languages strip_colon line).
Proof.
  intros p Hp. unfold action, mbind at 1, M_bind at 1, get.
  destruct (_ && _).
  - destruct (_ || _); [exact Hp|].
    destruct (language_comment _) as [language|]; [|exact Hp].
    revert p Hp. apply (keeps_runs_ok _ any). keeps_auto.
  - destruct (action_of _ _ _) as [func|] eqn:Hf; [|exact I].
    pose proof (keeps_action_of _ _ line Hf p Hp) as H.
    unfold mbind, M_bind. destruct (func line p) as [[[] p']|e]; simpl.
    + apply H.
    + destruct (ask_parse_failure_oracle _ _ _) as [[]|]; exact I.
    + exact I.
Qed.

Lemma runs_ok_feed text_lines :
  runs_ok (feed languages strip_colon text_lines).
Proof.
  induction text_lines as [|line rest IH]; simpl.
  - intros p Hp. exact Hp.
  - apply runs_ok_bind; [apply (keeps_runs_ok _ any); keeps_auto|].
    intros _. apply runs_ok_get. intros p0.
    apply runs_ok_bind; [|intros; exact IH].
    destruct (_ && _); [|apply runs_ok_action].
    intros p Hp. exact Hp.
Qed.

Lemma runs_ok_close_table : runs_ok (close_table languages strip_colon).
Proof.
  apply (keeps_runs_ok _ any). pose proof keeps_action_table.
  unfold close_table. keeps_auto.
Qed.

Lemma runs_ok__parse_loop text initial_state filename :
  runs_ok (_parse_loop languages strip_colon text initial_state filename).
Proof.
  unfold _parse_loop.
  apply runs_ok_bind; [apply (keeps_runs_ok _ any), keeps_reset|]. intros _.
  apply runs_ok_bind; [apply (keeps_runs_ok _ any); keeps_auto|]. intros _.
  apply runs_ok_get. intros p0.
  apply runs_ok_bind; [apply (keeps_runs_ok _ any); keeps_auto|]. intros _.
  apply runs_ok_bind; [apply runs_ok_feed|]. intros _.
  apply runs_ok_close_table.
Qed.

Lemma runs_ok_parse text filename :
  runs_ok (parse languages strip_colon text filename).
Proof.
  unfold parse. apply runs_ok_bind; [apply runs_ok__parse_loop|]. intros _.
  apply (keeps_runs_ok _ any). keeps_auto.
Qed.

Lemma keeps_close_table : keeps (close_table languages strip_colon) any.
Proof.
  pose proof keeps_action_table. unfold close_table. keeps_auto.
Qed.

Lemma inv_set_line n p : inv p -> inv (set_line n p).
Proof. intros H. exact H. Qed.

Lemma action_reason line p e :
  inv p -> action languages strip_colon line p = Raise e -> ~ no_reason e ->
  exists func p',
    PyStr.startswith (PyStr.strip line) "#"
      && negb (bool_decide (self_state p = MULTILINE_TEXT)) = false
    /\ action_of languages strip_colon (self_state p) = Some func
    /\ func line p = Ok (false, p').
Proof.
  intros Hinv Hrun Hreason. unfold action in Hrun.
  cbv [mbind M_bind get mret M_ret modify] in Hrun.
  destruct (_ && _) eqn:Hcomment.
  - exfalso. destruct (_ || _); [discriminate|].
    destruct (language_comment _) as [language|]; [|discriminate].
    unfold languages_at in Hrun.
    destruct (languages !! language); [discriminate|].
    injection Hrun as <-. apply Hreason. exact I.
  - destruct (action_of _ _ _) as [func|] eqn:Hfunc.
    + pose proof (keeps_action_of _ _ line Hfunc p Hinv) as Hkeeps.
      destruct (func line p) as [[[] p']|e'] eqn:Hf.
      * discriminate.
      * exists func, p'. auto.
      * exfalso. injection Hrun as <-. exact (Hreason Hkeeps).
    + exfalso. injection Hrun as <-. apply Hreason. exact I.
Qed.

Lemma feed_cons line rest p :
  feed languages strip_colon (line :: rest) p
  = match feed languages strip_colon [line] p with
    | Ok (_, p') => feed languages strip_colon rest p'
    | Raise e => Raise e
    end.
Proof.
  cbn [feed]. cbv [mbind M_bind get mret M_ret modify].
  match goal with
  | |- match ?x with _ => _ end = _ => destruct x as [[[] p']|e]
  end; reflexivity.
Qed.

Lemma feed_reason text_lines p e :
  inv p -> feed languages strip_colon text_lines p = Raise e ->
  ~ no_reason e -> rejected text_lines p.
Proof.
  revert p. induction text_lines as [|line rest IH]; intros p Hinv Hrun Hre.
  - discriminate.
  - rewrite feed_cons in Hrun.
    pose proof (runs_ok_feed [line] p Hinv) as Hone.
    destruct (feed languages strip_colon [line] p) as [[[] p1]|e1] eqn:Hfeed.
    + eapply rejected_later; [exact Hfeed|]. apply IH; assumption.
    + injection Hrun as ->. cbn [feed] in Hfeed.
      cbv [mbind M_bind get mret M_ret modify] in Hfeed.
      cbn [self_state set_line] in Hfeed.
      destruct (PyStr.is_empty (PyStr.strip line) && _) eqn:Hskip;
        [discriminate|].
      destruct (action _ _ _ _) as [[[] p2]|e2] eqn:Hact; [discriminate|].
      injection Hfeed as ->.
      destruct (action_reason line _ e (inv_set_line _ p Hinv) Hact Hre)
        as (func & p' & Hcomment & Hfunc & Hrej).
      eapply rejected_here; [split|exact Hfunc|exact Hrej]; assumption.
Qed.

Lemma reset_state filename p p' :
  reset languages filename p = Ok (tt, p') -> self_state p' = INITIAL.
Proof.
  unfold reset, languages_at. cbv [mbind M_bind get mret M_ret modify].
  cbn [self_language set_language].
  destruct (languages !! _); [|discriminate]. intros [= <-]. reflexivity.
Qed.

Lemma parse_reason text filename p e :
  inv p -> parse languages strip_colon text filename p = Raise e ->
  ~ no_reason e ->
  exists p1,
    reset languages filename p = Ok (tt, p1)
    /\ rejected (PyStr.splitlines text) p1.
Proof.
  intros Hinv Hrun Hre. unfold parse, _parse_loop in Hrun.
  cbv [mbind M_bind get mret M_ret modify] in Hrun.
  pose proof (keeps_reset filename p Hinv) as Hreset.
  destruct (reset languages filename p) as [[[] p1]|e1] eqn:Hr.
  2: { exfalso. injection Hrun as <-. exact (Hre Hreset). }
  destruct Hreset as [Hinv1 _]. exists p1. split; [reflexivity|].
  rewrite (reset_state _ _ _ Hr) in Hrun.
  rewrite bool_decide_eq_false_2 in Hrun by discriminate.
  pose proof (runs_ok_feed (PyStr.splitlines text) p1 Hinv1) as Hfeed.
  destruct (feed _ _ _ p1) as [[[] p2]|e2] eqn:Hf.
  2: { injection Hrun as ->. eapply feed_reason; eassumption. }
  exfalso. pose proof (keeps_close_table p2 Hfeed) as Hclose.
  destruct (close_table _ _ p2) as [[[] p3]|e3].
  2: { injection Hrun as <-. exact (Hre Hclose). }
  destruct Hclose as [Hinv3 _].
  destruct (self_feature p3) as [f|]; [|discriminate].
  assert (keeps (update "parser" f (Model.set_parser (self_id p3))) any)
    as Hup by keeps_auto.
  specialize (Hup p3 Hinv3).
  destruct (update _ _ _ p3) as [[[] p4]|e4]; [discriminate|].
  injection Hrun as <-. exact (Hre Hup).
Qed.

Lemma __init___no_reason language variant e :
  __init__ languages id language variant = Raise e -> no_reason e.
Proof.
  unfold __init__. set (p0 := blank _ _ _).
  assert (inv p0) as H0 by (repeat split; constructor).
  match goal with |- match ?m p0 with _ => _ end = _ -> _ =>
    assert (keeps m any) as Hk by keeps_auto; specialize (Hk p0 H0);
    destruct (m p0) as [[a p']|e']
  end; [discriminate|].
  intros [= <-]. exact Hk.
Qed.

Lemma inv___init__ language variant p :
  __init__ languages id language variant = Ok p -> inv p.
Proof.
  unfold __init__. set (p0 := blank _ _ _).
  assert (inv p0) as H0 by (repeat split; constructor).
  match goal with |- match ?m p0 with _ => _ end = _ -> _ =>
    assert (keeps m any) as Hk by keeps_auto; specialize (Hk p0 H0);
    destruct (m p0) as [[a p']|e]
  end; [|discriminate].
  intros [= <-]. apply Hk.
Qed.

End Preservation.
End TablesFacts.

(** ** Tables *)

Lemma action_table_row_first p line :
  Parser.self_table p = None -> loggable p line ->
  Parser.action_table_row line p
  = Ok (true, Parser.set_table
                (Some (Model.new_table (Parser.row_cells line)
                         (Parser.self_line p))) p).
Proof.
  intros Ht Hl. unfold Parser.action_table_row.
  cbv [mbind Parser.M_bind Parser.get]. rewrite Ht.
  destruct (PyStr.matches_row_pattern line) eqn:E; simpl; [reflexivity|].
  destruct Hl as [Hl|[f Hf]]; [congruence|]. rewrite Hf. reflexivity.
Qed.

Lemma action_table_row_next p t line :
  Parser.self_table p = Some t -> loggable p line ->
  Parser.action_table_row line p
  = if length (Parser.row_cells line) =? length (Model.headings t)
    then Ok (true, Parser.set_table
                     (Some (Model.add_row t (Parser.row_cells line)
                              (Parser.self_line p))) p)
    else Raise (ParserError "Malformed table" (Parser.self_line p)
                  (Parser.self_filename p) None None).
Proof.
  intros Ht Hl. unfold Parser.action_table_row.
  cbv [mbind Parser.M_bind Parser.get]. rewrite Ht.
  destruct (PyStr.matches_row_pattern line) eqn:E; simpl.
  2: destruct Hl as [Hl|[f Hf]]; [congruence|]; rewrite Hf; simpl.
  all: destruct (_ =? _); reflexivity.
Qed.

(** C3.  Every table of every object built by a successful whole-file parse
    is rectangular: each of its rows has as many cells as the table has
    headings.  The first pipe row of a table gives the headings; a later row
    is added when it has as many cells as the headings and makes the parse
    fail with the ParserError "Malformed table" otherwise. *)
Theorem table_rows_match_headings :
  forall (languages : gmap string Parser.Keywords) (strip_colon : bool),
    (forall id text language filename r p,
        parse_feature languages strip_colon id text language filename
        = Ok (r, p) ->
        forall o t, o ∈ Parser.store p -> t ∈ Tables.tables_of o ->
          Forall (fun row => length (Model.cells row)
                             = length (Model.headings t)) (Model.rows t))
    /\ (forall p line,
          Parser.self_table p = None -> loggable p line ->
          exists p',
            Parser.action_table_row line p = Ok (true, p')
            /\ Parser.self_table p'
               = Some {| Model.headings := Parser.row_cells line;
                         Model.table_line := Parser.self_line p;
                         Model.rows := [] |})
    /\ (forall p t line,
          Parser.self_table p = Some t -> loggable p line ->
          length (Parser.row_cells line) <> length (Model.headings t) ->
          Parser.action_table_row line p
          = Raise (ParserError "Malformed table" (Parser.self_line p)
                     (Parser.self_filename p) None None))
    /\ (forall p t line,
          Parser.self_table p = Some t -> loggable p line ->
          length (Parser.row_cells line) = length (Model.headings t) ->
          exists p',
            Parser.action_table_row line p = Ok (true, p')
            /\ Parser.self_table p'
               = Some (Model.add_row t (Parser.row_cells line)
                         (Parser.self_line p))).
Proof.
  intros languages strip_colon. repeat split.
  - intros id text language filename r p H o t Ho Ht.
    unfold parse_feature in H.
    destruct (Parser.__init__ languages id language None) as [p0|e] eqn:E0;
      [|destruct e; discriminate].
    apply TablesFacts.inv___init__ in E0.
    pose proof (TablesFacts.runs_ok_parse languages strip_colon id text filename
                  p0 E0) as Hrun.
    destruct (Parser.parse _ _ _ _ p0) as [[r' p']|[]];
      simpl in H; try discriminate.
    inversion H; subst. destruct Hrun as [[Hstore _] _].
    rewrite Forall_forall in Hstore. specialize (Hstore o Ho).
    apply TablesFacts.obj_ok_tables in Hstore.
    rewrite Forall_forall in Hstore. exact (Hstore t Ht).
  - intros p line Ht Hl. eexists. split.
    + apply action_table_row_first; assumption.
    + reflexivity.
  - intros p t line Ht Hl Hne. rewrite (action_table_row_next p t); auto.
    apply Nat.eqb_neq in Hne. rewrite Hne. reflexivity.
  - intros p t line Ht Hl Heq. rewrite (action_table_row_next p t); auto.
    apply Nat.eqb_eq in Heq. rewrite Heq. eexists. split; reflexivity.
Qed.

Lemma table_rows_match_headings_witness :
  (exists r p o t,
      parse_feature sample_languages false 0 outline_text
        None None = Ok (r, p)
      /\ o ∈ Parser.store p /\ t ∈ Tables.tables_of o
      /\ map Model.cells (Model.rows t) = [["1"]; ["2"]]
      /\ Forall (fun row => length (Model.cells row)
                            = length (Model.headings t)) (Model.rows t))
  /\ (exists p',
        Parser.action_table_row "| a | b |" (Parser.blank 0 None "feature")
        = Ok (true, p')
        /\ Parser.self_table p'
           = Some {| Model.headings := ["a"; "b"]; Model.table_line := 0;
                     Model.rows := [] |})
  /\ Parser.action_table_row "| 1 |"
       (Parser.set_table (Some (Model.new_table ["a"; "b"] 1))
          (Parser.blank 0 None "feature"))
     = Raise (ParserError "Malformed table" 0 None None None)
  /\ (exists p',
        Parser.action_table_row "| 1 | 2 |"
          (Parser.set_table (Some (Model.new_table ["a"; "b"] 1))
             (Parser.blank 0 None "feature"))
        = Ok (true, p')
        /\ Parser.self_table p'
           = Some (Model.add_row (Model.new_table ["a"; "b"] 1) ["1"; "2"] 0)).
Proof.
  pose proof (table_rows_match_headings sample_languages false)
    as (Hall & Hfirst & Hbad & Hgood).
  split; [|split; [|split]].
  - eexists _, _, _, _. split; [vm_compute; reflexivity|].
    split; [do 2 apply list_elem_of_further; apply list_elem_of_here|].
    split; [apply list_elem_of_here|]. split; [reflexivity|].
    eapply (Hall 0 outline_text None None).
    + vm_compute. reflexivity.
    + do 2 apply list_elem_of_further. apply list_elem_of_here.
    + apply list_elem_of_here.
  - apply (Hfirst (Parser.blank 0 None "feature") "| a | b |");
      [reflexivity|left; reflexivity].
  - apply (Hbad (Parser.set_table (Some (Model.new_table ["a"; "b"] 1))
          (Parser.blank 0 None "feature")) (Model.new_table ["a"; "b"] 1) "| 1 |");
      [reflexivity|left; reflexivity|]. vm_compute. lia.
  - apply (Hgood (Parser.set_table (Some (Model.new_table ["a"; "b"] 1))
          (Parser.blank 0 None "feature")) (Model.new_table ["a"; "b"] 1) "| 1 | 2 |");
      [reflexivity|left; reflexivity|reflexivity].
Defined.

(** ** Tag lines *)

Lemma collect_tags_words line_number file line words :
  match tag_words words with
  | Some names =>
      Parser.collect_tags line_number file line words
      = Ok (tags_at line_number names)
  | None =>
      exists message,
        Parser.collect_tags line_number file line words
        = Raise (ParserError message line_number file None None)
  end.
Proof.
  induction words as [|word rest IH]; simpl; [reflexivity|].
  destruct (PyStr.startswith word "#") eqn:Hhash.
  - destruct (PyStr.startswith word "@") eqn:Hat; [|reflexivity].
    destruct word as [|c word]; [discriminate|].
    cbn [PyStr.startswith] in Hhash, Hat.
    rewrite andb_true_r in Hhash, Hat.
    apply Ascii.eqb_eq in Hhash, Hat. congruence.
  - destruct (PyStr.startswith word "@"); [|eexists; reflexivity].
    destruct (tag_words rest) as [names|]; simpl.
    + rewrite IH. reflexivity.
    + destruct IH as [message ->]. eexists. reflexivity.
Qed.

Lemma parse_tags_run p line :
  PyStr.startswith line "@" = true ->
  match tag_words (PyStr.split line) with
  | Some names =>
      Parser.parse_tags line p = Ok (tags_at (Parser.self_line p) names, p)
  | None =>
      exists message,
        Parser.parse_tags line p
        = Raise (ParserError message (Parser.self_line p)
                   (Parser.self_filename p) None None)
  end.
Proof.
  intros Hat. unfold Parser.parse_tags. rewrite Hat. simpl.
  cbv [mbind Parser.M_bind Parser.get].
  pose proof (collect_tags_words (Parser.self_line p)
                (Parser.self_filename p) line (PyStr.split line)) as Hw.
  destruct (tag_words (PyStr.split line)) as [names|].
  - rewrite Hw. reflexivity.
  - destruct Hw as [message ->]. eexists. reflexivity.
Qed.

(** C6.  On a line that begins with [@], [parse_tags] splits the line on
    whitespace and goes through the words in order: a word starting with
    [#] ends the parsing, a word starting with [@] gives the tag named by
    the rest of the word (duplicates kept, in order), and any other word
    raises a ParserError; the line [@a @b  @c  # comment] gives the tags
    a, b, c. *)
Theorem parse_tags_by_words :
  forall (p : Parser.Parser),
    (forall line,
        PyStr.startswith line "@" = true ->
        match tag_words (PyStr.split line) with
        | Some names =>
            Parser.parse_tags line p
            = Ok (tags_at (Parser.self_line p) names, p)
        | None =>
            exists message,
              Parser.parse_tags line p
              = Raise (ParserError message (Parser.self_line p)
                         (Parser.self_filename p) None None)
        end)
    /\ Parser.parse_tags "@a @b  @c  # comment" p
       = Ok (tags_at (Parser.self_line p) ["a"; "b"; "c"], p).
Proof.
  intros p. split; [intros line Hat; apply parse_tags_run; exact Hat|].
  exact (parse_tags_run p "@a @b  @c  # comment" eq_refl).
Qed.

Lemma parse_tags_by_words_witness :
  Parser.parse_tags "@wip @slow @wip"
    (Parser.set_line 3 (Parser.blank 0 None "feature"))
  = Ok (tags_at 3 ["wip"; "slow"; "wip"],
        Parser.set_line 3 (Parser.blank 0 None "feature"))
  /\ exists message,
       Parser.parse_tags "@wip slow"
         (Parser.set_line 3 (Parser.blank 0 None "feature"))
       = Raise (ParserError message 3 None None None).
Proof.
  split.
  - exact (proj1 (parse_tags_by_words
                    (Parser.set_line 3 (Parser.blank 0 None "feature")))
             "@wip @slow @wip" eq_refl).
  - exact (proj1 (parse_tags_by_words
                    (Parser.set_line 3 (Parser.blank 0 None "feature")))
             "@wip slow" eq_refl).
Defined.

(** ** Doc-strings *)



Lemma rstrip_head c s :
  PyStr.isspace c = false ->
  PyStr.rstrip (String c s) = String c (PyStr.rstrip s).
Proof. intros H. simpl. rewrite H, andb_false_r. reflexivity. Qed.

Lemma strip_all_space s :
  PyStr.truthy (PyStr.strip s) = negb (all_space s).
Proof.
  unfold PyStr.strip. induction s as [|c s IH]; simpl; [reflexivity|].
  destruct (PyStr.isspace c) eqn:Hc; simpl; [exact IH|].
  change (PyStr.truthy (PyStr.rstrip (String c s)) = true).
  rewrite (rstrip_head c s Hc). reflexivity.
Qed.

Lemma map_last_app {A} (f : A -> A) l x :
  Parser.map_last f (l ++ [x]) = l ++ [f x].
Proof.
  induction l as [|y l IH]; simpl; [reflexivity|].
  rewrite IH. destruct l; reflexivity.
Qed.

Lemma get_set_steps o steps l :
  Model.get_steps o = Some steps ->
  exists o', Model.set_steps l o = Some o' /\ Model.get_steps o' = Some l.
Proof.
  destruct o; simpl; intros [= <-]; eexists; split; reflexivity.
Qed.

Lemma update_last_step_last (f : Model.Step -> Model.Step) p statement o
    steps step :
  Parser.self_statement p = Some statement ->
  Parser.store p !! statement = Some o ->
  Model.get_steps o = Some (steps ++ [step]) ->
  exists o',
    Model.set_steps (steps ++ [f step]) o = Some o'
    /\ Model.get_steps o' = Some (steps ++ [f step])
    /\ Parser.update_last_step f p
       = Ok (tt, Parser.set_store (<[statement := o']> (Parser.store p)) p).
Proof.
  intros Hs Ho Hsteps.
  destruct (get_set_steps o _ (steps ++ [f step]) Hsteps) as (o' & Hset & Hget).
  exists o'. split; [exact Hset|]. split; [exact Hget|].
  unfold Parser.update_last_step, Parser.update, Parser.deref.
  cbv [mbind Parser.M_bind Parser.get]. rewrite Hs. simpl.
  rewrite Ho, Hsteps. simpl.
  destruct (steps ++ [step]) as [|s0 l0] eqn:E.
  { destruct steps; discriminate. }
  rewrite <- E, Ho, map_last_app, Hset. reflexivity.
Qed.

Lemma length_lstrip s : String.length (PyStr.lstrip s) <= String.length s.
Proof.
  induction s as [|c s IH]; simpl; [lia|].
  destruct (PyStr.isspace c); simpl; lia.
Qed.

Lemma lstrip_first s c rest :
  PyStr.lstrip s = String c rest -> PyStr.isspace c = false.
Proof.
  induction s as [|d s IH]; simpl; [discriminate|].
  destruct (PyStr.isspace d) eqn:E; [exact IH|]. intros [= <- _]. exact E.
Qed.

(** [line.index(stripped[0])] is the number of whitespace characters that
    [lstrip] removed: the column of the fence. *)
Lemma index_lstrip s c rest :
  PyStr.lstrip s = String c rest ->
  PyStr.index s c
  = Some (String.length s - String.length (PyStr.lstrip s)).
Proof.
  induction s as [|d s IH]; [discriminate|]. intros H.
  pose proof (lstrip_first _ _ _ H) as Hc.
  cbn [PyStr.lstrip PyStr.index] in *.
  destruct (PyStr.isspace d) eqn:E.
  - destruct (Ascii.eqb_spec d c) as [->|_]; [congruence|].
    rewrite (IH H). pose proof (length_lstrip s). simpl.
    f_equal. lia.
  - injection H as -> _. rewrite Ascii.eqb_refl. simpl. f_equal. lia.
Qed.

Lemma action_steps_opens languages p line statement o step steps :
  Parser.is_fence (PyStr.lstrip line) = true ->
  Parser.self_statement p = Some statement ->
  Parser.store p !! statement = Some o ->
  Model.get_steps o = Some (step :: steps) ->
  Parser.action_steps languages line p
  = Ok (true,
        Parser.set_multiline_leading
          (Some (String.length line - String.length (PyStr.lstrip line)))
          (Parser.set_multiline_terminator
             (Some (PyStr.take 3 (PyStr.lstrip line)))
             (Parser.set_multiline_start (Some (Parser.self_line p))
                (Parser.set_state Parser.MULTILINE_TEXT p)))).
Proof.
  intros Hfence Hs Ho Hsteps. unfold Parser.action_steps. rewrite Hfence.
  unfold Parser.statement_steps, Parser.deref.
  cbv [mbind Parser.M_bind Parser.get mret Parser.M_ret Parser.modify
       Parser.the].
  rewrite Hs. cbn [Parser.the].
  cbv [mbind Parser.M_bind Parser.get mret Parser.M_ret Parser.modify
       Parser.the].
  rewrite Ho, Hsteps.
  destruct (PyStr.lstrip line) as [|c rest] eqn:E; [discriminate|].
  rewrite (index_lstrip line c rest E), E. reflexivity.
Qed.



(** ** Step types *)

Lemma inherited_steps_pure p bg :
  inherited_readable (Parser.store p) bg ->
  Parser.inherited_steps bg p = Ok (inherited_steps_of (Parser.store p) bg, p).
Proof.
  unfold inherited_readable, inherited_steps_of, Parser.inherited_steps,
    Parser.deref.
  cbv [mbind Parser.M_bind]. intros H.
  destruct (Model.background_parent bg) as [parent|]; [|reflexivity].
  destruct (Parser.store p !! parent) as [[]|]; try reflexivity; [|destruct H].
  destruct (Model.rule_parent r) as [feature|]; [|reflexivity].
  destruct (Parser.store p !! feature) as [f|]; [|destruct H].
  destruct (Model.get_background f) as [[fb|]|]; try reflexivity.
  destruct H as [o ->]. reflexivity.
Qed.

Lemma select_last_background_step_type_pure p :
  background_readable p ->
  Parser._select_last_background_step_type p
  = Ok (last_background_step_type p, p).
Proof.
  unfold background_readable, last_background_step_type,
    container_background, Parser._select_last_background_step_type,
    Parser.deref.
  cbv [mbind Parser.M_bind Parser.get]. intros H.
  destruct (Parser.self_scenario_container p) as [c|]; [|reflexivity].
  destruct (Parser.store p !! c) as [oc|]; [|destruct H].
  destruct (Model.get_background oc) as [[b|]|]; simpl;
    [|reflexivity|destruct H].
  destruct (Parser.store p !! b) as [[]|]; try destruct H.
  unfold applicable_steps.
  destruct (Model.background_steps b0) as [|s l] eqn:E.
  - rewrite (inherited_steps_pure p b0 H). reflexivity.
  - reflexivity.
Qed.

Lemma parse_step_aliases_found ty line kws kw p :
  List.find (Parser.line_starts_with_keyword line) kws = Some kw ->
  Parser.parse_step_aliases ty line kws p
  = (Some <$> Parser.make_step ty kw line) p.
Proof.
  induction kws as [|kw' rest IH]; simpl; [discriminate|].
  destruct (Parser.line_starts_with_keyword line kw').
  - intros [= ->]. reflexivity.
  - exact IH.
Qed.

Lemma parse_step_aliases_none ty line kws p :
  List.find (Parser.line_starts_with_keyword line) kws = None ->
  Parser.parse_step_aliases ty line kws p = Ok (None, p).
Proof.
  induction kws as [|kw' rest IH]; simpl; [reflexivity|].
  destruct (Parser.line_starts_with_keyword line kw'); [discriminate|].
  exact IH.
Qed.

Lemma parse_step_types_matched p k line types ty kw :
  Parser.self_keywords p = Some k ->
  matched_keyword k line types = Some (ty, kw) ->
  Parser.parse_step_types line types p
  = (Some <$> Parser.make_step ty kw line) p.
Proof.
  intros Hk. induction types as [|ty' rest IH]; simpl; [discriminate|].
  unfold Parser.keywords_at. cbv [mbind Parser.M_bind Parser.get].
  rewrite Hk. destruct (k !! ty') as [kws|]; [|discriminate]. simpl.
  destruct (List.find _ kws) as [kw'|] eqn:Hfind.
  - intros [= -> ->]. rewrite (parse_step_aliases_found _ _ _ _ _ Hfind).
    unfold fmap, Parser.M_fmap. cbv [mbind Parser.M_bind].
    destruct (Parser.make_step ty kw line p) as [[s p']|e]; reflexivity.
  - rewrite (parse_step_aliases_none _ _ _ _ Hfind). exact IH.
Qed.

Lemma matched_keyword_type k line types ty kw :
  matched_keyword k line types = Some (ty, kw) -> ty ∈ types.
Proof.
  induction types as [|ty' rest IH]; simpl; [discriminate|].
  destruct (k !! ty') as [kws|]; [|discriminate].
  destruct (List.find _ kws).
  - intros [= -> ->]. apply list_elem_of_here.
  - intros H. apply list_elem_of_further, IH, H.
Qed.

Lemma make_step_and_but p ty kw line :
  ty = "and" \/ ty = "but" ->
  background_readable p ->
  Parser.make_step ty kw line p
  = match nearest_typed_predecessor p with
    | Some t =>
        Ok (step_of p kw t line,
            match Parser.known (Parser.self_last_step_type p) with
            | Some _ => p
            | None =>
                Parser.set_last_step_type (last_background_step_type p) p
            end)
    | None =>
        Raise (ParserError
                 (PyStr.upper ty +:+
                  "-STEP REQUIRES: An previous Given/When/Then step.")
                 (Parser.self_line p) (Parser.self_filename p) None None)
    end.
Proof.
  intros Hty Hread. unfold Parser.make_step, nearest_typed_predecessor.
  cbv [mbind Parser.M_bind Parser.get].
  assert (String.eqb ty "and" || String.eqb ty "but" = true) as ->.
  { destruct Hty as [-> | ->]; reflexivity. }
  destruct (Parser.known (Parser.self_last_step_type p)) as [last|] eqn:Hlast.
  - destruct (PyStr.startswith kw "*"); reflexivity.
  - assert ((if PyStr.startswith kw "*" then @None string else None) = None)
      as -> by (destruct (PyStr.startswith kw "*"); reflexivity).
    rewrite (select_last_background_step_type_pure p Hread). simpl.
    destruct (Parser.known (last_background_step_type p)); reflexivity.
Qed.



Lemma make_step_plain p ty kw line :
  Parser.known (Parser.self_last_step_type p) = None ->
  ty ∈ ["given"; "when"; "then"] ->
  Parser.make_step ty kw line p
  = Ok (step_of p kw ty line, Parser.set_last_step_type (Some ty) p).
Proof.
  intros Hlast Hty. unfold Parser.make_step.
  cbv [mbind Parser.M_bind Parser.get]. rewrite Hlast.
  assert ((if PyStr.startswith kw "*" then @None string else None) = None)
    as -> by (destruct (PyStr.startswith kw "*"); reflexivity).
  assert (String.eqb ty "and" || String.eqb ty "but" = false) as ->.
  { rewrite !elem_of_cons in Hty.
    destruct Hty as [-> | [-> | [-> | Hty]]]; try reflexivity.
    inversion Hty. }
  reflexivity.
Qed.

(** The steps of a successful whole-file parse have the types given, when
    and then only. *)
Lemma parsed_steps_typed languages strip_colon id text language filename r p :
  parse_feature languages strip_colon id text language filename = Ok (r, p) ->
  forall o steps s,
    o ∈ Parser.store p -> Model.get_steps o = Some steps -> s ∈ steps ->
    Model.step_type s ∈ Tables.semantic_types.
Proof.
  intros H o steps s Ho Hsteps Hs. unfold parse_feature in H.
  destruct (Parser.__init__ languages id language None) as [p0|e] eqn:E0;
    [|destruct e; discriminate].
  apply TablesFacts.inv___init__ in E0.
  pose proof (TablesFacts.runs_ok_parse languages strip_colon id text filename
                p0 E0) as Hrun.
  destruct (Parser.parse _ _ _ _ p0) as [[r' p']|[]];
    simpl in H; try discriminate.
  inversion H; subst. destruct Hrun as [[Hstore _] _].
  rewrite Forall_forall in Hstore. specialize (Hstore o Ho).
  apply (TablesFacts.get_steps_ok o steps Hstore) in Hsteps.
  rewrite Forall_forall in Hsteps. apply (Hsteps s Hs).
Qed.

(** C5, as the code has it.  A step line matched with an alias that starts
    with the bullet [*] takes the last step type of the block when one is
    known.  When none is known the bullet is an alias like any other: as an
    alias of given, when or then the step takes that type, which becomes
    the last step type; as an alias of and or but the step takes the type
    of the last step of the applicable Background, and the parse fails when
    there is none.  The type is never the name "step": the steps of a
    successful whole-file parse have the types given, when and then only. *)
Theorem bullet_step_type :
  (forall (p : Parser.Parser) (k : Parser.Keywords) (line ty kw : string),
    Parser.self_keywords p = Some k ->
    matched_keyword k line step_types = Some (ty, kw) ->
    PyStr.startswith kw "*" = true ->
    (forall last,
        Parser.known (Parser.self_last_step_type p) = Some last ->
        Parser.parse_step line p = Ok (Some (step_of p kw last line), p))
    /\ (Parser.known (Parser.self_last_step_type p) = None ->
        ty ∈ ["given"; "when"; "then"] ->
        Parser.parse_step line p
        = Ok (Some (step_of p kw ty line),
              Parser.set_last_step_type (Some ty) p)
        /\ Model.step_type (step_of p kw ty line) <> "step")
    /\ (Parser.known (Parser.self_last_step_type p) = None ->
        ty = "and" \/ ty = "but" ->
        background_readable p ->
        match Parser.known (last_background_step_type p) with
        | Some t =>
            Parser.parse_step line p
            = Ok (Some (step_of p kw t line),
                  Parser.set_last_step_type (last_background_step_type p) p)
        | None =>
            exists message,
              Parser.parse_step line p
              = Raise (ParserError message (Parser.self_line p)
                         (Parser.self_filename p) None None)
        end)
    /\ ty ∈ step_types)
  /\ (forall languages strip_colon id text language filename r p,
        parse_feature languages strip_colon id text language filename
        = Ok (r, p) ->
        forall o steps s,
          o ∈ Parser.store p -> Model.get_steps o = Some steps ->
          s ∈ steps ->
          Model.step_type s ∈ ["given"; "when"; "then"]
          /\ Model.step_type s <> "step").
Proof.
  split.
  2: { intros languages strip_colon id text language filename r p H o steps s
         Ho Hsteps Hs.
       pose proof (parsed_steps_typed _ _ _ _ _ _ _ _ H o steps s Ho Hsteps
                     Hs) as Hty.
       split; [exact Hty|]. unfold Tables.semantic_types in Hty.
       rewrite !elem_of_cons in Hty.
       destruct Hty as [-> | [-> | [-> | Hty]]]; try discriminate.
       inversion Hty. }
  intros p k line ty kw Hk Hm Hstar.
  assert (Parser.parse_step line p
          = (Some <$> Parser.make_step ty kw line) p) as Hstep.
  { unfold Parser.parse_step. fold step_types.
    apply (parse_step_types_matched p k line step_types ty kw Hk Hm). }
  rewrite Hstep. unfold fmap, Parser.M_fmap. cbv [mbind Parser.M_bind].
  split; [|split; [|split]].
  - intros last Hlast. unfold Parser.make_step.
    cbv [mbind Parser.M_bind Parser.get]. rewrite Hstar, Hlast. reflexivity.
  - intros Hlast Hty. rewrite (make_step_plain p ty kw line Hlast Hty).
    split; [reflexivity|]. simpl. rewrite !elem_of_cons in Hty.
    destruct Hty as [-> | [-> | [-> | Hty]]]; try discriminate.
    inversion Hty.
  - intros Hlast Hty Hread.
    rewrite (make_step_and_but p ty kw line Hty Hread).
    unfold nearest_typed_predecessor. rewrite Hlast.
    destruct (Parser.known (last_background_step_type p));
      [reflexivity|eexists; reflexivity].
  - exact (matched_keyword_type k line step_types ty kw Hm).
Qed.

Lemma bullet_step_type_witness :
  Parser.parse_step "* y" after_when_step
  = Ok (Some (step_of after_when_step "* " "when" "* y"), after_when_step)
  /\ (Parser.parse_step "* x" in_bare_scenario
      = Ok (Some (step_of in_bare_scenario "* " "given" "* x"),
            Parser.set_last_step_type (Some "given") in_bare_scenario)
      /\ Model.step_type (step_of in_bare_scenario "* " "given" "* x")
         <> "step")
  /\ (exists r p o s,
        parse_feature sample_languages false 0 bullet_text None None
        = Ok (r, p)
        /\ Parser.store p !! 1 = Some o
        /\ Model.get_steps o = Some [s]
        /\ Model.step_keyword s = "*"
        /\ Model.step_type s ∈ ["given"; "when"; "then"]
        /\ Model.step_type s <> "step").
Proof.
  pose proof (proj1 bullet_step_type after_when_step english "* y" "given"
                "* " eq_refl eq_refl eq_refl) as (H1 & _).
  pose proof (proj1 bullet_step_type in_bare_scenario english "* x" "given"
                "* " eq_refl eq_refl eq_refl) as (_ & H2 & _).
  split; [|split].
  - exact (H1 "when" eq_refl).
  - apply H2; [reflexivity|]. apply list_elem_of_here.
  - eexists _, _, _, _. split; [vm_compute; reflexivity|].
    split; [reflexivity|]. split; [reflexivity|]. split; [reflexivity|].
    eapply (proj2 bullet_step_type sample_languages false 0 bullet_text
              None None).
    + vm_compute. reflexivity.
    + apply list_elem_of_further, list_elem_of_here.
    + reflexivity.
    + apply list_elem_of_here.
Defined.

(** The claim C5 fails on the text [bullet_text]: the scenario has no typed
    step before the bullet step, which gets the type given and not the
    name "step". *)
Lemma bullet_step_type_counterexample :
  exists r p o step,
    parse_feature sample_languages false 0 bullet_text None None = Ok (r, p)
    /\ Parser.self_last_step_type
         (Parser.set_last_step_type None
            (after_lines (nl "Feature: F\nScenario: A\n"))) = None
    /\ Parser.store p !! 1 = Some o
    /\ Model.get_steps o = Some [step]
    /\ Model.step_keyword step = "*"
    /\ Model.step_type step = "given"
    /\ Model.step_type step <> "step".
Proof.
  eexists _, _, _, _. split; [vm_compute; reflexivity|].
  split; [reflexivity|]. split; [reflexivity|]. split; [reflexivity|].
  split; [reflexivity|]. split; [reflexivity|]. discriminate.
Qed.

(** ** The parser of a feature *)

Lemma update_succeeds attribute r f p p' :
  Parser.update attribute r f p = Ok (tt, p') ->
  exists o o',
    Parser.store p !! r = Some o /\ f o = Some o'
    /\ p' = Parser.set_store (<[r := o']> (Parser.store p)) p.
Proof.
  unfold Parser.update, Parser.deref. cbv [mbind Parser.M_bind].
  destruct (Parser.store p !! r) as [o|]; [|discriminate].
  destruct (f o) as [o'|] eqn:E; [|discriminate].
  intros [= <-]. exists o, o'. auto.
Qed.

(** C9, as the code has it.  The Feature returned by a successful whole-file
    parse refers to the parser that built it: its attribute [parser] is set
    to that Parser instance, which in turn holds the feature. *)
Theorem feature_refers_to_its_parser :
  forall (languages : gmap string Parser.Keywords) (strip_colon : bool)
         (id : nat) (text : string) (language filename : option string)
         (f : Model.ref) (p : Parser.Parser),
    parse_feature languages strip_colon id text language filename
    = Ok (Some f, p) ->
    exists feature,
      Parser.store p !! f = Some (Model.OFeature feature)
      /\ Model.feature_parser feature = Some id
      /\ Parser.self_id p = id
      /\ Parser.self_feature p = Some f.
Proof.
  intros languages strip_colon id text language filename f p H.
  unfold parse_feature in H.
  destruct (Parser.__init__ languages id language None) as [p0|e] eqn:E0;
    [|destruct e; discriminate].
  apply (TablesFacts.inv___init__ languages id) in E0.
  assert (Parser.parse languages strip_colon text filename p0 = Ok (Some f, p))
    as Hparse.
  { destruct (Parser.parse _ _ _ _ p0) as [[r' p']|[]]; simpl in H;
      try discriminate; exact H. }
  clear H. unfold Parser.parse in Hparse.
  pose proof (TablesFacts.runs_ok__parse_loop languages strip_colon id text None
                filename p0 E0) as Hloop.
  cbv [mbind Parser.M_bind Parser.get] in Hparse.
  destruct (Parser._parse_loop _ _ _ _ _ p0) as [[[] p1]|e]; [|discriminate].
  destruct Hloop as (_ & _ & Hid).
  destruct (Parser.self_feature p1) as [f1|] eqn:Hf; [|discriminate].
  destruct (Parser.update "parser" f1 _ p1) as [[[] p2]|e] eqn:Hup;
    [|discriminate].
  injection Hparse as -> ->.
  apply update_succeeds in Hup as (o & o' & Ho & Hset & ->).
  destruct o; try discriminate. injection Hset as <-.
  eexists. split.
  - simpl. apply list_lookup_insert_eq. eapply lookup_lt_Some, Ho.
  - simpl. rewrite Hid. auto.
Qed.

Lemma feature_refers_to_its_parser_witness :
  exists p feature,
    parse_feature sample_languages false 7 (nl "Feature: A\n") None None
    = Ok (Some 0, p)
    /\ Parser.store p !! 0 = Some (Model.OFeature feature)
    /\ Model.feature_parser feature = Some 7
    /\ Parser.self_id p = 7
    /\ Parser.self_feature p = Some 0.
Proof.
  eexists _, _. split; [vm_compute; reflexivity|].
  edestruct (feature_refers_to_its_parser sample_languages false 7
               (nl "Feature: A\n") None None 0)
    as (feature & H1 & H2 & H3 & H4); [vm_compute; reflexivity|].
  split; [reflexivity|]. split; [reflexivity|]. split; [exact H3|exact H4].
Defined.

(** The claim C9 fails on the text of one Feature line: the feature returned
    holds the identity of the parser in its attribute [parser]. *)
Lemma feature_refers_to_its_parser_counterexample :
  exists p feature,
    parse_feature sample_languages false 7 (nl "Feature: A\n") None None
    = Ok (Some 0, p)
    /\ Parser.store p !! 0 = Some (Model.OFeature feature)
    /\ Parser.self_id p = 7
    /\ Model.feature_parser feature = Some (Parser.self_id p)
    /\ Model.feature_parser feature <> None.
Proof.
  eexists _, _. split; [vm_compute; reflexivity|].
  split; [reflexivity|]. split; [reflexivity|]. split; [reflexivity|].
  discriminate.
Qed.

(** ** A second Feature line *)

Lemma rejected_feature_line languages strip_colon p line func p1 k f :
  PyStr.startswith (PyStr.strip line) "#"
    && negb (bool_decide (Parser.self_state p = Parser.MULTILINE_TEXT))
  = false ->
  Parser.action_of languages strip_colon (Parser.self_state p) = Some func ->
  func line p = Ok (false, p1) ->
  Parser.self_feature p1 = Some f ->
  Parser.self_keywords p1 = Some k ->
  feature_line k (PyStr.strip line) ->
  Parser.action languages strip_colon line p
  = Raise (ParserError
             (String PyStr.LF "Parser failure in state=" +:+
              Parser.state_name (Parser.self_state p1))
             (Parser.self_line p1) (Parser.self_filename p1)
             (Some (PyStr.strip line)) (Some multiple_features)).
Proof.
  intros Hcomment Hfunc Hrun Hf Hk (aliases & alias & Hal & Hfind & Htrue).
  unfold Parser.action. cbv [mbind Parser.M_bind Parser.get].
  rewrite Hcomment, Hfunc, Hrun.
  unfold Parser.ask_parse_failure_oracle, Parser.match_keyword,
    Parser.keywords_at.
  cbv [mbind Parser.M_bind Parser.get mret Parser.M_ret]. rewrite Hk.
  assert (Parser.keywords_falsy (Some k) = false) as ->.
  { unfold Parser.keywords_falsy. apply bool_decide_eq_false. intros ->.
    rewrite lookup_empty in Hal. discriminate. }
  rewrite Hk, Hal, Hfind. unfold Parser.known. rewrite Htrue.
  unfold fmap, Parser.M_fmap, Parser.diagnose_feature_usage_error.
  cbv [mbind Parser.M_bind Parser.get mret Parser.M_ret]. rewrite Hf.
  reflexivity.
Qed.

(** C2, as the code has it.  The text of two Feature lines parses: in the
    state Feature the second line is a line of the description of Feature
    A.  A Feature line met while a feature exists is refused with the
    reason "Multiple features in one file are not supported." when the
    handler of the current state rejects the line, as the handler of the
    state Steps does: the text with a scenario and a step before the second
    Feature line fails at line 4 with that reason. *)
Theorem second_feature_line :
  (exists f p,
      parse_feature sample_languages false 0 two_features_text None None
      = Ok (Some f, p)
      /\ description_of p f = Some ["Feature: B"])
  /\ parse_feature sample_languages false 0 feature_after_steps_text
       None None
     = Raise (ParserError
                (String PyStr.LF "Parser failure in state=steps") 4 None
                (Some "Feature: B") (Some multiple_features))
  /\ (forall languages strip_colon p line func p1 k f,
        PyStr.startswith (PyStr.strip line) "#"
          && negb (bool_decide (Parser.self_state p = Parser.MULTILINE_TEXT))
        = false ->
        Parser.action_of languages strip_colon (Parser.self_state p)
        = Some func ->
        func line p = Ok (false, p1) ->
        Parser.self_feature p1 = Some f ->
        Parser.self_keywords p1 = Some k ->
        feature_line k (PyStr.strip line) ->
        exists message,
          Parser.action languages strip_colon line p
          = Raise (ParserError message (Parser.self_line p1)
                     (Parser.self_filename p1) (Some (PyStr.strip line))
                     (Some multiple_features))).
Proof.
  split; [|split].
  - eexists _, _. split; [vm_compute; reflexivity|]. reflexivity.
  - vm_compute. reflexivity.
  - intros languages strip_colon p line func p1 k f H1 H2 H3 H4 H5 H6.
    eexists. eapply rejected_feature_line; eassumption.
Qed.

Lemma second_feature_line_witness :
  exists message,
    Parser.action sample_languages false "Feature: B" after_given_step
    = Raise (ParserError message 4 None (Some "Feature: B")
               (Some multiple_features)).
Proof.
  refine (proj2 (proj2 second_feature_line) sample_languages false
            after_given_step "Feature: B"
            (Parser.action_steps sample_languages) after_given_step
            english 0 eq_refl eq_refl _ eq_refl eq_refl _).
  - vm_compute. reflexivity.
  - exists ["Feature"; "Business Need"; "Ability"], "Feature".
    split; [reflexivity|]. split; reflexivity.
Defined.

(** The claim C2 fails on its own text: the parse of the two Feature lines
    raises nothing and returns Feature A. *)
Lemma second_feature_line_counterexample :
  exists f p,
    parse_feature sample_languages false 0 two_features_text None None
    = Ok (Some f, p)
    /\ description_of p f = Some ["Feature: B"]
    /\ forall e,
         parse_feature sample_languages false 0 two_features_text None None
         <> Raise e.
Proof.
  eexists _, _. split; [vm_compute; reflexivity|]. split; [reflexivity|].
  intros e. vm_compute. discriminate.
Qed.

(** ** A second Background *)







(** ** Languages *)

Lemma rstrip_app_fixed a b :
  PyStr.rstrip b = b -> b <> "" -> PyStr.rstrip (a +:+ b) = a +:+ b.
Proof.
  intros Hb Hne. induction a as [|c a IH].
  - exact Hb.
  - change (String c a +:+ b) with (String c (a +:+ b)).
    cbn [PyStr.rstrip]. rewrite IH.
    destruct (a +:+ b) eqn:E; [|reflexivity].
    destruct a; cbv [append] in E; [congruence|discriminate].
Qed.


Section Languages.
Variable languages : gmap string Parser.Keywords.
Variable strip_colon : bool.

Lemma reset_initial filename p k :
  languages !! Parser.or_default (Parser.self_language p) = Some k ->
  exists p',
    Parser.reset languages filename p = Ok (tt, p')
    /\ Parser.self_state p' = Parser.INITIAL
    /\ Parser.self_tags p' = []
    /\ Parser.self_table p' = None
    /\ Parser.self_feature p' = None
    /\ Parser.self_variant p' = Parser.self_variant p
    /\ Parser.self_id p' = Parser.self_id p
    /\ Parser.store p' = Parser.store p.
Proof.
  intros Hk. unfold Parser.reset, Parser.languages_at.
  cbv [mbind Parser.M_bind Parser.get Parser.modify mret Parser.M_ret].
  cbn [Parser.self_language Parser.set_language]. rewrite Hk.
  eexists. split; [reflexivity|]. repeat split.
Qed.

Lemma init_ok id language variant :
  is_Some (languages !! Parser.or_default language) ->
  exists p,
    Parser.__init__ languages id language variant = Ok p
    /\ Parser.self_language p = language
    /\ Parser.self_variant p
       = match variant with
         | Some v => if PyStr.truthy v then v else "feature"
         | None => "feature"
         end
    /\ Parser.self_id p = id
    /\ Parser.store p = [].
Proof.
  intros [k Hk]. unfold Parser.__init__, Parser.languages_at.
  cbv [mbind Parser.M_bind Parser.get Parser.modify mret Parser.M_ret].
  rewrite Hk. unfold Parser.or_default in Hk. unfold Parser.truthy_opt.
  destruct language as [l|]; simpl.
  - destruct (PyStr.truthy l); [rewrite Hk|]; eexists; repeat split.
  - eexists; repeat split.
Qed.



End Languages.



(** ** A text without a feature *)

Section NoFeature.
Variable languages : gmap string Parser.Keywords.
Variable strip_colon : bool.

Lemma startswith_nonempty s pre :
  PyStr.startswith s pre = true -> pre <> "" -> PyStr.is_empty s = false.
Proof. destruct s, pre; simpl; congruence. Qed.

Lemma feed_one_idle line p :
  idle p -> harmless languages line ->
  exists p',
    Parser.feed languages strip_colon [line] p = Ok (tt, p') /\ idle p'.
Proof.
  intros (Hstate & Hfeat & Htable & Hvar) Hline.
  cbn [Parser.feed].
  cbv [mbind Parser.M_bind Parser.get mret Parser.M_ret Parser.modify].
  cbn [Parser.self_state Parser.set_line]. rewrite Hstate.
  rewrite bool_decide_eq_false_2 by discriminate. cbn [negb].
  destruct Hline as [Hblank|[[Hhash Hlang]|[Hat Htags]]].
  - rewrite Hblank. cbn [andb]. eexists. split; [reflexivity|].
    repeat split; assumption.
  - rewrite (startswith_nonempty _ _ Hhash) by discriminate. cbn [andb].
    unfold Parser.action.
    cbv [mbind Parser.M_bind Parser.get mret Parser.M_ret Parser.modify].
    cbn [Parser.self_state Parser.set_line Parser.self_tags
         Parser.self_variant].
    rewrite Hhash, Hstate, Hvar.
    rewrite bool_decide_eq_false_2 by discriminate.
    rewrite bool_decide_eq_true_2 by reflexivity.
    change ("feature" =? "feature")%string with true. cbn [andb negb orb].
    destruct (Parser.self_tags p).
    + destruct (Parser.language_comment _) as [language|].
      * destruct Hlang as [k Hk]. unfold Parser.languages_at. rewrite Hk.
        eexists. split; [reflexivity|]. repeat split; assumption.
      * eexists. split; [reflexivity|]. repeat split; assumption.
    + eexists. split; [reflexivity|]. repeat split; assumption.
  - rewrite (startswith_nonempty _ _ Hat) by discriminate. cbn [andb].
    assert (PyStr.startswith (PyStr.strip line) "#" = false) as Hhash.
    { destruct (PyStr.strip line) as [|c s]; [discriminate|].
      cbn [PyStr.startswith] in *. rewrite andb_true_r in *.
      apply Ascii.eqb_eq in Hat. subst c. reflexivity. }
    unfold Parser.action.
    cbv [mbind Parser.M_bind Parser.get mret Parser.M_ret Parser.modify].
    cbn [Parser.self_state Parser.set_line]. rewrite Hhash, Hstate.
    cbn [andb Parser.action_of]. unfold Parser.action_initial.
    rewrite Hat.
    cbv [mbind Parser.M_bind Parser.get mret Parser.M_ret Parser.modify].
    destruct Htags as [names Hnames].
    pose proof (parse_tags_run (Parser.set_line (Parser.self_line p + 1) p)
                  (PyStr.strip line) Hat) as Hparse.
    rewrite Hnames in Hparse. rewrite Hparse.
    unfold Parser.extend_tags, Parser.modify.
    eexists. split; [reflexivity|]. repeat split; assumption.
Qed.

Lemma feed_idle text_lines p :
  idle p -> Forall (harmless languages) text_lines ->
  exists p',
    Parser.feed languages strip_colon text_lines p = Ok (tt, p') /\ idle p'.
Proof.
  intros Hidle Hall. revert p Hidle.
  induction Hall as [|line rest Hline Hrest IH]; intros p Hidle.
  - exists p. split; [reflexivity|exact Hidle].
  - destruct (feed_one_idle line p Hidle Hline) as (p1 & Hone & Hidle1).
    destruct (IH p1 Hidle1) as (p2 & Hrun & Hidle2).
    exists p2. split; [|exact Hidle2].
    rewrite TablesFacts.feed_cons, Hone. exact Hrun.
Qed.

Lemma parse_idle text filename p k :
  languages !! Parser.or_default (Parser.self_language p) = Some k ->
  Parser.self_variant p = "feature" ->
  Forall (harmless languages) (PyStr.splitlines text) ->
  exists p',
    Parser.parse languages strip_colon text filename p = Ok (None, p').
Proof.
  intros Hk Hv Hall.
  destruct (reset_initial languages filename p k Hk)
    as (p1 & Hreset & Hstate & Htags & Htable & Hfeat & Hvar & _).
  destruct (feed_idle (PyStr.splitlines text) p1) as (p2 & Hfeed & Hidle).
  { repeat split; try assumption. rewrite Hvar. exact Hv. }
  { exact Hall. }
  destruct Hidle as (_ & Hfeat2 & Htable2 & _).
  unfold Parser.parse, Parser._parse_loop.
  cbv [mbind Parser.M_bind Parser.get mret Parser.M_ret Parser.modify].
  rewrite Hreset.
  cbv [mbind Parser.M_bind Parser.get mret Parser.M_ret Parser.modify].
  rewrite Hstate. rewrite bool_decide_eq_false_2 by discriminate.
  cbv beta iota. rewrite Hfeed. unfold Parser.close_table.
  cbv [mbind Parser.M_bind Parser.get mret Parser.M_ret Parser.modify].
  rewrite Htable2, Hfeat2. eexists. reflexivity.
Qed.

End NoFeature.

(** C10, as the code has it.  When every line of the text is blank, a
    comment whose language directive, if it has one, names a supported
    language, or a line of tags that tokenizes, the whole-file entry point
    of a parser whose language is supported returns None and raises
    nothing.  The reason "No feature found." comes with the rejection of a
    line only: a parse that fails with it has a line that the handler of
    the state it is read in rejects. *)
Theorem no_feature_returns_none :
  forall (languages : gmap string Parser.Keywords) (strip_colon : bool)
         (id : nat) (text : string) (language filename : option string),
    (is_Some (languages !! Parser.or_default language) ->
     Forall (harmless languages) (PyStr.splitlines text) ->
     exists p,
       parse_feature languages strip_colon id text language filename
       = Ok (None, p))
    /\ (forall message line file line_text,
          parse_feature languages strip_colon id text language filename
          = Raise (ParserError message line file line_text
                     (Some no_feature_found)) ->
          exists p0 p1,
            Parser.__init__ languages id language None = Ok p0
            /\ Parser.reset languages filename p0 = Ok (tt, p1)
            /\ Tables.rejected languages strip_colon
                 (PyStr.splitlines text) p1).
Proof.
  intros languages strip_colon id text language filename. split.
  - intros Hsome Hall. unfold parse_feature.
    destruct (init_ok languages id language None Hsome)
      as (p0 & -> & Hlang & Hvar & _).
    destruct Hsome as [k Hk].
    destruct (parse_idle languages strip_colon text filename p0 k)
      as [p Hp]; try assumption.
    + rewrite Hlang. exact Hk.
    + exists p. rewrite Hp. reflexivity.
  - intros message line file line_text H. unfold parse_feature in H.
    destruct (Parser.__init__ languages id language None) as [p0|e0] eqn:E0.
    + exists p0.
      destruct (Parser.parse languages strip_colon text filename p0)
        as [[r p]|e] eqn:Hparse; [discriminate|].
      destruct (TablesFacts.parse_reason languages strip_colon id text filename
                  p0 e) as (p1 & Hreset & Hrej).
      * apply (TablesFacts.inv___init__ languages id language None). exact E0.
      * exact Hparse.
      * destruct e; try discriminate. simpl in H. inversion H; subst.
        intros Hno. exact Hno.
      * exists p1. auto.
    + apply TablesFacts.__init___no_reason in E0.
      destruct e0; try discriminate. simpl in H. inversion H; subst.
      destruct E0.
Qed.

Lemma no_feature_returns_none_witness :
  (exists p,
      parse_feature sample_languages false 0 no_feature_text None None
      = Ok (None, p))
  /\ (exists p0 p1,
        Parser.__init__ sample_languages 0 None None = Ok p0
        /\ Parser.reset sample_languages None p0 = Ok (tt, p1)
        /\ Tables.rejected sample_languages false
             (PyStr.splitlines (nl "hello\n")) p1).
Proof.
  split.
  - apply (proj1 (no_feature_returns_none sample_languages false 0
                    no_feature_text None None)).
    + exists english. reflexivity.
    + change (PyStr.splitlines no_feature_text)
        with [""; "# only a comment"; "@wip @slow"].
      apply Forall_cons. split; [left; reflexivity|].
      apply Forall_cons. split; [right; left; split; [reflexivity|exact I]|].
      apply Forall_cons. split; [|apply Forall_nil_2].
      right. right. split; [reflexivity|]. eexists. reflexivity.
  - apply (proj2 (no_feature_returns_none sample_languages false 0
                    (nl "hello\n") None None)
             (String PyStr.LF "Parser failure in state=initial") 1 None
             (Some "hello")).
    vm_compute. reflexivity.
Defined.

(** The claim C10 fails on a text made of one comment line: no line is
    rejected and none is a Feature line, but the comment names a language
    that the table does not have, and the parse raises. *)
Lemma no_feature_returns_none_counterexample :
  Forall (fun line => PyStr.startswith (PyStr.strip line) "#" = true)
    (PyStr.splitlines language_comment_text)
  /\ ~ Tables.rejected sample_languages false
        (PyStr.splitlines language_comment_text) (after_lines "")
  /\ parse_feature sample_languages false 0 language_comment_text None None
     = Raise (LanguageNotSupported "xx")
  /\ forall p,
       parse_feature sample_languages false 0 language_comment_text None None
       <> Ok (None, p).
Proof.
  split; [apply Forall_cons; split; [reflexivity|apply Forall_nil_2]|].
  split.
  { change (PyStr.splitlines language_comment_text) with ["# language: xx"].
    intros H.
    inversion H as [line rest p func p' [_ Hd] Hf Hr
                   |line rest p p' Hfeed Hrest]; subst.
    - vm_compute in Hd. discriminate.
    - vm_compute in Hfeed. discriminate. }
  split; [vm_compute; reflexivity|].
  intros p. vm_compute. discriminate.
Qed.

(** ** The call of [action_table] in [action_steps] *)

Lemma rstrip_rstrip s : PyStr.rstrip (PyStr.rstrip s) = PyStr.rstrip s.
Proof.
  induction s as [|c s IH]; [reflexivity|]. cbn [PyStr.rstrip].
  destruct (PyStr.is_empty (PyStr.rstrip s) && PyStr.isspace c) eqn:E;
    [reflexivity|].
  cbn [PyStr.rstrip]. rewrite IH, E. reflexivity.
Qed.

Lemma lstrip_head s :
  PyStr.lstrip s = ""
  \/ exists c s', PyStr.lstrip s = String c s' /\ PyStr.isspace c = false.
Proof.
  induction s as [|c s IH]; [left; reflexivity|]. cbn [PyStr.lstrip].
  destruct (PyStr.isspace c) eqn:E; [exact IH|]. right. eauto.
Qed.

Lemma strip_strip s : PyStr.strip (PyStr.strip s) = PyStr.strip s.
Proof.
  unfold PyStr.strip. destruct (lstrip_head s) as [->|(c & s' & -> & Hc)].
  - reflexivity.
  - rewrite (rstrip_head c s' Hc). cbn [PyStr.lstrip]. rewrite Hc.
    rewrite <- (rstrip_head c s' Hc). apply rstrip_rstrip.
Qed.

(** [action_steps] hands its stripped line to [action_table] when the line
    starts with a pipe: [action_table] then reads a row. *)
Lemma action_table_on_row languages strip_colon line p :
  PyStr.startswith (PyStr.strip line) "|" = true ->
  Parser.action_table languages strip_colon (PyStr.strip line) p
  = Parser.action_table_row (PyStr.strip line) p.
Proof.
  intros H. unfold Parser.action_table. rewrite strip_strip, H. reflexivity.
Qed.

(** * Further properties of the parser

    ** Lines that are passed over *)

Section Skipping.
Variable languages : gmap string Parser.Keywords.
Variable strip_colon : bool.

Lemma set_line_twice n m p :
  Parser.set_line n (Parser.set_line m p) = Parser.set_line n p.
Proof. reflexivity. Qed.

Lemma set_line_same p : Parser.set_line (Parser.self_line p) p = p.
Proof. destruct p; reflexivity. Qed.

Lemma feed_skippable text_lines p :
  Parser.self_state p <> Parser.INITIAL ->
  Parser.self_state p <> Parser.MULTILINE_TEXT ->
  Forall skippable text_lines ->
  Parser.feed languages strip_colon text_lines p
  = Ok (tt, Parser.set_line (Parser.self_line p + length text_lines) p).
Proof.
  intros Hinit Hmulti Hall. revert p Hinit Hmulti.
  induction Hall as [|line rest Hline _ IH]; intros p Hinit Hmulti.
  - cbn [Parser.feed length]. rewrite Nat.add_0_r, set_line_same.
    reflexivity.
  - assert (Parser.feed languages strip_colon [line] p
            = Ok (tt, Parser.set_line (Parser.self_line p + 1) p)) as Hone.
    { cbn [Parser.feed].
      cbv [mbind Parser.M_bind Parser.get mret Parser.M_ret Parser.modify].
      cbn [Parser.self_state Parser.set_line].
      rewrite (bool_decide_eq_false_2 _ Hmulti). cbn [negb].
      destruct Hline as [Hblank|Hhash].
      - rewrite Hblank. reflexivity.
      - destruct (PyStr.is_empty _); cbn [andb]; [reflexivity|].
        unfold Parser.action.
        cbv [mbind Parser.M_bind Parser.get mret Parser.M_ret Parser.modify].
        cbn [Parser.self_state Parser.set_line]. rewrite Hhash.
        rewrite (bool_decide_eq_false_2 _ Hmulti).
        rewrite (bool_decide_eq_false_2 _ Hinit). reflexivity. }
    rewrite TablesFacts.feed_cons, Hone, IH by assumption.
    rewrite set_line_twice. cbn [Parser.self_line Parser.set_line length].
    do 3 f_equal. lia.
Qed.

End Skipping.

Section Runs.
Variable languages : gmap string Parser.Keywords.
Variable strip_colon : bool.

Lemma reset_run filename p k :
  languages !! Parser.or_default (Parser.self_language p) = Some k ->
  Parser.reset languages filename p = Ok (tt, after_reset k filename p).
Proof.
  intros Hk. unfold Parser.reset, Parser.languages_at.
  cbv [mbind Parser.M_bind Parser.get Parser.modify mret Parser.M_ret].
  cbn [Parser.self_language Parser.set_language]. rewrite Hk. reflexivity.
Qed.

Lemma or_default_truthy l : PyStr.truthy (Parser.or_default l) = true.
Proof.
  unfold Parser.or_default. destruct l as [l|]; [|reflexivity].
  destruct (PyStr.truthy l) eqn:E; [exact E|reflexivity].
Qed.

Lemma or_default_idem l :
  Parser.or_default (Some (Parser.or_default l)) = Parser.or_default l.
Proof.
  unfold Parser.or_default at 1. rewrite or_default_truthy. reflexivity.
Qed.

Lemma close_table_none p :
  Parser.self_table p = None ->
  Parser.close_table languages strip_colon p = Ok (tt, p).
Proof.
  intros H. unfold Parser.close_table.
  cbv [mbind Parser.M_bind Parser.get mret Parser.M_ret]. rewrite H.
  reflexivity.
Qed.

(** [Parser.parse_steps] on a text without a step: both passes read over
    the lines, and the scenario of the second pass has no steps. *)
Lemma parse_steps_skippable text filename p k kw kws :
  languages !! Parser.or_default (Parser.self_language p) = Some k ->
  k !! "scenario" = Some (kw :: kws) ->
  Forall skippable (PyStr.splitlines text) ->
  exists p',
    Parser.parse_steps languages strip_colon text filename p = Ok ([], p').
Proof.
  intros Hk Hkw Hall.
  assert (forall q,
    Parser.or_default (Parser.self_language q)
    = Parser.or_default (Parser.self_language p) ->
    exists p',
      (Parser.reset languages None;;
       Parser.modify (Parser.set_filename filename);;
       statement ← Parser.new (Model.OScenario
         {| Model.scenario_header :=
              {| Model.filename := filename; Model.line := 0;
                 Model.keyword := "scenario"; Model.name := "" |};
            Model.scenario_tags := []; Model.scenario_description := [];
            Model.scenario_steps := [] |});
       Parser.modify (Parser.set_statement (Some statement));;
       Parser.modify (Parser.set_state Parser.STEPS);;
       Parser.feed languages strip_colon (PyStr.splitlines text);;
       Parser.close_table languages strip_colon;;
       Parser._parse_loop languages strip_colon text (Some Parser.STEPS)
         filename;;
       Parser.statement_steps) q = Ok ([], p')) as Htail.
  { intros q Hq.
    cbv [mbind Parser.M_bind Parser.get mret Parser.M_ret Parser.modify].
    rewrite (reset_run None q k) by (rewrite Hq; exact Hk).
    unfold Parser.new. cbn [Parser.store Parser.set_filename after_reset].
    rewrite (feed_skippable languages strip_colon) by
      (try exact Hall; discriminate).
    rewrite close_table_none by reflexivity.
    unfold Parser._parse_loop.
    cbv [mbind Parser.M_bind Parser.get mret Parser.M_ret Parser.modify].
    erewrite reset_run.
    2: { cbn [Parser.self_language Parser.set_line Parser.set_state
              Parser.set_statement Parser.set_store Parser.set_filename
              after_reset].
         rewrite or_default_idem, Hq. exact Hk. }
    cbn [Parser.self_state Parser.set_state after_reset].
    rewrite bool_decide_eq_true_2 by reflexivity.
    unfold Parser.keywords_at.
    cbv [mbind Parser.M_bind Parser.get mret Parser.M_ret Parser.modify].
    cbn [Parser.self_keywords Parser.set_state after_reset]. rewrite Hkw.
    unfold Parser._build_scenario_statement, Parser.new.
    cbv [mbind Parser.M_bind Parser.get mret Parser.M_ret Parser.modify].
    cbn [Parser.self_scenario_container Parser.set_state Parser.set_statement
         Parser.set_store after_reset].
    rewrite (feed_skippable languages strip_colon) by
      (try exact Hall; discriminate).
    rewrite close_table_none by reflexivity.
    unfold Parser.statement_steps, Parser.deref.
    cbv [mbind Parser.M_bind Parser.get mret Parser.M_ret Parser.modify
         Parser.the].
    cbn [Parser.self_statement Parser.store Parser.set_line Parser.set_tags
         Parser.set_statement Parser.set_store Parser.set_state after_reset].
    rewrite lookup_app_r by reflexivity.
    rewrite Nat.sub_diag. cbn. eexists. reflexivity. }
  unfold Parser.parse_steps.
  unfold mbind at 1, Parser.M_bind at 1, Parser.get.
  unfold mbind at 1, Parser.M_bind at 1.
  unfold Parser.truthy_opt, Parser.or_default in *.
  destruct (Parser.self_language p) as [l|] eqn:El;
    [destruct (PyStr.truthy l) eqn:E|].
  - apply Htail. rewrite El, E. reflexivity.
  - apply Htail. reflexivity.
  - apply Htail. reflexivity.
Qed.

End Runs.

Lemma init_run languages id language variant :
  is_Some (languages !! Parser.or_default language) ->
  exists p,
    Parser.__init__ languages id language variant = Ok p
    /\ Parser.self_language p = language
    /\ Parser.self_line p = 0.
Proof.
  intros [k Hk]. unfold Parser.__init__, Parser.languages_at.
  cbv [mbind Parser.M_bind Parser.get Parser.modify mret Parser.M_ret].
  rewrite Hk. unfold Parser.or_default in Hk. unfold Parser.truthy_opt.
  destruct language as [l|]; simpl.
  - destruct (PyStr.truthy l); [rewrite Hk|]; eexists; repeat split.
  - eexists; repeat split.
Qed.

(** X1.  [parse_step] of the module returns the step when [parse_steps]
    finds exactly one.  For any other number of steps it does not raise
    the ParserError it means to: that error is built without its line, so
    a TypeError is raised.  This is what a text of blank lines and comments
    gets. *)
Theorem parse_step_wants_one_step :
  forall (languages : gmap string Parser.Keywords) (strip_colon : bool)
         (id : nat) (text : string) (language filename : option string),
    (forall steps p,
        parse_steps languages strip_colon id text language filename
        = Ok (steps, p) ->
        parse_step languages strip_colon id text language filename
        = match steps with
          | [step] => Ok (step, p)
          | _ => Raise missing_line
          end)
    /\ (forall k kw kws,
           languages !! Parser.or_default language = Some k ->
           k !! "scenario" = Some (kw :: kws) ->
           Forall skippable (PyStr.splitlines text) ->
           parse_step languages strip_colon id text language filename
           = Raise missing_line).
Proof.
  intros languages strip_colon id text language filename. split.
  - intros steps p H. unfold parse_step. rewrite H.
    destruct steps as [|step [|]]; reflexivity.
  - intros k kw kws Hk Hkw Hall. unfold parse_step, parse_steps.
    destruct (init_run languages id language (Some "steps"))
      as (p & -> & Hl & _); [eexists; exact Hk|].
    destruct (parse_steps_skippable languages strip_colon text filename p
                k kw kws) as [p' ->];
      [rewrite Hl; exact Hk|exact Hkw|exact Hall|].
    reflexivity.
Qed.

Lemma parse_step_wants_one_step_witness :
  parse_step sample_languages false 0 comments_only_text None None
  = Raise missing_line.
Proof.
  refine (proj2 (parse_step_wants_one_step sample_languages false 0
                   comments_only_text None None)
            english "Example" ["Scenario"] eq_refl eq_refl _).
  change (PyStr.splitlines comments_only_text)
    with ["# nothing here"; ""; "   "].
  apply Forall_cons. split; [right; reflexivity|].
  apply Forall_cons. split; [left; reflexivity|].
  apply Forall_cons. split; [left; reflexivity|]. constructor.
Defined.

(** X2.  [parse_tags] of the module: the empty text has no tags; a text
    that is not empty and does not begin with [@] (a leading blank is
    enough) raises the TypeError of a ParserError built without its line;
    a text that begins with [@] is read as one line, whatever line breaks
    it holds, and its tags carry the line number 0. *)
Theorem parse_tags_of_text :
  forall (languages : gmap string Parser.Keywords) (id : nat),
    parse_tags languages id "" = Ok []
    /\ (forall text,
           is_Some (languages !! "en") ->
           text <> "" -> PyStr.startswith text "@" = false ->
           parse_tags languages id text = Raise missing_line)
    /\ (forall text names,
           is_Some (languages !! "en") ->
           PyStr.startswith text "@" = true ->
           tag_words (PyStr.split text) = Some names ->
           parse_tags languages id text = Ok (tags_at 0 names)).
Proof.
  intros languages id. split; [reflexivity|]. split.
  - intros text Hen Hne Hat. unfold parse_tags.
    destruct text as [|c text]; [contradiction|]. cbn [PyStr.is_empty].
    destruct (init_run languages id None (Some "tags") Hen)
      as (p & -> & _ & _).
    unfold Parser.parse_tags. rewrite Hat. reflexivity.
  - intros text names Hen Hat Hnames. unfold parse_tags.
    destruct text as [|c text]; [discriminate|]. cbn [PyStr.is_empty].
    destruct (init_run languages id None (Some "tags") Hen)
      as (p & -> & _ & Hline).
    pose proof (parse_tags_run p (String c text) Hat) as Hrun.
    rewrite Hnames in Hrun. rewrite Hrun, Hline. reflexivity.
Qed.

Lemma parse_tags_of_text_witness :
  parse_tags sample_languages 0 " @a" = Raise missing_line
  /\ parse_tags sample_languages 0 tags_text
     = Ok (tags_at 0 ["a"; "b"; "c"]).
Proof.
  split.
  - apply (proj1 (proj2 (parse_tags_of_text sample_languages 0)) " @a");
      [eexists; reflexivity|discriminate|reflexivity].
  - apply (proj2 (proj2 (parse_tags_of_text sample_languages 0)) tags_text);
      [eexists; reflexivity|reflexivity|reflexivity].
Defined.

(** X3.  A table row that does not end with a pipe is meant to be logged
    and read all the same.  The warning names [self.feature.filename]:
    without a feature, as in the parsers of steps, scenarios and rules,
    the row raises AttributeError; with a feature it opens the table. *)
Theorem open_row_without_feature :
  forall (languages : gmap string Parser.Keywords) (strip_colon : bool)
         (p : Parser.Parser) (line : string),
    PyStr.startswith (PyStr.strip line) "|" = true ->
    PyStr.matches_row_pattern (PyStr.strip line) = false ->
    (Parser.self_feature p = None ->
     Parser.action_table languages strip_colon line p
     = Raise (AttributeError "filename"))
    /\ (is_Some (Parser.self_feature p) ->
        Parser.self_table p = None ->
        Parser.action_table languages strip_colon line p
        = Ok (true,
              Parser.set_table
                (Some (Model.new_table (Parser.row_cells (PyStr.strip line))
                         (Parser.self_line p))) p)).
Proof.
  intros languages strip_colon p line Hpipe Hopen.
  assert (Parser.action_table languages strip_colon line p
          = Parser.action_table_row (PyStr.strip line) p) as ->.
  { unfold Parser.action_table. rewrite Hpipe. reflexivity. }
  split.
  - intros Hf. unfold Parser.action_table_row.
    cbv [mbind Parser.M_bind Parser.get]. rewrite Hopen, Hf. reflexivity.
  - intros Hf Ht. apply action_table_row_first; [exact Ht|].
    right. exact Hf.
Qed.

Lemma open_row_without_feature_witness :
  Parser.action_table sample_languages false "  | a | b" after_lone_step
  = Raise (AttributeError "filename").
Proof.
  apply (proj1 (open_row_without_feature sample_languages false
                  after_lone_step "  | a | b" eq_refl eq_refl)).
  reflexivity.
Defined.

Section FreeText.
Variable languages : gmap string Parser.Keywords.
Variable strip_colon : bool.

Lemma feed_app l1 l2 p :
  Parser.feed languages strip_colon (l1 ++ l2) p
  = match Parser.feed languages strip_colon l1 p with
    | Ok (_, p') => Parser.feed languages strip_colon l2 p'
    | Raise e => Raise e
    end.
Proof.
  revert p. induction l1 as [|line l1 IH]; intros p; [reflexivity|].
  change ((line :: l1) ++ l2) with (line :: (l1 ++ l2)).
  rewrite TablesFacts.feed_cons, (TablesFacts.feed_cons _ _ line l1).
  destruct (Parser.feed languages strip_colon [line] p) as [[[] p1]|e];
    [apply IH|reflexivity].
Qed.

Lemma match_keyword_none p k line concept :
  Parser.self_keywords p = Some k -> no_keyword k line concept ->
  Parser.match_keyword languages concept line p = Ok (None, p).
Proof.
  intros Hk (aliases & Ha & Hfind). unfold Parser.match_keyword.
  cbv [mbind Parser.M_bind Parser.get mret Parser.M_ret]. rewrite Hk.
  unfold Parser.keywords_falsy.
  rewrite bool_decide_eq_false_2.
  2: { intros ->. rewrite lookup_empty in Ha. discriminate. }
  unfold Parser.keywords_at.
  cbv [mbind Parser.M_bind Parser.get mret Parser.M_ret].
  rewrite Hk, Ha, Hfind. reflexivity.
Qed.

Lemma subaction_none p k line :
  Parser.self_keywords p = Some k ->
  PyStr.startswith line "@" = false ->
  Forall (no_keyword k line)
    ["rule"; "scenario"; "scenario_outline"; "examples"] ->
  Parser.subaction_detect_taggable_statement languages line p
  = Ok (false, p).
Proof.
  intros Hk Hat Hall. rewrite !Forall_cons in Hall.
  destruct Hall as (Hr & Hs & Ho & He & _).
  unfold Parser.subaction_detect_taggable_statement. rewrite Hat.
  cbv [mbind Parser.M_bind].
  rewrite (match_keyword_none p k _ _ Hk Hr). cbn [Parser.known].
  rewrite (match_keyword_none p k _ _ Hk Hs). cbn [Parser.known].
  rewrite (match_keyword_none p k _ _ Hk Ho). cbn [Parser.known].
  rewrite (match_keyword_none p k _ _ Hk He). reflexivity.
Qed.

Lemma parse_step_types_none p k line types :
  Parser.self_keywords p = Some k ->
  Forall (no_step_keyword k line) types ->
  Parser.parse_step_types line types p = Ok (None, p).
Proof.
  intros Hk Hall. induction Hall as [|ty rest (kws & Hty & Hfind) _ IH];
    [reflexivity|].
  cbn [Parser.parse_step_types]. unfold Parser.keywords_at.
  cbv [mbind Parser.M_bind Parser.get mret Parser.M_ret].
  rewrite Hk, Hty, (parse_step_aliases_none _ _ _ _ Hfind). exact IH.
Qed.

Lemma action_rule_free_text p k line :
  Parser.self_keywords p = Some k -> Parser.self_rule p = None ->
  free_text k line ->
  Parser.action_rule languages line p = Raise (AttributeError "description").
Proof.
  intros Hk Hrule (_ & _ & Hat & Hall). rewrite !Forall_cons in Hall.
  destruct Hall as (Hr & Hs & Ho & He & Hb & _).
  unfold Parser.action_rule. cbv [mbind Parser.M_bind].
  rewrite (subaction_none p k) by (repeat constructor; assumption).
  rewrite (match_keyword_none p k _ _ Hk Hb). cbn [Parser.known].
  unfold Parser.describe.
  cbv [mbind Parser.M_bind Parser.get]. rewrite Hrule. reflexivity.
Qed.

Lemma action_scenario_free_text p k line :
  Parser.self_keywords p = Some k -> Parser.self_statement p = None ->
  free_text k line ->
  Forall (no_step_keyword k (PyStr.strip line)) step_types ->
  Parser.action_scenario languages line p
  = Raise (AttributeError "description").
Proof.
  intros Hk Hst (_ & _ & Hat & Hall) Hsteps. rewrite !Forall_cons in Hall.
  destruct Hall as (Hr & Hs & Ho & He & Hb & _).
  unfold Parser.action_scenario, Parser.parse_step.
  cbv [mbind Parser.M_bind Parser.modify].
  rewrite (parse_step_types_none _ k) by (try exact Hsteps; exact Hk).
  rewrite (subaction_none _ k) by (try exact Hk; repeat constructor; assumption).
  unfold Parser.describe.
  cbv [mbind Parser.M_bind Parser.get].
  cbn [Parser.self_statement Parser.set_last_step_type].
  rewrite Hst. reflexivity.
Qed.

(** The loop started in the state [s] of a statement, on a text whose first
    line that is not skipped is handled by [handler]. *)
Lemma parse_loop_first_line text s filename p k skipped line rest handler e :
  languages !! Parser.or_default (Parser.self_language p) = Some k ->
  s <> Parser.INITIAL -> s <> Parser.MULTILINE_TEXT -> s <> Parser.STEPS ->
  Parser.action_of languages strip_colon s = Some handler ->
  PyStr.splitlines text = skipped ++ line :: rest ->
  Forall skippable skipped ->
  PyStr.is_empty (PyStr.strip line) = false ->
  PyStr.startswith (PyStr.strip line) "#" = false ->
  handler line
    (Parser.set_line (length skipped + 1)
       (Parser.set_state s (after_reset k filename p))) = Raise e ->
  Parser._parse_loop languages strip_colon text (Some s) filename p
  = Raise e.
Proof.
  intros Hk Hi Hm Hs Hh Hlines Hskip Hblank Hhash Hrun.
  unfold Parser._parse_loop.
  cbv [mbind Parser.M_bind Parser.get mret Parser.M_ret Parser.modify].
  rewrite (reset_run languages filename p k Hk).
  cbn [Parser.self_state Parser.set_state].
  rewrite (bool_decide_eq_false_2 _ Hs).
  rewrite Hlines, feed_app.
  rewrite (feed_skippable languages strip_colon) by assumption.
  cbn [Parser.feed].
  cbv [mbind Parser.M_bind Parser.get mret Parser.M_ret Parser.modify].
  cbn [Parser.self_state Parser.set_state Parser.set_line Parser.self_line
       after_reset].
  rewrite Hblank. cbn [andb]. unfold Parser.action.
  cbv [mbind Parser.M_bind Parser.get mret Parser.M_ret Parser.modify].
  cbn [Parser.self_state Parser.set_state Parser.set_line]. rewrite Hhash.
  cbn [andb]. rewrite Hh. rewrite set_line_twice.
  change (0 + length skipped + 1) with (length skipped + 1).
  rewrite Hrun. reflexivity.
Qed.

End FreeText.

(** X4.  [parse_rule] and [parse_scenario] start in the state of a rule
    or of a scenario that does not exist yet.  When the first line that is
    not skipped is free text (for [parse_scenario]: free text that is no
    step either), the handler appends it to the description of that
    missing statement, which raises AttributeError. *)
Theorem parse_rule_wants_its_header :
  forall (languages : gmap string Parser.Keywords) (strip_colon : bool)
         (id : nat) (text : string) (language filename : option string)
         (k : Parser.Keywords) (skipped : list string) (line : string)
         (rest : list string),
    languages !! Parser.or_default language = Some k ->
    PyStr.splitlines text = skipped ++ line :: rest ->
    Forall skippable skipped ->
    free_text k line ->
    parse_rule languages strip_colon id text language filename
    = Raise (AttributeError "description")
    /\ (Forall (no_step_keyword k (PyStr.strip line)) step_types ->
        parse_scenario languages strip_colon id text language filename
        = Raise (AttributeError "description")).
Proof.
  intros languages strip_colon id text language filename k skipped line rest
    Hk Hlines Hskip Hfree.
  pose proof Hfree as (Hblank & Hhash & _).
  split; [|intros Hsteps].
  - unfold parse_rule.
    destruct (init_run languages id language (Some "rule"))
      as (p & -> & Hl & _); [eexists; exact Hk|].
    unfold Parser.parse_rule. cbv [mbind Parser.M_bind].
    rewrite (parse_loop_first_line languages strip_colon text Parser.RULE
               filename p k skipped line rest (Parser.action_rule languages)
               (AttributeError "description"));
      [reflexivity|rewrite Hl; exact Hk|discriminate..|reflexivity
      |exact Hlines|exact Hskip|exact Hblank|exact Hhash|].
    apply (action_rule_free_text languages _ k); [reflexivity..|exact Hfree].
  - unfold parse_scenario.
    destruct (init_run languages id language (Some "scenario"))
      as (p & -> & Hl & _); [eexists; exact Hk|].
    unfold Parser.parse_scenario. cbv [mbind Parser.M_bind].
    rewrite (parse_loop_first_line languages strip_colon text
               Parser.SCENARIO filename p k skipped line rest
               (Parser.action_scenario languages)
               (AttributeError "description"));
      [reflexivity|rewrite Hl; exact Hk|discriminate..|reflexivity
      |exact Hlines|exact Hskip|exact Hblank|exact Hhash|].
    apply (action_scenario_free_text languages _ k);
      [reflexivity..|exact Hfree|exact Hsteps].
Qed.

Lemma parse_rule_wants_its_header_witness :
  parse_rule sample_languages false 0 free_text_sample None None
  = Raise (AttributeError "description")
  /\ parse_scenario sample_languages false 0 free_text_sample None None
     = Raise (AttributeError "description").
Proof.
  assert (free_text english "All users are named") as Hfree.
  { split; [reflexivity|]. split; [reflexivity|]. split; [reflexivity|].
    repeat (apply Forall_cons; split; [eexists; split; reflexivity|]).
    constructor. }
  pose proof (parse_rule_wants_its_header sample_languages false 0
                free_text_sample None None english ["# a rule"; ""]
                "All users are named" [] eq_refl eq_refl) as H.
  destruct H as [Hrule Hscenario].
  - apply Forall_cons. split; [right; reflexivity|].
    apply Forall_cons. split; [left; reflexivity|]. constructor.
  - exact Hfree.
  - split; [exact Hrule|]. apply Hscenario.
    repeat (apply Forall_cons; split; [eexists; split; reflexivity|]).
    constructor.
Defined.

Lemma all_space_drop n s : all_space s = true -> all_space (PyStr.drop n s) = true.
Proof.
  revert s. induction n as [|n IH]; intros [|c s]; simpl; auto.
  intros H. apply andb_true_iff in H. apply IH, H.
Qed.

Lemma all_space_take n s : all_space s = true -> all_space (PyStr.take n s) = true.
Proof.
  revert s. induction n as [|n IH]; intros [|c s]; simpl; auto.
  intros H. apply andb_true_iff in H. destruct H as [-> H]. apply IH, H.
Qed.

Lemma rstrip_all_space s : all_space s = true -> PyStr.rstrip s = "".
Proof.
  induction s as [|c s IH]; simpl; [reflexivity|].
  intros H. apply andb_true_iff in H. destruct H as [Hc H].
  rewrite (IH H), Hc. reflexivity.
Qed.

Lemma blank_all_space s :
  PyStr.is_empty (PyStr.strip s) = true -> all_space s = true.
Proof.
  intros H. pose proof (strip_all_space s) as E. unfold PyStr.truthy in E.
  rewrite H in E. simpl in E. destruct (all_space s); [reflexivity|discriminate].
Qed.

Lemma all_space_blank s :
  all_space s = true -> PyStr.is_empty (PyStr.strip s) = true.
Proof.
  intros H. pose proof (strip_all_space s) as E. unfold PyStr.truthy in E.
  rewrite H in E. simpl in E. destruct (PyStr.is_empty _); [reflexivity|discriminate].
Qed.

(** X5.  Inside a doc-string a blank line is not skipped: whatever its
    length and the indent of the doc-string, it is captured as an empty
    line and raises no bad-indent error. *)
Theorem blank_line_in_docstring :
  forall (languages : gmap string Parser.Keywords) (strip_colon : bool)
         (p : Parser.Parser) (line fence : string),
    Parser.self_state p = Parser.MULTILINE_TEXT ->
    Parser.self_multiline_terminator p = Some fence ->
    fence <> "" ->
    PyStr.is_empty (PyStr.strip line) = true ->
    Parser.feed languages strip_colon [line] p
    = Ok (tt, Parser.set_lines (Parser.self_lines p ++ [""])
                (Parser.set_line (Parser.self_line p + 1) p)).
Proof.
  intros languages strip_colon p line fence Hstate Hfence Hne Hblank.
  pose proof (blank_all_space line Hblank) as Hspace.
  cbn [Parser.feed].
  cbv [mbind Parser.M_bind Parser.get mret Parser.M_ret Parser.modify].
  cbn [Parser.self_state Parser.set_line]. rewrite Hstate.
  rewrite bool_decide_eq_true_2 by reflexivity.
  rewrite andb_false_r. unfold Parser.action.
  cbv [mbind Parser.M_bind Parser.get mret Parser.M_ret Parser.modify].
  cbn [Parser.self_state Parser.set_line]. rewrite Hstate.
  rewrite bool_decide_eq_true_2 by reflexivity.
  rewrite andb_false_r. cbn [Parser.action_of].
  unfold Parser.action_multiline_text.
  cbv [mbind Parser.M_bind Parser.get mret Parser.M_ret Parser.modify].
  cbn [Parser.self_multiline_terminator Parser.set_line]. rewrite Hfence.
  destruct (PyStr.strip line) as [|c s] eqn:Estrip; [|discriminate].
  destruct fence as [|f fence]; [contradiction|]. cbn [PyStr.startswith].
  cbn [Parser.self_multiline_leading Parser.set_line Parser.self_lines].
  destruct (Parser.self_multiline_leading p) as [n|].
  - rewrite (rstrip_all_space _ (all_space_drop n line Hspace)).
    rewrite strip_all_space, (all_space_take n line Hspace). reflexivity.
  - rewrite (rstrip_all_space _ Hspace).
    rewrite strip_all_space, Hspace. reflexivity.
Qed.

Lemma blank_line_in_docstring_witness :
  Parser.feed sample_languages false ["  "] in_docstring
  = Ok (tt, Parser.set_lines ["hello"; ""] (Parser.set_line 6 in_docstring)).
Proof.
  apply (blank_line_in_docstring sample_languages false in_docstring "  "
           "'''"); [reflexivity|reflexivity|discriminate|reflexivity].
Defined.

(** X6.  Once the parser has left its initial state and is not inside a
    doc-string, blank lines and comment lines (a [language:] comment
    included) change nothing but the line counter. *)
Theorem blank_and_comment_lines_are_skipped :
  forall (languages : gmap string Parser.Keywords) (strip_colon : bool)
         (text_lines : list string) (p : Parser.Parser),
    Parser.self_state p <> Parser.INITIAL ->
    Parser.self_state p <> Parser.MULTILINE_TEXT ->
    Forall skippable text_lines ->
    Parser.feed languages strip_colon text_lines p
    = Ok (tt, Parser.set_line (Parser.self_line p + length text_lines) p).
Proof.
  intros languages strip_colon text_lines p. apply feed_skippable.
Qed.

Lemma blank_and_comment_lines_are_skipped_witness :
  Parser.feed sample_languages false [""; "  # language: xx"; "#"]
    after_when_step
  = Ok (tt, Parser.set_line 6 after_when_step).
Proof.
  apply (blank_and_comment_lines_are_skipped sample_languages false
           [""; "  # language: xx"; "#"] after_when_step);
    [discriminate|discriminate|].
  apply Forall_cons. split; [left; reflexivity|].
  apply Forall_cons. split; [right; reflexivity|].
  apply Forall_cons. split; [right; reflexivity|]. constructor.
Defined.

(** X7.  A parse starts with [reset]: of the instance it is given, it
    depends on the language, the variant and the identity only (and, in
    this model, on the objects already in the store); the state, tags,
    table, statement or doc-string an earlier parse left behind do not
    matter. *)
Theorem parse_forgets_the_previous_parse :
  forall (languages : gmap string Parser.Keywords) (strip_colon : bool)
         (text : string) (initial_state : option Parser.State)
         (filename : option string) (p q : Parser.Parser),
    same_after_reset p q ->
    Parser._parse_loop languages strip_colon text initial_state filename p
    = Parser._parse_loop languages strip_colon text initial_state filename q
    /\ Parser.parse languages strip_colon text filename p
       = Parser.parse languages strip_colon text filename q.
Proof.
  intros languages strip_colon text initial_state filename p q
    (Hid & Hl & Hv & Hs).
  assert (Parser.reset languages filename p
          = Parser.reset languages filename q) as Hreset.
  { destruct (languages !! Parser.or_default (Parser.self_language p))
      as [k|] eqn:Hk.
    - rewrite (reset_run languages filename p k Hk).
      rewrite (reset_run languages filename q k) by (rewrite <- Hl; exact Hk).
      unfold after_reset. rewrite Hid, Hl, Hv, Hs. reflexivity.
    - unfold Parser.reset, Parser.languages_at.
      cbv [mbind Parser.M_bind Parser.get Parser.modify mret Parser.M_ret].
      cbn [Parser.self_language Parser.set_language].
      rewrite <- Hl, Hk. reflexivity. }
  assert (forall s,
    Parser._parse_loop languages strip_colon text s filename p
    = Parser._parse_loop languages strip_colon text s filename q) as Hloop.
  { intros s. unfold Parser._parse_loop.
    unfold mbind at 1 3, Parser.M_bind at 1 3. rewrite Hreset. reflexivity. }
  split; [apply Hloop|].
  unfold Parser.parse. unfold mbind at 1 3, Parser.M_bind at 1 3.
  rewrite Hloop. reflexivity.
Qed.

Lemma parse_forgets_the_previous_parse_witness :
  Parser.parse sample_languages false bullet_text None in_docstring
  = Parser.parse sample_languages false bullet_text None
      (after_reset english None in_docstring).
Proof.
  apply (parse_forgets_the_previous_parse sample_languages false bullet_text
           None None in_docstring (after_reset english None in_docstring)).
  repeat split.
Defined.

Lemma append_assoc (a b c : string) : (a +:+ b) +:+ c = a +:+ (b +:+ c).
Proof.
  induction a as [|x a IH]; [reflexivity|].
  change (String x ((a +:+ b) +:+ c) = String x (a +:+ (b +:+ c))).
  f_equal. exact IH.
Qed.

Lemma startswith_append a b : PyStr.startswith (a +:+ b) a = true.
Proof.
  induction a as [|x a IH]; [reflexivity|].
  change (String x a +:+ b) with (String x (a +:+ b)).
  cbn [PyStr.startswith]. rewrite Ascii.eqb_refl. exact IH.
Qed.

(** X8.  The annotated message of a ParserError starts with the message
    given; without a line number, a line text and a reason ([0], [None] or
    the empty string) it is that message. *)
Theorem make_annotated_keeps_message :
  forall (message : string) (line_number : nat)
         (line_text reason : option string),
    PyStr.startswith (make_annotated message line_number line_text reason)
      message = true
    /\ (line_number = 0 -> Parser.known line_text = None ->
        Parser.known reason = None ->
        make_annotated message line_number line_text reason = message).
Proof.
  intros message n t r. split.
  - unfold make_annotated.
    assert (forall x, PyStr.startswith x message = true ->
              forall y, PyStr.startswith (x +:+ y) message = true) as Hext.
    { intros x Hx y. revert x Hx. induction message as [|c m IH];
        intros x Hx; [reflexivity|].
      destruct x as [|d x]; [discriminate|].
      change (String d x +:+ y) with (String d (x +:+ y)).
      cbn [PyStr.startswith] in *. apply andb_true_iff in Hx.
      destruct Hx as [-> Hx]. apply IH, Hx. }
    assert (PyStr.startswith message message = true) as Hrefl.
    { pose proof (startswith_append message "") as H.
      replace (message +:+ "") with message in H; [exact H|].
      clear. induction message as [|c m IH]; [reflexivity|].
      change (String c m = String c (m +:+ "")). f_equal. exact IH. }
    set (m1 := if n =? 0 then message else _).
    assert (PyStr.startswith m1 message = true) as H1.
    { subst m1. destruct (n =? 0); [exact Hrefl|].
      apply startswith_append. }
    set (m2 := match t with Some _ => _ | None => m1 end).
    assert (PyStr.startswith m2 message = true) as H2.
    { subst m2. destruct t as [t|]; [|exact H1].
      destruct (PyStr.truthy t); [|exact H1].
      apply Hext, H1. }
    destruct r as [r|]; [|exact H2].
    destruct (PyStr.truthy r); [|exact H2].
    apply Hext, H2.
  - intros -> Ht Hr. unfold make_annotated, Parser.known in *. cbn.
    destruct t as [t|]; [destruct (PyStr.truthy t); [discriminate|]|];
      (destruct r as [r|]; [destruct (PyStr.truthy r); [discriminate|]|]);
      reflexivity.
Qed.

Lemma make_annotated_keeps_message_witness :
  make_annotated "Malformed table" 0 (Some "") None = "Malformed table".
Proof.
  apply (proj2 (make_annotated_keeps_message "Malformed table" 0 (Some "")
                  None)); reflexivity.
Defined.

(** *** The tags of a line *)

Lemma no_space_snoc cur c :
  no_space cur = true -> PyStr.isspace c = false ->
  no_space (PyStr.snoc cur c) = true.
Proof.
  intros Hcur Hc. induction cur as [|d cur IH].
  - change (PyStr.snoc "" c) with (String c ""). cbn [no_space].
    rewrite Hc. reflexivity.
  - change (PyStr.snoc (String d cur) c) with (String d (PyStr.snoc cur c)).
    cbn [no_space] in *. apply andb_true_iff in Hcur.
    destruct Hcur as [-> Hcur]. apply IH, Hcur.
Qed.

Lemma split_go_no_space cur s :
  no_space cur = true ->
  Forall (fun w => no_space w = true) (PyStr.split_go cur s).
Proof.
  revert cur. induction s as [|c s IH]; intros cur Hcur; cbn [PyStr.split_go].
  - destruct (PyStr.is_empty cur); repeat constructor. exact Hcur.
  - destruct (PyStr.isspace c) eqn:Hc.
    + destruct (PyStr.is_empty cur); [apply IH; reflexivity|].
      constructor; [exact Hcur|apply IH; reflexivity].
    + apply IH, no_space_snoc; assumption.
Qed.

Lemma no_space_drop n s : no_space s = true -> no_space (PyStr.drop n s) = true.
Proof.
  revert s. induction n as [|n IH]; intros [|c s]; simpl; auto.
  intros H. apply andb_true_iff in H. apply IH, H.
Qed.

Lemma collect_tags_no_space n file line words ts :
  Forall (fun w => no_space w = true) words ->
  Parser.collect_tags n file line words = Ok ts ->
  Forall (fun t => no_space (Model.tag_name t) = true /\ Model.tag_line t = n)
    ts
  /\ length ts <= length words.
Proof.
  intros Hall. revert ts. induction Hall as [|w words Hw _ IH]; intros ts.
  - intros [= <-]. split; [constructor|reflexivity].
  - cbn [Parser.collect_tags].
    destruct (PyStr.startswith w "@").
    + destruct (Parser.collect_tags n file line words) as [ts'|];
        [|discriminate].
      intros [= <-]. destruct (IH ts' eq_refl) as [Hts Hlen].
      split; [|simpl; lia].
      constructor; [|exact Hts]. split; [|reflexivity].
      exact (no_space_drop 1 w Hw).
    + destruct (PyStr.startswith w "#"); [|discriminate].
      intros [= <-]. split; [constructor|simpl; lia].
Qed.

(** X9.  [Parser.parse_tags] leaves the instance as it is; the tags it
    returns hold no whitespace, carry the number of the current line, and
    are at most one per word of the line. *)
Theorem tags_hold_no_whitespace :
  forall (line : string) (p p' : Parser.Parser) (ts : list Model.Tag),
    Parser.parse_tags line p = Ok (ts, p') ->
    p' = p
    /\ Forall (fun t => no_space (Model.tag_name t) = true
                        /\ Model.tag_line t = Parser.self_line p) ts
    /\ length ts <= length (PyStr.split line).
Proof.
  intros line p p' ts. unfold Parser.parse_tags.
  destruct (negb _); [discriminate|].
  cbv [mbind Parser.M_bind Parser.get].
  destruct (Parser.collect_tags _ _ _ _) as [ts'|] eqn:E; [|discriminate].
  intros [= <- <-]. split; [reflexivity|].
  eapply collect_tags_no_space; [|exact E].
  apply split_go_no_space. reflexivity.
Qed.

Lemma tags_hold_no_whitespace_witness :
  Forall (fun t => no_space (Model.tag_name t) = true
                   /\ Model.tag_line t = 3)
    (tags_at 3 ["wip"; "slow"]).
Proof.
  apply (tags_hold_no_whitespace "@wip   @slow # @later"
           after_when_step after_when_step (tags_at 3 ["wip"; "slow"])
           eq_refl).
Defined.

(** *** The case of a step keyword *)










Lemma same_but_case_refl r : same_but_case r r.
Proof. destruct r as [[[s|] q]|e]; cbn; auto. Qed.





Lemma remove_last_snoc s c : PyStr.remove_last (s +:+ String c "") = s.
Proof.
  induction s as [|d s IH]; [reflexivity|].
  change (String d s +:+ String c "") with (String d (s +:+ String c "")).
  cbn [PyStr.remove_last]. rewrite IH.
  destruct s; reflexivity.
Qed.

Lemma slice_render_row row :
  PyStr.slice_1_m1 (render_row row) = cells_between_pipes row.
Proof. unfold PyStr.slice_1_m1, render_row. cbn [PyStr.drop]. apply remove_last_snoc. Qed.

Lemma snoc_append cur c s : PyStr.snoc cur c +:+ s = cur +:+ String c s.
Proof. unfold PyStr.snoc. rewrite append_assoc. reflexivity. Qed.

Lemma split_escape_then cell cur rest :
  PyStr.contains cell "\" = false ->
  PyStr.split_unescaped_pipes false cur (escape_then cell rest)
  = PyStr.split_unescaped_pipes false (cur +:+ escape_then cell "") rest.
Proof.
  revert cur. induction cell as [|c cell IH]; intros cur Hc.
  - cbn [escape_then]. f_equal.
    clear. induction cur as [|d cur IH]; [reflexivity|].
    change (String d cur = String d (cur +:+ "")). f_equal. exact IH.
  - cbn [PyStr.contains] in Hc. apply orb_false_iff in Hc.
    destruct Hc as [Hc Hcell]. cbn [escape_then].
    destruct (Ascii.eqb c "|") eqn:Hpipe.
    + cbn [PyStr.split_unescaped_pipes]. cbn [Ascii.eqb Bool.eqb andb negb].
      rewrite (IH _ Hcell). f_equal. rewrite !snoc_append. reflexivity.
    + cbn [PyStr.split_unescaped_pipes]. rewrite Hpipe, Hc. cbn [andb].
      rewrite (IH _ Hcell). f_equal. rewrite snoc_append. reflexivity.
Qed.

Lemma escape_then_append cell t : escape_then cell "" +:+ t = escape_then cell t.
Proof.
  induction cell as [|c cell IH]; [reflexivity|]. cbn [escape_then].
  destruct (Ascii.eqb c "|").
  - change (String "\" (String "|" (escape_then cell "" +:+ t))
            = String "\" (String "|" (escape_then cell t))).
    rewrite IH. reflexivity.
  - change (String c (escape_then cell "" +:+ t)
            = String c (escape_then cell t)).
    rewrite IH. reflexivity.
Qed.

Lemma split_pad_then cell rest :
  PyStr.contains cell "\" = false ->
  PyStr.split_unescaped_pipes false "" (pad_then cell rest)
  = PyStr.split_unescaped_pipes false (pad_then cell "") rest.
Proof.
  intros Hc. unfold pad_then. cbn [PyStr.split_unescaped_pipes].
  cbn [Ascii.eqb Bool.eqb andb negb].
  rewrite (split_escape_then _ _ _ Hc). cbn [PyStr.split_unescaped_pipes].
  cbn [Ascii.eqb Bool.eqb andb negb]. f_equal.
  change (String " " (escape_then cell "" +:+ " ")
          = String " " (escape_then cell " ")).
  rewrite escape_then_append. reflexivity.
Qed.

Lemma split_cells_between_pipes row :
  row <> [] ->
  Forall (fun cell => PyStr.contains cell "\" = false) row ->
  PyStr.split_unescaped_pipes false "" (cells_between_pipes row)
  = map (fun cell => pad_then cell "") row.
Proof.
  intros Hne Hall. induction Hall as [|cell row Hc Hrow IH];
    [contradiction|].
  destruct row as [|cell' row].
  - cbn [cells_between_pipes map]. rewrite (split_pad_then _ _ Hc).
    reflexivity.
  - change (cells_between_pipes (cell :: cell' :: row))
      with (pad_then cell (String "|" (cells_between_pipes (cell' :: row)))).
    rewrite (split_pad_then _ _ Hc). cbn [PyStr.split_unescaped_pipes].
    cbn [Ascii.eqb Bool.eqb andb negb]. cbn [map]. f_equal.
    apply IH. discriminate.
Qed.

Lemma unescape_cons a rest :
  Ascii.eqb a "\" = false ->
  PyStr.unescape_pipes (String a rest)
  = String a (PyStr.unescape_pipes rest).
Proof.
  intros Ha. destruct rest as [|b rest]; [reflexivity|].
  cbn [PyStr.unescape_pipes]. rewrite Ha. reflexivity.
Qed.

Lemma unescape_escape_then cell t :
  PyStr.contains cell "\" = false ->
  PyStr.unescape_pipes (escape_then cell t)
  = cell +:+ PyStr.unescape_pipes t.
Proof.
  induction cell as [|c cell IH]; intros Hc; [reflexivity|].
  cbn [PyStr.contains] in Hc. apply orb_false_iff in Hc.
  destruct Hc as [Hc Hcell]. cbn [escape_then].
  change (String c cell +:+ PyStr.unescape_pipes t)
    with (String c (cell +:+ PyStr.unescape_pipes t)).
  destruct (Ascii.eqb c "|") eqn:Hpipe.
  - apply Ascii.eqb_eq in Hpipe. subst c.
    change (PyStr.unescape_pipes
              (String "\" (String "|" (escape_then cell t))))
      with (String "|" (PyStr.unescape_pipes (escape_then cell t))).
    rewrite (IH Hcell). reflexivity.
  - rewrite (unescape_cons _ _ Hc), (IH Hcell). reflexivity.
Qed.

Lemma rstrip_append_space a b :
  all_space b = true -> PyStr.rstrip (a +:+ b) = PyStr.rstrip a.
Proof.
  intros Hb. induction a as [|c a IH].
  - change ("" +:+ b) with b. rewrite (rstrip_all_space _ Hb). reflexivity.
  - change (String c a +:+ b) with (String c (a +:+ b)).
    cbn [PyStr.rstrip]. rewrite IH. reflexivity.
Qed.

Lemma strip_padded cell :
  PyStr.lstrip cell = cell -> PyStr.rstrip cell = cell ->
  PyStr.strip (String " " (cell +:+ " ")) = cell.
Proof.
  intros Hl Hr. unfold PyStr.strip.
  change (PyStr.lstrip (String " " (cell +:+ " ")))
    with (PyStr.lstrip (cell +:+ " ")).
  destruct cell as [|c cell]; [reflexivity|].
  pose proof (lstrip_first _ _ _ Hl) as Hc.
  change (String c cell +:+ " ") with (String c (cell +:+ " ")).
  cbn [PyStr.lstrip]. rewrite Hc.
  change (String c (cell +:+ " ")) with (String c cell +:+ " ").
  rewrite rstrip_append_space by reflexivity. exact Hr.
Qed.

(** X11.  Reading back a written row: for cells without whitespace at
    their ends and without backslashes, the cells of the row written with
    padded cells between pipes, the pipes inside a cell escaped, are the
    cells written. *)
Theorem row_cells_of_rendered_row :
  forall (row : list string),
    row <> [] -> Forall plain_cell row ->
    Parser.row_cells (render_row row) = row.
Proof.
  intros row Hne Hall. unfold Parser.row_cells.
  rewrite slice_render_row, split_cells_between_pipes; [|exact Hne|].
  2: { eapply Forall_impl; [exact Hall|]. intros cell (_ & _ & H). exact H. }
  rewrite map_map. clear Hne.
  induction Hall as [|cell row (Hl & Hr & Hc) _ IH]; [reflexivity|].
  cbn [map]. rewrite IH. f_equal. unfold pad_then.
  rewrite unescape_cons by reflexivity.
  rewrite (unescape_escape_then _ _ Hc).
  apply strip_padded; assumption.
Qed.

Lemma row_cells_of_rendered_row_witness :
  Parser.row_cells "| a\|b |  | c d |" = ["a|b"; ""; "c d"].
Proof.
  apply (row_cells_of_rendered_row ["a|b"; ""; "c d"]); [discriminate|].
  repeat (apply Forall_cons; split; [repeat split|]). constructor.
Defined.

(** ** Failures that are reported *)
Module SoundFacts.
Import Model Parser Sound.

Section WithEnvironment.
Variable languages : gmap string Keywords.
Variable strip_colon : bool.
Hypothesis tables : all_complete languages.

#[local] Abbreviation typed := (Sound.typed languages).
#[local] Abbreviation sound := (Sound.sound languages).
#[local] Abbreviation taken := (Sound.taken languages).

Lemma kind_at_app st l r k :
  kind_at st r = Some k -> kind_at (st ++ l) r = Some k.
Proof.
  unfold kind_at. destruct (st !! r) as [o|] eqn:E; [|discriminate].
  rewrite (lookup_app_l_Some _ _ _ _ E). auto.
Qed.

Lemma kind_at_new st o : kind_at (st ++ [o]) (length st) = Some (kind_of o).
Proof.
  unfold kind_at. rewrite lookup_app_r by reflexivity.
  rewrite Nat.sub_diag. reflexivity.
Qed.

Lemma kind_at_insert st r o o' r' :
  st !! r = Some o -> kind_of o' = kind_of o ->
  kind_at (<[r := o']> st) r' = kind_at st r'.
Proof.
  intros E Hk. unfold kind_at. destruct (decide (r = r')) as [<-|Hne].
  - rewrite list_lookup_insert_eq by (eapply lookup_lt_Some, E).
    rewrite E. simpl. congruence.
  - rewrite list_lookup_insert_ne by exact Hne. reflexivity.
Qed.

Lemma kept_kind st st' r k :
  kept st st' -> kind_at st r = Some k -> kind_at st' r = Some k.
Proof.
  unfold kind_at. intros Hk E.
  destruct (st !! r) as [o|] eqn:Eo; [|discriminate].
  destruct (Hk r o Eo) as (o' & -> & Hkind & _). simpl in *. congruence.
Qed.

Lemma closed_kept st st' o : kept st st' -> closed st o -> closed st' o.
Proof.
  intros Hk. destruct o; simpl; eauto using kept_kind.
  - intros [Hb Hf]. split; [eauto using kept_kind|]. intros f0 E.
    destruct (Hf f0 E) as [k Hk0]. exists k. eauto using kept_kind.
  - intros Hc c E. destruct (Hc c E) as [k Hk0]. exists k.
    eauto using kept_kind.
Qed.

Lemma kept_app st l : kept st (st ++ l).
Proof.
  intros r o E. exists o. rewrite (lookup_app_l_Some _ _ _ _ E). auto.
Qed.

Lemma kept_insert st r o o' :
  st !! r = Some o -> kind_of o' = kind_of o -> steps_len o <= steps_len o' ->
  kept st (<[r := o']> st).
Proof.
  intros E Hk Hs r' x Ex. destruct (decide (r = r')) as [<-|Hne].
  - exists o'. rewrite list_lookup_insert_eq by (eapply lookup_lt_Some, E).
    assert (x = o) as -> by congruence. auto.
  - exists x. rewrite list_lookup_insert_ne by exact Hne. auto.
Qed.

Lemma kept_refl st : kept st st.
Proof. intros r o E. exists o. auto. Qed.

Lemma kept_trans st1 st2 st3 : kept st1 st2 -> kept st2 st3 -> kept st1 st3.
Proof.
  intros H12 H23 r o E. destruct (H12 r o E) as (o2 & E2 & Hk2 & Hs2).
  destruct (H23 r o2 E2) as (o3 & E3 & Hk3 & Hs3).
  exists o3. split; [exact E3|]. split; [congruence|lia].
Qed.

Lemma closed_store_app st o :
  Forall (closed st) st -> closed (st ++ [o]) o ->
  Forall (closed (st ++ [o])) (st ++ [o]).
Proof.
  intros Hst Ho. apply Forall_app. split; [|repeat constructor; exact Ho].
  eapply Forall_impl; [exact Hst|]. intros x. apply closed_kept, kept_app.
Qed.

Lemma closed_store_insert st r o o' :
  Forall (closed st) st -> st !! r = Some o -> kind_of o' = kind_of o ->
  steps_len o <= steps_len o' -> closed st o' ->
  Forall (closed (<[r := o']> st)) (<[r := o']> st).
Proof.
  intros Hst E Hk Hs Ho.
  pose proof (kept_insert st r o o' E Hk Hs) as Hkept.
  apply Forall_insert.
  - eapply Forall_impl; [exact Hst|]. intros x. apply closed_kept, Hkept.
  - eapply closed_kept; eassumption.
Qed.

(** The attributes of an instance that is written as a chain of changes. *)
Ltac fields :=
  cbn [self_id self_language self_variant self_keywords self_state self_line
       self_last_step_type self_multiline_start self_multiline_leading
       self_multiline_terminator self_filename self_scenario_container
       self_feature self_rule self_parent self_statement self_tags
       self_lines self_table self_examples store
       set_language set_keywords set_state set_line set_last_step_type
       set_multiline_start set_multiline_leading set_multiline_terminator
       set_filename set_scenario_container set_feature set_rule
       set_statement set_tags set_lines set_table set_examples set_store]
    in *.

Lemma typed_ext p q :
  self_keywords q = self_keywords p -> store q = store p ->
  self_feature q = self_feature p -> self_rule q = self_rule p ->
  self_scenario_container q = self_scenario_container p ->
  self_statement q = self_statement p ->
  self_examples q = self_examples p ->
  typed p -> typed q.
Proof.
  intros Hk Hs Hf Hr Hc Hst He [H1 H2 H3 H4 H5 H6 H7].
  constructor; rewrite ?Hk, ?Hs, ?Hf, ?Hr, ?Hc, ?Hst, ?He; assumption.
Qed.

Lemma fits_ext Y p q :
  store q = store p -> self_feature q = self_feature p ->
  self_rule q = self_rule p ->
  self_scenario_container q = self_scenario_container p ->
  self_statement q = self_statement p ->
  self_examples q = self_examples p -> self_table q = self_table p ->
  self_multiline_terminator q = self_multiline_terminator p ->
  fits Y p -> fits Y q.
Proof.
  intros Hs Hf Hr Hc Hst He Ht Hm [H1 H2 H3 H4 H5 H6].
  constructor; unfold has_step in *;
    rewrite ?Hs, ?Hf, ?Hr, ?Hc, ?Hst, ?He, ?Ht, ?Hm; assumption.
Qed.

(** A change of the store that keeps its objects. *)
Lemma typed_store_kept p st' :
  typed p -> kept (store p) st' -> Forall (closed st') st' ->
  typed (set_store st' p).
Proof.
  intros [H1 H2 H3 H4 H5 H6 H7] Hk Hc. constructor; fields;
    eauto using kept_kind.
  - intros c E. destruct (H5 c E) as (k & Hkc & Hck). exists k.
    eauto using kept_kind.
  - intros s E. destruct (H6 s E) as [k Hks]. exists k. eauto using kept_kind.
Qed.

Lemma has_step_kept p st' :
  has_step p -> kept (store p) st' -> has_step (set_store st' p).
Proof.
  intros (s & o & Hs & Ho & Hlen) Hk.
  destruct (Hk s o Ho) as (o' & Ho' & _ & Hlen').
  exists s, o'. fields. split; [exact Hs|]. split; [exact Ho'|lia].
Qed.

Lemma fits_store_kept Y p st' :
  fits Y p -> kept (store p) st' -> fits Y (set_store st' p).
Proof.
  intros [H1 H2 H3 H4 H5 H6] Hk. constructor; fields; auto.
  - intros HY. destruct (H3 HY) as (r & k & Hr & Hkr & Hw).
    exists r, k. eauto using kept_kind.
  - intros HY. destruct (H4 HY) as [Hs Ht]. split; [|exact Ht].
    apply has_step_kept; assumption.
  - intros HY He. apply has_step_kept; auto.
Qed.

Lemma typed_new p o :
  typed p -> closed (store p ++ [o]) o ->
  typed (set_store (store p ++ [o]) p).
Proof.
  intros Ht Ho. apply typed_store_kept; [exact Ht|apply kept_app|].
  apply closed_store_app; [apply Ht|exact Ho].
Qed.

Lemma fits_new Y p o : fits Y p -> fits Y (set_store (store p ++ [o]) p).
Proof. intros H. apply fits_store_kept; [exact H|apply kept_app]. Qed.

Lemma typed_update p r o o' :
  typed p -> store p !! r = Some o -> kind_of o' = kind_of o ->
  steps_len o <= steps_len o' -> closed (store p) o' ->
  typed (set_store (<[r := o']> (store p)) p).
Proof.
  intros Ht E Hk Hs Ho. apply typed_store_kept; [exact Ht| |].
  - eapply kept_insert; eassumption.
  - eapply closed_store_insert; try eassumption. apply Ht.
Qed.

Lemma fits_update Y p r o o' :
  fits Y p -> store p !! r = Some o -> kind_of o' = kind_of o ->
  steps_len o <= steps_len o' ->
  fits Y (set_store (<[r := o']> (store p)) p).
Proof.
  intros H E Hk Hs. apply fits_store_kept; [exact H|].
  eapply kept_insert; eassumption.
Qed.

(** Reading the class of a reference. *)
Lemma kind_at_lookup st r k :
  kind_at st r = Some k -> exists o, st !! r = Some o /\ kind_of o = k.
Proof.
  unfold kind_at. destruct (st !! r) as [o|]; [|discriminate].
  intros [= <-]. exists o. auto.
Qed.

Lemma lookup_kind_at st r o :
  st !! r = Some o -> kind_at st r = Some (kind_of o).
Proof. unfold kind_at. intros ->. reflexivity. Qed.

Lemma closed_lookup st r o :
  Forall (closed st) st -> st !! r = Some o -> closed st o.
Proof.
  intros H E. rewrite Forall_forall in H. apply H.
  eapply list_elem_of_lookup_2, E.
Qed.

(** The primitives, run. *)
Lemma update_run attribute r f p o o' :
  store p !! r = Some o -> f o = Some o' ->
  update attribute r f p = Ok (tt, set_store (<[r := o']> (store p)) p).
Proof.
  intros E Hf. unfold update, deref. cbv [mbind M_bind]. rewrite E, Hf.
  reflexivity.
Qed.

Lemma deref_run r p o : store p !! r = Some o -> deref r p = Ok (o, p).
Proof. intros E. unfold deref. rewrite E. reflexivity. Qed.

(** The keywords of the instance have every concept. *)
Lemma typed_complete p :
  typed p -> exists k, self_keywords p = Some k /\ complete k.
Proof.
  intros [(language & k & Hl & Hk) _ _ _ _ _ _]. exists k. split; [exact Hk|].
  exact (tables language k Hl).
Qed.

Lemma keywords_at_run p concept :
  typed p -> concept ∈ concepts ->
  exists aliases, keywords_at concept p = Ok (aliases, p).
Proof.
  intros Ht Hin. destruct (typed_complete p Ht) as (k & Hk & Hc).
  unfold keywords_at.
  cbv [mbind M_bind get]. rewrite Hk.
  unfold complete in Hc. rewrite Forall_forall in Hc.
  destruct (Hc concept Hin) as [aliases ->]. eexists. reflexivity.
Qed.

Lemma complete_nonempty k : complete k -> k <> ∅.
Proof.
  intros Hc ->. unfold complete, concepts in Hc.
  apply Forall_cons in Hc. destruct Hc as [[x Hx] _].
  rewrite lookup_empty in Hx. discriminate.
Qed.


Lemma match_keyword_run p concept line :
  typed p -> concept ∈ concepts ->
  exists alias, match_keyword languages concept line p = Ok (alias, p).
Proof.
  intros Ht Hin. destruct (keywords_at_run p concept Ht Hin) as [aliases Ha].
  destruct (typed_complete p Ht) as (k & Hk & Hc). unfold match_keyword.
  cbv [mbind M_bind get mret M_ret]. rewrite Hk. unfold keywords_falsy.
  rewrite bool_decide_eq_false_2 by (apply complete_nonempty, Hc).
  rewrite Ha. eexists. reflexivity.
Qed.

(** Membership in a list that is written out. *)
Ltac in_list :=
  repeat first [apply list_elem_of_here | apply list_elem_of_further].

Lemma container_lookup p c :
  typed p -> self_scenario_container p = Some c ->
  exists o, store p !! c = Some o /\ container_kind (kind_of o).
Proof.
  intros Ht E. destruct (typed_container p Ht c E) as (k & Hk & Hc).
  destruct (kind_at_lookup _ _ _ Hk) as (o & Ho & <-). eauto.
Qed.

Lemma container_background_kind st o b :
  closed st o -> get_background o = Some (Some b) ->
  exists bg, st !! b = Some (OBackground bg).
Proof.
  intros Hc E.
  assert (kind_at st b = Some KBackground) as Hk.
  { destruct o; simpl in *; try discriminate; injection E as E.
    - apply Hc, E.
    - apply Hc, E. }
  destruct (kind_at_lookup _ _ _ Hk) as (ob & Hob & Hkind).
  destruct ob; try discriminate. eauto.
Qed.

Lemma typed_inherited_readable st bg :
  Forall (closed st) st -> closed st (OBackground bg) ->
  inherited_readable st bg.
Proof.
  intros Hst Hbg. unfold inherited_readable. simpl in Hbg.
  destruct (background_parent bg) as [parent|]; [|exact I].
  destruct (Hbg parent eq_refl) as [k Hk].
  destruct (kind_at_lookup _ _ _ Hk) as (o & Ho & _). rewrite Ho.
  destruct o as [| r | | | |]; try exact I.
  pose proof (closed_lookup _ _ _ Hst Ho) as [_ Hparent].
  destruct (rule_parent r) as [feature|]; [|exact I].
  destruct (Hparent feature eq_refl) as [kf Hkf].
  destruct (kind_at_lookup _ _ _ Hkf) as (fo & Hfo & _). rewrite Hfo.
  destruct (get_background fo) as [[fb|]|] eqn:Eb; try exact I.
  destruct (container_background_kind st fo fb) as [x Hx];
    [eapply closed_lookup; eassumption|exact Eb|].
  rewrite Hx. eexists. reflexivity.
Qed.

Lemma typed_background_readable p : typed p -> background_readable p.
Proof.
  intros Ht. unfold background_readable.
  destruct (self_scenario_container p) as [c|] eqn:Ec; [|exact I].
  destruct (container_lookup p c Ht Ec) as (o & Ho & Hk). rewrite Ho.
  pose proof (closed_lookup _ _ _ (typed_store p Ht) Ho) as Hclosed.
  destruct (get_background o) as [[b|]|] eqn:Eb.
  - destruct (container_background_kind _ o b Hclosed Eb) as [bg Hbg].
    rewrite Hbg. apply typed_inherited_readable; [apply Ht|].
    eapply closed_lookup; [apply Ht|exact Hbg].
  - exact I.
  - destruct o; simpl in *; try discriminate;
      destruct Hk as [Hk|Hk]; discriminate.
Qed.

Lemma set_last_step_type_same p :
  set_last_step_type (self_last_step_type p) p = p.
Proof. destruct p; reflexivity. Qed.

(** [p'] is [p] but for the last step type. *)
Lemma typed_last t p : typed p -> typed (set_last_step_type t p).
Proof. apply typed_ext; reflexivity. Qed.

Lemma fits_last Y t p : fits Y p -> fits Y (set_last_step_type t p).
Proof. apply fits_ext; reflexivity. Qed.

Lemma make_step_reports ty kw line p :
  typed p ->
  reports (make_step ty kw line p)
    (fun _ p' => exists t, p' = set_last_step_type t p).
Proof.
  intros Ht. unfold make_step. cbv [mbind M_bind get].
  destruct (if PyStr.startswith kw "*" then _ else _) as [last|].
  { simpl. exists (self_last_step_type p).
    symmetry. apply set_last_step_type_same. }
  destruct (String.eqb ty "and" || String.eqb ty "but").
  - destruct (known (self_last_step_type p)) as [last|].
    + simpl. exists (self_last_step_type p).
      symmetry. apply set_last_step_type_same.
    + rewrite (select_last_background_step_type_pure p
                 (typed_background_readable p Ht)).
      cbv [mbind M_bind modify mret M_ret].
      destruct (known (last_background_step_type p)); simpl; [|exact I].
      eexists. reflexivity.
  - simpl. eexists. reflexivity.
Qed.

Lemma parse_step_aliases_reports ty line kws p :
  typed p ->
  reports (parse_step_aliases ty line kws p)
    (fun _ p' => exists t, p' = set_last_step_type t p).
Proof.
  intros Ht. induction kws as [|kw kws IH]; simpl.
  - exists (self_last_step_type p). symmetry. apply set_last_step_type_same.
  - destruct (line_starts_with_keyword line kw); [|exact IH].
    pose proof (make_step_reports ty kw line p Ht) as H.
    unfold fmap, M_fmap. cbv [mbind M_bind].
    destruct (make_step ty kw line p) as [[s q]|e]; exact H.
Qed.

Lemma parse_step_types_reports line types p :
  typed p -> Forall (fun ty => ty ∈ concepts) types ->
  reports (parse_step_types line types p)
    (fun _ p' => exists t, p' = set_last_step_type t p).
Proof.
  intros Ht Hall. revert p Ht.
  induction Hall as [|ty types Hty _ IH]; intros p Ht; simpl.
  - exists (self_last_step_type p). symmetry. apply set_last_step_type_same.
  - cbv [mbind M_bind].
    destruct (keywords_at_run p ty Ht Hty) as [kws ->].
    pose proof (parse_step_aliases_reports ty line kws p Ht) as H.
    destruct (parse_step_aliases ty line kws p) as [[[s|] q]|e];
      [exact H| |exact H].
    destruct H as [t ->]. specialize (IH _ (typed_last t p Ht)).
    destruct (parse_step_types line types _) as [[s q]|e]; [|exact IH].
    destruct IH as [t' ->]. exists t'. reflexivity.
Qed.

Lemma parse_step_reports line p :
  typed p ->
  reports (parse_step line p)
    (fun _ p' => exists t, p' = set_last_step_type t p).
Proof.
  intros Ht. apply parse_step_types_reports; [exact Ht|].
  unfold concepts. repeat constructor; in_list.
Qed.

Lemma parse_tags_reports line p :
  PyStr.startswith line "@" = true ->
  reports (Parser.parse_tags line p) (fun _ p' => p' = p).
Proof.
  intros Hat. pose proof (parse_tags_run p line Hat) as H.
  destruct (tag_words (PyStr.split line)).
  - rewrite H. reflexivity.
  - destruct H as [message ->]. exact I.
Qed.


Lemma oracle_run p line :
  typed p ->
  exists reason, ask_parse_failure_oracle languages line p = Ok (reason, p).
Proof.
  intros Ht. unfold ask_parse_failure_oracle.
  assert (forall c, c ∈ concepts ->
            exists a, match_keyword languages c line p = Ok (a, p)) as Hm.
  { intros c Hc. apply match_keyword_run; assumption. }
  cbv [mbind M_bind].
  destruct (Hm "feature") as [a ->]; [in_list|].
  destruct (known a).
  { unfold fmap, M_fmap, diagnose_feature_usage_error.
    cbv [mbind M_bind get mret M_ret].
    destruct (self_feature p); eexists; reflexivity. }
  destruct (Hm "rule") as [a1 ->]; [in_list|].
  destruct (known a1); [eexists; reflexivity|].
  destruct (Hm "background") as [a2 ->]; [in_list|].
  destruct (known a2).
  { unfold fmap, M_fmap, diagnose_background_usage_error.
    cbv [mbind M_bind get mret M_ret].
    destruct (self_scenario_container p) as [c|] eqn:Ec.
    - destruct (container_lookup p c Ht Ec) as (o & Ho & Hk).
      rewrite (deref_run c p o Ho).
      destruct o; simpl in Hk; destruct Hk as [Hk|Hk]; try discriminate;
        simpl;
        match goal with
        | |- context [match ?l with [] => _ | _ :: _ => _ end] => destruct l
        end; simpl; destruct (self_tags p); eexists; reflexivity.
    - simpl. destruct (self_tags p); eexists; reflexivity. }
  destruct (Hm "scenario") as [a3 ->]; [in_list|].
  destruct (known a3).
  { unfold fmap, M_fmap, diagnose_scenario_usage_error.
    cbv [mbind M_bind get mret M_ret].
    destruct (self_scenario_container p); eexists; reflexivity. }
  destruct (Hm "scenario_outline") as [a4 ->]; [in_list|].
  destruct (known a4).
  { unfold fmap, M_fmap, diagnose_scenario_outline_usage_error.
    cbv [mbind M_bind get mret M_ret].
    destruct (self_scenario_container p); eexists; reflexivity. }
  cbv [get]. destruct (_ && _); eexists; reflexivity.
Qed.

(** *** The changes of an object keep its class and its steps *)

Ltac by_class o :=
  destruct o; simpl in *;
  repeat match goal with
         | H : container_kind _ |- _ => destruct H as [H|H]
         | H : with_steps _ |- _ => destruct H as [H|[H|H]]
         end;
  try discriminate; try congruence.

Ltac same_object :=
  eexists; split; [reflexivity|]; split; [reflexivity|];
  split; [simpl; try lia; reflexivity|].

Lemma add_scenario_ok s o :
  container_kind (kind_of o) ->
  exists o', add_scenario s o = Some o' /\ kind_of o' = kind_of o
             /\ steps_len o <= steps_len o'
             /\ forall st, closed st o -> closed st o'.
Proof. intros Hk. by_class o; same_object; intros st Hc; exact Hc. Qed.

Lemma append_description_ok text o :
  kind_of o <> KExamples ->
  exists o', append_description text o = Some o' /\ kind_of o' = kind_of o
             /\ steps_len o <= steps_len o'
             /\ forall st, closed st o -> closed st o'.
Proof.
  intros Hk. destruct o; simpl in *; try congruence; same_object;
    intros st Hc; exact Hc.
Qed.

Lemma set_steps_keeps l o :
  with_steps (kind_of o) ->
  exists o', set_steps l o = Some o' /\ kind_of o' = kind_of o
             /\ steps_len o' = length l
             /\ forall st, closed st o -> closed st o'.
Proof. intros Hk. by_class o; same_object; intros st Hc; exact Hc. Qed.

Lemma append_rule_ok r o :
  kind_of o = KFeature ->
  exists o', append_rule r o = Some o' /\ kind_of o' = kind_of o
             /\ steps_len o <= steps_len o'
             /\ get_background o' = get_background o
             /\ forall st, closed st o -> closed st o'.
Proof.
  intros Hk. by_class o. same_object. split; [reflexivity|].
  intros st Hc; exact Hc.
Qed.

Lemma set_rule_parent_ok f o :
  kind_of o = KRule ->
  exists o', set_rule_parent f o = Some o' /\ kind_of o' = kind_of o
             /\ steps_len o <= steps_len o'
             /\ get_background o' = get_background o
             /\ forall st, closed st o -> is_Some (kind_at st f) ->
                           closed st o'.
Proof.
  intros Hk. by_class o. same_object. split; [reflexivity|].
  intros st [Hb Hp] Hf. split; [exact Hb|].
  simpl. intros f0 [= <-]. exact Hf.
Qed.

Lemma set_background_ok b o :
  container_kind (kind_of o) ->
  exists o', set_background (Some b) o = Some o' /\ kind_of o' = kind_of o
             /\ steps_len o <= steps_len o'
             /\ forall st, closed st o -> kind_at st b = Some KBackground ->
                           closed st o'.
Proof.
  intros Hk. by_class o; same_object; intros st Hc Hb.
  - simpl. intros b0 [= <-]. exact Hb.
  - destruct Hc as [_ Hp]. split; [|exact Hp].
    simpl. intros b0 [= <-]. exact Hb.
Qed.

Lemma set_background_parent_ok c o :
  kind_of o = KBackground ->
  exists o', set_background_parent c o = Some o' /\ kind_of o' = kind_of o
             /\ steps_len o <= steps_len o'
             /\ forall st, is_Some (kind_at st c) -> closed st o'.
Proof.
  intros Hk. by_class o. same_object.
  simpl. intros st Hc c0 [= <-]. exact Hc.
Qed.

Lemma set_examples_table_ok t o :
  kind_of o = KExamples ->
  exists o', set_examples_table t o = Some o' /\ kind_of o' = kind_of o
             /\ steps_len o <= steps_len o'
             /\ forall st, closed st o'.
Proof. intros Hk. by_class o. same_object. intros st. exact I. Qed.

Lemma append_examples_ok e o :
  kind_of o = KScenarioOutline ->
  exists o', append_examples e o = Some o' /\ kind_of o' = kind_of o
             /\ steps_len o <= steps_len o'
             /\ forall st, closed st o'.
Proof. intros Hk. by_class o. same_object. intros st. exact I. Qed.

Lemma set_parser_ok n o :
  kind_of o = KFeature ->
  exists o', set_parser n o = Some o' /\ kind_of o' = kind_of o
             /\ steps_len o <= steps_len o'
             /\ forall st, closed st o -> closed st o'.
Proof. intros Hk. by_class o. same_object. intros st Hc; exact Hc. Qed.

(** *** The changes of an attribute *)

Lemma typed_set_feature p f :
  typed p -> kind_at (store p) f = Some KFeature ->
  typed (set_feature (Some f) p).
Proof.
  intros [H1 H2 H3 H4 H5 H6 H7] Hf. constructor; fields; auto.
  intros f0 [= <-]. exact Hf.
Qed.

Lemma typed_set_container p c k :
  typed p -> kind_at (store p) c = Some k -> container_kind k ->
  typed (set_scenario_container (Some c) p).
Proof.
  intros [H1 H2 H3 H4 H5 H6 H7] Hc Hk. constructor; fields; auto.
  intros c0 [= <-]. eauto.
Qed.

Lemma typed_set_rule p r :
  typed p -> kind_at (store p) r = Some KRule -> typed (set_rule (Some r) p).
Proof.
  intros [H1 H2 H3 H4 H5 H6 H7] Hr. constructor; fields; auto.
  intros r0 [= <-]. exact Hr.
Qed.

Lemma typed_set_rule_none p : typed p -> typed (set_rule None p).
Proof.
  intros [H1 H2 H3 H4 H5 H6 H7]. constructor; fields; auto. discriminate.
Qed.

Lemma typed_set_statement p s :
  typed p -> is_Some (kind_at (store p) s) ->
  typed (set_statement (Some s) p).
Proof.
  intros [H1 H2 H3 H4 H5 H6 H7] Hs. constructor; fields; auto.
  intros s0 [= <-]. exact Hs.
Qed.

Lemma typed_set_examples p e :
  typed p -> kind_at (store p) e = Some KExamples ->
  typed (set_examples (Some e) p).
Proof.
  intros [H1 H2 H3 H4 H5 H6 H7] He. constructor; fields; auto.
  intros e0 [= <-]. exact He.
Qed.

Lemma typed_set_examples_none p : typed p -> typed (set_examples None p).
Proof.
  intros [H1 H2 H3 H4 H5 H6 H7]. constructor; fields; auto. discriminate.
Qed.

Lemma typed_set_keywords p language k :
  typed p -> languages !! language = Some k ->
  typed (set_keywords (Some k) p).
Proof.
  intros [H1 H2 H3 H4 H5 H6 H7] Hk. constructor; fields; eauto.
Qed.

(** The changes that touch nothing the invariant reads. *)
Ltac plain := first [apply typed_ext | apply fits_ext]; try reflexivity.

Lemma typed_set_tags ts p : typed p -> typed (set_tags ts p).
Proof. plain. Qed.
Lemma fits_set_tags Y ts p : fits Y p -> fits Y (set_tags ts p).
Proof. plain. Qed.
Lemma typed_set_state s p : typed p -> typed (set_state s p).
Proof. plain. Qed.
Lemma fits_set_state Y s p : fits Y p -> fits Y (set_state s p).
Proof. plain. Qed.
Lemma typed_set_line n p : typed p -> typed (set_line n p).
Proof. plain. Qed.
Lemma fits_set_line Y n p : fits Y p -> fits Y (set_line n p).
Proof. plain. Qed.
Lemma typed_set_table t p : typed p -> typed (set_table t p).
Proof. plain. Qed.
Lemma typed_set_lines l p : typed p -> typed (set_lines l p).
Proof. plain. Qed.
Lemma fits_set_lines Y l p : fits Y p -> fits Y (set_lines l p).
Proof. plain. Qed.
Lemma typed_set_language l p : typed p -> typed (set_language l p).
Proof. plain. Qed.
Lemma fits_set_language Y l p : fits Y p -> fits Y (set_language l p).
Proof. plain. Qed.
Lemma fits_set_keywords Y k p : fits Y p -> fits Y (set_keywords k p).
Proof. plain. Qed.

(** Refuting that a state is in a list of other states. *)
Ltac not_in H :=
  exfalso; revert H; rewrite ?elem_of_cons, elem_of_nil;
  intuition discriminate.

(** The goals of [fits] for an instance written as a chain of changes. *)
Ltac fits_goals :=
  constructor; fields;
  try (intros; discriminate);
  try (intros; congruence);
  try (let H := fresh in intros H; not_in H).

Ltac run_block := cbv [mbind M_bind get modify mret M_ret new the].

Lemma fits_inside X p :
  fits X p -> X <> INITIAL ->
  exists f c, self_feature p = Some f /\ self_scenario_container p = Some c.
Proof.
  intros Hf HX. destruct (fits_feature X p Hf HX) as [[f Ef] [c Ec]]. eauto.
Qed.

Lemma no_table X p : fits X p -> X <> TABLE -> self_table p = None.
Proof.
  intros Hf HX. destruct (self_table p) as [t|] eqn:E; [|reflexivity].
  destruct HX. apply (fits_open_table X p Hf). eauto.
Qed.

(** [_build_feature] *)
Lemma build_feature_sound p keyword line :
  typed p -> self_table p = None ->
  reports (_build_feature keyword line p)
    (fun _ p' => typed p' /\ fits FEATURE p').
Proof.
  intros Ht Htable. unfold _build_feature. run_block. simpl.
  match goal with
  | |- context [set_store (store p ++ [?o]) p] => set (o0 := o)
  end.
  assert (typed (set_store (store p ++ [o0]) p)) as H1.
  { apply typed_new; [exact Ht|]. simpl. discriminate. }
  split.
  - apply typed_set_tags, typed_set_rule_none.
    eapply typed_set_container;
      [apply typed_set_feature; [exact H1|]|..]; fields;
      [apply kind_at_new|apply kind_at_new|left; reflexivity].
  - fits_goals.
    + intros _. split; eexists; reflexivity.
    + rewrite Htable. intros [t Ht']. discriminate.
Qed.

(** [_build_scenario_statement] *)
Lemma build_scenario_sound X p keyword line :
  typed p -> fits X p -> X <> INITIAL -> self_table p = None ->
  reports (_build_scenario_statement keyword line p)
    (fun _ p' => typed p' /\ fits SCENARIO p').
Proof.
  intros Ht Hf HX Htable.
  destruct (fits_inside X p Hf HX) as (f & c & Ef & Ec).
  destruct (container_lookup p c Ht Ec) as (oc & Hoc & Hk).
  unfold _build_scenario_statement. run_block. rewrite Ec.
  set (o0 := OScenario (new_scenario p keyword line)).
  set (p1 := set_statement (Some (length (store p)))
               (set_store (store p ++ [o0]) p)).
  assert (typed p1) as H1.
  { apply typed_set_statement; [apply typed_new; [exact Ht|exact I]|].
    fields. rewrite kind_at_new. eauto. }
  assert (fits SCENARIO p1) as F1.
  { subst p1. fits_goals.
    - intros _. rewrite Ef, Ec. split; eexists; reflexivity.
    - intros _. exists (length (store p)), KScenario.
      split; [reflexivity|].
      split; [apply kind_at_new|right; left; reflexivity].
    - rewrite Htable. intros [t Ht']. discriminate. }
  assert (store p1 !! c = Some oc) as Hc1.
  { subst p1. fields. apply lookup_app_l_Some, Hoc. }
  destruct (add_scenario_ok (length (store p)) oc Hk)
    as (oc' & Hadd & Hkind & Hlen & Hclosed).
  rewrite (update_run _ _ _ p1 oc oc' Hc1 Hadd). simpl. split.
  - apply typed_set_tags. eapply typed_update; try eassumption.
    apply Hclosed. eapply closed_lookup; [apply H1|exact Hc1].
  - apply fits_set_tags. eapply fits_update; eassumption.
Qed.

(** [_build_scenario_outline_statement] *)
Lemma build_outline_sound X p keyword line :
  typed p -> fits X p -> X <> INITIAL -> self_table p = None ->
  reports (_build_scenario_outline_statement keyword line p)
    (fun _ p' => typed p' /\ fits SCENARIO p').
Proof.
  intros Ht Hf HX Htable.
  destruct (fits_inside X p Hf HX) as (f & c & Ef & Ec).
  destruct (container_lookup p c Ht Ec) as (oc & Hoc & Hk).
  unfold _build_scenario_outline_statement. run_block. rewrite Ec.
  set (o0 := OScenarioOutline (new_scenario p keyword line) []).
  set (p1 := set_statement (Some (length (store p)))
               (set_store (store p ++ [o0]) p)).
  assert (typed p1) as H1.
  { apply typed_set_statement; [apply typed_new; [exact Ht|exact I]|].
    fields. rewrite kind_at_new. eauto. }
  assert (fits SCENARIO p1) as F1.
  { subst p1. fits_goals.
    - intros _. rewrite Ef, Ec. split; eexists; reflexivity.
    - intros _. exists (length (store p)), KScenarioOutline.
      split; [reflexivity|].
      split; [apply kind_at_new|right; right; reflexivity].
    - rewrite Htable. intros [t Ht']. discriminate. }
  assert (store p1 !! c = Some oc) as Hc1.
  { subst p1. fields. apply lookup_app_l_Some, Hoc. }
  destruct (add_scenario_ok (length (store p)) oc Hk)
    as (oc' & Hadd & Hkind & Hlen & Hclosed).
  rewrite (update_run _ _ _ p1 oc oc' Hc1 Hadd). simpl. split.
  - apply typed_set_tags. eapply typed_update; try eassumption.
    apply Hclosed. eapply closed_lookup; [apply H1|exact Hc1].
  - apply fits_set_tags. eapply fits_update; eassumption.
Qed.

(** [_build_examples] *)
Lemma build_examples_sound X p keyword line :
  typed p -> fits X p -> X <> INITIAL ->
  reports (_build_examples keyword line p)
    (fun _ p' => typed p' /\ fits TABLE p').
Proof.
  intros Ht Hf HX.
  destruct (fits_inside X p Hf HX) as (f & c & Ef & Ec).
  unfold _build_examples. run_block.
  destruct (self_statement p) as [s|] eqn:Es; [|exact I].
  destruct (typed_statement p Ht s Es) as [k Hk].
  destruct (kind_at_lookup _ _ _ Hk) as (o & Ho & Hkind).
  rewrite (deref_run s p o Ho).
  destruct (is_scenario_outline o) eqn:Hout; [|exact I].
  assert (kind_of o = KScenarioOutline) as Hko
    by (destruct o; try discriminate; reflexivity).
  match goal with
  | |- context [set_store (store p ++ [?x]) p] => set (o0 := x)
  end.
  set (p1 := set_examples (Some (length (store p)))
               (set_store (store p ++ [o0]) p)).
  assert (typed p1) as H1.
  { apply typed_set_examples; [apply typed_new; [exact Ht|exact I]|].
    fields. apply kind_at_new. }
  assert (fits TABLE p1) as F1.
  { subst p1. fits_goals.
    - intros _. rewrite Ef, Ec. split; eexists; reflexivity.
    - intros _. exists s, KScenarioOutline. split; [exact Es|].
      split; [|right; right; reflexivity].
      apply kind_at_app. congruence. }
  assert (store p1 !! s = Some o) as Hs1.
  { subst p1. fields. apply lookup_app_l_Some, Ho. }
  destruct (append_examples_ok (length (store p)) o Hko)
    as (o' & Happ & Hkind' & Hlen & Hclosed).
  rewrite (update_run _ _ _ p1 o o' Hs1 Happ). simpl. split.
  - apply typed_set_tags. eapply typed_update; try eassumption.
    apply Hclosed.
  - apply fits_set_tags. eapply fits_update; eassumption.
Qed.

(** A change of the store alone, by objects that keep their class. *)
Lemma update_kept attribute r f p o o' :
  Forall (closed (store p)) (store p) ->
  store p !! r = Some o -> f o = Some o' -> kind_of o' = kind_of o ->
  steps_len o <= steps_len o' -> closed (store p) o' ->
  update attribute r f p = Ok (tt, set_store (<[r := o']> (store p)) p)
  /\ kept (store p) (<[r := o']> (store p))
  /\ Forall (closed (<[r := o']> (store p))) (<[r := o']> (store p)).
Proof.
  intros Hst E Hf Hk Hs Hc. split; [eapply update_run; eassumption|].
  split; [eapply kept_insert; eassumption|].
  eapply closed_store_insert; eassumption.
Qed.

(** [add_rule] *)
Lemma add_rule_kept feature rule p :
  Forall (closed (store p)) (store p) ->
  kind_at (store p) feature = Some KFeature ->
  kind_at (store p) rule = Some KRule ->
  exists st',
    add_rule feature rule p = Ok (tt, set_store st' p)
    /\ kept (store p) st' /\ Forall (closed st') st'.
Proof.
  intros Hst Hf Hr. unfold add_rule.
  destruct (kind_at_lookup _ _ _ Hf) as (fo & Hfo & Hfk).
  destruct (append_rule_ok rule fo Hfk)
    as (fo1 & Hf1 & Hfk1 & Hfl1 & Hbg1 & Hfc1).
  destruct (update_kept "rules" feature (append_rule rule) p fo fo1)
    as (Hrun1 & Hkept1 & Hcl1); try assumption.
  { apply Hfc1. eapply closed_lookup; eassumption. }
  unfold mbind at 1, M_bind at 1. rewrite Hrun1.
  set (st1 := <[feature := fo1]> (store p)) in *.
  set (p1 := set_store st1 p).
  assert (kind_at st1 rule = Some KRule) as Hr1 by eauto using kept_kind.
  destruct (kind_at_lookup _ _ _ Hr1) as (ro & Hro & Hrk).
  destruct (set_rule_parent_ok feature ro Hrk)
    as (ro1 & Hr1' & Hrk1 & Hrl1 & _ & Hrc1).
  destruct (update_kept "parent" rule (set_rule_parent feature) p1 ro ro1)
    as (Hrun2 & Hkept2 & Hcl2); try assumption.
  { apply Hrc1; [eapply closed_lookup; eassumption|].
    exists KFeature. eauto using kept_kind. }
  unfold mbind at 1, M_bind at 1. rewrite Hrun2.
  set (st2 := <[rule := ro1]> (store p1)) in *.
  set (p2 := set_store st2 p1).
  assert (kept (store p) st2) as Hk02 by (eapply kept_trans; eassumption).
  assert (kind_at st2 feature = Some KFeature) as Hf2
    by eauto using kept_kind.
  destruct (kind_at_lookup _ _ _ Hf2) as (fo2 & Hfo2 & Hfk2).
  unfold mbind at 1, M_bind at 1. rewrite (deref_run feature p2 fo2 Hfo2).
  destruct (get_background fo2) as [[b|]|] eqn:Eb.
  2,3: exists st2; split; [reflexivity|]; split; assumption.
  run_block.
  match goal with
  | |- context [set_store (store p2 ++ [?x]) p2] => set (bg := x)
  end.
  set (p3 := set_store (store p2 ++ [bg]) p2).
  assert (kind_at (store p3) rule = Some KRule) as Hr3.
  { subst p3. fields. apply kind_at_app. eauto using kept_kind. }
  destruct (kind_at_lookup _ _ _ Hr3) as (ro3 & Hro3 & Hrk3).
  assert (Forall (closed (store p3)) (store p3)) as Hcl3.
  { subst p3. fields. apply closed_store_app; [exact Hcl2|].
    simpl. intros c [= <-]. exists KRule.
    apply kind_at_app. eauto using kept_kind. }
  destruct (set_background_ok (length (store p2)) ro3)
    as (ro4 & Hset & Hrk4 & Hrl4 & Hrc4); [right; exact Hrk3|].
  destruct (update_kept "background" rule
              (set_background (Some (length (store p2)))) p3 ro3 ro4)
    as (Hrun4 & Hkept4 & Hcl4); try assumption.
  { apply Hrc4; [eapply closed_lookup; eassumption|].
    subst p3. fields. apply kind_at_new. }
  rewrite Hrun4. eexists. split; [reflexivity|]. split; [|exact Hcl4].
  eapply kept_trans; [exact Hk02|].
  eapply kept_trans; [|exact Hkept4]. subst p3. fields. apply kept_app.
Qed.

(** [_build_rule_statement] *)
Lemma build_rule_sound X p keyword line :
  typed p -> fits X p -> X <> INITIAL -> self_table p = None ->
  reports (_build_rule_statement keyword line p)
    (fun _ p' => typed p' /\ fits RULE p').
Proof.
  intros Ht Hf HX Htable.
  destruct (fits_inside X p Hf HX) as (f & c & Ef & Ec).
  unfold _build_rule_statement. run_block. rewrite Ef.
  match goal with
  | |- context [set_store (store p ++ [?x]) p] => set (o0 := x)
  end.
  set (n := length (store p)).
  set (p1 := set_statement (Some n)
               (set_scenario_container (Some n)
                  (set_rule (Some n) (set_store (store p ++ [o0]) p)))).
  assert (kind_at (store p ++ [o0]) n = Some KRule) as Hn
    by apply kind_at_new.
  assert (typed p1) as H1.
  { apply typed_set_statement; [|fields; eauto].
    eapply typed_set_container; [|fields; exact Hn|right; reflexivity].
    apply typed_set_rule; [|fields; exact Hn].
    apply typed_new; [exact Ht|]. simpl. split; discriminate. }
  assert (fits RULE p1) as F1.
  { subst p1. fits_goals.
    - intros _. rewrite Ef. split; eexists; reflexivity.
    - intros _. eexists. reflexivity.
    - rewrite Htable. intros [t Ht']. discriminate. }
  destruct (add_rule_kept f n p1) as (st' & Hrun & Hkept & Hclosed).
  { apply H1. }
  { subst p1. fields. apply kind_at_app. apply (typed_feature p Ht f Ef). }
  { subst p1. fields. exact Hn. }
  rewrite Hrun. simpl. split.
  - apply typed_set_tags. apply typed_store_kept; assumption.
  - apply fits_set_tags. apply fits_store_kept; assumption.
Qed.

(** [add_background] *)
Lemma add_background_kept container background p k :
  Forall (closed (store p)) (store p) ->
  kind_at (store p) container = Some k -> container_kind k ->
  kind_at (store p) background = Some KBackground ->
  exists st',
    add_background container background p = Ok (tt, set_store st' p)
    /\ kept (store p) st' /\ Forall (closed st') st'.
Proof.
  intros Hst Hc Hk Hb. unfold add_background.
  destruct (kind_at_lookup _ _ _ Hb) as (bo & Hbo & Hbk).
  destruct (set_background_parent_ok container bo Hbk)
    as (bo1 & Hb1 & Hbk1 & Hbl1 & Hbc1).
  destruct (update_kept "parent" background
              (set_background_parent container) p bo bo1)
    as (Hrun1 & Hkept1 & Hcl1); try assumption.
  { apply Hbc1. eauto. }
  unfold mbind at 1, M_bind at 1. rewrite Hrun1.
  set (st1 := <[background := bo1]> (store p)) in *.
  set (p1 := set_store st1 p).
  assert (kind_at st1 container = Some k) as Hc1 by eauto using kept_kind.
  destruct (kind_at_lookup _ _ _ Hc1) as (co & Hco & Hck).
  destruct (set_background_ok background co)
    as (co1 & Hset & Hck1 & Hcl & Hcc1); [rewrite Hck; exact Hk|].
  destruct (update_kept "add_background" container
              (set_background (Some background)) p1 co co1)
    as (Hrun2 & Hkept2 & Hcl2); try assumption.
  { apply Hcc1; [eapply closed_lookup; eassumption|].
    eauto using kept_kind. }
  rewrite Hrun2. eexists. split; [reflexivity|]. split; [|exact Hcl2].
  eapply kept_trans; eassumption.
Qed.

(** The Background the container has: the test of
    [_build_background_statement]. *)
Lemma second_background_check p line :
  typed p ->
  reports
    ((match self_scenario_container p with
      | Some container =>
          c ← deref container;
          b ← the "background" (get_background c);
          match b with
          | Some b =>
              ob ← deref b;
              steps ← the "steps" (get_steps ob);
              match steps with
              | _ :: _ =>
                  raise (ParserError "Second Background (can have only one)"
                           (self_line p) (self_filename p) (Some line) None)
              | [] => mret tt
              end
          | None => mret tt
          end
      | None => mret tt
      end) p)
    (fun _ p' => p' = p).
Proof.
  intros Ht. destruct (self_scenario_container p) as [c|] eqn:Ec;
    [|reflexivity].
  destruct (container_lookup p c Ht Ec) as (oc & Hoc & Hk).
  run_block. rewrite (deref_run c p oc Hoc).
  pose proof (closed_lookup _ _ _ (typed_store p Ht) Hoc) as Hclosed.
  destruct (get_background oc) as [[b|]|] eqn:Eb.
  - destruct (container_background_kind _ oc b Hclosed Eb) as [bg Hbg].
    rewrite (deref_run b p _ Hbg). simpl.
    destruct (background_steps bg); [reflexivity|exact I].
  - reflexivity.
  - destruct oc; simpl in *; try discriminate;
      destruct Hk as [Hk|Hk]; discriminate.
Qed.

(** [_build_background_statement] *)
Lemma build_background_sound X p keyword line :
  typed p -> fits X p -> X <> INITIAL -> self_table p = None ->
  reports (_build_background_statement keyword line p)
    (fun _ p' => typed p' /\ fits BACKGROUND p').
Proof.
  intros Ht Hf HX Htable.
  destruct (fits_inside X p Hf HX) as (f & c & Ef & Ec).
  unfold _build_background_statement.
  unfold mbind at 1, M_bind at 1, get.
  unfold mbind at 1, M_bind at 1.
  destruct (self_tags p); [|exact I].
  unfold mret at 1, M_ret at 1.
  unfold mbind at 1, M_bind at 1.
  pose proof (second_background_check p line Ht) as Hcheck.
  match goal with
  | |- reports (match ?m with _ => _ end) _ =>
      destruct m as [[[] q]|e]; [|exact Hcheck]
  end.
  simpl in Hcheck. subst q. run_block. rewrite Ec.
  match goal with
  | |- context [set_store (store p ++ [?x]) p] => set (o0 := x)
  end.
  set (n := length (store p)).
  set (p1 := set_store (store p ++ [o0]) p).
  assert (typed p1) as H1.
  { apply typed_new; [exact Ht|]. simpl. discriminate. }
  destruct (typed_container p Ht c Ec) as (k & Hkc & Hck).
  destruct (add_background_kept c n p1 k) as (st' & Hrun & Hkept & Hclosed).
  { apply H1. }
  { subst p1. fields. apply kind_at_app, Hkc. }
  { exact Hck. }
  { subst p1. fields. apply kind_at_new. }
  rewrite Hrun. simpl.
  assert (kind_at st' n = Some KBackground) as Hn.
  { eapply kept_kind; [exact Hkept|]. subst p1. fields. apply kind_at_new. }
  split.
  - apply typed_set_statement; [apply typed_store_kept; assumption|].
    fields. eauto.
  - subst p1. fits_goals.
    + intros _. rewrite Ef, Ec. split; eexists; reflexivity.
    + intros _. exists n, KBackground. split; [reflexivity|].
      split; [exact Hn|left; reflexivity].
    + rewrite Htable. intros [t Ht']. discriminate.
Qed.

(** [describe] *)
Lemma describe_kept attribute r line p k :
  Forall (closed (store p)) (store p) ->
  kind_at (store p) r = Some k -> k <> KExamples ->
  exists st',
    describe attribute (Some r) line p = Ok (tt, set_store st' p)
    /\ kept (store p) st' /\ Forall (closed st') st'.
Proof.
  intros Hst Hr Hk. unfold describe. run_block.
  destruct (kind_at_lookup _ _ _ Hr) as (o & Ho & Hok).
  destruct (append_description_ok line o) as (o' & Hf & Hk' & Hl & Hc);
    [congruence|].
  destruct (update_kept attribute r (append_description line) p o o')
    as (Hrun & Hkept & Hcl); try assumption.
  { apply Hc. eapply closed_lookup; eassumption. }
  rewrite Hrun. eauto.
Qed.

(** The statement and its steps, for a state that has a statement with
    steps. *)
Lemma statement_with_steps Y p :
  fits Y p -> Y ∈ [SCENARIO; BACKGROUND; STEPS; MULTILINE_TEXT; TABLE] ->
  exists s o steps,
    self_statement p = Some s /\ store p !! s = Some o
    /\ with_steps (kind_of o) /\ get_steps o = Some steps.
Proof.
  intros Hf HY. destruct (fits_statement Y p Hf HY) as (s & k & Hs & Hk & Hw).
  destruct (kind_at_lookup _ _ _ Hk) as (o & Ho & <-).
  exists s, o.
  assert (exists steps, get_steps o = Some steps) as [steps Hg].
  { destruct o; simpl in Hw; destruct Hw as [Hw|[Hw|Hw]];
      try discriminate; eexists; reflexivity. }
  exists steps. auto.
Qed.

Lemma statement_steps_run Y p :
  fits Y p -> Y ∈ [SCENARIO; BACKGROUND; STEPS; MULTILINE_TEXT; TABLE] ->
  exists steps,
    statement_steps p = Ok (steps, p) /\ (steps <> [] -> has_step p).
Proof.
  intros Hf HY.
  destruct (statement_with_steps Y p Hf HY)
    as (s & o & steps & Hs & Ho & Hw & Hg).
  exists steps. unfold statement_steps. run_block. rewrite Hs. simpl.
  rewrite (deref_run s p o Ho), Hg. split; [reflexivity|].
  intros Hne. exists s, o. split; [exact Hs|]. split; [exact Ho|].
  unfold steps_len. rewrite Hg. destruct steps; [contradiction|simpl; lia].
Qed.

(** [self.statement.steps.append(step)] *)
Lemma append_step_kept Y step p :
  typed p -> fits Y p ->
  Y ∈ [SCENARIO; BACKGROUND; STEPS; MULTILINE_TEXT; TABLE] ->
  exists st',
    append_step step p = Ok (tt, set_store st' p)
    /\ kept (store p) st' /\ Forall (closed st') st'
    /\ has_step (set_store st' p).
Proof.
  intros Ht Hf HY.
  destruct (statement_with_steps Y p Hf HY)
    as (s & o & steps & Hs & Ho & Hw & Hg).
  unfold append_step. run_block. rewrite Hs. simpl.
  rewrite (deref_run s p o Ho), Hg. simpl.
  destruct (set_steps_keeps (steps ++ [step]) o Hw)
    as (o' & Hf' & Hk & Hl & Hc).
  assert (steps_len o <= steps_len o') as Hle.
  { rewrite Hl. unfold steps_len. rewrite Hg, length_app. simpl. lia. }
  destruct (update_kept "steps" s (set_steps (steps ++ [step])) p o o')
    as (Hrun & Hkept & Hcl); try assumption.
  { apply Ht. }
  { apply Hc. eapply closed_lookup; [apply Ht|exact Ho]. }
  rewrite Hrun. eexists. split; [reflexivity|]. split; [exact Hkept|].
  split; [exact Hcl|]. exists s, o'. fields. split; [exact Hs|].
  split; [apply list_lookup_insert_eq; eapply lookup_lt_Some, Ho|].
  rewrite Hl, length_app. simpl. lia.
Qed.

Lemma length_map_last {A} (f : A -> A) l : length (map_last f l) = length l.
Proof.
  induction l as [|x [|y l] IH]; [reflexivity..|].
  change (S (length (map_last f (y :: l))) = S (length (y :: l))).
  rewrite IH. reflexivity.
Qed.

(** [self.statement.steps[-1]], changed. *)
Lemma update_last_step_kept f p :
  typed p -> has_step p ->
  exists st',
    update_last_step f p = Ok (tt, set_store st' p)
    /\ kept (store p) st' /\ Forall (closed st') st'.
Proof.
  intros Ht (s & o & Hs & Ho & Hlen).
  unfold update_last_step. run_block. rewrite Hs. simpl.
  rewrite (deref_run s p o Ho).
  unfold steps_len in Hlen.
  destruct (get_steps o) as [steps|] eqn:Hg; [|simpl in Hlen; lia].
  simpl in Hlen. simpl.
  destruct steps as [|step steps]; [simpl in Hlen; lia|].
  assert (with_steps (kind_of o)) as Hw.
  { destruct o; simpl in *; try discriminate;
      [left|right; left|right; right]; reflexivity. }
  destruct (set_steps_keeps (map_last f (step :: steps)) o Hw)
    as (o' & Hf' & Hk & Hl & Hc).
  destruct (update_kept "steps" s (set_steps (map_last f (step :: steps)))
              p o o') as (Hrun & Hkept & Hcl); try assumption.
  { apply Ht. }
  { rewrite Hl, length_map_last. unfold steps_len. rewrite Hg. reflexivity. }
  { apply Hc. eapply closed_lookup; [apply Ht|exact Ho]. }
  rewrite Hrun. eauto.
Qed.

Lemma sound_set_state Y p : typed p -> fits Y p -> sound (set_state Y p).
Proof.
  intros Ht Hf. split; [apply typed_set_state, Ht|].
  fields. apply fits_set_state, Hf.
Qed.

Lemma sound_store_kept p st' :
  sound p -> kept (store p) st' -> Forall (closed st') st' ->
  sound (set_store st' p).
Proof.
  intros [Ht Hf] Hk Hc. split; [apply typed_store_kept; assumption|].
  fields. apply fits_store_kept; assumption.
Qed.

(** The states of a statement that is open. *)
Lemma fits_taggable X p :
  fits X p -> X <> INITIAL -> self_table p = None ->
  fits TAGGABLE_STATEMENT p.
Proof.
  intros Hf HX Ht. destruct (fits_feature X p Hf HX) as [H1 H2].
  fits_goals; auto; rewrite Ht; intros [t E]; discriminate.
Qed.

Lemma fits_steps X p :
  fits X p -> X ∈ [SCENARIO; BACKGROUND; STEPS; MULTILINE_TEXT; TABLE] ->
  self_table p = None -> fits STEPS p.
Proof.
  intros Hf HX Ht.
  assert (X <> INITIAL) as Hne by (intros ->; not_in HX).
  destruct (fits_feature X p Hf Hne) as [H1 H2].
  pose proof (fits_statement X p Hf HX) as H3.
  fits_goals; auto; rewrite Ht; intros [t E]; discriminate.
Qed.


(** [subaction_detect_taggable_statement] *)
Lemma subaction_sound X p line :
  typed p -> fits X p -> X <> INITIAL -> self_table p = None ->
  reports (subaction_detect_taggable_statement languages line p)
    (fun detected p' => if detected : bool then sound p' else p' = p).
Proof.
  intros Ht Hf HX Htable. unfold subaction_detect_taggable_statement.
  assert (forall c, c ∈ concepts ->
            exists a, match_keyword languages c line p = Ok (a, p)) as Hm.
  { intros c Hc. apply match_keyword_run; assumption. }
  destruct (PyStr.startswith line "@") eqn:Hat.
  { pose proof (parse_tags_reports line p Hat) as H.
    cbv [mbind M_bind]. destruct (Parser.parse_tags line p) as [[ts q]|e];
      [|exact H]. simpl in H. subst q. cbn.
    unfold extend_tags, modify. apply sound_set_state.
    - apply typed_set_tags, Ht.
    - apply fits_set_tags. eapply fits_taggable; eassumption. }
  cbv [mbind M_bind].
  destruct (Hm "rule") as [a ->]; [in_list|].
  destruct (known a) as [kw|].
  { pose proof (build_rule_sound X p kw line Ht Hf HX Htable) as H.
    destruct (_build_rule_statement kw line p) as [[[] q]|e]; [|exact H].
    destruct H as [Hq Fq]. cbn. apply sound_set_state; assumption. }
  destruct (Hm "scenario") as [a1 ->]; [in_list|].
  destruct (known a1) as [kw|].
  { pose proof (build_scenario_sound X p kw line Ht Hf HX Htable) as H.
    destruct (_build_scenario_statement kw line p) as [[[] q]|e]; [|exact H].
    destruct H as [Hq Fq]. cbn. apply sound_set_state; assumption. }
  destruct (Hm "scenario_outline") as [a2 ->]; [in_list|].
  destruct (known a2) as [kw|].
  { pose proof (build_outline_sound X p kw line Ht Hf HX Htable) as H.
    destruct (_build_scenario_outline_statement kw line p) as [[[] q]|e];
      [|exact H].
    destruct H as [Hq Fq]. cbn. apply sound_set_state; assumption. }
  destruct (Hm "examples") as [a3 ->]; [in_list|].
  destruct (known a3) as [kw|]; [|reflexivity].
  pose proof (build_examples_sound X p kw line Ht Hf HX) as H.
  destruct (_build_examples kw line p) as [[[] q]|e]; [|exact H].
  destruct H as [Hq Fq]. cbn. apply sound_set_state; assumption.
Qed.

(** [action_initial] *)
Lemma action_initial_sound p line :
  sound p -> self_state p = INITIAL ->
  reports (action_initial languages line p) taken.
Proof.
  intros [Ht Hf] Hs. rewrite Hs in Hf. unfold action_initial.
  destruct (PyStr.startswith (PyStr.strip line) "@") eqn:Hat.
  { pose proof (parse_tags_reports _ p Hat) as H.
    cbv [mbind M_bind].
    destruct (Parser.parse_tags (PyStr.strip line) p) as [[ts q]|e];
      [|exact H]. simpl in H. subst q. cbn.
    unfold extend_tags, modify. split; [apply typed_set_tags, Ht|].
    fields. rewrite Hs. apply fits_set_tags, Hf. }
  cbv [mbind M_bind].
  destruct (match_keyword_run p "feature" (PyStr.strip line) Ht)
    as [a ->]; [in_list|].
  destruct (known a) as [kw|]; [|exact Ht].
  pose proof (build_feature_sound p kw (PyStr.strip line) Ht
                (no_table INITIAL p Hf ltac:(discriminate))) as H.
  destruct (_build_feature kw (PyStr.strip line) p) as [[[] q]|e];
    [|exact H].
  destruct H as [Hq Fq]. cbn. apply sound_set_state; assumption.
Qed.

(** The end of [action_feature] and of [action_rule]: a Background or a
    line of the description of [target]. *)
Lemma background_or_description_sound X p line target r k :
  sound p -> self_state p = X -> X <> INITIAL -> X <> TABLE ->
  target p = Some r -> kind_at (store p) r = Some k -> k <> KExamples ->
  reports
    ((background_keyword ← match_keyword languages "background" line;
      match known background_keyword with
      | Some background_keyword =>
          _build_background_statement background_keyword line;;
          modify (set_state BACKGROUND);;
          mret true
      | None =>
          p ← get;
          describe "description" (target p) line;;
          mret true
      end) p) taken.
Proof.
  intros [Ht Hf] Hs HX HT Htarget Hr Hk. rewrite Hs in Hf.
  cbv [mbind M_bind get].
  destruct (match_keyword_run p "background" line Ht)
    as [a ->]; [in_list|].
  destruct (known a) as [kw|].
  - pose proof (build_background_sound X p kw line Ht Hf HX
                  (no_table X p Hf HT)) as H.
    destruct (_build_background_statement kw line p) as [[[] q]|e];
      [|exact H].
    destruct H as [Hq Fq]. cbn. apply sound_set_state; assumption.
  - rewrite Htarget.
    destruct (describe_kept "description" r line p k (typed_store p Ht) Hr Hk)
      as (st' & -> & Hkept & Hcl).
    cbn. apply sound_store_kept; [|assumption..].
    split; [exact Ht|]. rewrite Hs. exact Hf.
Qed.

(** [action_feature] *)
Lemma action_feature_sound p line :
  sound p -> self_state p = FEATURE ->
  reports (action_feature languages line p) taken.
Proof.
  intros Hp Hs. pose proof Hp as [Ht Hf]. rewrite Hs in Hf.
  unfold action_feature. unfold mbind at 1, M_bind at 1.
  pose proof (subaction_sound FEATURE p (PyStr.strip line) Ht Hf
                ltac:(discriminate)
                (no_table FEATURE p Hf ltac:(discriminate))) as H.
  destruct (subaction_detect_taggable_statement _ _ p) as [[[] q]|e];
    [exact H| |exact H].
  simpl in H. subst q.
  destruct (fits_inside FEATURE p Hf ltac:(discriminate))
    as (f & c & Ef & Ec).
  eapply (background_or_description_sound FEATURE p _ self_feature f
            KFeature); try eassumption; try discriminate.
  apply (typed_feature p Ht f Ef).
Qed.

(** [action_rule] *)
Lemma action_rule_sound p line :
  sound p -> self_state p = RULE ->
  reports (action_rule languages line p) taken.
Proof.
  intros Hp Hs. pose proof Hp as [Ht Hf]. rewrite Hs in Hf.
  unfold action_rule. unfold mbind at 1, M_bind at 1.
  pose proof (subaction_sound RULE p (PyStr.strip line) Ht Hf
                ltac:(discriminate)
                (no_table RULE p Hf ltac:(discriminate))) as H.
  destruct (subaction_detect_taggable_statement _ _ p) as [[[] q]|e];
    [exact H| |exact H].
  simpl in H. subst q.
  destruct (fits_rule RULE p Hf eq_refl) as [r Er].
  eapply (background_or_description_sound RULE p _ self_rule r
            KRule); try eassumption; try discriminate.
  apply (typed_rule p Ht r Er).
Qed.

(** [action_taggable_statement] *)
Lemma action_taggable_statement_sound p line :
  sound p -> self_state p = TAGGABLE_STATEMENT ->
  reports (action_taggable_statement languages line p) taken.
Proof.
  intros Hp Hs. pose proof Hp as [Ht Hf]. rewrite Hs in Hf.
  unfold action_taggable_statement. unfold mbind at 1, M_bind at 1.
  pose proof (subaction_sound TAGGABLE_STATEMENT p
                (PyStr.strip line) Ht Hf ltac:(discriminate)
                (no_table _ p Hf ltac:(discriminate))) as H.
  destruct (subaction_detect_taggable_statement _ _ p) as [[[] q]|e];
    [exact H| |exact H].
  simpl in H. subst q. exact Ht.
Qed.

(** [action_scenario], which is [action_background] as well. *)
Lemma action_scenario_sound X p line :
  sound p -> self_state p = X -> X = SCENARIO \/ X = BACKGROUND ->
  reports (action_scenario languages line p) taken.
Proof.
  intros [Ht Hf] Hs HX. rewrite Hs in Hf.
  assert (X ∈ [SCENARIO; BACKGROUND; STEPS; MULTILINE_TEXT; TABLE]) as Hin
    by (destruct HX as [-> | ->]; in_list).
  assert (X <> INITIAL) as Hni by (destruct HX as [-> | ->]; discriminate).
  assert (X <> TABLE) as Hnt by (destruct HX as [-> | ->]; discriminate).
  pose proof (no_table X p Hf Hnt) as Htable.
  unfold action_scenario. unfold mbind at 1, M_bind at 1, modify.
  unfold mbind at 1, M_bind at 1.
  set (p0 := set_last_step_type None p).
  assert (typed p0) as Ht0 by apply typed_last, Ht.
  pose proof (parse_step_reports (PyStr.strip line) p0 Ht0) as H.
  destruct (parse_step (PyStr.strip line) p0) as [[step q]|e]; [|exact H].
  destruct H as [t ->].
  set (p1 := set_last_step_type t p0).
  assert (typed p1) as Ht1 by apply typed_last, Ht0.
  assert (fits X p1) as Hf1 by (do 2 apply fits_last; exact Hf).
  assert (self_state p1 = X) as Hs1 by exact Hs.
  assert (self_table p1 = None) as Htable1 by exact Htable.
  destruct step as [step|].
  - cbv [mbind M_bind modify mret M_ret].
    destruct (append_step_kept STEPS step (set_state STEPS p1))
      as (st' & -> & Hkept & Hcl & _).
    { apply typed_set_state, Ht1. }
    { apply fits_set_state. eapply fits_steps; eassumption. }
    { in_list. }
    simpl. apply sound_store_kept; [|assumption..].
    apply sound_set_state; [exact Ht1|]. eapply fits_steps; eassumption.
  - unfold mbind at 1, M_bind at 1.
    pose proof (subaction_sound X p1 (PyStr.strip line) Ht1 Hf1
                  Hni Htable1) as H.
    destruct (subaction_detect_taggable_statement _ _ p1) as [[[] q]|e];
      [exact H| |exact H].
    simpl in H. subst q. cbv [mbind M_bind get mret M_ret].
    destruct (fits_statement X p1 Hf1 Hin) as (s & k & Es & Hk & Hw).
    rewrite Es.
    destruct (describe_kept "description" s (PyStr.strip line) p1 k
                (typed_store p1 Ht1) Hk) as (st' & -> & Hkept & Hcl).
    { destruct Hw as [->|[->| ->]]; discriminate. }
    simpl. apply sound_store_kept; [|assumption..].
    split; [exact Ht1|]. rewrite Hs1. exact Hf1.
Qed.

(** From an instance to one that differs in nothing the invariant reads. *)
Ltac plain_from H :=
  first [ eapply typed_ext; [..|exact H]; reflexivity
        | eapply fits_ext; [..|exact H]; reflexivity ].

Lemma fits_steps_intro p :
  is_Some (self_feature p) -> is_Some (self_scenario_container p) ->
  (exists r k, self_statement p = Some r /\ kind_at (store p) r = Some k
               /\ with_steps k) ->
  self_table p = None -> fits STEPS p.
Proof.
  intros H1 H2 H3 Ht.
  fits_goals; auto; rewrite Ht; intros [t E]; discriminate.
Qed.

Lemma fits_table_intro p :
  is_Some (self_feature p) -> is_Some (self_scenario_container p) ->
  (exists r k, self_statement p = Some r /\ kind_at (store p) r = Some k
               /\ with_steps k) ->
  (self_examples p = None -> has_step p) -> fits TABLE p.
Proof. intros H1 H2 H3 H4. fits_goals; auto. Qed.

Lemma fits_multiline_intro p :
  is_Some (self_feature p) -> is_Some (self_scenario_container p) ->
  (exists r k, self_statement p = Some r /\ kind_at (store p) r = Some k
               /\ with_steps k) ->
  has_step p -> is_Some (self_multiline_terminator p) ->
  self_table p = None -> fits MULTILINE_TEXT p.
Proof.
  intros H1 H2 H3 H4 H5 Ht.
  fits_goals; auto; rewrite Ht; intros [t E]; discriminate.
Qed.

(** What a state with a statement tells, taken apart. *)
Lemma fits_parts X p :
  fits X p -> X ∈ [SCENARIO; BACKGROUND; STEPS; MULTILINE_TEXT; TABLE] ->
  is_Some (self_feature p) /\ is_Some (self_scenario_container p)
  /\ exists r k, self_statement p = Some r /\ kind_at (store p) r = Some k
                 /\ with_steps k.
Proof.
  intros Hf HX.
  assert (X <> INITIAL) as Hne by (intros ->; not_in HX).
  destruct (fits_feature X p Hf Hne) as [H1 H2].
  pose proof (fits_statement X p Hf HX) as H3. auto.
Qed.


(** [action_steps] *)
Lemma action_steps_sound p line :
  sound p -> self_state p = STEPS ->
  reports (action_steps languages line p) taken.
Proof.
  intros [Ht Hf] Hs. rewrite Hs in Hf.
  assert (STEPS ∈ [SCENARIO; BACKGROUND; STEPS; MULTILINE_TEXT; TABLE])
    as Hin by in_list.
  pose proof (no_table STEPS p Hf ltac:(discriminate)) as Htable.
  destruct (fits_parts STEPS p Hf Hin) as (Hfeat & Hcont & Hstat).
  destruct (is_fence (PyStr.lstrip line)) eqn:Hfence.
  - destruct (statement_with_steps STEPS p Hf Hin)
      as (s & o & steps & Es & Ho & Hw & Hg).
    destruct steps as [|step steps].
    + unfold action_steps. rewrite Hfence. unfold statement_steps.
      cbv [mbind M_bind get the mret M_ret]. rewrite Es.
      cbv [mbind M_bind get the mret M_ret].
      rewrite (deref_run s p o Ho), Hg. exact I.
    + rewrite (action_steps_opens languages p line s o step steps Hfence Es
                 Ho Hg).
      unfold reports, taken. split; [plain_from Ht|]. fields.
      apply fits_multiline_intro; fields; auto.
      exists s, o. fields. split; [exact Es|]. split; [exact Ho|].
      unfold steps_len. rewrite Hg. simpl. lia.
  - unfold action_steps. rewrite Hfence.
    unfold mbind at 1, M_bind at 1.
    pose proof (parse_step_reports (PyStr.strip line) p Ht) as H.
    destruct (parse_step (PyStr.strip line) p) as [[step q]|e]; [|exact H].
    destruct H as [t ->].
    set (p1 := set_last_step_type t p).
    assert (typed p1) as Ht1 by apply typed_last, Ht.
    assert (fits STEPS p1) as Hf1 by (apply fits_last; exact Hf).
    destruct step as [step|].
    + cbv [mbind M_bind mret M_ret].
      destruct (append_step_kept STEPS step p1 Ht1 Hf1 Hin)
        as (st' & -> & Hkept & Hcl & _).
      simpl. apply sound_store_kept; [|assumption..].
      split; [exact Ht1|]. change (self_state p1) with (self_state p).
      rewrite Hs. exact Hf1.
    + unfold mbind at 1, M_bind at 1.
      pose proof (subaction_sound STEPS p1 (PyStr.strip line)
                    Ht1 Hf1 ltac:(discriminate) Htable) as H.
      destruct (subaction_detect_taggable_statement _ _ p1)
        as [[[] q]|e]; [exact H| |exact H].
      simpl in H. subst q.
      destruct (PyStr.startswith (PyStr.strip line) "|") eqn:Hpipe;
        [|exact Ht1].
      destruct (statement_steps_run STEPS p1 Hf1 Hin) as (steps & Hrun & Hst).
      unfold mbind at 1, M_bind at 1. rewrite Hrun.
      cbv [mbind M_bind get modify].
      destruct steps as [|step steps]; [exact I|].
      rewrite action_table_row_first;
        [|exact Htable|right; exact Hfeat].
      simpl. split; [plain_from Ht1|]. fields.
      apply fits_table_intro; fields; auto;
        intros _; apply Hst; discriminate.
Qed.

(** [action_multiline_text] *)
Lemma action_multiline_text_sound p line :
  sound p -> self_state p = MULTILINE_TEXT ->
  reports (action_multiline_text strip_colon line p) taken.
Proof.
  intros [Ht Hf] Hs. rewrite Hs in Hf.
  assert (MULTILINE_TEXT
            ∈ [SCENARIO; BACKGROUND; STEPS; MULTILINE_TEXT; TABLE]) as Hin
    by in_list.
  pose proof (no_table MULTILINE_TEXT p Hf ltac:(discriminate)) as Htable.
  destruct (fits_multiline MULTILINE_TEXT p Hf eq_refl) as [Hstep [t Et]].
  destruct (fits_parts MULTILINE_TEXT p Hf Hin) as (Hfeat & Hcont & Hstat).
  unfold action_multiline_text. cbv [mbind M_bind get]. rewrite Et.
  cbv [mret M_ret].
  destruct (PyStr.startswith (PyStr.strip line) t).
  - match goal with
    | |- context [update_last_step ?f p] =>
        destruct (update_last_step_kept f p Ht Hstep)
          as (st' & -> & Hkept & Hcl)
    end.
    unfold reports, taken, modify. split.
    + apply typed_set_state. plain_from (typed_store_kept p st' Ht Hkept Hcl).
    + fields. apply fits_steps_intro; fields; auto.
      destruct Hstat as (r & k & Er & Hk & Hw). exists r, k.
      eauto using kept_kind.
  - unfold modify.
    destruct (PyStr.truthy _); [exact I|].
    unfold reports, taken. split; [plain_from Ht|]. fields. rewrite Hs.
    plain_from Hf.
Qed.

(** [action_table] *)
(** The end of a table: the rows go to the examples, or to the last step. *)
Lemma table_end_run p :
  typed p -> fits TABLE p ->
  exists st',
    (match self_examples p with
     | Some examples =>
         update "table" examples (set_examples_table (self_table p));;
         modify (set_examples None)
     | None =>
         update_last_step (fun step =>
           _normalize_step_name strip_colon
             (step_set_table step (self_table p)))
     end) p
    = Ok (tt, match self_examples p with
              | Some _ => set_examples None (set_store st' p)
              | None => set_store st' p
              end)
    /\ kept (store p) st' /\ Forall (closed st') st'.
Proof.
  intros Ht Hf. destruct (self_examples p) as [e|] eqn:Ee.
  - pose proof (typed_examples p Ht e Ee) as Hk.
    destruct (kind_at_lookup _ _ _ Hk) as (o & Ho & Hko).
    destruct (set_examples_table_ok (self_table p) o Hko)
      as (o' & Hset & Hk' & Hl & Hc).
    destruct (update_kept "table" e
                (set_examples_table (self_table p)) p o o')
      as (Hrun & Hkept & Hcl); try assumption; [apply Ht|apply Hc|].
    eexists. cbv [mbind M_bind modify]. rewrite Hrun. auto.
  - destruct (update_last_step_kept
                (fun step => _normalize_step_name strip_colon
                               (step_set_table step (self_table p)))
                p Ht (fits_table TABLE p Hf eq_refl Ee))
      as (st' & Hrun & Hkept & Hcl). eauto.
Qed.

(** The instance [action_table] hands to [action_steps] at the end of a
    table. *)
Lemma table_end_sound p st' :
  typed p -> fits TABLE p -> kept (store p) st' -> Forall (closed st') st' ->
  sound
    (set_state STEPS
       (set_table None
          match self_examples p with
          | Some _ => set_examples None (set_store st' p)
          | None => set_store st' p
          end)).
Proof.
  intros Ht Hf Hkept Hcl.
  assert (TABLE ∈ [SCENARIO; BACKGROUND; STEPS; MULTILINE_TEXT; TABLE])
    as Hin by in_list.
  destruct (fits_parts TABLE p Hf Hin) as (Hfeat & Hcont & Hstat).
  assert (typed (set_store st' p)) as Ht'
    by (apply typed_store_kept; assumption).
  split.
  - apply typed_set_state. apply typed_set_table.
    destruct (self_examples p);
      [apply typed_set_examples_none|]; exact Ht'.
  - fields.
    apply fits_steps_intro; destruct (self_examples p); fields; auto;
      destruct Hstat as (r & k & Er & Hk & Hw); exists r, k;
      eauto using kept_kind.
Qed.

Lemma action_table_sound p line :
  sound p -> self_state p = TABLE ->
  reports (action_table languages strip_colon line p) taken.
Proof.
  intros [Ht Hf] Hs. rewrite Hs in Hf.
  assert (TABLE ∈ [SCENARIO; BACKGROUND; STEPS; MULTILINE_TEXT; TABLE])
    as Hin by in_list.
  destruct (fits_parts TABLE p Hf Hin) as (Hfeat & Hcont & Hstat).
  unfold action_table.
  destruct (negb (PyStr.startswith (PyStr.strip line) "|")).
  - unfold mbind at 1, M_bind at 1, get.
    destruct (table_end_run p Ht Hf) as (st' & Hrun & Hkept & Hcl).
    unfold mbind at 1, M_bind at 1. rewrite Hrun.
    cbv [mbind M_bind modify].
    apply action_steps_sound; [|reflexivity].
    apply table_end_sound; assumption.
  - assert (loggable p (PyStr.strip line)) as Hlog by (right; exact Hfeat).
    destruct (self_table p) as [t|] eqn:Et.
    + rewrite (action_table_row_next p t _ Et Hlog).
      destruct (_ =? _); [|exact I].
      unfold reports, taken. split; [plain_from Ht|]. fields. rewrite Hs.
      apply fits_table_intro; fields; auto.
      apply (fits_table TABLE p Hf eq_refl).
    + rewrite (action_table_row_first p _ Et Hlog).
      unfold reports, taken. split; [plain_from Ht|]. fields. rewrite Hs.
      apply fits_table_intro; fields; auto.
      apply (fits_table TABLE p Hf eq_refl).
Qed.

(** [action] *)
Lemma action_sound p line :
  sound p ->
  reports (action languages strip_colon line p) (fun _ p' => sound p').
Proof.
  intros Hp. pose proof Hp as [Ht Hf].
  unfold action. unfold mbind at 1, M_bind at 1, get.
  destruct (_ && _).
  - destruct (_ || _); [exact Hp|].
    destruct (language_comment _) as [language|]; [|exact Hp].
    cbv [mbind M_bind modify languages_at].
    destruct (languages !! language) as [k|] eqn:Ek; [|exact I].
    cbv [mret M_ret]. unfold reports. split.
    + eapply typed_set_keywords; [apply typed_set_language, Ht|exact Ek].
    + fields. apply fits_set_keywords, fits_set_language, Hf.
  - assert (forall func,
      reports (func line p) taken ->
      reports
        ((accepted ← func line;
          if accepted : bool then mret tt
          else
            let line := PyStr.strip line in
            p ← get;
            let msg := String PyStr.LF "Parser failure in state=" +:+
                       state_name (self_state p) in
            reason ← ask_parse_failure_oracle languages line;
            raise (ParserError msg (self_line p) (self_filename p)
                     (Some line) reason)) p)
        (fun _ p' => sound p')) as Hdispatch.
    { intros func H. cbv [mbind M_bind].
      destruct (func line p) as [[[] q]|e]; [exact H| |exact H].
      simpl in H. cbv [get].
      destruct (oracle_run q (PyStr.strip line) H) as [reason ->].
      exact I. }
    destruct (self_state p) eqn:Hs; cbn [action_of];
      try (apply Hdispatch).
    + apply action_initial_sound; assumption.
    + apply action_feature_sound; assumption.
    + apply action_rule_sound; assumption.
    + apply (action_scenario_sound BACKGROUND); auto.
    + apply (action_scenario_sound SCENARIO); auto.
    + apply action_taggable_statement_sound; assumption.
    + apply action_steps_sound; assumption.
    + exact I.
    + apply action_multiline_text_sound; assumption.
    + apply action_table_sound; assumption.
Qed.

(** The loop over the lines. *)
Lemma feed_sound text_lines p :
  sound p ->
  reports (feed languages strip_colon text_lines p) (fun _ p' => sound p').
Proof.
  revert p. induction text_lines as [|line rest IH]; intros p Hp;
    [exact Hp|].
  cbn [feed]. cbv [mbind M_bind modify get mret M_ret].
  set (p1 := set_line (self_line p + 1) p).
  assert (sound p1) as Hp1.
  { destruct Hp as [Ht Hf]. split; [apply typed_set_line, Ht|].
    apply fits_set_line, Hf. }
  destruct (_ && _); [apply IH, Hp1|].
  pose proof (action_sound p1 line Hp1) as H.
  destruct (action languages strip_colon line p1) as [[[] q]|e];
    [|exact H].
  apply IH, H.
Qed.

(** The end of the text. *)
Lemma close_table_sound p :
  sound p ->
  reports (close_table languages strip_colon p) (fun _ p' => typed p').
Proof.
  intros Hp. pose proof Hp as [Ht Hf]. unfold close_table.
  cbv [mbind M_bind get mret M_ret].
  destruct (self_table p) as [t|] eqn:Et; [|exact Ht].
  assert (self_state p = TABLE) as Hs
    by (apply (fits_open_table _ p Hf); eauto).
  pose proof (action_table_sound p "" Hp Hs) as H.
  destruct (action_table languages strip_colon "" p) as [[a q]|e];
    [|exact H].
  destruct a; [apply H|exact H].
Qed.

Lemma sound_after_reset language k filename p :
  languages !! language = Some k -> Forall (closed (store p)) (store p) ->
  sound (after_reset k filename p).
Proof.
  intros Hk Hst. split.
  - constructor; cbn; eauto; discriminate.
  - cbn [self_state after_reset]. fits_goals. intros [t E]. discriminate.
Qed.

(** [Parser.parse] *)
Lemma parse_reports text filename p :
  Forall (closed (store p)) (store p) ->
  reports (parse languages strip_colon text filename p) (fun _ _ => True).
Proof.
  intros Hst. unfold parse, _parse_loop.
  unfold mbind at 1, M_bind at 1. unfold mbind at 1, M_bind at 1.
  destruct (languages !! or_default (self_language p)) as [k|] eqn:Ek.
  2: { unfold reset, languages_at.
       cbv [mbind M_bind get modify mret M_ret].
       cbn [self_language set_language]. rewrite Ek. exact I. }
  rewrite (reset_run languages filename p k Ek).
  pose proof (sound_after_reset _ k filename p Ek Hst) as H0.
  cbv [mbind M_bind get modify mret M_ret].
  cbn [self_state after_reset].
  rewrite bool_decide_eq_false_2 by discriminate.
  pose proof (feed_sound (PyStr.splitlines text) _ H0) as H1.
  destruct (feed _ _ _ _) as [[[] p1]|e]; [|exact H1].
  pose proof (close_table_sound p1 H1) as H2.
  destruct (close_table _ _ p1) as [[[] p2]|e]; [|exact H2].
  simpl in H2.
  destruct (self_feature p2) as [f|] eqn:Ef; [|exact I].
  pose proof (typed_feature p2 H2 f Ef) as Hk.
  destruct (kind_at_lookup _ _ _ Hk) as (o & Ho & Hko).
  destruct (set_parser_ok (self_id p2) o Hko) as (o' & Hset & _).
  rewrite (update_run "parser" f _ p2 o o' Ho Hset). exact I.
Qed.

(** *** The end of the text *)
Lemma startswith_of_empty pre : PyStr.startswith "" pre = true -> pre = "".
Proof. destruct pre; [reflexivity|discriminate]. Qed.

Lemma lower_empty s : PyStr.lower s = "" -> s = "".
Proof. destruct s; [reflexivity|discriminate]. Qed.

Lemma empty_line_starts_nothing alias :
  alias <> "" -> line_starts_with_keyword "" alias = false.
Proof.
  intros Hne. unfold line_starts_with_keyword.
  apply orb_false_intro; apply not_true_is_false; intros H;
    apply startswith_of_empty in H; [|apply lower_empty in H]; auto.
Qed.

Lemma find_nowhere {A} (f : A -> bool) l :
  Forall (fun x => f x = false) l -> List.find f l = None.
Proof.
  induction 1 as [|x l Hx _ IH]; [reflexivity|]. simpl. rewrite Hx. exact IH.
Qed.

Lemma empty_line_no_keyword k concept :
  complete k -> concept ∈ concepts -> no_keyword k "" concept.
Proof.
  intros Hc Hin. unfold complete in Hc. rewrite Forall_forall in Hc.
  destruct (Hc concept Hin) as [aliases Ha]. exists aliases.
  split; [exact Ha|]. apply find_nowhere, Forall_forall. intros alias _.
  apply not_true_is_false. intros H. apply startswith_of_empty in H.
  destruct alias; discriminate.
Qed.

Lemma empty_line_no_step_keyword language k ty :
  wordy languages -> languages !! language = Some k ->
  ty ∈ ["given"; "when"; "then"; "and"; "but"] ->
  no_step_keyword k "" ty.
Proof.
  intros Hw Hl Hin.
  pose proof (tables language k Hl) as Hc.
  unfold complete in Hc. rewrite Forall_forall in Hc.
  destruct (Hc ty) as [aliases Ha].
  { revert Hin. unfold concepts. rewrite !elem_of_cons.
    intuition auto. }
  exists aliases. split; [exact Ha|]. apply find_nowhere.
  eapply Forall_impl; [exact (Hw language k ty aliases Hl Ha Hin)|].
  intros alias Hne. apply empty_line_starts_nothing, Hne.
Qed.

(** [action_steps] takes no empty line. *)
Lemma action_steps_empty_line p :
  wordy languages -> typed p ->
  action_steps languages "" p = Ok (false, p).
Proof.
  intros Hw Ht.
  destruct (typed_keywords p Ht) as (language & k & Hl & Hk).
  pose proof (tables language k Hl) as Hc.
  unfold action_steps. change (PyStr.lstrip "") with "".
  change (is_fence "") with false. cbv iota. change (PyStr.strip "") with "".
  unfold parse_step. cbv [mbind M_bind].
  rewrite (parse_step_types_none p k "" _ Hk).
  2: { repeat (apply Forall_cons; split);
         [..|constructor];
         (eapply empty_line_no_step_keyword; [exact Hw|exact Hl|in_list]). }
  rewrite (subaction_none languages p k "" Hk eq_refl).
  2: { repeat (apply Forall_cons; split);
         [..|constructor];
         (apply empty_line_no_keyword; [exact Hc|in_list]). }
  reflexivity.
Qed.

(** At the end of the text an open table is closed without a failure. *)
Lemma close_table_run p :
  wordy languages -> sound p ->
  exists p',
    close_table languages strip_colon p = Ok (tt, p')
    /\ typed p' /\ self_feature p' = self_feature p.
Proof.
  intros Hw [Ht Hf]. unfold close_table.
  cbv [mbind M_bind get mret M_ret].
  destruct (self_table p) as [t|] eqn:Et; [|eauto].
  assert (self_state p = TABLE) as Hs
    by (apply (fits_open_table _ p Hf); eauto).
  rewrite Hs in Hf. unfold action_table. change (PyStr.strip "") with "".
  change (negb (PyStr.startswith "" "|")) with true. cbv iota.
  unfold mbind at 1, M_bind at 1, get.
  destruct (table_end_run p Ht Hf) as (st' & Hrun & Hkept & Hcl).
  unfold mbind at 1, M_bind at 1. rewrite Hrun.
  cbv [mbind M_bind modify].
  pose proof (table_end_sound p st' Ht Hf Hkept Hcl) as [Ht' _].
  rewrite (action_steps_empty_line _ Hw Ht').
  eexists. split; [reflexivity|]. split; [exact Ht'|].
  destruct (self_examples p); reflexivity.
Qed.

(** The feature of a typed instance takes the parser. *)
Lemma finish_run p r :
  typed p -> self_feature p = Some r ->
  exists p', update "parser" r (set_parser (self_id p)) p = Ok (tt, p').
Proof.
  intros Ht Ef. pose proof (typed_feature p Ht r Ef) as Hk.
  destruct (kind_at_lookup _ _ _ Hk) as (o & Ho & Hko).
  destruct (set_parser_ok (self_id p) o Hko) as (o' & Hset & _).
  rewrite (update_run "parser" r _ p o o' Ho Hset). eauto.
Qed.

(** [Parser.parse], once [feed] has read the lines. *)
Lemma parse_run text filename p p1 p2 :
  wordy languages -> Forall (closed (store p)) (store p) ->
  reset languages filename p = Ok (tt, p1) ->
  feed languages strip_colon (PyStr.splitlines text) p1 = Ok (tt, p2) ->
  exists p3,
    parse languages strip_colon text filename p = Ok (self_feature p2, p3).
Proof.
  intros Hw Hst Hreset Hfeed. unfold parse, _parse_loop.
  unfold mbind at 1, M_bind at 1. unfold mbind at 1, M_bind at 1.
  destruct (languages !! or_default (self_language p)) as [k|] eqn:Ek.
  2: { exfalso. revert Hreset. unfold reset, languages_at.
       cbv [mbind M_bind get modify mret M_ret].
       cbn [self_language set_language]. rewrite Ek. discriminate. }
  rewrite (reset_run languages filename p k Ek) in Hreset |- *.
  injection Hreset as <-.
  pose proof (sound_after_reset _ k filename p Ek Hst) as H0.
  cbv [mbind M_bind get modify mret M_ret].
  cbn [self_state after_reset].
  rewrite bool_decide_eq_false_2 by discriminate.
  pose proof (feed_sound (PyStr.splitlines text) _ H0) as H1.
  rewrite Hfeed in H1 |- *. simpl in H1.
  destruct (close_table_run p2 Hw H1) as (p' & -> & Ht' & Ef).
  rewrite <- Ef.
  destruct (self_feature p') as [f|] eqn:Ef'; [|eauto].
  destruct (finish_run p' f Ht' Ef') as [p3 ->]. eauto.
Qed.

(** A new instance has no object. *)
Lemma init_store id language variant p :
  __init__ languages id language variant = Ok p -> store p = [].
Proof.
  unfold __init__, languages_at.
  cbv [mbind M_bind get modify mret M_ret].
  destruct (languages !! or_default language) as [k|]; [|discriminate].
  destruct (truthy_opt language).
  - destruct (languages !! default DEFAULT_LANGUAGE language);
      [|discriminate].
    intros [= <-]. reflexivity.
  - intros [= <-]. reflexivity.
Qed.

Lemma init_reports id language variant e :
  __init__ languages id language variant = Raise e -> reported e.
Proof.
  unfold __init__, languages_at.
  cbv [mbind M_bind get modify mret M_ret].
  destruct (languages !! or_default language) as [k|];
    [|intros [= <-]; exact I].
  destruct (truthy_opt language).
  - destruct (languages !! default DEFAULT_LANGUAGE language);
      [discriminate|intros [= <-]; exact I].
  - discriminate.
Qed.

Lemma with_filename_reports {A} filename (r : result A) e :
  with_filename filename r = Raise e ->
  exists e', r = Raise e' /\ (reported e' -> reported e)
    /\ forall message line name line_text reason,
         e = ParserError message line name line_text reason ->
         name = filename.
Proof.
  destruct r as [a|e']; [discriminate|].
  destruct e'; simpl; intros [= <-]; eexists; (split; [reflexivity|]);
    (split; [auto|]); intros; congruence.
Qed.

End WithEnvironment.
End SoundFacts.

(** ** The sample table *)
Lemma sample_complete : Sound.all_complete sample_languages.
Proof.
  intros language k H. unfold sample_languages in H.
  apply lookup_singleton_Some in H as [_ <-].
  unfold Sound.complete, Sound.concepts.
  repeat (apply Forall_cons; split); [..|constructor];
    eexists; vm_compute; reflexivity.
Qed.

Lemma sample_wordy : Sound.wordy sample_languages.
Proof.
  intros language k ty aliases H Ha Hin. unfold sample_languages in H.
  apply lookup_singleton_Some in H as [_ <-].
  rewrite !elem_of_cons in Hin.
  destruct Hin as [->|[->|[->|[->|[->|Hin]]]]];
    [..|apply elem_of_nil in Hin; destruct Hin];
    vm_compute in Ha; injection Ha as <-;
    repeat (apply Forall_cons; split); try constructor; discriminate.
Qed.

(** ** The failures of a whole-file parse *)

(** X12.  With keyword tables that have every concept, [parse_feature]
    fails only with a [ParserError] or with [LanguageNotSupported]: no line
    of the text makes it raise an [AttributeError], [IndexError],
    [KeyError], [TypeError] or [ValueError], nor read an object that is not
    there.  The [ParserError] it raises carries the file name of the
    call. *)
Theorem parse_feature_reports_its_failures :
  forall (languages : gmap string Parser.Keywords) strip_colon id text
         language filename e,
    Sound.all_complete languages ->
    parse_feature languages strip_colon id text language filename = Raise e ->
    Sound.reported e
    /\ forall message line name line_text reason,
         e = ParserError message line name line_text reason ->
         name = filename.
Proof.
  intros languages strip_colon id text language filename e tables H.
  unfold parse_feature in H.
  apply SoundFacts.with_filename_reports in H.
  destruct H as (e' & H & Hreported & Hname). split; [|exact Hname].
  apply Hreported.
  destruct (Parser.__init__ languages id language None) as [p|e0] eqn:Einit.
  - pose proof (SoundFacts.parse_reports languages strip_colon tables text
                  filename p) as Hp.
    rewrite H in Hp. apply Hp.
    rewrite (SoundFacts.init_store languages _ _ _ _ Einit). constructor.
  - injection H as <-.
    exact (SoundFacts.init_reports languages _ _ _ _ Einit).
Qed.

Lemma parse_feature_reports_its_failures_witness :
  match
    parse_feature sample_languages false 0 feature_after_steps_text None
      (Some "a.feature")
  with
  | Raise e =>
      Sound.reported e
      /\ forall message line name line_text reason,
           e = ParserError message line name line_text reason ->
           name = Some "a.feature"
  | Ok _ => False
  end.
Proof.
  destruct (parse_feature sample_languages false 0 feature_after_steps_text
              None (Some "a.feature")) as [r|e] eqn:E.
  - vm_compute in E. discriminate.
  - exact (parse_feature_reports_its_failures sample_languages false 0
             feature_after_steps_text None (Some "a.feature") e
             sample_complete E).
Defined.

(** X13.  With keyword tables that have every concept and no empty step
    keyword, a whole-file parse fails only while it reads a line: once
    [feed] has read the last line, closing the table that is still open
    and handing the parser to the feature do not fail, and the result is
    the feature the lines have built, [None] without one. *)
Theorem end_of_text_never_fails :
  forall (languages : gmap string Parser.Keywords) strip_colon id text
         language filename p p1 p2,
    Sound.all_complete languages ->
    Sound.wordy languages ->
    Parser.__init__ languages id language None = Ok p ->
    Parser.reset languages filename p = Ok (tt, p1) ->
    Parser.feed languages strip_colon (PyStr.splitlines text) p1
    = Ok (tt, p2) ->
    exists p3,
      Parser.parse languages strip_colon text filename p
      = Ok (Parser.self_feature p2, p3)
      /\ parse_feature languages strip_colon id text language filename
         = Ok (Parser.self_feature p2, p3).
Proof.
  intros languages strip_colon id text language filename p p1 p2 tables Hw
    Einit Hreset Hfeed.
  destruct (SoundFacts.parse_run languages strip_colon tables text filename
              p p1 p2 Hw) as [p3 Hp]; [|exact Hreset|exact Hfeed|].
  { rewrite (SoundFacts.init_store languages _ _ _ _ Einit). constructor. }
  exists p3. split; [exact Hp|].
  unfold parse_feature. rewrite Einit, Hp. reflexivity.
Qed.

Lemma end_of_text_never_fails_witness :
  exists p3,
    Parser.parse sample_languages false open_table_text None new_instance
    = Ok (Parser.self_feature in_open_table, p3)
    /\ parse_feature sample_languages false 0 open_table_text None None
       = Ok (Parser.self_feature in_open_table, p3).
Proof.
  apply (end_of_text_never_fails sample_languages false 0 open_table_text
           None None new_instance (after_reset english None new_instance)
           in_open_table sample_complete sample_wordy);
    vm_compute; reflexivity.
Defined.

(** ** Where a failure is reported *)
Module LocatedFacts.
Import Model Parser Hoare HoareFacts Located.

Section WithEnvironment.
Variable languages : gmap string Keywords.
Variable strip_colon : bool.
Variable n : nat.
Variable f : option string.

Lemma stays_ret {A} t (a : A) : stays n f t (mret a).
Proof. apply hoare_ret. auto. Qed.

Lemma stays_raise {A} t e : located n f t e -> stays n f t (@raise A e).
Proof. apply hoare_raise. Qed.

Lemma stays_bind {A B} t (m : M A) (k : A -> M B) :
  stays n f t m -> (forall a, stays n f t (k a)) -> stays n f t (m ≫= k).
Proof. intros Hm Hk. eapply hoare_bind; [exact Hm|exact Hk]. Qed.

Lemma stays_get {B} t (k : Parser -> M B) :
  (forall p, at_line n f p -> stays n f t (k p)) -> stays n f t (get ≫= k).
Proof. intros H p Hp. unfold mbind, M_bind, get. apply (H p Hp p Hp). Qed.

Lemma stays_fmap {A B} t (g : A -> B) (m : M A) :
  stays n f t m -> stays n f t (g <$> m).
Proof. intros H. apply hoare_fmap. exact H. Qed.

Lemma stays_modify t (g : Parser -> Parser) :
  (forall p, self_line (g p) = self_line p) ->
  (forall p, self_filename (g p) = self_filename p) ->
  stays n f t (modify g).
Proof.
  intros Hl Hf p [H1 H2]. simpl. split; [rewrite Hl|rewrite Hf]; assumption.
Qed.

Lemma stays_the {A} t attribute (x : option A) : stays n f t (the attribute x).
Proof. apply hoare_the; [auto|exact I]. Qed.

Lemma stays_new t o : stays n f t (new o).
Proof. intros p Hp. exact Hp. Qed.

Lemma stays_deref t r : stays n f t (deref r).
Proof.
  intros p Hp. unfold deref. destruct (store p !! r); [exact Hp|exact I].
Qed.

Lemma stays_update t attribute r g : stays n f t (update attribute r g).
Proof.
  unfold update. apply stays_bind; [apply stays_deref|]. intros o.
  destruct (g o); [|apply stays_raise; exact I].
  apply stays_modify; reflexivity.
Qed.

Lemma stays_languages_at t l : stays n f t (languages_at languages l).
Proof.
  unfold languages_at. destruct (languages !! l);
    [apply stays_ret|apply stays_raise; exact I].
Qed.

(** A method that reports no line text. *)
Lemma stays_text {A} t (m : M A) : stays n f None m -> stays n f t m.
Proof.
  intros H p Hp. specialize (H p Hp). destruct (m p) as [[a p']|e]; [exact H|].
  destruct e; try exact I.
  destruct H as (H1 & H2 & [H3|H3]); repeat split; auto.
Qed.

Create HintDb stays.
#[local] Hint Resolve stays_ret stays_the stays_new stays_deref stays_update
  stays_languages_at : stays.
#[local] Hint Extern 1 (stays _ _ _ (modify _)) =>
  apply stays_modify; intros; reflexivity : stays.
#[local] Hint Extern 5 (stays _ _ (Some _) _) =>
  apply stays_text : stays.

(** The failure a method builds from the line and the file it reads. *)
Ltac located_here :=
  first
    [ exact I
    | repeat match goal with
             | H : at_line _ _ _ |- _ => destruct H
             end;
      simpl; repeat split; auto;
      first [left; reflexivity | right; reflexivity
            | right; f_equal; apply strip_strip] ].

(** One step through the body of a method. *)
Ltac stays_step :=
  lazymatch goal with
  | |- stays _ _ _ (mret _) => apply stays_ret
  | |- stays _ _ _ (raise _) => apply stays_raise; located_here
  | |- stays _ _ _ (mbind _ get) => apply stays_get; intros ? ?
  | |- stays _ _ _ (mbind _ _) => apply stays_bind; [|intros ?]
  | |- stays _ _ _ (fmap _ _) => apply stays_fmap
  | |- stays _ _ _ (match ?x with _ => _ end) => destruct x eqn:?
  | |- stays _ _ _ (if ?x then _ else _) => destruct x eqn:?
  | |- stays _ _ _ _ => solve [eauto with stays]
  end.

Ltac stays_auto := repeat stays_step.

Lemma stays_keywords_at t concept : stays n f t (keywords_at concept).
Proof. unfold keywords_at. stays_auto. Qed.
#[local] Hint Resolve stays_keywords_at : stays.

Lemma stays_match_keyword t keyword line :
  stays n f t (match_keyword languages keyword line).
Proof. unfold match_keyword. stays_auto. Qed.
#[local] Hint Resolve stays_match_keyword : stays.

Lemma stays__build_feature t keyword line :
  stays n f t (_build_feature keyword line).
Proof. unfold _build_feature. stays_auto. Qed.

Lemma stays_add_rule t feature rule : stays n f t (add_rule feature rule).
Proof. unfold add_rule. stays_auto. Qed.

Lemma stays_add_background t container background :
  stays n f t (add_background container background).
Proof. unfold add_background. stays_auto. Qed.
#[local] Hint Resolve stays__build_feature stays_add_rule
  stays_add_background : stays.

Lemma stays__build_rule_statement t keyword line :
  stays n f t (_build_rule_statement keyword line).
Proof. unfold _build_rule_statement. stays_auto. Qed.

Lemma stays__build_background_statement keyword line :
  stays n f (Some line) (_build_background_statement keyword line).
Proof. unfold _build_background_statement. stays_auto. Qed.

Lemma stays__build_scenario_statement t keyword line :
  stays n f t (_build_scenario_statement keyword line).
Proof. unfold _build_scenario_statement. stays_auto. Qed.

Lemma stays__build_scenario_outline_statement t keyword line :
  stays n f t (_build_scenario_outline_statement keyword line).
Proof. unfold _build_scenario_outline_statement. stays_auto. Qed.

Lemma stays__build_examples keyword line :
  stays n f (Some line) (_build_examples keyword line).
Proof. unfold _build_examples. stays_auto. Qed.
#[local] Hint Resolve stays__build_rule_statement
  stays__build_background_statement stays__build_scenario_statement
  stays__build_scenario_outline_statement stays__build_examples : stays.

Lemma stays_diagnose_feature_usage_error t :
  stays n f t diagnose_feature_usage_error.
Proof. unfold diagnose_feature_usage_error. stays_auto. Qed.

Lemma stays_diagnose_background_usage_error t :
  stays n f t diagnose_background_usage_error.
Proof. unfold diagnose_background_usage_error. stays_auto. Qed.

Lemma stays_diagnose_scenario_usage_error t :
  stays n f t diagnose_scenario_usage_error.
Proof. unfold diagnose_scenario_usage_error. stays_auto. Qed.

Lemma stays_diagnose_scenario_outline_usage_error t :
  stays n f t diagnose_scenario_outline_usage_error.
Proof. unfold diagnose_scenario_outline_usage_error. stays_auto. Qed.
#[local] Hint Resolve stays_diagnose_feature_usage_error
  stays_diagnose_background_usage_error
  stays_diagnose_scenario_usage_error
  stays_diagnose_scenario_outline_usage_error : stays.

Lemma stays_ask_parse_failure_oracle t line :
  stays n f t (ask_parse_failure_oracle languages line).
Proof. unfold ask_parse_failure_oracle. stays_auto. Qed.

Lemma stays_update_last_step t g : stays n f t (update_last_step g).
Proof. unfold update_last_step. stays_auto. Qed.

Lemma stays_append_step t step : stays n f t (append_step step).
Proof. unfold append_step. stays_auto. Qed.

Lemma stays_statement_steps t : stays n f t statement_steps.
Proof. unfold statement_steps. stays_auto. Qed.
#[local] Hint Resolve stays_ask_parse_failure_oracle stays_update_last_step
  stays_append_step stays_statement_steps : stays.

Lemma collect_tags_located t line words e :
  collect_tags n f line words = Raise e -> located n f t e.
Proof.
  induction words as [|word rest IH]; simpl; [discriminate|].
  destruct (PyStr.startswith word "@").
  - destruct (collect_tags n f line rest); [discriminate|].
    intros [= <-]. apply IH. reflexivity.
  - destruct (PyStr.startswith word "#"); [discriminate|].
    intros [= <-]. simpl. auto.
Qed.

Lemma stays_parse_tags t line : stays n f t (parse_tags line).
Proof.
  unfold parse_tags. destruct (negb _); [apply stays_raise; exact I|].
  apply stays_get. intros p [H1 H2]. rewrite H1, H2.
  destruct (collect_tags _ _ _ _) as [ts|e] eqn:E; [apply stays_ret|].
  apply stays_raise. eapply collect_tags_located, E.
Qed.
#[local] Hint Resolve stays_parse_tags : stays.

Lemma stays_inherited_steps t b : stays n f t (inherited_steps b).
Proof. unfold inherited_steps. stays_auto. Qed.
#[local] Hint Resolve stays_inherited_steps : stays.

Lemma stays__select_last_background_step_type t :
  stays n f t _select_last_background_step_type.
Proof. unfold _select_last_background_step_type. stays_auto. Qed.
#[local] Hint Resolve stays__select_last_background_step_type : stays.

Lemma stays_make_step t step_type kw line :
  stays n f t (make_step step_type kw line).
Proof. unfold make_step. stays_auto. Qed.
#[local] Hint Resolve stays_make_step : stays.

Lemma stays_parse_step_aliases t step_type line kws :
  stays n f t (parse_step_aliases step_type line kws).
Proof. induction kws; simpl; stays_auto. Qed.
#[local] Hint Resolve stays_parse_step_aliases : stays.

Lemma stays_parse_step_types t line step_types :
  stays n f t (parse_step_types line step_types).
Proof. induction step_types; simpl; stays_auto. Qed.
#[local] Hint Resolve stays_parse_step_types : stays.

Lemma stays_parse_step t line : stays n f t (parse_step line).
Proof. unfold parse_step. stays_auto. Qed.

Lemma stays_extend_tags t ts : stays n f t (extend_tags ts).
Proof. unfold extend_tags. stays_auto. Qed.
#[local] Hint Resolve stays_parse_step stays_extend_tags : stays.

Lemma stays_action_initial t line :
  stays n f t (action_initial languages line).
Proof. unfold action_initial. stays_auto. Qed.

Lemma stays_subaction_detect_taggable_statement line :
  stays n f (Some line)
    (subaction_detect_taggable_statement languages line).
Proof. unfold subaction_detect_taggable_statement. stays_auto. Qed.

Lemma stays_describe t attribute target line :
  stays n f t (describe attribute target line).
Proof. unfold describe. stays_auto. Qed.
#[local] Hint Resolve stays_action_initial
  stays_subaction_detect_taggable_statement stays_describe : stays.

Lemma stays_action_feature line :
  stays n f (Some (PyStr.strip line)) (action_feature languages line).
Proof. unfold action_feature. stays_auto. Qed.

Lemma stays_action_taggable_statement line :
  stays n f (Some (PyStr.strip line))
    (action_taggable_statement languages line).
Proof. unfold action_taggable_statement. stays_auto. Qed.

Lemma stays_action_rule line :
  stays n f (Some (PyStr.strip line)) (action_rule languages line).
Proof. unfold action_rule. stays_auto. Qed.

Lemma stays_action_scenario line :
  stays n f (Some (PyStr.strip line)) (action_scenario languages line).
Proof. unfold action_scenario. stays_auto. Qed.
#[local] Hint Resolve stays_action_scenario : stays.

Lemma stays_action_background line :
  stays n f (Some (PyStr.strip line)) (action_background languages line).
Proof. unfold action_background. stays_auto. Qed.

Lemma stays_action_table_row t line : stays n f t (action_table_row line).
Proof. unfold action_table_row. stays_auto. Qed.
#[local] Hint Resolve stays_action_table_row : stays.

Lemma stays_action_steps line :
  stays n f (Some (PyStr.strip line)) (action_steps languages line).
Proof. unfold action_steps. stays_auto. Qed.
#[local] Hint Resolve stays_action_steps : stays.

Lemma stays_action_multiline_text t line :
  stays n f t (action_multiline_text strip_colon line).
Proof. unfold action_multiline_text. stays_auto. Qed.

Lemma stays_action_table line :
  stays n f (Some (PyStr.strip line))
    (action_table languages strip_colon line).
Proof.
  unfold action_table. stays_auto.
  pose proof (stays_action_steps (PyStr.strip line)) as H'.
  rewrite strip_strip in H'. exact H'.
Qed.

(** [action] *)
Lemma stays_action_of line s func :
  action_of languages strip_colon s = Some func ->
  stays n f (Some (PyStr.strip line)) (func line).
Proof.
  destruct s; simpl; intros [= <-];
    auto using stays_action_feature, stays_action_rule,
      stays_action_background, stays_action_scenario,
      stays_action_taggable_statement, stays_action_steps,
      stays_action_table, stays_action_initial,
      stays_action_multiline_text.
Qed.

Lemma stays_action line :
  stays n f (Some (PyStr.strip line)) (action languages strip_colon line).
Proof.
  unfold action. apply stays_get. intros p Hp.
  destruct (_ && _).
  - stays_auto.
  - destruct (action_of _ _ _) as [func|] eqn:E.
    + apply stays_bind; [eapply stays_action_of, E|]. intros accepted.
      stays_auto.
    + stays_auto.
Qed.

(** *** The end of the text: no handler takes the empty line for a
    header. *)
Lemma no_header_on_empty_line aliases :
  List.find (fun alias => PyStr.startswith "" (alias +:+ ":")) aliases
  = None.
Proof.
  apply SoundFacts.find_nowhere, Forall_forall. intros alias _.
  apply not_true_is_false. intros H.
  apply SoundFacts.startswith_of_empty in H. destruct alias; discriminate.
Qed.

Lemma match_keyword_empty_line keyword :
  hoare (at_line n f) (match_keyword languages keyword "")
    (fun alias p => at_line n f p /\ alias = None) (located n f None).
Proof.
  intros p Hp. unfold match_keyword, keywords_at, languages_at.
  cbv [mbind M_bind get modify mret M_ret raise].
  destruct (keywords_falsy (self_keywords p)).
  - destruct (languages !! DEFAULT_LANGUAGE) as [k|]; [|exact I]. cbn.
    destruct (k !! keyword); [|exact I].
    split; [exact Hp|apply no_header_on_empty_line].
  - destruct (self_keywords p) as [k|]; [|exact I].
    destruct (k !! keyword); [|exact I].
    split; [exact Hp|apply no_header_on_empty_line].
Qed.

Lemma stays_subaction_empty_line :
  stays n f None (subaction_detect_taggable_statement languages "").
Proof.
  unfold subaction_detect_taggable_statement.
  change (PyStr.startswith "" "@") with false. cbv iota.
  repeat (eapply hoare_bind; [apply match_keyword_empty_line|];
          intros alias p [Hp ->]; cbn [known]; revert p Hp).
  apply stays_ret.
Qed.

Lemma stays_action_steps_empty_line :
  stays n f None (action_steps languages "").
Proof.
  unfold action_steps. change (PyStr.lstrip "") with "".
  change (is_fence "") with false. cbv iota. change (PyStr.strip "") with "".
  apply stays_bind; [apply stays_parse_step|]. intros [step|].
  - stays_auto.
  - apply stays_bind; [apply stays_subaction_empty_line|]. intros [|].
    + apply stays_ret.
    + change (PyStr.startswith "" "|") with false. apply stays_ret.
Qed.

Lemma stays_close_table :
  stays n f None (close_table languages strip_colon).
Proof.
  unfold close_table. apply stays_get. intros p Hp.
  destruct (self_table p); [|apply stays_ret].
  apply stays_bind; [|intros ?; apply stays_ret].
  unfold action_table. change (PyStr.strip "") with "".
  change (negb (PyStr.startswith "" "|")) with true. cbv iota.
  apply stays_get. intros q Hq.
  apply stays_bind; [stays_auto|]. intros _.
  apply stays_bind; [stays_auto|]. intros _.
  apply stays_bind; [stays_auto|]. intros _.
  apply stays_action_steps_empty_line.
Qed.

End WithEnvironment.

Section Reading.
Variable languages : gmap string Keywords.
Variable strip_colon : bool.

(** [feed]: the failure of line [i] names line [i]. *)
Lemma feed_located text_lines :
  forall p,
    match feed languages strip_colon text_lines p with
    | Ok (_, p') =>
        at_line (self_line p + length text_lines) (self_filename p) p'
    | Raise e => located_in (self_line p) (self_filename p) text_lines e
    end.
Proof.
  induction text_lines as [|text_line rest IH]; intros p.
  - simpl. split; [lia|reflexivity].
  - cbn [feed]. unfold mbind at 1, M_bind at 1, modify.
    unfold mbind at 1, M_bind at 1, get.
    set (p1 := set_line (self_line p + 1) p).
    assert (at_line (self_line p + 1) (self_filename p) p1) as H1
      by (split; reflexivity).
    assert (forall p2,
      at_line (self_line p + 1) (self_filename p) p2 ->
      match feed languages strip_colon rest p2 with
      | Ok (_, p') =>
          at_line (self_line p + length (text_line :: rest))
            (self_filename p) p'
      | Raise e =>
          located_in (self_line p) (self_filename p) (text_line :: rest) e
      end) as Hrest.
    { intros p2 [Hl Hf]. specialize (IH p2). rewrite Hl, Hf in IH.
      destruct (feed _ _ rest p2) as [[[] p']|e].
      - simpl length. replace (self_line p + S (length rest))
          with (self_line p + 1 + length rest) by lia. exact IH.
      - destruct e; try exact I.
        destruct IH as (Hname & i & line & Hi & Hline & Htext).
        split; [exact Hname|]. exists (S i), line.
        split; [exact Hi|]. split; [lia|exact Htext]. }
    unfold mbind, M_bind.
    destruct (_ && _).
    + apply Hrest, H1.
    + pose proof (stays_action languages strip_colon _ _ text_line p1 H1)
        as Ha.
      destruct (action _ _ text_line p1) as [[[] p2]|e].
      * apply Hrest, Ha.
      * destruct e; try exact I. destruct Ha as (Hline & Hname & Htext).
        split; [exact Hname|]. exists 0, text_line.
        split; [reflexivity|]. split; [lia|exact Htext].
Qed.

(** A new instance is made without a [ParserError], and [with_filename]
    changes the file name of one only. *)
Lemma init_raises id language variant e :
  __init__ languages id language variant = Raise e ->
  exists l, e = LanguageNotSupported l.
Proof.
  unfold __init__, languages_at.
  cbv [mbind M_bind get modify mret M_ret raise].
  destruct (languages !! or_default language) as [k|];
    [|intros [= <-]; eauto].
  destruct (truthy_opt language).
  - destruct (languages !! default DEFAULT_LANGUAGE language);
      [discriminate|intros [= <-]; eauto].
  - discriminate.
Qed.

Lemma with_filename_raises {A} filename (r : result A) message line name
    line_text reason :
  with_filename filename r
  = Raise (ParserError message line name line_text reason) ->
  name = filename
  /\ exists name',
       r = Raise (ParserError message line name' line_text reason).
Proof.
  destruct r as [a|e]; [discriminate|].
  destruct e; simpl; intros H; inversion H; subst; eauto.
Qed.

(** [Parser.parse] *)
Lemma parse_located text filename p e :
  parse languages strip_colon text filename p = Raise e ->
  located_in 0 filename (PyStr.splitlines text) e.
Proof.
  unfold parse, _parse_loop.
  unfold mbind at 1, M_bind at 1. unfold mbind at 1, M_bind at 1.
  destruct (languages !! or_default (self_language p)) as [k|] eqn:Ek.
  2: { unfold reset, languages_at.
       cbv [mbind M_bind get modify mret M_ret raise].
       cbn [self_language set_language]. rewrite Ek. intros [= <-]. exact I. }
  rewrite (reset_run languages filename p k Ek).
  cbv [mbind M_bind get modify mret M_ret].
  cbn [self_state after_reset].
  rewrite bool_decide_eq_false_2 by discriminate.
  pose proof (feed_located (PyStr.splitlines text) (after_reset k filename p))
    as Hfeed.
  cbn [self_line self_filename after_reset] in Hfeed.
  destruct (PyStr.splitlines text) as [|first rest] eqn:Elines.
  { simpl. discriminate. }
  destruct (feed _ _ (first :: rest) _) as [[[] p1]|e1].
  2: { intros [= <-]. exact Hfeed. }
  pose proof (stays_close_table languages strip_colon _ _ p1 Hfeed) as Hc.
  destruct (close_table _ _ p1) as [[[] p2]|e2].
  2: { intros [= <-]. destruct e2; try exact I.
       destruct Hc as (Hline & Hname & Htext).
       split; [exact Hname|].
       destruct (lookup_lt_is_Some_2 (first :: rest) (length rest))
         as [last Hlast]; [simpl; lia|].
       exists (length rest), last. split; [exact Hlast|].
       split; [simpl in Hline; lia|left; destruct Htext; assumption]. }
  destruct (self_feature p2) as [feature|]; [|discriminate].
  unfold update, deref. cbv [mbind M_bind modify raise].
  destruct (store p2 !! feature) as [o|]; [|intros [= <-]; exact I].
  destruct (set_parser _ o); [discriminate|intros [= <-]; exact I].
Qed.

End Reading.

End LocatedFacts.

(** X14.  A [ParserError] of [parse_feature] names a line of the text, by
    its number from 1, and the file name of the call; its line text, when
    it has one, is that line without the whitespace at its ends. *)
Theorem parser_error_names_its_line :
  forall (languages : gmap string Parser.Keywords) strip_colon id text
         language filename message line name line_text reason,
    parse_feature languages strip_colon id text language filename
    = Raise (ParserError message line name line_text reason) ->
    name = filename
    /\ exists text_line,
         PyStr.splitlines text !! (line - 1) = Some text_line
         /\ 1 <= line
         /\ (line_text = None \/ line_text = Some (PyStr.strip text_line)).
Proof.
  intros languages strip_colon id text language filename message line name
    line_text reason H.
  unfold parse_feature in H.
  apply LocatedFacts.with_filename_raises in H.
  destruct H as (Hname & name' & H). split; [exact Hname|].
  destruct (Parser.__init__ languages id language None) as [p|e] eqn:Einit.
  - apply LocatedFacts.parse_located in H.
    destruct H as (_ & i & text_line & Hi & Hline & Htext).
    exists text_line. replace (line - 1) with i by lia.
    split; [exact Hi|]. split; [lia|exact Htext].
  - apply LocatedFacts.init_raises in Einit. destruct Einit as [l ->].
    discriminate.
Qed.

Lemma parser_error_names_its_line_witness :
  match
    parse_feature sample_languages false 0 feature_after_steps_text None
      (Some "a.feature")
  with
  | Raise (ParserError _ line name line_text _) =>
      name = Some "a.feature"
      /\ exists text_line,
           PyStr.splitlines feature_after_steps_text !! (line - 1)
           = Some text_line
           /\ 1 <= line
           /\ (line_text = None
               \/ line_text = Some (PyStr.strip text_line))
  | _ => False
  end.
Proof.
  destruct (parse_feature sample_languages false 0 feature_after_steps_text
              None (Some "a.feature")) as [r|e] eqn:E.
  - vm_compute in E. discriminate.
  - destruct e; try (vm_compute in E; discriminate).
    exact (parser_error_names_its_line sample_languages false 0
             feature_after_steps_text None (Some "a.feature") _ _ _ _ _ E).
Defined.

(** ** Steps that are written and read *)
Section Written.
Import Model Parser.
Variable strip_colon : bool.

Lemma make_step_semantic p ty kw line :
  ty ∈ ["given"; "when"; "then"] -> PyStr.startswith kw "*" = false ->
  make_step ty kw line p
  = Ok (step_of p kw ty line, set_last_step_type (Some ty) p).
Proof.
  intros Hty Hkw. unfold make_step. cbv [mbind M_bind get]. rewrite Hkw.
  assert (String.eqb ty "and" || String.eqb ty "but" = false) as ->.
  { rewrite !elem_of_cons in Hty.
    destruct Hty as [-> | [-> | [-> | Hty]]]; try reflexivity.
    apply elem_of_nil in Hty. destruct Hty. }
  reflexivity.
Qed.

(** [action] on the line of a step, in a statement that takes steps. *)
Lemma action_step_written languages p k line ty kw r o acc :
  self_state p = STEPS -> self_keywords p = Some k ->
  self_statement p = Some r -> store p !! r = Some o ->
  get_steps o = Some acc ->
  step_written k line ty kw ->
  exists o',
    set_steps (acc ++ [step_of p kw ty (PyStr.strip line)]) o = Some o'
    /\ get_steps o' = Some (acc ++ [step_of p kw ty (PyStr.strip line)])
    /\ action languages strip_colon line p
       = Ok (tt, set_store (<[r := o']> (store p))
                   (set_last_step_type (Some ty) p)).
Proof.
  intros Hs Hk Hr Ho Hacc (_ & Hhash & Hfence & Hmatch & Hty & Hkw).
  destruct (get_set_steps o acc
              (acc ++ [step_of p kw ty (PyStr.strip line)]) Hacc)
    as (o' & Hset & Hget).
  exists o'. split; [exact Hset|]. split; [exact Hget|].
  unfold action. cbv [mbind M_bind get].
  rewrite Hhash, Hs. cbn [andb action_of].
  unfold action_steps. rewrite Hfence. unfold parse_step.
  cbv [mbind M_bind].
  rewrite (parse_step_types_matched p k _ _ ty kw Hk Hmatch).
  unfold fmap, M_fmap. cbv [mbind M_bind mret M_ret].
  rewrite (make_step_semantic p ty kw _ Hty Hkw).
  unfold append_step, update, deref.
  cbv [mbind M_bind get the mret M_ret modify].
  cbn [self_statement store set_last_step_type]. rewrite Hr. cbn.
  rewrite Ho. cbn. rewrite Hacc. cbn. rewrite Ho, Hset. reflexivity.
Qed.

(** The English words. *)
Lemma english_steps :
  english !! "given" = Some ["* "; "Given "]
  /\ english !! "when" = Some ["* "; "When "]
  /\ english !! "then" = Some ["* "; "Then "].
Proof. repeat split; vm_compute; reflexivity. Qed.

Lemma strip_write_step s name :
  plain_name name ->
  PyStr.lstrip (write_step (s, name)) = write_step (s, name)
  /\ PyStr.strip (write_step (s, name)) = write_step (s, name).
Proof.
  intros (Hl & Hr & Hne).
  assert (PyStr.lstrip (write_step (s, name)) = write_step (s, name)) as E
    by (destruct s; reflexivity).
  split; [exact E|]. unfold PyStr.strip. rewrite E.
  unfold write_step. apply rstrip_app_fixed.
  - apply rstrip_app_fixed; assumption.
  - destruct name; [congruence|discriminate].
Qed.

Lemma write_step_written s name :
  plain_name name ->
  step_written english (write_step (s, name)) (type_of s)
    (word_of s +:+ " ").
Proof.
  intros Hname. destruct (strip_write_step s name Hname) as [Hl Hs].
  destruct english_steps as (Hg & Hw & Ht).
  unfold step_written. rewrite Hl, Hs.
  assert (write_step (s, name) <> "") as Hne by (destruct s; discriminate).
  split; [destruct (write_step (s, name)); [congruence|reflexivity]|].
  split; [destruct s; reflexivity|]. split; [destruct s; reflexivity|].
  split; [|split; [|destruct s; reflexivity]].
  - unfold matched_keyword. destruct s; rewrite ?Hg, ?Hw, ?Ht; reflexivity.
  - destruct s;
      repeat first [apply list_elem_of_here | apply list_elem_of_further].
Qed.

Lemma step_of_write_step p s name :
  plain_name name ->
  step_of p (word_of s +:+ " ") (type_of s)
    (PyStr.strip (write_step (s, name)))
  = read_step (self_filename p) (self_line p) (s, name).
Proof.
  intros Hname. destruct (strip_write_step s name Hname) as [_ ->].
  destruct Hname as (Hl & Hr & _). unfold step_of, read_step. f_equal.
  - destruct s; reflexivity.
  - assert (PyStr.drop (String.length (word_of s +:+ " "))
              (write_step (s, name)) = name) as -> by (destruct s; reflexivity).
    unfold PyStr.strip. rewrite Hl. exact Hr.
Qed.

(** [feed] on the lines of steps: one step a line. *)
Lemma feed_written steps :
  forall p r acc,
    taking english r acc p ->
    Forall (fun step => plain_name step.2) steps ->
    exists p',
      feed sample_languages strip_colon (map write_step steps) p
      = Ok (tt, p')
      /\ taking english r
           (acc ++ imap (fun i => read_step (self_filename p)
                                   (self_line p + i + 1)) steps) p'
      /\ self_filename p' = self_filename p
      /\ self_language p' = self_language p.
Proof.
  induction steps as [|[s name] rest IH]; intros p r acc Hp Hall.
  - exists p. simpl. rewrite app_nil_r. auto.
  - apply Forall_cons in Hall. destruct Hall as [Hname Hall].
    simpl in Hname.
    destruct Hp as (Hs & Hk & Hr & (o & Ho & Hacc) & Ht).
    set (p1 := set_line (self_line p + 1) p).
    pose proof (write_step_written s name Hname) as Hw.
    destruct (action_step_written sample_languages p1 english
                (write_step (s, name)) (type_of s) (word_of s +:+ " ")
                r o acc Hs Hk Hr Ho Hacc Hw) as (o' & Hset & Hget & Hrun).
    rewrite (step_of_write_step p1 s name Hname) in Hget.
    cbn [map feed]. cbv [mbind M_bind get modify mret M_ret].
    fold p1. destruct Hw as (-> & _). cbn [andb]. rewrite Hrun.
    set (p2 := set_store (<[r := o']> (store p1))
                 (set_last_step_type (Some (type_of s)) p1)).
    destruct (IH p2 r
                (acc ++ [read_step (self_filename p1) (self_line p1)
                           (s, name)]))
      as (p' & Hfeed & Hp' & Hf' & Hl'); [|exact Hall|].
    { repeat split; try assumption.
      exists o'. split; [|exact Hget]. subst p2. cbn [store].
      apply list_lookup_insert_eq. eapply lookup_lt_Some, Ho. }
    exists p'. split; [exact Hfeed|]. split; [|split; assumption].
    rewrite <- app_assoc in Hp'. cbn [app] in Hp'.
    cbn [imap]. subst p2 p1.
    cbn [self_line self_filename set_store set_last_step_type set_line]
      in Hp'.
    replace (self_line p + 0 + 1) with (self_line p + 1) by lia.
    erewrite imap_ext; [exact Hp'|].
    intros i step _. cbn. f_equal. lia.
Qed.

(** [Parser.parse_steps]: the second pass reads the steps again, into a
    scenario of its own. *)
Lemma parse_steps_written text filename p steps :
  sample_languages !! or_default (self_language p) = Some english ->
  PyStr.splitlines text = map write_step steps ->
  Forall (fun step => plain_name step.2) steps ->
  exists p',
    Parser.parse_steps sample_languages strip_colon text filename p
    = Ok (imap (fun i => read_step filename (i + 1)) steps, p').
Proof.
  intros Hk Hlines Hall.
  assert (forall q,
    or_default (self_language q) = or_default (self_language p) ->
    exists p',
      (reset sample_languages None;;
       modify (set_filename filename);;
       statement ← new (OScenario
         {| scenario_header :=
              {| Model.filename := filename; line := 0;
                 keyword := "scenario"; name := "" |};
            scenario_tags := []; scenario_description := [];
            scenario_steps := [] |});
       modify (set_statement (Some statement));;
       modify (set_state STEPS);;
       feed sample_languages strip_colon (PyStr.splitlines text);;
       close_table sample_languages strip_colon;;
       _parse_loop sample_languages strip_colon text (Some STEPS) filename;;
       statement_steps) q
      = Ok (imap (fun i => read_step filename (i + 1)) steps, p')) as Htail.
  { intros q Hq. rewrite Hlines.
    cbv [mbind M_bind get mret M_ret modify].
    rewrite (reset_run sample_languages None q english)
      by (rewrite Hq; exact Hk).
    unfold new. cbn [store set_filename after_reset].
    match goal with
    | |- context [feed _ _ _ ?q1] => set (p1 := q1)
    end.
    destruct (feed_written steps p1 (length (store q)) []) as
      (p2 & -> & Hp2 & Hf2 & Hl2); [|exact Hall|].
    { subst p1. do 3 (split; [reflexivity|]). split; [|reflexivity].
      eexists. split.
      - cbn [store set_state set_statement set_store].
        rewrite lookup_app_r by reflexivity. rewrite Nat.sub_diag.
        reflexivity.
      - reflexivity. }
    destruct Hp2 as (_ & _ & _ & _ & Ht2).
    rewrite (close_table_none sample_languages strip_colon p2 Ht2).
    unfold _parse_loop.
    cbv [mbind M_bind get mret M_ret modify].
    rewrite (reset_run sample_languages filename p2 english).
    2: { rewrite Hl2. subst p1.
         cbn [self_language set_state set_statement set_store set_filename
              after_reset].
         rewrite or_default_idem, Hq. exact Hk. }
    cbn [self_state set_state after_reset].
    rewrite bool_decide_eq_true_2 by reflexivity.
    unfold keywords_at.
    cbv [mbind M_bind get mret M_ret modify].
    cbn [self_keywords set_state after_reset].
    change (english !! "scenario") with (Some ["Example"; "Scenario"]).
    unfold _build_scenario_statement, new.
    cbv [mbind M_bind get mret M_ret modify].
    cbn [self_scenario_container set_state set_statement set_store
         after_reset].
    match goal with
    | |- context [feed _ _ _ ?q3] => set (p3 := q3)
    end.
    rewrite Hlines.
    destruct (feed_written steps p3 (length (store p2)) []) as
      (p4 & -> & Hp4 & _); [|exact Hall|].
    { subst p3. do 3 (split; [reflexivity|]). split; [|reflexivity].
      eexists. split.
      - cbn [store set_tags set_state set_statement set_store after_reset].
        rewrite lookup_app_r by reflexivity. rewrite Nat.sub_diag.
        reflexivity.
      - reflexivity. }
    destruct Hp4 as (_ & _ & Hr4 & (o & Ho & Hacc) & Ht4).
    rewrite (close_table_none sample_languages strip_colon p4 Ht4).
    unfold statement_steps, deref.
    cbv [mbind M_bind get mret M_ret modify the].
    rewrite Hr4. cbn. rewrite Ho. cbn. rewrite Hacc. cbn.
    eexists. reflexivity. }
  unfold Parser.parse_steps.
  unfold mbind at 1, M_bind at 1, get.
  unfold mbind at 1, M_bind at 1.
  unfold truthy_opt, or_default in *.
  destruct (self_language p) as [l|] eqn:El;
    [destruct (PyStr.truthy l) eqn:E|].
  - apply Htail. rewrite El, E. reflexivity.
  - apply Htail. reflexivity.
  - apply Htail. reflexivity.
Qed.

End Written.

(** X15.  Steps that are written are read back: of a text whose lines are
    Given, When or Then, a space and a name without whitespace at its
    ends, [parse_steps] with the English keywords returns one step a line,
    in the order of the lines, each with its line number from 1, its
    keyword, its type and its name. *)
Theorem parse_steps_reads_written_steps :
  forall strip_colon id text filename (steps : list (semantic * string)),
    PyStr.splitlines text = map write_step steps ->
    Forall (fun step => plain_name step.2) steps ->
    exists p',
      parse_steps sample_languages strip_colon id text None filename
      = Ok (imap (fun i => read_step filename (i + 1)) steps, p').
Proof.
  intros strip_colon id text filename steps Hlines Hall.
  unfold parse_steps.
  destruct (init_run sample_languages id None (Some "steps"))
    as (p & -> & Hl & _); [eexists; reflexivity|].
  destruct (parse_steps_written strip_colon text filename p steps)
    as [p' ->]; [rewrite Hl; reflexivity|exact Hlines|exact Hall|].
  exists p'. reflexivity.
Qed.

Lemma parse_steps_reads_written_steps_witness :
  exists p',
    parse_steps sample_languages false 0
      (nl "Given a user\nWhen the user logs in\nThen all is well") None
      (Some "steps.txt")
    = Ok ([Model.new_step (Some "steps.txt") 1 "Given" "given" "a user";
           Model.new_step (Some "steps.txt") 2 "When" "when"
             "the user logs in";
           Model.new_step (Some "steps.txt") 3 "Then" "then" "all is well"],
          p').
Proof.
  apply (parse_steps_reads_written_steps false 0
           (nl "Given a user\nWhen the user logs in\nThen all is well")
           (Some "steps.txt")
           [(Given, "a user"); (When, "the user logs in");
            (Then, "all is well")]).
  - vm_compute. reflexivity.
  - repeat (apply Forall_cons; split; [repeat split; discriminate|]).
    constructor.
Defined.

(** ** A feature that is written and read *)
Section WrittenFeature.
Import Model Parser.
Variable strip_colon : bool.

Lemma english_blocks :
  english !! "feature" = Some ["Feature"; "Business Need"; "Ability"]
  /\ english !! "rule" = Some ["Rule"]
  /\ english !! "scenario" = Some ["Example"; "Scenario"]
  /\ english !! "and" = Some ["* "; "And "]
  /\ english !! "but" = Some ["* "; "But "].
Proof. repeat split; vm_compute; reflexivity. Qed.

(** A text that starts with a character that is no whitespace and ends
    with a plain name. *)
Lemma strip_headed c pre name :
  PyStr.isspace c = false -> plain_name name ->
  PyStr.lstrip (String c pre +:+ name) = String c pre +:+ name
  /\ PyStr.strip (String c pre +:+ name) = String c pre +:+ name.
Proof.
  intros Hc (Hl & Hr & Hne).
  assert (PyStr.lstrip (String c pre +:+ name) = String c pre +:+ name) as E.
  { change (String c pre +:+ name) with (String c (pre +:+ name)).
    cbn [PyStr.lstrip]. rewrite Hc. reflexivity. }
  split; [exact E|]. unfold PyStr.strip. rewrite E.
  apply rstrip_app_fixed; assumption.
Qed.

Lemma match_keyword_at languages p k line concept aliases :
  self_keywords p = Some k -> k !! concept = Some aliases ->
  match_keyword languages concept line p
  = Ok (List.find (fun alias => PyStr.startswith line (alias +:+ ":"))
          aliases, p).
Proof.
  intros Hk Ha. unfold match_keyword.
  cbv [mbind M_bind get mret M_ret]. rewrite Hk. unfold keywords_falsy.
  rewrite bool_decide_eq_false_2.
  2: { intros ->. rewrite lookup_empty in Ha. discriminate. }
  unfold keywords_at. cbv [mbind M_bind get mret M_ret].
  rewrite Hk, Ha. reflexivity.
Qed.

Lemma read_scenarios_app filename n done rest :
  read_scenarios filename n (done ++ rest)
  = read_scenarios filename n done
    ++ read_scenarios filename (n + length (flat_map scenario_lines done))
         rest.
Proof.
  revert n. induction done as [|sc done IH]; intros n.
  - simpl. rewrite Nat.add_0_r. reflexivity.
  - cbn [app read_scenarios flat_map]. rewrite IH. f_equal. f_equal. f_equal.
    unfold scenario_lines. rewrite length_app. simpl.
    rewrite length_map. lia.
Qed.

Lemma length_read_scenarios filename n scenarios :
  length (read_scenarios filename n scenarios) = length scenarios.
Proof.
  revert n. induction scenarios as [|sc rest IH]; intros n; simpl;
    [reflexivity|]. rewrite IH. reflexivity.
Qed.

(** The changes that touch nothing of what is read. *)
Lemma reading_ext id filename name scenarios p q :
  self_id q = self_id p ->
  self_feature q = self_feature p ->
  self_scenario_container q = self_scenario_container p ->
  self_keywords q = self_keywords p -> self_tags q = self_tags p ->
  self_table q = self_table p -> self_filename q = self_filename p ->
  store q = store p -> self_examples q = self_examples p ->
  self_lines q = self_lines p ->
  reading id filename name scenarios p -> reading id filename name scenarios q.
Proof.
  intros E0 E1 E2 E3 E4 E5 E6 E7 E8 E9 [H0 H1 H2 H3 H4 H5 H6 H7 H8 H9].
  constructor; congruence.
Qed.

(** No step keyword starts the line of a scenario. *)
Lemma header_no_step sname :
  Forall (no_step_keyword english ("Scenario: " +:+ sname))
    ["given"; "when"; "then"; "and"; "but"].
Proof.
  destruct english_steps as (Hg & Hw & Ht).
  destruct english_blocks as (_ & _ & _ & Ha & Hb).
  repeat (apply Forall_cons; split); [..|constructor];
    eexists; (split; [eassumption|reflexivity]).
Qed.

(** The line of a scenario, handled by
    [subaction_detect_taggable_statement]. *)
Lemma subaction_scenario id filename name scenarios p sname :
  reading id filename name scenarios p -> plain_name sname ->
  self_line p = length (write_feature name scenarios) + 1 ->
  exists p',
    subaction_detect_taggable_statement sample_languages
      ("Scenario: " +:+ sname) p = Ok (true, p')
    /\ building id filename name (scenarios ++ [(sname, [])]) p'.
Proof.
  intros [H0 H1 H2 H3 H4 H5 H6 H7 H8 H9] Hname Hline.
  destruct english_blocks as (_ & Hrule & Hscenario & _).
  unfold subaction_detect_taggable_statement.
  change (PyStr.startswith ("Scenario: " +:+ sname) "@") with false.
  cbv iota. cbv [mbind M_bind].
  rewrite (match_keyword_at sample_languages p english _ "rule" _ H3 Hrule).
  change (List.find _ ["Rule"]) with (@None string). cbn [known].
  rewrite (match_keyword_at sample_languages p english _ "scenario" _ H3
             Hscenario).
  change (List.find _ ["Example"; "Scenario"]) with (Some "Scenario").
  cbn [known PyStr.truthy PyStr.is_empty negb].
  unfold _build_scenario_statement, new, update, deref.
  cbv [mbind M_bind get modify mret M_ret].
  cbn [self_scenario_container set_statement set_store store]. rewrite H2.
  rewrite H7. cbn [read_feature lookup list_lookup app].
  cbn [store set_statement set_store lookup list_lookup].
  unfold read_header at 1. cbn [add_scenario].
  cbn [store set_statement set_store list_insert insert].
  eexists. split; [reflexivity|].
  split; [|split].
  - constructor; cbn; try assumption; try reflexivity.
    unfold read_feature.
    rewrite read_scenarios_app, length_app, length_read_scenarios.
    cbn [read_scenarios imap length]. unfold read_header, new_scenario,
      header_here, name_after. rewrite H4, H6, Hline.
    f_equal.
    + do 2 f_equal. rewrite Nat.add_1_r. symmetry. apply seq_S.
    + f_equal. do 3 f_equal. f_equal.
      destruct Hname as (Hl & Hr & _). cbn [fst].
      change (PyStr.drop (String.length "Scenario" + 1)
                ("Scenario: " +:+ sname)) with (String " " sname).
      unfold PyStr.strip. change (PyStr.lstrip (String " " sname))
        with (PyStr.lstrip sname). rewrite Hl. exact Hr.
  - cbn. rewrite Hline. unfold write_feature. cbn [length].
    rewrite flat_map_app, length_app. simpl. lia.
  - destruct scenarios; cbn; (split; [left; reflexivity|]);
      rewrite ?length_read_scenarios, ?length_app; simpl; f_equal; lia.
Qed.

(** [feed] on the line of a scenario, after the feature line, after the
    line of a scenario and after a step. *)
Lemma feed_scenario_line id filename name scenarios p sname :
  building id filename name scenarios p -> plain_name sname ->
  exists p',
    feed sample_languages strip_colon ["Scenario: " +:+ sname] p
    = Ok (tt, p')
    /\ building id filename name (scenarios ++ [(sname, [])]) p'.
Proof.
  intros (Hread & Hline & Hstate) Hname.
  destruct (strip_headed "S" "cenario: " sname eq_refl Hname) as [Hl Hs].
  change (String "S" "cenario: " +:+ sname) with ("Scenario: " +:+ sname)
    in Hl, Hs.
  set (p1 := set_line (self_line p + 1) p).
  assert (reading id filename name scenarios p1) as Hread1
    by (revert Hread; apply reading_ext; reflexivity).
  assert (self_line p1 = length (write_feature name scenarios) + 1) as Hline1
    by (subst p1; cbn; rewrite Hline; reflexivity).
  cbn [feed]. cbv [mbind M_bind get modify mret M_ret]. fold p1.
  rewrite Hs. change (PyStr.is_empty ("Scenario: " +:+ sname)) with false.
  cbn [andb]. unfold action. cbv [mbind M_bind get]. rewrite Hs.
  change (PyStr.startswith ("Scenario: " +:+ sname) "#") with false.
  cbn [andb].
  assert (self_state p1 = self_state p) as -> by reflexivity.
  destruct scenarios as [|sc rest].
  - rewrite Hstate. cbn [action_of]. unfold action_feature. rewrite Hs.
    cbv [mbind M_bind].
    destruct (subaction_scenario id filename name [] p1 sname Hread1 Hname
                Hline1) as (p' & -> & Hp').
    exists p'. split; [reflexivity|exact Hp'].
  - destruct Hstate as [[Hstate|Hstate] Hstatement]; rewrite Hstate;
      cbn [action_of].
    + unfold action_scenario. cbv [mbind M_bind modify]. rewrite Hs.
      unfold parse_step.
      rewrite (parse_step_types_none (set_last_step_type None p1) english
                 _ _ (reading_keywords _ _ _ _ _ Hread1)
                 (header_no_step sname)).
      destruct (subaction_scenario id filename name (sc :: rest)
                  (set_last_step_type None p1) sname) as (p' & -> & Hp');
        [revert Hread1; apply reading_ext; reflexivity|exact Hname
        |exact Hline1|].
      exists p'. split; [reflexivity|exact Hp'].
    + unfold action_steps. rewrite Hl.
      change (is_fence ("Scenario: " +:+ sname)) with false. cbv iota.
      rewrite Hs. cbv [mbind M_bind]. unfold parse_step.
      rewrite (parse_step_types_none _ english _ _
                 (reading_keywords _ _ _ _ _ Hread1) (header_no_step sname)).
      destruct (subaction_scenario id filename name (sc :: rest) p1 sname
                  Hread1 Hname Hline1) as (p' & -> & Hp').
      exists p'. split; [reflexivity|exact Hp'].
Qed.

(** [action_scenario] on the line of a step: the first step of a
    statement. *)
Lemma action_first_step_written languages p k line ty kw r o acc :
  self_state p = SCENARIO -> self_keywords p = Some k ->
  self_statement p = Some r -> store p !! r = Some o ->
  get_steps o = Some acc ->
  step_written k line ty kw ->
  exists o',
    set_steps (acc ++ [step_of p kw ty (PyStr.strip line)]) o = Some o'
    /\ action languages strip_colon line p
       = Ok (tt, set_store (<[r := o']> (store p))
                   (set_state STEPS (set_last_step_type (Some ty) p))).
Proof.
  intros Hs Hk Hr Ho Hacc (_ & Hhash & Hfence & Hmatch & Hty & Hkw).
  destruct (get_set_steps o acc
              (acc ++ [step_of p kw ty (PyStr.strip line)]) Hacc)
    as (o' & Hset & Hget).
  exists o'. split; [exact Hset|].
  unfold action. cbv [mbind M_bind get].
  rewrite Hhash, Hs. cbn [andb action_of].
  unfold action_scenario, parse_step. cbv [mbind M_bind modify].
  rewrite (parse_step_types_matched (set_last_step_type None p) k _ _ ty kw
             Hk Hmatch).
  unfold fmap, M_fmap. cbv [mbind M_bind mret M_ret].
  rewrite (make_step_semantic (set_last_step_type None p) ty kw _ Hty Hkw).
  unfold append_step, update, deref.
  cbv [mbind M_bind get the mret M_ret modify].
  cbn [self_statement store set_last_step_type set_state]. rewrite Hr. cbn.
  rewrite Ho. cbn. rewrite Hacc. cbn. rewrite Ho.
  change (step_of (set_last_step_type None p) kw ty (PyStr.strip line))
    with (step_of p kw ty (PyStr.strip line)).
  rewrite Hset. destruct p; reflexivity.
Qed.

(** The store while the scenario [(sname, steps)] is read. *)
Lemma read_feature_last filename parser name done sname steps :
  read_feature filename parser name (done ++ [(sname, steps)])
  = read_header filename parser name (length done + 1)
    :: read_scenarios filename 1 done
       ++ read_scenarios filename
            (1 + length (flat_map scenario_lines done)) [(sname, steps)].
Proof.
  unfold read_feature. rewrite read_scenarios_app, length_app. reflexivity.
Qed.

Lemma insert_last {A} (h : A) l x y i :
  i = length l + 1 -> <[i := y]> (h :: l ++ [x]) = h :: l ++ [y].
Proof.
  intros ->. rewrite Nat.add_1_r.
  change (<[S (length l) := y]> (h :: l ++ [x]))
    with (h :: <[length l := y]> (l ++ [x])).
  f_equal. rewrite <- (Nat.add_0_r (length l)) at 1.
  rewrite insert_app_r. reflexivity.
Qed.

(** [feed] on the line of a step of the scenario that is read. *)
Lemma feed_step_line id filename name done sname steps p s stname :
  building id filename name (done ++ [(sname, steps)]) p ->
  plain_name stname ->
  exists p',
    feed sample_languages strip_colon [write_step (s, stname)] p
    = Ok (tt, p')
    /\ building id filename name (done ++ [(sname, steps ++ [(s, stname)])]) p'
    /\ self_state p' = STEPS.
Proof.
  intros (Hread & Hline & Hstate) Hname.
  pose proof (write_step_written s stname Hname) as Hw.
  set (p1 := set_line (self_line p + 1) p).
  assert (reading id filename name (done ++ [(sname, steps)]) p1) as Hread1
    by (revert Hread; apply reading_ext; reflexivity).
  destruct Hread1 as [H0 H1 H2 H3 H4 H5 H6 H7 H8 H9].
  rewrite read_feature_last in H7.
  assert ((self_state p = SCENARIO \/ self_state p = STEPS)
          /\ self_statement p = Some (length done + 1))
    as (Hst & Hstatement).
  { destruct (done ++ [(sname, steps)]) eqn:E.
    - destruct done; discriminate.
    - rewrite <- E, length_app in Hstate. exact Hstate. }
  set (n := 1 + length (flat_map scenario_lines done)) in *.
  cbn [read_scenarios fst snd] in H7.
  match type of H7 with
  | _ = _ :: _ ++ [?x] => set (o := x) in *
  end.
  assert (store p1 !! (length done + 1) = Some o) as Ho.
  { rewrite H7, app_comm_cons. apply list_lookup_middle.
    cbn [length]. rewrite length_read_scenarios. lia. }
  assert (self_line p1 = n + 1 + length steps + 1) as Hline1.
  { subst p1 n. cbn [self_line set_line]. rewrite Hline.
    unfold write_feature. cbn [length]. rewrite flat_map_app, length_app.
    cbn [flat_map scenario_lines length fst snd app].
    rewrite app_nil_r. cbn [length]. rewrite length_map. lia. }
  assert (exists o' q,
    action sample_languages strip_colon (write_step (s, stname)) p1
    = Ok (tt, q)
    /\ set_steps
         (imap (fun i => read_step filename (n + 1 + i + 1)) steps
          ++ [step_of p1 (word_of s +:+ " ") (type_of s)
                (PyStr.strip (write_step (s, stname)))]) o = Some o'
    /\ store q = <[length done + 1 := o']> (store p1)
    /\ self_state q = STEPS
    /\ self_statement q = Some (length done + 1)
    /\ self_line q = self_line p1
    /\ self_feature q = self_feature p1
    /\ self_scenario_container q = self_scenario_container p1
    /\ self_keywords q = self_keywords p1
    /\ self_tags q = self_tags p1
    /\ self_table q = self_table p1
    /\ self_filename q = self_filename p1
    /\ self_id q = self_id p1
    /\ self_examples q = self_examples p1
    /\ self_lines q = self_lines p1)
    as (o' & q & Hrun & Hset & Hstore & Hq).
  { destruct Hst as [Hst|Hst].
    - destruct (action_first_step_written sample_languages p1 english
                  (write_step (s, stname)) (type_of s) (word_of s +:+ " ")
                  (length done + 1) _ _ Hst H3 Hstatement Ho eq_refl Hw)
        as (o' & Hset & Hrun).
      exists o'. eexists. split; [exact Hrun|]. split; [exact Hset|].
      split; [reflexivity|]. split; [reflexivity|].
      split; [exact Hstatement|]. repeat split.
    - destruct (action_step_written strip_colon sample_languages p1 english
                  (write_step (s, stname)) (type_of s) (word_of s +:+ " ")
                  (length done + 1) _ _ Hst H3 Hstatement Ho eq_refl Hw)
        as (o' & Hset & _ & Hrun).
      exists o'. eexists. split; [exact Hrun|]. split; [exact Hset|].
      split; [reflexivity|]. split; [exact Hst|].
      split; [exact Hstatement|]. repeat split. }
  destruct Hq as (Hqs & Hqst & Hql & Hq1 & Hq2 & Hq3 & Hq4 & Hq5 & Hq6
                  & Hq0 & Hq8 & Hq9).
  exists q. split.
  { cbn [feed]. cbv [mbind M_bind get modify mret M_ret]. fold p1.
    destruct Hw as (-> & _). cbn [andb]. rewrite Hrun. reflexivity. }
  rewrite (step_of_write_step p1 s stname Hname), H6, Hline1 in Hset.
  subst o. cbn [set_steps] in Hset. injection Hset as <-.
  split; [|exact Hqs]. split; [|split].
  - constructor; try congruence.
    rewrite Hstore, H7, read_feature_last.
    rewrite insert_last by (rewrite length_read_scenarios; reflexivity).
    f_equal. f_equal. fold n. cbn [read_scenarios fst snd].
    unfold scenario_with_steps. cbn [scenario_header scenario_tags
      scenario_description]. do 3 f_equal.
    rewrite imap_app. cbn [imap]. do 3 f_equal. cbn. lia.
  - rewrite Hql, Hline1. subst n. unfold write_feature. cbn [length].
    rewrite flat_map_app, length_app.
    cbn [flat_map scenario_lines length fst snd app].
    rewrite app_nil_r. cbn [length]. rewrite length_map, length_app.
    cbn [length]. lia.
  - destruct (done ++ [(sname, steps ++ [(s, stname)])]) eqn:E.
    + destruct done; discriminate.
    + rewrite <- E, length_app. split; [right; exact Hqs|exact Hqst].
Qed.

(** [feed] on the steps of a scenario, on a scenario and on the
    scenarios. *)
Lemma feed_step_lines id filename name done sname more :
  forall steps p,
    building id filename name (done ++ [(sname, steps)]) p ->
    Forall (fun step => plain_name step.2) more ->
    exists p',
      feed sample_languages strip_colon (map write_step more) p
      = Ok (tt, p')
      /\ building id filename name (done ++ [(sname, steps ++ more)]) p'.
Proof.
  induction more as [|[s stname] more IH]; intros steps p Hp Hall.
  - exists p. rewrite app_nil_r. auto.
  - apply Forall_cons in Hall. destruct Hall as [Hname Hall].
    destruct (feed_step_line id filename name done sname steps p s stname
                Hp Hname) as (p1 & Hrun1 & Hp1 & _).
    destruct (IH (steps ++ [(s, stname)]) p1 Hp1 Hall) as (p' & Hrun & Hp').
    exists p'. rewrite <- app_assoc in Hp'. split; [|exact Hp'].
    change (map write_step ((s, stname) :: more))
      with ([write_step (s, stname)] ++ map write_step more).
    rewrite (feed_app sample_languages strip_colon
               [write_step (s, stname)]), Hrun1.
    exact Hrun.
Qed.

Lemma feed_scenarios id filename name more :
  forall done p,
    building id filename name done p ->
    Forall plain_scenario more ->
    exists p',
      feed sample_languages strip_colon (flat_map scenario_lines more) p
      = Ok (tt, p')
      /\ building id filename name (done ++ more) p'.
Proof.
  induction more as [|[sname steps] more IH]; intros done p Hp Hall.
  - exists p. rewrite app_nil_r. auto.
  - apply Forall_cons in Hall. destruct Hall as [[Hname Hsteps] Hall].
    cbn [fst snd] in Hname, Hsteps.
    destruct (feed_scenario_line id filename name done p sname Hp Hname)
      as (p1 & Hrun1 & Hp1).
    destruct (feed_step_lines id filename name done sname steps [] p1 Hp1
                Hsteps) as (p2 & Hrun2 & Hp2).
    cbn [app] in Hp2.
    destruct (IH (done ++ [(sname, steps)]) p2 Hp2 Hall)
      as (p' & Hrun & Hp').
    exists p'. rewrite <- app_assoc in Hp'. split; [|exact Hp'].
    cbn [flat_map].
    rewrite (feed_app sample_languages strip_colon
               (scenario_lines (sname, steps))).
    unfold scenario_lines. cbn [fst snd].
    change (("Scenario: " +:+ sname) :: map write_step steps)
      with (["Scenario: " +:+ sname] ++ map write_step steps).
    rewrite (feed_app sample_languages strip_colon
               ["Scenario: " +:+ sname]), Hrun1, Hrun2.
    exact Hrun.
Qed.

(** [feed] on the line of the feature, first line of the text. *)
Lemma feed_feature_line filename name p :
  store p = [] -> or_default (self_language p) = "en" ->
  plain_name name ->
  exists p',
    feed sample_languages strip_colon ["Feature: " +:+ name]
      (after_reset english filename p) = Ok (tt, p')
    /\ building (self_id p) filename name [] p'.
Proof.
  intros Hstore Hlanguage Hname.
  destruct (strip_headed "F" "eature: " name eq_refl Hname) as [Hl Hs].
  change (String "F" "eature: " +:+ name) with ("Feature: " +:+ name)
    in Hl, Hs.
  destruct english_blocks as (Hfeature & _).
  cbn [feed]. cbv [mbind M_bind get modify mret M_ret].
  rewrite Hs. change (PyStr.is_empty ("Feature: " +:+ name)) with false.
  cbn [andb]. unfold action. cbv [mbind M_bind get]. rewrite Hs.
  change (PyStr.startswith ("Feature: " +:+ name) "#") with false.
  cbn [andb self_state set_line after_reset action_of].
  unfold action_initial. rewrite Hs.
  change (PyStr.startswith ("Feature: " +:+ name) "@") with false.
  cbv iota. cbv [mbind M_bind].
  match goal with
  | |- context [match_keyword _ _ _ ?q] =>
      rewrite (match_keyword_at sample_languages q english _ "feature" _
                 eq_refl Hfeature)
  end.
  change (List.find _ ["Feature"; "Business Need"; "Ability"])
    with (Some "Feature").
  cbn [known PyStr.truthy PyStr.is_empty negb].
  unfold _build_feature, new. cbv [mbind M_bind get modify mret M_ret].
  unfold header_here, name_after.
  change (PyStr.drop (String.length "Feature" + 1) ("Feature: " +:+ name))
    with (String " " name).
  assert (PyStr.strip (String " " name) = name) as ->.
  { destruct Hname as (Hln & Hrn & _). unfold PyStr.strip.
    change (PyStr.lstrip (String " " name)) with (PyStr.lstrip name).
    rewrite Hln. exact Hrn. }
  cbn [store set_line after_reset self_line self_tags self_language
       self_filename].
  rewrite Hstore, or_default_idem, Hlanguage. cbn [length app].
  eexists. split; [reflexivity|].
  split; [|split; reflexivity].
  constructor; reflexivity.
Qed.

(** [Parser.parse] *)
Lemma parse_written_feature text filename p name scenarios :
  store p = [] -> or_default (self_language p) = "en" ->
  PyStr.splitlines text = write_feature name scenarios ->
  plain_name name -> Forall plain_scenario scenarios ->
  exists p',
    parse sample_languages strip_colon text filename p = Ok (Some 0, p')
    /\ store p'
       = read_feature filename (Some (self_id p)) name scenarios.
Proof.
  intros Hstore Hlanguage Hlines Hname Hall.
  destruct (feed_feature_line filename name p Hstore Hlanguage Hname)
    as (p1 & Hrun1 & Hp1).
  destruct (feed_scenarios (self_id p) filename name scenarios [] p1 Hp1
              Hall) as (p2 & Hrun2 & (Hread & _ & _)).
  cbn [app] in Hread.
  unfold parse, _parse_loop.
  cbv [mbind M_bind get modify mret M_ret].
  rewrite (reset_run sample_languages filename p english)
    by (rewrite Hlanguage; reflexivity).
  cbn [self_state after_reset].
  rewrite bool_decide_eq_false_2 by discriminate.
  rewrite Hlines. unfold write_feature.
  change (("Feature: " +:+ name) :: flat_map scenario_lines scenarios)
    with (["Feature: " +:+ name] ++ flat_map scenario_lines scenarios).
  rewrite (feed_app sample_languages strip_colon ["Feature: " +:+ name]),
    Hrun1, Hrun2.
  destruct Hread as [H0 H1 H2 H3 H4 H5 H6 H7 H8 H9].
  rewrite (close_table_none sample_languages strip_colon p2 H5).
  rewrite H1. unfold update, deref. cbv [mbind M_bind modify mret M_ret].
  rewrite H7. cbn [read_feature lookup list_lookup].
  unfold read_header at 1. cbn [set_parser].
  eexists. split; [reflexivity|]. cbn [store set_store].
  rewrite H7, H0. reflexivity.
Qed.

End WrittenFeature.

(** X16.  A feature that is written is read back: of a text whose lines
    are the line of a feature and, for each scenario, the line of the
    scenario and the lines of its steps, [parse_feature] with the English
    keywords returns the feature, and the objects it has built are the
    feature, with its name, its line 1 and its scenarios in their order,
    and the scenarios, each with its name, its line and its steps. *)
Theorem parse_feature_reads_written_feature :
  forall strip_colon id text filename name
         (scenarios : list written_scenario),
    PyStr.splitlines text = write_feature name scenarios ->
    plain_name name -> Forall plain_scenario scenarios ->
    exists p',
      parse_feature sample_languages strip_colon id text None filename
      = Ok (Some 0, p')
      /\ Parser.store p' = read_feature filename (Some id) name scenarios.
Proof.
  intros strip_colon id text filename name scenarios Hlines Hname Hall.
  unfold parse_feature.
  destruct (init_ok sample_languages id None None)
    as (p & -> & Hl & _ & Hid & Hstore); [eexists; reflexivity|].
  destruct (parse_written_feature strip_colon text filename p name
              scenarios) as (p' & -> & Hp'); try assumption.
  { rewrite Hl. reflexivity. }
  exists p'. split; [reflexivity|]. rewrite Hp', Hid. reflexivity.
Qed.

Lemma parse_feature_reads_written_feature_witness :
  exists p',
    parse_feature sample_languages false 7 login_text None
      (Some "login.feature") = Ok (Some 0, p')
    /\ Parser.store p'
       = read_feature (Some "login.feature") (Some 7) "Login"
           login_scenarios.
Proof.
  apply (parse_feature_reads_written_feature false 7 login_text
           (Some "login.feature") "Login" login_scenarios).
  - vm_compute. reflexivity.
  - repeat split; discriminate.
  - repeat (apply Forall_cons; split); [..|apply Forall_nil_2];
      (split; [repeat split; discriminate|]); cbn [snd];
      repeat (apply Forall_cons; split); [..|apply Forall_nil_2];
      try apply Forall_nil_2; repeat split; discriminate.
Defined.

(** ** A table that is written and read *)
Section WrittenTable.
Import Model Parser.
Variable strip_colon : bool.

Lemma english_tables :
  english !! "scenario_outline"
  = Some ["Scenario Outline"; "Scenario Template"]
  /\ english !! "examples" = Some ["Examples"; "Scenarios"].
Proof. split; vm_compute; reflexivity. Qed.

(** The cells of a written row. *)
Lemma row_cells_written row :
  row <> [] -> Forall plain_cell row -> row_cells (render_row row) = row.
Proof.
  intros Hne Hall. unfold row_cells.
  rewrite slice_render_row, split_cells_between_pipes; [|exact Hne|].
  2: { eapply Forall_impl; [exact Hall|]. intros cell (_ & _ & H). exact H. }
  rewrite map_map. clear Hne.
  induction Hall as [|cell row (Hl & Hr & Hc) _ IH]; [reflexivity|].
  cbn [map]. rewrite IH. f_equal. unfold pad_then.
  rewrite unescape_cons by reflexivity.
  rewrite (unescape_escape_then _ _ Hc).
  apply strip_padded; assumption.
Qed.

(** A written row is a line that starts and ends with a pipe. *)
Lemma strip_render_row row :
  PyStr.lstrip (render_row row) = render_row row
  /\ PyStr.strip (render_row row) = render_row row.
Proof.
  split; [reflexivity|]. unfold PyStr.strip.
  change (PyStr.lstrip (render_row row)) with (render_row row).
  unfold render_row.
  change (String "|" (cells_between_pipes row +:+ "|"))
    with (String "|" (cells_between_pipes row) +:+ "|").
  apply rstrip_app_fixed; [reflexivity|discriminate].
Qed.

Lemma row_no_step row :
  Forall (no_step_keyword english (render_row row))
    ["given"; "when"; "then"; "and"; "but"].
Proof.
  destruct english_steps as (Hg & Hw & Ht).
  destruct english_blocks as (_ & _ & _ & Ha & Hb).
  repeat (apply Forall_cons; split); [..|apply Forall_nil_2];
    eexists; (split; [eassumption|reflexivity]).
Qed.

Lemma row_no_header row :
  Forall (no_keyword english (render_row row))
    ["rule"; "scenario"; "scenario_outline"; "examples"].
Proof.
  destruct english_blocks as (_ & Hr & Hs & _).
  destruct english_tables as (Ho & He).
  repeat (apply Forall_cons; split); [..|apply Forall_nil_2];
    eexists; (split; [eassumption|reflexivity]).
Qed.

(** The empty line of the end of the text. *)
Lemma action_steps_end p :
  self_keywords p = Some english ->
  action_steps sample_languages "" p = Ok (false, p).
Proof.
  intros Hk. destruct english_steps as (Hg & Hw & Ht).
  destruct english_blocks as (_ & Hr & Hs & Ha & Hb).
  destruct english_tables as (Ho & He).
  unfold action_steps. change (PyStr.lstrip "") with "".
  change (is_fence "") with false. cbv iota. change (PyStr.strip "") with "".
  unfold parse_step. cbv [mbind M_bind].
  rewrite (parse_step_types_none p english "" _ Hk).
  2: { repeat (apply Forall_cons; split); [..|apply Forall_nil_2];
         eexists; (split; [eassumption|reflexivity]). }
  rewrite (subaction_none sample_languages p english "" Hk eq_refl).
  2: { repeat (apply Forall_cons; split); [..|apply Forall_nil_2];
         eexists; (split; [eassumption|reflexivity]). }
  reflexivity.
Qed.

(** [action] on the first row under a step: the headings. *)
Lemma action_first_row p row r o acc step :
  self_state p = STEPS -> self_keywords p = Some english ->
  self_statement p = Some r -> store p !! r = Some o ->
  get_steps o = Some (acc ++ [step]) ->
  self_table p = None -> is_Some (self_feature p) ->
  row <> [] -> Forall plain_cell row ->
  action sample_languages strip_colon (render_row row) p
  = Ok (tt, set_table (Some (new_table row (self_line p)))
              (set_state TABLE p)).
Proof.
  intros Hs Hk Hr Ho Hacc Ht Hf Hne Hrow.
  destruct (strip_render_row row) as [Hl Hstrip].
  unfold action. cbv [mbind M_bind get]. rewrite Hstrip, Hs.
  change (PyStr.startswith (render_row row) "#") with false.
  cbn [andb action_of]. unfold action_steps. rewrite Hl, Hstrip.
  change (is_fence (render_row row)) with false. cbv iota.
  unfold parse_step. cbv [mbind M_bind].
  rewrite (parse_step_types_none p english _ _ Hk (row_no_step row)).
  rewrite (subaction_none sample_languages p english (render_row row) Hk
             eq_refl (row_no_header row)).
  change (PyStr.startswith (render_row row) "|") with true. cbv iota.
  unfold statement_steps, deref.
  cbv [mbind M_bind get the mret M_ret modify].
  rewrite Hr. cbn. rewrite Ho. cbn. rewrite Hacc. cbn.
  destruct (acc ++ [step]) eqn:E; [destruct acc; discriminate|].
  rewrite (action_table_row_first (set_state TABLE p) (render_row row));
    [|exact Ht|right; exact Hf].
  rewrite (row_cells_written row Hne Hrow). reflexivity.
Qed.

(** [action] on a row of the table that is open. *)
Lemma action_next_row p t row :
  self_state p = TABLE -> self_table p = Some t ->
  is_Some (self_feature p) ->
  row <> [] -> plain_row (headings t) row ->
  action sample_languages strip_colon (render_row row) p
  = Ok (tt, set_table (Some (add_row t row (self_line p))) p).
Proof.
  intros Hs Ht Hf Hne [Hlen Hrow].
  destruct (strip_render_row row) as [Hl Hstrip].
  unfold action. cbv [mbind M_bind get]. rewrite Hstrip, Hs.
  change (PyStr.startswith (render_row row) "#") with false.
  cbn [andb action_of]. unfold action_table. rewrite Hstrip.
  change (PyStr.startswith (render_row row) "|") with true. cbn [negb].
  cbv iota.
  rewrite (action_table_row_next p t (render_row row) Ht)
    by (right; exact Hf).
  rewrite (row_cells_written row Hne Hrow), Hlen, Nat.eqb_refl.
  reflexivity.
Qed.

Lemma plain_row_nonempty headings row :
  headings <> [] -> plain_row headings row -> row <> [].
Proof.
  intros Hne [Hlen _] ->. destruct headings; [congruence|discriminate].
Qed.

Lemma headings_add_rows t n rows :
  headings (add_rows t n rows) = headings t.
Proof.
  revert t n. induction rows as [|row rest IH]; intros t n; [reflexivity|].
  cbn [add_rows]. rewrite IH. reflexivity.
Qed.

(** [feed] on the rows of the table that is open. *)
Lemma feed_rows rows :
  forall p t,
    self_state p = TABLE -> self_table p = Some t ->
    is_Some (self_feature p) -> headings t <> [] ->
    Forall (plain_row (headings t)) rows ->
    feed sample_languages strip_colon (map render_row rows) p
    = Ok (tt, set_table (Some (add_rows t (self_line p) rows))
                (set_line (self_line p + length rows) p)).
Proof.
  induction rows as [|row rest IH]; intros p t Hs Ht Hf Hne Hall.
  - cbn [map feed length add_rows]. rewrite Nat.add_0_r.
    destruct p; cbn in Ht |- *; subst; reflexivity.
  - apply Forall_cons in Hall. destruct Hall as [Hrow Hall].
    destruct (strip_render_row row) as [_ Hstrip].
    cbn [map feed]. cbv [mbind M_bind get modify mret M_ret].
    rewrite Hstrip.
    change (PyStr.is_empty (render_row row)) with false. cbn [andb].
    rewrite (action_next_row (set_line (self_line p + 1) p) t row Hs Ht Hf
               (plain_row_nonempty _ _ Hne Hrow) Hrow).
    rewrite (IH _ (add_row t row (self_line p + 1))); try assumption;
      try reflexivity.
    cbn [add_rows length].
    replace (self_line p + S (length rest))
      with (self_line p + 1 + length rest) by lia.
    destruct p; reflexivity.
Qed.

Lemma add_rows_read h n rows :
  add_rows (new_table h (n + 1)) (n + 1) rows = read_table n h rows.
Proof.
  assert (forall t m,
    add_rows t m rows
    = {| headings := headings t; table_line := table_line t;
         Model.rows :=
           Model.rows t
           ++ imap (fun i row =>
                      {| row_headings := headings t; cells := row;
                         row_line := m + i + 1 |}) rows |}) as H.
  { induction rows as [|row rest IH]; intros t m.
    - cbn [add_rows imap]. rewrite app_nil_r. destruct t; reflexivity.
    - cbn [add_rows imap]. rewrite IH. cbn [add_row headings table_line
        Model.rows]. rewrite <- app_assoc. cbn [app]. do 3 f_equal.
      + f_equal. lia.
      + apply imap_ext. intros i x _. cbn. f_equal. lia. }
  rewrite H. reflexivity.
Qed.

(** The end of the text: the table goes to the last step. *)
Lemma close_written_table p t r o acc step :
  self_table p = Some t -> self_examples p = None ->
  self_statement p = Some r -> store p !! r = Some o ->
  get_steps o = Some (acc ++ [step]) ->
  self_keywords p = Some english ->
  exists o',
    set_steps
      (acc ++ [_normalize_step_name strip_colon
                 (step_set_table step (Some t))]) o = Some o'
    /\ close_table sample_languages strip_colon p
       = Ok (tt, set_state STEPS
                   (set_table None
                      (set_store (<[r := o']> (store p)) p))).
Proof.
  intros Ht He Hr Ho Hacc Hk.
  destruct (update_last_step_last
              (fun step => _normalize_step_name strip_colon
                             (step_set_table step (self_table p)))
              p r o acc step Hr Ho Hacc) as (o' & Hset & _ & Hrun).
  rewrite Ht in Hset. exists o'. split; [exact Hset|].
  unfold close_table. cbv [mbind M_bind get mret M_ret]. rewrite Ht.
  unfold action_table. change (PyStr.strip "") with "".
  change (negb (PyStr.startswith "" "|")) with true. cbv iota.
  cbv [mbind M_bind get modify]. rewrite He, Hrun.
  rewrite action_steps_end by exact Hk. reflexivity.
Qed.

(** The step with its table, as [_normalize_step_name] leaves it. *)
Lemma normalize_read_step filename n step table :
  _normalize_step_name strip_colon
    (step_set_table (read_step filename n step) (Some table))
  = read_table_step strip_colon filename n step table.
Proof.
  unfold _normalize_step_name, read_table_step.
  cbn [step_name step_set_table read_step new_step].
  destruct (strip_colon && PyStr.endswith_char step.2 ":"); reflexivity.
Qed.

(** The lines of a feature whose last scenario has a last step. *)
Lemma feed_written_with_last filename name done sname steps s stname p :
  store p = [] -> or_default (self_language p) = "en" ->
  plain_name name ->
  Forall plain_scenario (done ++ [(sname, steps ++ [(s, stname)])]) ->
  exists p',
    feed sample_languages strip_colon
      (write_feature name (done ++ [(sname, steps ++ [(s, stname)])]))
      (after_reset english filename p) = Ok (tt, p')
    /\ building (self_id p) filename name
         (done ++ [(sname, steps ++ [(s, stname)])]) p'
    /\ self_state p' = STEPS.
Proof.
  intros Hstore Hlanguage Hname Hall.
  apply Forall_app in Hall. destruct Hall as [Hdone Hlast].
  apply Forall_cons in Hlast. destruct Hlast as [[Hsname Hsteps] _].
  cbn [fst snd] in Hsname, Hsteps.
  apply Forall_app in Hsteps. destruct Hsteps as [Hsteps Hst].
  apply Forall_cons in Hst. destruct Hst as [Hstname _].
  cbn [snd] in Hstname.
  destruct (feed_feature_line strip_colon filename name p Hstore Hlanguage
              Hname) as (p1 & Hrun1 & Hp1).
  destruct (feed_scenarios strip_colon (self_id p) filename name done [] p1
              Hp1 Hdone) as (p2 & Hrun2 & Hp2).
  cbn [app] in Hp2.
  destruct (feed_scenario_line strip_colon (self_id p) filename name done
              p2 sname Hp2 Hsname) as (p3 & Hrun3 & Hp3).
  destruct (feed_step_lines strip_colon (self_id p) filename name done sname
              steps [] p3 Hp3 Hsteps) as (p4 & Hrun4 & Hp4).
  cbn [app] in Hp4.
  destruct (feed_step_line strip_colon (self_id p) filename name done sname
              steps p4 s stname Hp4 Hstname) as (p5 & Hrun5 & Hp5 & Hs5).
  exists p5. split; [|split; assumption].
  unfold write_feature. rewrite flat_map_app.
  cbn [flat_map]. rewrite app_nil_r. unfold scenario_lines at 2.
  cbn [fst snd]. rewrite map_app. cbn [map].
  change (("Feature: " +:+ name)
          :: flat_map scenario_lines done
             ++ ("Scenario: " +:+ sname)
                :: map write_step steps ++ [write_step (s, stname)])
    with (["Feature: " +:+ name]
          ++ (flat_map scenario_lines done
              ++ (["Scenario: " +:+ sname]
                  ++ (map write_step steps ++ [write_step (s, stname)])))).
  rewrite (feed_app sample_languages strip_colon ["Feature: " +:+ name]),
    Hrun1.
  rewrite (feed_app sample_languages strip_colon
             (flat_map scenario_lines done)), Hrun2.
  rewrite (feed_app sample_languages strip_colon ["Scenario: " +:+ sname]),
    Hrun3.
  rewrite (feed_app sample_languages strip_colon (map write_step steps)),
    Hrun4.
  exact Hrun5.
Qed.

(** [Parser.parse] of a feature with a table under its last step. *)
Lemma parse_written_table text filename p name done sname steps s stname
    headings rows :
  store p = [] -> or_default (self_language p) = "en" ->
  PyStr.splitlines text
  = write_feature name (done ++ [(sname, steps ++ [(s, stname)])])
    ++ map render_row (headings :: rows) ->
  plain_name name ->
  Forall plain_scenario (done ++ [(sname, steps ++ [(s, stname)])]) ->
  headings <> [] -> Forall plain_cell headings ->
  Forall (plain_row headings) rows ->
  let n :=
    length (write_feature name
              (done ++ [(sname, steps ++ [(s, stname)])])) in
  exists p' o,
    parse sample_languages strip_colon text filename p = Ok (Some 0, p')
    /\ store p' !! (length done + 1) = Some o
    /\ get_steps o
       = Some (imap (fun i => read_step filename
                                (length (write_feature name done) + 1 + i
                                 + 1)) steps
               ++ [read_table_step strip_colon filename n (s, stname)
                     (read_table n headings rows)]).
Proof.
  intros Hstore Hlanguage Hlines Hname Hall Hne Hheadings Hrows n.
  destruct (feed_written_with_last filename name done sname steps s stname
              p Hstore Hlanguage Hname Hall)
    as (p1 & Hrun1 & (Hread & Hline & Hstate) & Hs1).
  destruct Hread as [H0 H1 H2 H3 H4 H5 H6 H7 H8 H9].
  assert (self_statement p1 = Some (length done + 1)) as Hstatement.
  { destruct (done ++ [(sname, steps ++ [(s, stname)])]) eqn:E.
    - destruct done; discriminate.
    - rewrite <- E, length_app in Hstate. apply Hstate. }
  rewrite read_feature_last in H7. cbn [read_scenarios fst snd] in H7.
  rewrite imap_app in H7. cbn [imap] in H7.
  match type of H7 with
  | _ = _ :: _ ++ [?x] => set (o := x) in *
  end.
  assert (store p1 !! (length done + 1) = Some o) as Ho.
  { rewrite H7, app_comm_cons. apply list_lookup_middle.
    cbn [length]. rewrite length_read_scenarios. lia. }
  fold n in Hline.
  set (p2 := set_line (n + 1) p1).
  set (p3 := set_table (Some (new_table headings (n + 1)))
               (set_state TABLE p2)).
  assert (feed sample_languages strip_colon [render_row headings] p1
          = Ok (tt, p3)) as Hrun2.
  { destruct (strip_render_row headings) as [_ Hstrip].
    cbn [feed]. cbv [mbind M_bind get modify mret M_ret]. rewrite Hstrip.
    change (PyStr.is_empty (render_row headings)) with false. cbn [andb].
    rewrite Hline. fold p2.
    erewrite (action_first_row p2 headings (length done + 1) o);
      [reflexivity|exact Hs1|exact H3|exact Hstatement|exact Ho|reflexivity
      |exact H5|exists 0; exact H1|exact Hne|exact Hheadings]. }
  pose proof (feed_rows rows p3 (new_table headings (n + 1)) eq_refl eq_refl)
    as Hrun3.
  rewrite add_rows_read in Hrun3.
  specialize (Hrun3 (ex_intro _ 0 H1) Hne Hrows).
  match type of Hrun3 with
  | _ = Ok (tt, ?q) => set (p4 := q) in *
  end.
  set (acc := imap (fun i => read_step filename
                              (length (write_feature name done) + 1 + i + 1))
                steps).
  set (last := read_step filename n (s, stname)).
  assert (get_steps o = Some (acc ++ [last])) as Hacc.
  { subst o acc last n. cbn [get_steps scenario_steps]. do 4 f_equal.
    unfold write_feature. cbn [length]. rewrite flat_map_app, length_app.
    cbn [flat_map scenario_lines length fst snd app].
    rewrite app_nil_r. cbn [length]. rewrite length_map, length_app.
    cbn [length]. lia. }
  destruct (close_written_table p4 (read_table n headings rows)
              (length done + 1) o acc last eq_refl H8 Hstatement Ho
              Hacc H3) as (o' & Hset & Hrun4).
  unfold last in Hset. rewrite normalize_read_step in Hset.
  assert (get_steps o'
          = Some (acc ++ [read_table_step strip_colon filename n (s, stname)
                            (read_table n headings rows)])) as Hget.
  { destruct (get_set_steps o _
                (acc ++ [read_table_step strip_colon filename n (s, stname)
                           (read_table n headings rows)]) Hacc)
      as (o'' & Hset' & Hget). congruence. }
  assert (length done + 1 < length (store p1)) as Hlt
    by (eapply lookup_lt_Some, Ho).
  unfold parse, _parse_loop.
  cbv [mbind M_bind get modify mret M_ret].
  rewrite (reset_run sample_languages filename p english)
    by (rewrite Hlanguage; reflexivity).
  cbn [self_state after_reset].
  rewrite bool_decide_eq_false_2 by discriminate.
  rewrite Hlines.
  rewrite (feed_app sample_languages strip_colon
             (write_feature name
                (done ++ [(sname, steps ++ [(s, stname)])]))), Hrun1.
  change (map render_row (headings :: rows))
    with ([render_row headings] ++ map render_row rows).
  rewrite (feed_app sample_languages strip_colon [render_row headings]),
    Hrun2, Hrun3, Hrun4.
  assert (self_feature
            (set_state STEPS
               (set_table None
                  (set_store (<[length done + 1 := o']> (store p4)) p4)))
          = Some 0) as -> by exact H1.
  unfold update, deref. cbv [mbind M_bind modify mret M_ret].
  assert (store
            (set_state STEPS
               (set_table None
                  (set_store (<[length done + 1 := o']> (store p4)) p4)))
          = <[length done + 1 := o']> (store p1)) as Hstore5
    by reflexivity.
  rewrite Hstore5.
  rewrite list_lookup_insert_ne by lia.
  assert (store p1 !! 0
          = Some (read_header filename None name (length done + 1))) as ->
    by (rewrite H7; reflexivity).
  unfold read_header at 1. cbn [set_parser].
  eexists. exists o'. split; [reflexivity|]. split; [|exact Hget].
  cbn [store set_store]. rewrite Hstore5.
  rewrite list_lookup_insert_ne by lia.
  apply list_lookup_insert_eq. exact Hlt.
Qed.

End WrittenTable.

(** X17.  A table that is written under the last step of a feature is read
    back: of a text whose lines are a written feature and then the rows of
    a table, the headings first, each row with as many cells as the
    headings, [parse_feature] with the English keywords gives the last
    step of the last scenario the table of these headings and rows, each
    row with its line number, and leaves the steps before it as they are.
    The name of that step loses the colon at its end when the setting
    [strip_colon] is on, and keeps it otherwise. *)
Theorem written_table_is_read :
  forall strip_colon id text filename name (done : list written_scenario)
         sname steps s stname headings rows,
    PyStr.splitlines text
    = write_feature name (done ++ [(sname, steps ++ [(s, stname)])])
      ++ map render_row (headings :: rows) ->
    plain_name name ->
    Forall plain_scenario (done ++ [(sname, steps ++ [(s, stname)])]) ->
    headings <> [] -> Forall plain_cell headings ->
    Forall (plain_row headings) rows ->
    exists p' o,
      parse_feature sample_languages strip_colon id text None filename
      = Ok (Some 0, p')
      /\ Parser.store p' !! (length done + 1) = Some o
      /\ Model.get_steps o
         = Some (imap (fun i => read_step filename
                                  (length (write_feature name done) + 1 + i
                                   + 1)) steps
                 ++ [read_table_step strip_colon filename
                       (length (write_feature name
                                  (done
                                   ++ [(sname, steps ++ [(s, stname)])])))
                       (s, stname)
                       (read_table
                          (length (write_feature name
                                     (done
                                      ++ [(sname,
                                           steps ++ [(s, stname)])])))
                          headings rows)]).
Proof.
  intros strip_colon id text filename name done sname steps s stname
    headings rows Hlines Hname Hall Hne Hheadings Hrows.
  unfold parse_feature.
  destruct (init_ok sample_languages id None None)
    as (p & -> & Hl & _ & Hid & Hstore); [eexists; reflexivity|].
  destruct (parse_written_table strip_colon text filename p name done sname
              steps s stname headings rows)
    as (p' & o & -> & Ho & Hsteps); try assumption.
  { rewrite Hl. reflexivity. }
  exists p', o. split; [reflexivity|]. split; assumption.
Qed.

Lemma written_table_is_read_witness :
  exists p' o,
    parse_feature sample_languages true 0 table_text None None
    = Ok (Some 0, p')
    /\ Parser.store p' !! 1 = Some o
    /\ Model.get_steps o
       = Some [ {| Model.step_filename := None; Model.step_line := 3;
                   Model.step_keyword := "Given";
                   Model.step_type := "given";
                   Model.step_name := "the users";
                   Model.step_text := None;
                   Model.step_table :=
                     Some (read_table 3 ["name"; "role"]
                             [["ann"; "admin"]; ["bob"; "a|b"]]) |} ].
Proof.
  apply (written_table_is_read true 0 table_text None "Login" [] "Users" []
           Given "the users:" ["name"; "role"]
           [["ann"; "admin"]; ["bob"; "a|b"]]).
  - vm_compute. reflexivity.
  - repeat split; discriminate.
  - apply Forall_cons; split; [|apply Forall_nil_2].
    split; [repeat split; discriminate|].
    apply Forall_cons; split; [repeat split; discriminate|].
    apply Forall_nil_2.
  - discriminate.
  - repeat (apply Forall_cons; split; [repeat split|]); apply Forall_nil_2.
  - repeat (apply Forall_cons; split;
            [split; [reflexivity|
               repeat (apply Forall_cons; split; [repeat split|]);
               apply Forall_nil_2]|]);
      apply Forall_nil_2.
Defined.

(** ** A doc-string that is written and read *)
Section WrittenText.
Import Model Parser.
Variable strip_colon : bool.

Lemma lstrip_indent indent s :
  all_space indent = true -> PyStr.lstrip (indent +:+ s) = PyStr.lstrip s.
Proof.
  induction indent as [|c indent IH]; intros H; [reflexivity|].
  cbn [all_space] in H. apply andb_true_iff in H. destruct H as [Hc H].
  change (String c indent +:+ s) with (String c (indent +:+ s)).
  cbn [PyStr.lstrip]. rewrite Hc. apply IH, H.
Qed.

Lemma strip_indent indent s :
  all_space indent = true -> PyStr.strip (indent +:+ s) = PyStr.strip s.
Proof. intros H. unfold PyStr.strip. rewrite lstrip_indent; auto. Qed.

Lemma length_indent indent s :
  String.length (indent +:+ s) = String.length indent + String.length s.
Proof.
  induction indent as [|c indent IH]; [reflexivity|].
  change (String c indent +:+ s) with (String c (indent +:+ s)).
  cbn [String.length]. rewrite IH. reflexivity.
Qed.

(** [action] on the fence that opens the doc-string. *)
Lemma action_opening_fence p indent r o acc step :
  self_state p = STEPS -> self_statement p = Some r ->
  store p !! r = Some o -> get_steps o = Some (acc ++ [step]) ->
  all_space indent = true ->
  action sample_languages strip_colon (indent +:+ fence) p
  = Ok (tt, set_multiline_leading (Some (String.length indent))
              (set_multiline_terminator (Some fence)
                 (set_multiline_start (Some (self_line p))
                    (set_state MULTILINE_TEXT p)))).
Proof.
  intros Hs Hr Ho Hacc Hindent.
  unfold action. cbv [mbind M_bind get].
  rewrite (strip_indent indent fence Hindent), Hs.
  change (PyStr.startswith (PyStr.strip fence) "#") with false.
  cbn [andb action_of].
  assert (exists first rest, acc ++ [step] = first :: rest)
    as (first & rest & E) by (destruct acc; eauto).
  rewrite E in Hacc.
  rewrite (action_steps_opens sample_languages p (indent +:+ fence) r o
             first rest); try assumption.
  2: { rewrite (lstrip_indent indent fence Hindent). reflexivity. }
  rewrite (lstrip_indent indent fence Hindent), length_indent.
  change (PyStr.lstrip fence) with fence.
  replace (String.length indent + String.length fence - String.length fence)
    with (String.length indent) by lia.
  reflexivity.
Qed.

(** [feed] on the lines of the text of an open doc-string. *)
Lemma feed_text_lines k text_lines :
  forall p,
    self_state p = MULTILINE_TEXT ->
    self_multiline_terminator p = Some fence ->
    self_multiline_leading p = Some k ->
    Forall (inner_line k) text_lines ->
    feed sample_languages strip_colon text_lines p
    = Ok (tt, set_lines
                (self_lines p
                 ++ map (fun l => PyStr.rstrip (PyStr.drop k l)) text_lines)
                (set_line (self_line p + length text_lines) p)).
Proof.
  induction text_lines as [|l rest IH]; intros p Hs Ht Hl Hall.
  - cbn [map feed length]. rewrite app_nil_r, Nat.add_0_r.
    destruct p; reflexivity.
  - apply Forall_cons in Hall. destruct Hall as [[Hinner Hprefix] Hall].
    cbn [map feed]. cbv [mbind M_bind get modify mret M_ret].
    cbn [self_state set_line]. rewrite Hs.
    rewrite bool_decide_eq_true_2 by reflexivity.
    cbn [negb andb]. rewrite andb_false_r.
    unfold action. cbv [mbind M_bind get]. cbn [self_state set_line].
    rewrite Hs, bool_decide_eq_true_2 by reflexivity.
    cbn [negb]. rewrite andb_false_r. cbn [action_of].
    unfold action_multiline_text.
    cbv [mbind M_bind get modify mret M_ret].
    cbn [self_multiline_terminator self_multiline_leading set_line].
    rewrite Ht, Hl. cbv [mbind M_bind get modify mret M_ret].
    rewrite Hinner, Hprefix.
    rewrite IH; try assumption.
    cbn [self_lines self_line set_lines set_line map length].
    rewrite <- app_assoc. cbn [app].
    replace (self_line p + S (length rest))
      with (self_line p + 1 + length rest) by lia.
    destruct p; reflexivity.
Qed.

(** [action] on the fence that closes the doc-string: the text goes to the
    last step. *)
Lemma action_closing_fence p indent r o acc step :
  self_state p = MULTILINE_TEXT ->
  self_multiline_terminator p = Some fence ->
  self_statement p = Some r -> store p !! r = Some o ->
  get_steps o = Some (acc ++ [step]) -> all_space indent = true ->
  exists o',
    set_steps
      (acc ++ [_normalize_step_name strip_colon
                 (step_set_text step
                    {| text_value :=
                         PyStr.join (String PyStr.LF "") (self_lines p);
                       content_type := "text/plain";
                       text_line := self_multiline_start p |})]) o
    = Some o'
    /\ action sample_languages strip_colon (indent +:+ fence) p
       = Ok (tt, set_state STEPS
                   (set_multiline_terminator None
                      (set_lines []
                         (set_store (<[r := o']> (store p)) p)))).
Proof.
  intros Hs Ht Hr Ho Hacc Hindent.
  destruct (update_last_step_last
              (fun this_step =>
                 _normalize_step_name strip_colon
                   (step_set_text this_step
                      {| text_value :=
                           PyStr.join (String PyStr.LF "") (self_lines p);
                         content_type := "text/plain";
                         text_line := self_multiline_start p |}))
              p r o acc step Hr Ho Hacc) as (o' & Hset & _ & Hrun).
  exists o'. split; [exact Hset|].
  unfold action. cbv [mbind M_bind get].
  rewrite Hs, bool_decide_eq_true_2 by reflexivity.
  cbn [negb]. rewrite andb_false_r. cbn [action_of].
  unfold action_multiline_text.
  cbv [mbind M_bind get modify mret M_ret]. rewrite Ht.
  cbv [mbind M_bind get modify mret M_ret].
  rewrite (strip_indent indent fence Hindent).
  change (PyStr.startswith (PyStr.strip fence) fence) with true. cbv iota.
  cbv [mbind M_bind get modify mret M_ret]. rewrite Hrun. reflexivity.
Qed.

(** [feed] on a doc-string under the last step of the statement. *)
Lemma feed_docstring p indent text_lines r o acc step :
  self_state p = STEPS -> self_statement p = Some r ->
  store p !! r = Some o -> get_steps o = Some (acc ++ [step]) ->
  self_lines p = [] ->
  all_space indent = true ->
  Forall (inner_line (String.length indent)) text_lines ->
  exists o' p',
    set_steps
      (acc ++ [_normalize_step_name strip_colon
                 (step_set_text step
                    (read_text (self_line p + 1) (String.length indent)
                       text_lines))]) o
    = Some o'
    /\ feed sample_languages strip_colon (docstring_lines indent text_lines)
         p = Ok (tt, p')
    /\ store p' = <[r := o']> (store p)
    /\ self_table p' = self_table p
    /\ self_feature p' = self_feature p
    /\ self_id p' = self_id p.
Proof.
  intros Hs Hr Ho Hacc Hlines Hindent Hall.
  set (p1 := set_line (self_line p + 1) p).
  pose proof (action_opening_fence p1 indent r o acc step Hs Hr Ho Hacc
                Hindent) as Hopen.
  match type of Hopen with
  | _ = Ok (tt, ?q) => set (p2 := q) in *
  end.
  pose proof (feed_text_lines (String.length indent) text_lines p2 eq_refl
                eq_refl eq_refl Hall) as Hbody.
  match type of Hbody with
  | _ = Ok (tt, ?q) => set (p3 := q) in *
  end.
  set (p4 := set_line (self_line p3 + 1) p3).
  destruct (action_closing_fence p4 indent r o acc step eq_refl eq_refl Hr
              Ho Hacc Hindent) as (o' & Hset & Hclose).
  exists o'.
  exists (set_state STEPS
            (set_multiline_terminator None
               (set_lines [] (set_store (<[r := o']> (store p4)) p4)))).
  split; [|split; [|repeat split]].
  - revert Hset. subst p4 p3 p2 p1.
    cbn [self_lines self_multiline_start set_line set_lines
         set_multiline_leading set_multiline_terminator set_multiline_start
         set_state self_line].
    rewrite Hlines. cbn [app]. intros H. exact H.
  - unfold docstring_lines.
    rewrite (feed_app sample_languages strip_colon [indent +:+ fence]).
    assert (feed sample_languages strip_colon [indent +:+ fence] p
            = Ok (tt, p2)) as ->.
    { cbn [feed]. cbv [mbind M_bind get modify mret M_ret].
      rewrite (strip_indent indent fence Hindent).
      change (PyStr.is_empty (PyStr.strip fence)) with false. cbn [andb].
      fold p1. rewrite Hopen. reflexivity. }
    rewrite (feed_app sample_languages strip_colon text_lines), Hbody.
    cbn [feed]. cbv [mbind M_bind get modify mret M_ret].
    assert (self_state (set_line (self_line p3 + 1) p3) = MULTILINE_TEXT)
      as -> by reflexivity.
    rewrite bool_decide_eq_true_2 by reflexivity.
    cbn [negb]. rewrite andb_false_r. fold p4. rewrite Hclose.
    reflexivity.
Qed.

(** The step with its text, as [_normalize_step_name] leaves it. *)
Lemma normalize_text_step filename n step text :
  _normalize_step_name strip_colon
    (step_set_text (read_step filename n step) text)
  = read_text_step strip_colon filename n step text.
Proof.
  unfold _normalize_step_name, read_text_step.
  cbn [step_name step_set_text read_step new_step].
  destruct (strip_colon && PyStr.endswith_char step.2 ":"); reflexivity.
Qed.

(** [Parser.parse] of a feature with a doc-string under its last step. *)
Lemma parse_written_text text filename p name done sname steps s stname
    indent text_lines :
  store p = [] -> or_default (self_language p) = "en" ->
  PyStr.splitlines text
  = write_feature name (done ++ [(sname, steps ++ [(s, stname)])])
    ++ docstring_lines indent text_lines ->
  plain_name name ->
  Forall plain_scenario (done ++ [(sname, steps ++ [(s, stname)])]) ->
  all_space indent = true ->
  Forall (inner_line (String.length indent)) text_lines ->
  let n :=
    length (write_feature name
              (done ++ [(sname, steps ++ [(s, stname)])])) in
  exists p' o,
    parse sample_languages strip_colon text filename p = Ok (Some 0, p')
    /\ store p' !! (length done + 1) = Some o
    /\ get_steps o
       = Some (imap (fun i => read_step filename
                                (length (write_feature name done) + 1 + i
                                 + 1)) steps
               ++ [read_text_step strip_colon filename n (s, stname)
                     (read_text (n + 1) (String.length indent) text_lines)]).
Proof.
  intros Hstore Hlanguage Hlines Hname Hall Hindent Hinner n.
  destruct (feed_written_with_last strip_colon filename name done sname
              steps s stname p Hstore Hlanguage Hname Hall)
    as (p1 & Hrun1 & (Hread & Hline & Hstate) & Hs1).
  destruct Hread as [H0 H1 H2 H3 H4 H5 H6 H7 H8 H9].
  assert (self_statement p1 = Some (length done + 1)) as Hstatement.
  { destruct (done ++ [(sname, steps ++ [(s, stname)])]) eqn:E.
    - destruct done; discriminate.
    - rewrite <- E, length_app in Hstate. apply Hstate. }
  rewrite read_feature_last in H7. cbn [read_scenarios fst snd] in H7.
  rewrite imap_app in H7. cbn [imap] in H7.
  match type of H7 with
  | _ = _ :: _ ++ [?x] => set (o := x) in *
  end.
  assert (store p1 !! (length done + 1) = Some o) as Ho.
  { rewrite H7, app_comm_cons. apply list_lookup_middle.
    cbn [length]. rewrite length_read_scenarios. lia. }
  fold n in Hline.
  set (acc := imap (fun i => read_step filename
                              (length (write_feature name done) + 1 + i + 1))
                steps).
  set (last := read_step filename n (s, stname)).
  assert (get_steps o = Some (acc ++ [last])) as Hacc.
  { subst o acc last n. cbn [get_steps scenario_steps]. do 4 f_equal.
    unfold write_feature. cbn [length]. rewrite flat_map_app, length_app.
    cbn [flat_map scenario_lines length fst snd app].
    rewrite app_nil_r. cbn [length]. rewrite length_map, length_app.
    cbn [length]. lia. }
  destruct (feed_docstring p1 indent text_lines (length done + 1) o acc last
              Hs1 Hstatement Ho Hacc H9 Hindent Hinner)
    as (o' & p2 & Hset & Hrun2 & Hstore2 & Htable2 & Hfeature2 & Hid2).
  unfold last in Hset. rewrite normalize_text_step, Hline in Hset.
  set (text_read := read_text (n + 1) (String.length indent) text_lines)
    in *.
  assert (get_steps o'
          = Some (acc ++ [read_text_step strip_colon filename n (s, stname)
                            text_read])) as Hget.
  { destruct (get_set_steps o _
                (acc ++ [read_text_step strip_colon filename n (s, stname)
                           text_read]) Hacc)
      as (o'' & Hset' & Hget). congruence. }
  assert (length done + 1 < length (store p1)) as Hlt
    by (eapply lookup_lt_Some, Ho).
  unfold parse, _parse_loop.
  cbv [mbind M_bind get modify mret M_ret].
  rewrite (reset_run sample_languages filename p english)
    by (rewrite Hlanguage; reflexivity).
  cbn [self_state after_reset].
  rewrite bool_decide_eq_false_2 by discriminate.
  rewrite Hlines.
  rewrite (feed_app sample_languages strip_colon
             (write_feature name
                (done ++ [(sname, steps ++ [(s, stname)])]))), Hrun1, Hrun2.
  rewrite (close_table_none sample_languages strip_colon p2)
    by (rewrite Htable2; exact H5).
  rewrite Hfeature2, H1.
  unfold update, deref. cbv [mbind M_bind modify mret M_ret].
  rewrite Hstore2.
  rewrite list_lookup_insert_ne by lia.
  assert (store p1 !! 0
          = Some (read_header filename None name (length done + 1))) as ->
    by (rewrite H7; reflexivity).
  unfold read_header at 1. cbn [set_parser].
  eexists. exists o'. split; [reflexivity|]. split; [|exact Hget].
  cbn [store set_store]. rewrite Hstore2.
  rewrite list_lookup_insert_ne by lia.
  apply list_lookup_insert_eq. exact Hlt.
Qed.

End WrittenText.

(** X18.  A doc-string that is written under the last step of a feature is
    read back: of a text whose lines are a written feature and then a
    fence after an indent of whitespace, the lines of a text, none of
    which starts with the fence or has something else than whitespace
    before the column of the fence, and the fence again,
    [parse_feature] with the English keywords gives the last step of the
    last scenario the text: the lines without what is before the column of
    the fence and without the whitespace at their ends, joined by line
    feeds, with the line of the opening fence.  Blank lines are kept, and
    the name of the step loses the colon at its end when the setting
    [strip_colon] is on. *)
Theorem written_docstring_is_read :
  forall strip_colon id text filename name (done : list written_scenario)
         sname steps s stname indent text_lines,
    PyStr.splitlines text
    = write_feature name (done ++ [(sname, steps ++ [(s, stname)])])
      ++ docstring_lines indent text_lines ->
    plain_name name ->
    Forall plain_scenario (done ++ [(sname, steps ++ [(s, stname)])]) ->
    all_space indent = true ->
    Forall (inner_line (String.length indent)) text_lines ->
    exists p' o,
      parse_feature sample_languages strip_colon id text None filename
      = Ok (Some 0, p')
      /\ Parser.store p' !! (length done + 1) = Some o
      /\ Model.get_steps o
         = Some (imap (fun i => read_step filename
                                  (length (write_feature name done) + 1 + i
                                   + 1)) steps
                 ++ [read_text_step strip_colon filename
                       (length (write_feature name
                                  (done
                                   ++ [(sname, steps ++ [(s, stname)])])))
                       (s, stname)
                       (read_text
                          (length (write_feature name
                                     (done
                                      ++ [(sname,
                                           steps ++ [(s, stname)])])) + 1)
                          (String.length indent) text_lines)]).
Proof.
  intros strip_colon id text filename name done sname steps s stname
    indent text_lines Hlines Hname Hall Hindent Hinner.
  unfold parse_feature.
  destruct (init_ok sample_languages id None None)
    as (p & -> & Hl & _ & Hid & Hstore); [eexists; reflexivity|].
  destruct (parse_written_text strip_colon text filename p name done sname
              steps s stname indent text_lines)
    as (p' & o & -> & Ho & Hsteps); try assumption.
  { rewrite Hl. reflexivity. }
  exists p', o. split; [reflexivity|]. split; assumption.
Qed.

Lemma written_docstring_is_read_witness :
  exists p' o,
    parse_feature sample_languages false 0 docstring_text None None
    = Ok (Some 0, p')
    /\ Parser.store p' !! 1 = Some o
    /\ Model.get_steps o
       = Some [ {| Model.step_filename := None; Model.step_line := 3;
                   Model.step_keyword := "Given";
                   Model.step_type := "given";
                   Model.step_name := "the text:";
                   Model.step_text :=
                     Some {| Model.text_value :=
                               nl "Dear Ann,\n\n  see you.";
                             Model.content_type := "text/plain";
                             Model.text_line := Some 4 |};
                   Model.step_table := None |} ].
Proof.
  apply (written_docstring_is_read false 0 docstring_text None "Mail" []
           "Send" [] Given "the text:" "    "
           ["    Dear Ann,"; ""; "      see you.  "]).
  - vm_compute. reflexivity.
  - repeat split; discriminate.
  - apply Forall_cons; split; [|apply Forall_nil_2].
    split; [repeat split; discriminate|].
    apply Forall_cons; split; [repeat split; discriminate|].
    apply Forall_nil_2.
  - reflexivity.
  - repeat (apply Forall_cons; split; [split; reflexivity|]);
      apply Forall_nil_2.
Defined.

(** ** The block the parser fills *)
Module BlocksFacts.
Import Model Parser Hoare HoareFacts Blocks.

Lemma types_at_app st l r :
  bounded st r -> types_at (st ++ l) r = types_at st r.
Proof.
  destruct r as [r|]; [|reflexivity]. simpl. intros H.
  rewrite lookup_app_l by exact H. reflexivity.
Qed.

Lemma background_at_app st l c :
  bounded st c -> background_at (st ++ l) c = background_at st c.
Proof.
  destruct c as [c|]; [|reflexivity]. simpl. intros H.
  rewrite lookup_app_l by exact H. reflexivity.
Qed.

Lemma bounded_app st l r : bounded st r -> bounded (st ++ l) r.
Proof. destruct r; simpl; [rewrite length_app; lia|auto]. Qed.

Lemma bounded_insert st i o r : bounded st r -> bounded (<[i := o]> st) r.
Proof. destruct r; simpl; [rewrite length_insert; auto|auto]. Qed.

Lemma types_at_insert st i o o' r :
  st !! i = Some o -> types_of o' = types_of o ->
  types_at (<[i := o']> st) r = types_at st r.
Proof.
  intros Hi Ht. destruct r as [r|]; [|reflexivity]. simpl.
  destruct (decide (i = r)) as [<-|Hne].
  - rewrite list_lookup_insert_eq by (eapply lookup_lt_Some, Hi).
    rewrite Hi. exact Ht.
  - rewrite list_lookup_insert_ne by exact Hne. reflexivity.
Qed.

Lemma background_at_insert st i o o' c :
  st !! i = Some o -> get_background o' = get_background o ->
  background_at (<[i := o']> st) c = background_at st c.
Proof.
  intros Hi Hb. destruct c as [c|]; [|reflexivity]. simpl.
  destruct (decide (i = c)) as [<-|Hne].
  - rewrite list_lookup_insert_eq by (eapply lookup_lt_Some, Hi).
    rewrite Hi, Hb. reflexivity.
  - rewrite list_lookup_insert_ne by exact Hne. reflexivity.
Qed.

(** The instance after a new object. *)
Lemma sees_new s l b g ls p o :
  sees s l b g ls p -> sees s l b g ls (set_store (store p ++ [o]) p).
Proof.
  intros ((V1 & V2 & V3) & Hs & Hl & Hb & Hg & Hls).
  unfold sees, valid, block, ground in *. cbn [store set_store self_statement
    self_scenario_container self_state self_last_step_type self_lines].
  rewrite (background_at_app _ _ _ V2), !types_at_app by assumption.
  repeat split; auto using bounded_app.
Qed.

(** The instance after a change of an object that keeps its steps and its
    Background. *)
Lemma sees_insert s l b g ls p i o o' :
  store p !! i = Some o -> types_of o' = types_of o ->
  get_background o' = get_background o ->
  sees s l b g ls p -> sees s l b g ls (set_store (<[i := o']> (store p)) p).
Proof.
  intros Hi Ht Hbg ((V1 & V2 & V3) & Hs & Hl & Hb & Hg & Hls).
  unfold sees, valid, block, ground in *. cbn [store set_store self_statement
    self_scenario_container self_state self_last_step_type self_lines].
  rewrite (background_at_insert _ _ _ _ _ Hi Hbg).
  rewrite !(types_at_insert _ _ _ _ _ Hi Ht).
  repeat split; auto using bounded_insert.
Qed.

(** A change of attributes the invariant does not read. *)
Lemma sees_ext s l b g ls p q :
  store q = store p -> self_statement q = self_statement p ->
  self_scenario_container q = self_scenario_container p ->
  self_state q = self_state p ->
  self_last_step_type q = self_last_step_type p ->
  self_lines q = self_lines p ->
  sees s l b g ls p -> sees s l b g ls q.
Proof.
  intros E1 E2 E3 E4 E5 E6. unfold sees, valid, block, ground.
  rewrite E1, E2, E3, E4, E5, E6. auto.
Qed.

Lemma sees_state s s' l b g ls p :
  sees s l b g ls p -> sees s' l b g ls (set_state s' p).
Proof.
  intros (V & Hs & Hl & Hb & Hg & Hls). repeat split; try assumption; apply V.
Qed.

Lemma sees_last s l l' b g ls p :
  sees s l b g ls p -> sees s l' b g ls (set_last_step_type l' p).
Proof.
  intros (V & Hs & Hl & Hb & Hg & Hls). repeat split; try assumption; apply V.
Qed.

Lemma sees_lines s l b g ls ls' p :
  sees s l b g ls p -> sees s l b g ls' (set_lines ls' p).
Proof.
  intros (V & Hs & Hl & Hb & Hg & Hls). repeat split; try assumption; apply V.
Qed.

Section Sweep.
Variable languages : gmap string Keywords.
Variable strip_colon : bool.

Lemma same_ret {A} (a : A) : same (mret a).
Proof. intros s l b g ls. apply hoare_ret. auto. Qed.

Lemma same_raise {A} e : no_second e -> same (@raise A e).
Proof. intros H s l b g ls. apply hoare_raise, H. Qed.

Lemma same_bind {A B} (m : M A) (k : A -> M B) :
  same m -> (forall a, same (k a)) -> same (m ≫= k).
Proof.
  intros Hm Hk s l b g ls. eapply hoare_bind; [apply Hm|]. intros a. apply Hk.
Qed.

Lemma same_get {B} (k : Parser -> M B) :
  (forall p, same (k p)) -> same (get ≫= k).
Proof.
  intros H s l b g ls p Hp. unfold mbind, M_bind, get. apply (H p s l b g ls p Hp).
Qed.

Lemma same_fmap {A B} (f : A -> B) (m : M A) : same m -> same (f <$> m).
Proof. intros H s l b g ls. apply hoare_fmap, H. Qed.

Lemma same_modify (f : Parser -> Parser) :
  (forall p, store (f p) = store p) ->
  (forall p, self_statement (f p) = self_statement p) ->
  (forall p, self_scenario_container (f p) = self_scenario_container p) ->
  (forall p, self_state (f p) = self_state p) ->
  (forall p, self_last_step_type (f p) = self_last_step_type p) ->
  (forall p, self_lines (f p) = self_lines p) ->
  same (modify f).
Proof.
  intros E1 E2 E3 E4 E5 E6 s l b g ls p Hp. simpl.
  eapply sees_ext; [..|exact Hp]; auto.
Qed.

Lemma same_the {A} attribute (x : option A) : same (the attribute x).
Proof. intros s l b g ls. apply hoare_the; [auto|exact I]. Qed.

Lemma same_new o : same (new o).
Proof. intros s l b g ls p Hp. simpl. apply sees_new, Hp. Qed.

Lemma same_deref r : same (deref r).
Proof.
  intros s l b g ls p Hp. unfold deref.
  destruct (store p !! r); [exact Hp|exact I].
Qed.

Lemma same_update attribute r f : benign f -> same (update attribute r f).
Proof.
  intros Hf s l b g ls p Hp. unfold update, deref. cbv [mbind M_bind].
  destruct (store p !! r) as [o|] eqn:E; [|exact I].
  destruct (f o) as [o'|] eqn:Ef; [|exact I]. simpl.
  destruct (Hf o o' Ef) as [Ht Hb]. eapply sees_insert; eassumption.
Qed.

Lemma same_languages_at language : same (languages_at languages language).
Proof.
  unfold languages_at. destruct (languages !! language);
    [apply same_ret|apply same_raise; exact I].
Qed.

Create HintDb same.
#[local] Hint Resolve same_ret same_the same_new same_deref
  same_languages_at : same.
#[local] Hint Extern 1 (same (modify _)) =>
  apply same_modify; intros; reflexivity : same.
#[local] Hint Extern 1 (same (update _ _ _)) =>
  apply same_update; intros [] ? [= <-]; split; reflexivity : same.

(** The message starts with another character than [S]. *)
Lemma other_head c s t :
  c <> "S"%char -> String c s +:+ t <> second_message.
Proof. intros H E. inversion E. contradiction. Qed.

(** A failure other than the one of a second Background. *)
Ltac other_failure :=
  first
    [ exact I
    | unfold no_second, second_message; discriminate
    | unfold no_second; apply other_head; discriminate ].

(** One step through the body of a method. *)
Ltac same_step :=
  lazymatch goal with
  | |- same (mret _) => apply same_ret
  | |- same (raise _) => apply same_raise; other_failure
  | |- same (mbind _ get) => apply same_get; intros ?
  | |- same (mbind _ _) => apply same_bind; [|intros ?]
  | |- same (fmap _ _) => apply same_fmap
  | |- same (match ?x with _ => _ end) => destruct x eqn:?
  | |- same (if ?x then _ else _) => destruct x eqn:?
  | |- same _ => solve [eauto with same]
  end.

Ltac same_auto := repeat same_step.

Lemma same_keywords_at concept : same (keywords_at concept).
Proof. unfold keywords_at. same_auto. Qed.
#[local] Hint Resolve same_keywords_at : same.

Lemma same_match_keyword keyword line :
  same (match_keyword languages keyword line).
Proof. unfold match_keyword. same_auto. Qed.
#[local] Hint Resolve same_match_keyword : same.

Lemma collect_tags_other n f line words e :
  collect_tags n f line words = Raise e -> no_second e.
Proof.
  induction words as [|word rest IH]; simpl; [discriminate|].
  destruct (PyStr.startswith word "@").
  - destruct (collect_tags n f line rest); [discriminate|].
    intros [= <-]. apply IH. reflexivity.
  - destruct (PyStr.startswith word "#"); [discriminate|].
    intros [= <-]. other_failure.
Qed.

Lemma same_parse_tags line : same (Parser.parse_tags line).
Proof.
  unfold Parser.parse_tags. same_step; [same_auto|].
  same_step. destruct (collect_tags _ _ _ _) eqn:E; [same_auto|].
  apply same_raise. eapply collect_tags_other, E.
Qed.

Lemma same_extend_tags ts : same (extend_tags ts).
Proof. unfold extend_tags. same_auto. Qed.
#[local] Hint Resolve same_parse_tags same_extend_tags : same.

Lemma same_diagnose_feature_usage_error : same diagnose_feature_usage_error.
Proof. unfold diagnose_feature_usage_error. same_auto. Qed.

Lemma same_diagnose_background_usage_error :
  same diagnose_background_usage_error.
Proof. unfold diagnose_background_usage_error. same_auto. Qed.

Lemma same_diagnose_scenario_usage_error :
  same diagnose_scenario_usage_error.
Proof. unfold diagnose_scenario_usage_error. same_auto. Qed.

Lemma same_diagnose_scenario_outline_usage_error :
  same diagnose_scenario_outline_usage_error.
Proof. unfold diagnose_scenario_outline_usage_error. same_auto. Qed.
#[local] Hint Resolve same_diagnose_feature_usage_error
  same_diagnose_background_usage_error same_diagnose_scenario_usage_error
  same_diagnose_scenario_outline_usage_error : same.

Lemma same_ask_parse_failure_oracle line :
  same (ask_parse_failure_oracle languages line).
Proof. unfold ask_parse_failure_oracle. same_auto. Qed.

Lemma same_describe attribute target line :
  same (describe attribute target line).
Proof. unfold describe. same_auto. Qed.

Lemma same__build_examples keyword line :
  same (_build_examples keyword line).
Proof. unfold _build_examples. same_auto. Qed.

Lemma same_statement_steps : same statement_steps.
Proof. unfold statement_steps. same_auto. Qed.

Lemma same_action_table_row line : same (action_table_row line).
Proof. unfold action_table_row. same_auto. Qed.

Lemma same_inherited_steps bg : same (inherited_steps bg).
Proof. unfold inherited_steps. same_auto. Qed.
#[local] Hint Resolve same_ask_parse_failure_oracle same_describe
  same__build_examples same_statement_steps same_action_table_row
  same_inherited_steps : same.

Lemma same__select_last_background_step_type :
  same _select_last_background_step_type.
Proof. unfold _select_last_background_step_type. same_auto. Qed.

(** *** The steps of the statement *)

Lemma set_steps_types l o o' :
  set_steps l o = Some o' ->
  types_of o' = Some (map step_type l)
  /\ get_background o' = get_background o.
Proof. destruct o; simpl; intros [= <-]; split; reflexivity. Qed.

Lemma map_last_types (f : Step -> Step) steps :
  (forall st, step_type (f st) = step_type st) ->
  map step_type (map_last f steps) = map step_type steps.
Proof.
  intros Hf. induction steps as [|st [|st' steps] IH]; [reflexivity|..].
  - simpl. rewrite Hf. reflexivity.
  - change (map_last f (st :: st' :: steps))
      with (st :: map_last f (st' :: steps)).
    cbn [map]. cbn [map] in IH. rewrite IH. reflexivity.
Qed.

Lemma same_update_last_step (f : Step -> Step) :
  (forall st, step_type (f st) = step_type st) -> same (update_last_step f).
Proof.
  intros Hf s l b g ls p Hp. unfold update_last_step, update, deref.
  cbv [mbind M_bind get the mret M_ret raise modify].
  destruct (self_statement p) as [r|]; [|exact I]. cbn.
  destruct (store p !! r) as [o|] eqn:Ho; [|exact I]. cbn.
  destruct (get_steps o) as [steps|] eqn:Hsteps; [|exact I]. cbn.
  destruct steps as [|st steps]; [exact I|]. rewrite Ho.
  destruct (set_steps _ o) as [o'|] eqn:Hset; [|exact I]. cbn.
  destruct (set_steps_types _ _ _ Hset) as [Ht Hb].
  eapply sees_insert; try eassumption.
  rewrite Ht. unfold types_of. rewrite Hsteps. cbn [fmap option_fmap option_map].
  rewrite (map_last_types f _ Hf). reflexivity.
Qed.

Lemma normalize_type st :
  step_type (_normalize_step_name strip_colon st) = step_type st.
Proof.
  unfold _normalize_step_name.
  destruct (strip_colon && PyStr.endswith_char (step_name st) ":");
    reflexivity.
Qed.

(** [append_step]: the block gets the type of the step. *)
Lemma sees_append_step s l b g ls st :
  hoare (sees s l b g ls) (append_step st)
    (fun _ p =>
       exists tys g',
         b = Some tys /\ sees s l (Some (tys ++ [step_type st])) g' ls p)
    no_second.
Proof.
  intros p Hp. unfold append_step, update, deref.
  cbv [mbind M_bind get the mret M_ret raise modify].
  destruct (self_statement p) as [r|] eqn:Hr; [|exact I]. cbn.
  destruct (store p !! r) as [o|] eqn:Ho; [|exact I]. cbn.
  destruct (get_steps o) as [steps|] eqn:Hsteps; [|exact I]. cbn.
  rewrite Ho.
  destruct (set_steps _ o) as [o'|] eqn:Hset; [|exact I]. cbn.
  destruct (set_steps_types _ _ _ Hset) as [Ht Hb].
  destruct Hp as ((V1 & V2 & V3) & Hs & Hl & Hbl & Hg & Hls).
  exists (map step_type steps), (ground (set_store (<[r := o']> (store p)) p)).
  split.
  { rewrite <- Hbl. unfold block. rewrite Hr. simpl. rewrite Ho.
    unfold types_of. rewrite Hsteps. reflexivity. }
  unfold sees, valid, block, ground in *.
  cbn [store set_store self_statement self_scenario_container self_state
       self_last_step_type self_lines].
  rewrite (background_at_insert _ _ _ _ _ Ho Hb).
  repeat split; auto using bounded_insert.
  rewrite Hr. simpl.
  rewrite list_lookup_insert_eq by (eapply lookup_lt_Some, Ho).
  rewrite Ht, map_app. reflexivity.
Qed.

(** *** The step of a line *)

Lemma step_requires_other ty :
  PyStr.upper ty +:+ "-STEP REQUIRES: An previous Given/When/Then step."
  <> second_message.
Proof.
  intros E. apply (f_equal String.length) in E.
  rewrite length_indent in E. cbn [String.length second_message] in E. lia.
Qed.

Lemma sees_make_step s l b g ls ty kw line :
  hoare (sees s l b g ls) (make_step ty kw line)
    (fun st => sees s (Some (step_type st)) b g ls) no_second.
Proof.
  unfold make_step. apply hoare_get. intros p0 Hp0.
  apply hoare_bind with (Q := fun t p => sees s (Some t) b g ls p).
  2: { intros t. apply hoare_ret. auto. }
  assert (forall last, known (self_last_step_type p0) = Some last ->
            hoare (λ p, p = p0) (mret last)
              (fun t p => sees s (Some t) b g ls p) no_second) as Hknown.
  { intros last E. apply hoare_ret. intros p ->.
    apply TablesFacts.known_Some in E.
    destruct Hp0 as (V & Hs & Hl & H). rewrite E in Hl. subst l.
    repeat split; try apply V; try apply H; assumption. }
  destruct (if PyStr.startswith kw "*" then known (self_last_step_type p0)
            else None) as [last|] eqn:Estar.
  { destruct (PyStr.startswith kw "*"); [|discriminate].
    apply Hknown, Estar. }
  destruct (String.eqb ty "and" || String.eqb ty "but").
  - destruct (known (self_last_step_type p0)) as [last|] eqn:Elast;
      [apply Hknown; reflexivity|].
    eapply hoare_bind with (Q := fun _ p => sees s l b g ls p).
    { eapply hoare_weaken;
        [apply (same__select_last_background_step_type s l b g ls)
        |intros p ->; exact Hp0|auto]. }
    intros last.
    eapply hoare_bind with (Q := fun _ p => sees s last b g ls p).
    { apply hoare_modify. intros p Hp. eapply sees_last, Hp. }
    intros _. destruct (known last) as [t|] eqn:Et.
    + apply TablesFacts.known_Some in Et. subst last. apply hoare_ret. auto.
    + apply hoare_raise. apply step_requires_other.
  - eapply hoare_bind with (Q := fun _ p => sees s (Some ty) b g ls p).
    { apply hoare_modify. intros p ->. eapply sees_last, Hp0. }
    intros _. apply hoare_ret. auto.
Qed.

Lemma sees_parse_step_aliases s l b g ls ty line kws :
  hoare (sees s l b g ls) (parse_step_aliases ty line kws)
    (stepped s l b g ls) no_second.
Proof.
  induction kws as [|kw kws IH]; simpl.
  - apply hoare_ret. auto.
  - destruct (line_starts_with_keyword line kw); [|exact IH].
    apply hoare_fmap. apply sees_make_step.
Qed.

Lemma sees_parse_step_types s l b g ls line types :
  hoare (sees s l b g ls) (parse_step_types line types)
    (stepped s l b g ls) no_second.
Proof.
  induction types as [|ty types IH]; simpl.
  - apply hoare_ret. auto.
  - eapply hoare_bind; [apply same_keywords_at|]. intros kws.
    eapply hoare_bind; [apply sees_parse_step_aliases|].
    intros [st|]; [apply hoare_ret; auto|exact IH].
Qed.

Lemma sees_parse_step s l b g ls line :
  hoare (sees s l b g ls) (parse_step line) (stepped s l b g ls) no_second.
Proof. apply sees_parse_step_types. Qed.

(** *** The statements that are built *)

(** The attributes of an instance that is written as a chain of changes. *)
Ltac fields :=
  cbn [self_id self_language self_variant self_keywords self_state self_line
       self_last_step_type self_multiline_start self_multiline_leading
       self_multiline_terminator self_filename self_scenario_container
       self_feature self_rule self_parent self_statement self_tags
       self_lines self_table self_examples store
       set_language set_keywords set_state set_line set_last_step_type
       set_multiline_start set_multiline_leading set_multiline_terminator
       set_filename set_scenario_container set_feature set_rule
       set_statement set_tags set_lines set_table set_examples set_store]
    in *.

Lemma lookup_new (st : list obj) o : (st ++ [o]) !! length st = Some o.
Proof. rewrite lookup_app_r by reflexivity. rewrite Nat.sub_diag. reflexivity. Qed.

Lemma sees__build_feature s l b g ls keyword line :
  hoare (sees s l b g ls) (_build_feature keyword line)
    (fun _ => sees s l b None ls) no_second.
Proof.
  intros p ((V1 & V2 & V3) & Hs & Hl & Hb & Hg & Hls).
  unfold _build_feature. cbv [mbind M_bind get new modify].
  unfold sees, valid, block, ground in *. fields.
  rewrite (types_at_app _ _ _ V1).
  cbn [background_at types_at bounded]. rewrite lookup_new.
  cbn [get_background feature_background bounded types_at].
  rewrite length_app. cbn [length].
  repeat split; auto using bounded_app. lia.
Qed.

(** A new statement with the steps [tys]. *)
Lemma sees_new_statement s l b g ls o tys p :
  types_of o = Some tys -> sees s l b g ls p ->
  sees s l (Some tys) g ls
    (set_statement (Some (length (store p)))
       (set_store (store p ++ [o]) p)).
Proof.
  intros Ho ((V1 & V2 & V3) & Hs & Hl & Hb & Hg & Hls).
  unfold sees, valid, block, ground in *. fields.
  rewrite (background_at_app _ _ _ V2), (types_at_app _ _ _ V3).
  cbn [types_at bounded]. rewrite lookup_new, length_app. cbn [length].
  repeat split; auto using bounded_app. lia.
Qed.

Lemma sees__build_scenario_statement s l b g ls keyword line :
  hoare (sees s l b g ls) (_build_scenario_statement keyword line)
    (fun _ => sees s l (Some []) g ls) no_second.
Proof.
  intros p Hp. unfold _build_scenario_statement.
  unfold mbind at 1, M_bind at 1, get. unfold mbind at 1, M_bind at 1, new.
  unfold mbind at 1, M_bind at 1, modify.
  set (p1 := set_statement _ _).
  assert (sees s l (Some []) g ls p1) as H1
    by (eapply sees_new_statement; [reflexivity|exact Hp]).
  revert H1. generalize p1. clear p1.
  change (hoare (sees s l (Some []) g ls)
            ((match self_scenario_container p with
              | Some container =>
                  update "add_scenario" container
                    (add_scenario (length (store p)))
              | None => mret tt
              end);; modify (set_tags []))
            (fun _ => sees s l (Some []) g ls) no_second).
  assert (same ((match self_scenario_container p with
              | Some container =>
                  update "add_scenario" container
                    (add_scenario (length (store p)))
              | None => mret tt
              end);; modify (set_tags []))) as H by same_auto.
  apply H.
Qed.

Lemma sees__build_scenario_outline_statement s l b g ls keyword line :
  hoare (sees s l b g ls) (_build_scenario_outline_statement keyword line)
    (fun _ => sees s l (Some []) g ls) no_second.
Proof.
  intros p Hp. unfold _build_scenario_outline_statement.
  unfold mbind at 1, M_bind at 1, get. unfold mbind at 1, M_bind at 1, new.
  unfold mbind at 1, M_bind at 1, modify.
  set (p1 := set_statement _ _).
  assert (sees s l (Some []) g ls p1) as H1
    by (eapply sees_new_statement; [reflexivity|exact Hp]).
  revert H1. generalize p1. clear p1.
  change (hoare (sees s l (Some []) g ls)
            (container ← the "add_scenario" (self_scenario_container p);
             update "add_scenario" container
               (add_scenario (length (store p)));;
             modify (set_tags []))
            (fun _ => sees s l (Some []) g ls) no_second).
  assert (same (container ← the "add_scenario" (self_scenario_container p);
             update "add_scenario" container
               (add_scenario (length (store p)));;
             modify (set_tags []))) as H by same_auto.
  apply H.
Qed.

(** A benign change that leaves alone what [F] reads. *)
Lemma update_keeps s l b g ls (F : Parser -> Prop) attribute r f :
  benign f -> (forall p st, F p -> F (set_store st p)) ->
  hoare (fun p => sees s l b g ls p /\ F p) (update attribute r f)
    (fun _ p => sees s l b g ls p /\ F p) no_second.
Proof.
  intros Hf HF p [Hp HFp]. pose proof (same_update attribute r f Hf s l b g ls p Hp)
    as H. unfold update, deref in *. cbv [mbind M_bind] in *.
  destruct (store p !! r) as [o|]; [|exact I].
  destruct (f o) as [o'|]; [|exact I]. simpl in *. split; [exact H|].
  apply HF, HFp.
Qed.

Ltac benign_change := intros [] ? [= <-]; split; reflexivity.

(** [add_rule]: the rule, which is the container, gets no Background or
    one without steps. *)
Lemma sees_add_rule s l ls feature rule :
  hoare (fun p => sees s l None None ls p
                  /\ (self_scenario_container p = Some rule
                      /\ self_statement p = Some rule))
    (add_rule feature rule)
    (fun _ p => exists g', bare g' /\ sees s l None g' ls p) no_second.
Proof.
  unfold add_rule.
  eapply hoare_bind.
  { apply update_keeps; [benign_change|]. intros p st H. exact H. }
  intros []. eapply hoare_bind.
  { apply update_keeps; [benign_change|]. intros p st H. exact H. }
  intros []. eapply hoare_bind with
    (Q := fun _ p => sees s l None None ls p
                     /\ (self_scenario_container p = Some rule
                         /\ self_statement p = Some rule)).
  { intros p Hp. unfold deref. destruct (store p !! feature); [exact Hp|exact I]. }
  intros f.
  assert (hoare (fun p => sees s l None None ls p
                  /\ (self_scenario_container p = Some rule
                      /\ self_statement p = Some rule))
            (mret tt)
            (fun _ p => exists g', bare g' /\ sees s l None g' ls p)
            no_second) as Hret.
  { apply hoare_ret. intros p [Hp _]. exists None. split; [left; reflexivity|exact Hp]. }
  destruct (get_background f) as [[bf|]|]; [|exact Hret..].
  intros p (((V1 & V2 & V3) & Hs & Hl & Hb & Hg & Hls) & Hc & Hst).
  unfold update, deref. cbv [mbind M_bind get new modify]. fields.
  rewrite Hc in V2. cbn [bounded] in V2.
  rewrite lookup_app_l by exact V2.
  destruct (store p !! rule) as [o|] eqn:Ho; [|exact I].
  destruct (set_background _ o) as [o'|] eqn:Hset; [|exact I]. simpl.
  exists (Some []). split; [right; reflexivity|].
  assert (get_background o' = Some (Some (length (store p)))
          /\ types_of o' = None) as [Hbg Hty]
    by (destruct o; simpl in Hset; inversion Hset; split; reflexivity).
  unfold sees, valid, block, ground. fields. rewrite Hc, Hst.
  cbn [background_at types_at bounded].
  rewrite list_lookup_insert_eq by (rewrite length_app; lia).
  rewrite Hbg, Hty. cbn [bounded types_at].
  rewrite list_lookup_insert_ne by lia. rewrite lookup_new.
  rewrite length_insert, length_app. cbn [length].
  repeat split; try assumption; try lia.
Qed.

Lemma sees__build_rule_statement s l b g ls keyword line :
  hoare (sees s l b g ls) (_build_rule_statement keyword line)
    (fun _ p => exists g', bare g' /\ sees s l None g' ls p) no_second.
Proof.
  intros p Hp. unfold _build_rule_statement.
  unfold mbind at 1, M_bind at 1, get. unfold mbind at 1, M_bind at 1, new.
  do 3 (unfold mbind at 1, M_bind at 1, modify).
  set (p1 := set_statement _ _).
  assert (sees s l None None ls p1
          /\ (self_scenario_container p1 = Some (length (store p))
              /\ self_statement p1 = Some (length (store p)))) as H1.
  { split; [|split; reflexivity].
    destruct Hp as ((V1 & V2 & V3) & Hs & Hl & Hb & Hg & Hls).
    subst p1. unfold sees, valid, block, ground. fields.
    cbn [background_at types_at bounded]. rewrite lookup_new.
    cbn [get_background rule_background bounded types_at types_of get_steps
         fmap option_fmap option_map].
    rewrite length_app. cbn [length]. repeat split; try assumption; lia. }
  revert H1. generalize p1. clear p1.
  change (hoare (fun p1 => sees s l None None ls p1
                  /\ (self_scenario_container p1 = Some (length (store p))
                      /\ self_statement p1 = Some (length (store p))))
            ((match self_feature p with
              | Some feature => add_rule feature (length (store p))
              | None => mret tt
              end);; modify (set_tags []))
            (fun _ p => exists g', bare g' /\ sees s l None g' ls p)
            no_second).
  eapply hoare_bind with
    (Q := fun _ p => exists g', bare g' /\ sees s l None g' ls p).
  - destruct (self_feature p) as [feature|]; [apply sees_add_rule|].
    apply hoare_ret. intros q [Hq _]. exists None.
    split; [left; reflexivity|exact Hq].
  - intros _. apply hoare_modify. intros q (g' & Hg' & Hq). exists g'.
    split; [exact Hg'|]. eapply sees_ext; [..|exact Hq]; reflexivity.
Qed.

(** The Background that is built becomes the statement and the
    Background of the container. *)
Lemma sees_new_background s l b g ls header c :
  hoare (fun p => sees s l b g ls p /\ self_scenario_container p = c)
    (background ← new (OBackground
       {| background_header := header; background_description := [];
          background_steps := []; background_parent := None |});
     container ← the "add_background" c;
     add_background container background;;
     modify (set_statement (Some background)))
    (fun _ p => exists g', sees s l (Some []) g' ls p) no_second.
Proof.
  intros p (((V1 & V2 & V3) & Hs & Hl & Hb & Hg & Hls) & Hc).
  cbv [mbind M_bind new the mret M_ret raise].
  destruct c as [c|]; [|exact I].
  rewrite Hc in V2. cbn [bounded] in V2.
  unfold add_background, update, deref. cbv [mbind M_bind modify]. fields.
  rewrite lookup_new. cbn [set_background_parent]. fields.
  rewrite list_lookup_insert_ne by lia. rewrite lookup_app_l by exact V2.
  destruct (store p !! c) as [o|] eqn:Ho; [|exact I].
  destruct (set_background _ o) as [o'|] eqn:Hset; [|exact I]. simpl.
  exists (Some []).
  assert (get_background o' = Some (Some (length (store p)))) as Hbg
    by (destruct o; simpl in Hset; inversion Hset; reflexivity).
  unfold sees, valid, block, ground. fields. rewrite Hc.
  cbn [background_at types_at bounded].
  rewrite list_lookup_insert_eq
    by (rewrite length_insert, length_app; lia).
  rewrite Hbg. cbn [bounded types_at].
  rewrite list_lookup_insert_ne by lia.
  rewrite list_lookup_insert_eq by (rewrite length_app; cbn [length]; lia).
  rewrite !length_insert, length_app. cbn [length].
  repeat split; try assumption; try lia.
Qed.

(** The check for a second Background finds none with steps. *)
Lemma second_background_passes s l b g ls line p :
  bare g -> sees s l b g ls p ->
  match
    (match self_scenario_container p with
     | Some container =>
         c ← deref container;
         b ← the "background" (get_background c);
         match b with
         | Some b =>
             ob ← deref b;
             steps ← the "steps" (get_steps ob);
             match steps with
             | _ :: _ =>
                 raise (ParserError "Second Background (can have only one)"
                          (self_line p) (self_filename p) (Some line) None)
             | [] => mret tt
             end
         | None => mret tt
         end
     | None => mret tt
     end) p
  with
  | Ok (_, p') => p' = p
  | Raise e => no_second e
  end.
Proof.
  intros Hbare (_ & _ & _ & _ & Hg & _). unfold ground in Hg.
  destruct (self_scenario_container p) as [c|]; [|reflexivity].
  unfold deref. cbv [mbind M_bind the mret M_ret raise].
  cbn [background_at] in Hg.
  destruct (store p !! c) as [o|]; [|exact I].
  destruct (get_background o) as [[bg|]|]; [|reflexivity|exact I].
  cbn [types_at] in Hg.
  destruct (store p !! bg) as [ob|]; [|exact I].
  unfold types_of in Hg.
  destruct (get_steps ob) as [[|st steps]|]; [reflexivity| |exact I].
  exfalso. destruct Hbare as [-> | ->]; discriminate.
Qed.

Lemma sees__build_background_statement s l b g ls keyword line :
  bare g ->
  hoare (sees s l b g ls) (_build_background_statement keyword line)
    (fun _ p => exists g', sees s l (Some []) g' ls p) no_second.
Proof.
  intros Hbare p Hp. unfold _build_background_statement.
  unfold mbind at 1, M_bind at 1, get.
  unfold mbind at 1, M_bind at 1.
  destruct (self_tags p); [|other_failure].
  unfold mret at 1, M_ret at 1. cbv beta iota.
  unfold mbind at 1, M_bind at 1.
  pose proof (second_background_passes s l b g ls line p Hbare Hp) as H.
  match type of H with
  | match ?m with _ => _ end => destruct m as [[[] q]|e]; [subst q|exact H]
  end.
  apply (sees_new_background s l b g ls (header_here p keyword line)
           (self_scenario_container p) p).
  split; [exact Hp|reflexivity].
Qed.

(** *** The handlers of the states *)

Lemma sees_in_order s l b g ls p :
  sees s l b g ls p -> steady s l b g ls -> in_order p.
Proof.
  intros (V & Hs & Hl & Hb & Hg & Hls) H. subst s l b g ls.
  split; [exact V|exact H].
Qed.

Lemma in_order_settled a p : in_order p -> settled a p.
Proof. intros H. destruct a; [exact H|apply H]. Qed.

Lemma in_order_sees p :
  in_order p ->
  sees (self_state p) (self_last_step_type p) (block p) (ground p)
    (self_lines p) p
  /\ steady (self_state p) (self_last_step_type p) (block p) (ground p)
       (self_lines p).
Proof.
  intros [V H]. split; [|exact H]. split; [exact V|]. repeat split.
Qed.

(** A statement is built, the state is set and the line is settled. *)
Lemma built {P : Parser -> Prop} (m : M unit) (Q : Parser -> Prop) S
    (R : bool -> Parser -> Prop) :
  hoare P m (fun _ => Q) no_second ->
  (forall p, Q p -> R true (set_state S p)) ->
  hoare P (m;; modify (set_state S);; mret true) R no_second.
Proof.
  intros Hm HQ. eapply hoare_bind; [exact Hm|]. intros [].
  eapply hoare_bind with (Q := fun _ p => R true p).
  - apply hoare_modify. exact HQ.
  - intros []. apply hoare_ret. auto.
Qed.

Lemma follows_none l : follows l None.
Proof. intros tys. discriminate. Qed.

Lemma follows_bare b : bare b -> follows None b.
Proof. intros [-> | ->] tys; [discriminate|]. intros [= <-]. reflexivity. Qed.

Lemma follows_snoc tys ty : follows (Some ty) (Some (tys ++ [ty])).
Proof. intros ? [= <-]. rewrite last_snoc. reflexivity. Qed.

Lemma sees_subaction s l b g ls line :
  follows l b -> ls = [] ->
  hoare (sees s l b g ls)
    (subaction_detect_taggable_statement languages line)
    (fun d p => if d : bool then in_order p else sees s l b g ls p) no_second.
Proof.
  intros He ->. unfold subaction_detect_taggable_statement.
  destruct (PyStr.startswith line "@").
  { eapply hoare_bind; [apply same_parse_tags|]. intros ts.
    apply built with (Q := sees s l b g []); [apply same_extend_tags|].
    intros p Hp. eapply sees_in_order; [eapply sees_state, Hp|].
    split; [exact He|reflexivity]. }
  eapply hoare_bind; [apply same_match_keyword|]. intros k1.
  destruct (known k1) as [kw|].
  { eapply built; [apply sees__build_rule_statement|].
    intros p (g' & Hg' & Hp). eapply sees_in_order; [eapply sees_state, Hp|].
    repeat split; auto. }
  eapply hoare_bind; [apply same_match_keyword|]. intros k2.
  destruct (known k2) as [kw|].
  { eapply built; [apply sees__build_scenario_statement|].
    intros p Hp. eapply sees_in_order; [eapply sees_state, Hp|].
    split; [right; reflexivity|reflexivity]. }
  eapply hoare_bind; [apply same_match_keyword|]. intros k3.
  destruct (known k3) as [kw|].
  { eapply built; [apply sees__build_scenario_outline_statement|].
    intros p Hp. eapply sees_in_order; [eapply sees_state, Hp|].
    split; [right; reflexivity|reflexivity]. }
  eapply hoare_bind; [apply same_match_keyword|]. intros k4.
  destruct (known k4) as [kw|].
  { apply built with (Q := sees s l b g []); [apply same__build_examples|].
    intros p Hp. eapply sees_in_order; [eapply sees_state, Hp|].
    split; [exact He|reflexivity]. }
  apply hoare_ret. auto.
Qed.

Lemma sees_action_initial l b g ls line :
  steady INITIAL l b g ls ->
  hoare (sees INITIAL l b g ls) (action_initial languages line) settled
    no_second.
Proof.
  intros (-> & Hg & ->). unfold action_initial.
  destruct (PyStr.startswith (PyStr.strip line) "@").
  { eapply hoare_bind; [apply same_parse_tags|]. intros ts.
    eapply hoare_bind; [apply same_extend_tags|]. intros [].
    apply hoare_ret. intros p Hp. eapply sees_in_order; [exact Hp|].
    repeat split; auto. }
  eapply hoare_bind; [apply same_match_keyword|]. intros k.
  destruct (known k) as [kw|]; [|apply hoare_ret; intros p Hp; exact (proj1 Hp)].
  eapply built; [apply sees__build_feature|].
  intros p Hp. eapply sees_in_order; [eapply sees_state, Hp|].
  repeat split. left. reflexivity.
Qed.

(** The lines the states Feature and Rule take: a statement, a
    Background or a line of the description. *)
Lemma sees_background_or_description s l b g ls line target :
  (s = FEATURE \/ s = RULE) -> steady s l b g ls ->
  hoare (sees s l b g ls)
    (detected ← subaction_detect_taggable_statement languages line;
     if detected : bool then mret true
     else
       background_keyword ← match_keyword languages "background" line;
       match known background_keyword with
       | Some background_keyword =>
           _build_background_statement background_keyword line;;
           modify (set_state BACKGROUND);;
           mret true
       | None =>
           p ← get;
           describe "description" (target p) line;;
           mret true
       end)
    settled no_second.
Proof.
  intros Hs Hst.
  assert (b = None /\ bare g /\ ls = []) as (-> & Hg & ->)
    by (destruct Hs as [-> | ->]; exact Hst).
  eapply hoare_bind;
    [apply sees_subaction; [apply follows_none|reflexivity]|].
  intros [|]; [apply hoare_ret; intros p Hp; exact Hp|].
  eapply hoare_bind; [apply same_match_keyword|]. intros k.
  destruct (known k) as [kw|].
  { eapply built; [apply sees__build_background_statement, Hg|].
    intros p (g' & Hp). eapply sees_in_order; [eapply sees_state, Hp|].
    split; [right; reflexivity|reflexivity]. }
  apply hoare_get. intros p0 Hp0.
  eapply hoare_bind with (Q := fun _ p => sees s l None g [] p).
  { eapply hoare_weaken; [apply (same_describe _ _ _ s l None g [])| |auto].
    intros p ->. exact Hp0. }
  intros []. apply hoare_ret. intros p Hp. eapply sees_in_order; [exact Hp|].
  destruct Hs as [-> | ->]; repeat split; auto.
Qed.

Lemma sees_action_feature l b g ls line :
  steady FEATURE l b g ls ->
  hoare (sees FEATURE l b g ls) (action_feature languages line) settled
    no_second.
Proof.
  intros H. unfold action_feature.
  apply (sees_background_or_description FEATURE l b g ls (PyStr.strip line)
           self_feature); [left; reflexivity|exact H].
Qed.

Lemma sees_action_rule l b g ls line :
  steady RULE l b g ls ->
  hoare (sees RULE l b g ls) (action_rule languages line) settled no_second.
Proof.
  intros H. unfold action_rule.
  apply (sees_background_or_description RULE l b g ls (PyStr.strip line)
           self_rule); [right; reflexivity|exact H].
Qed.

Lemma sees_action_taggable_statement l b g ls line :
  steady TAGGABLE_STATEMENT l b g ls ->
  hoare (sees TAGGABLE_STATEMENT l b g ls)
    (action_taggable_statement languages line) settled no_second.
Proof.
  intros [He Hls]. unfold action_taggable_statement.
  eapply hoare_bind; [apply sees_subaction; assumption|].
  intros [|]; apply hoare_ret; [intros p Hp; exact Hp|].
  intros p Hp. exact (proj1 Hp).
Qed.

Lemma sees_action_scenario s l b g ls line :
  (s = SCENARIO \/ s = BACKGROUND) -> steady s l b g ls ->
  hoare (sees s l b g ls) (action_scenario languages line) settled no_second.
Proof.
  intros Hs Hst.
  assert (bare b /\ ls = []) as (Hb & ->)
    by (destruct Hs as [-> | ->]; exact Hst).
  unfold action_scenario.
  eapply hoare_bind with (Q := fun _ p => sees s None b g [] p).
  { apply hoare_modify. intros p Hp. eapply sees_last, Hp. }
  intros []. eapply hoare_bind; [apply sees_parse_step|].
  intros [st|]; unfold stepped.
  - eapply hoare_bind with
      (Q := fun _ p => sees STEPS (Some (step_type st)) b g [] p).
    { apply hoare_modify. intros p Hp. eapply sees_state, Hp. }
    intros []. eapply hoare_bind; [apply sees_append_step|].
    intros []. apply hoare_ret. intros p (tys & g' & -> & Hp).
    eapply sees_in_order; [exact Hp|].
    split; [|reflexivity]. destruct Hb as [Hb|Hb]; [discriminate|].
    injection Hb as ->. apply (follows_snoc []).
  - eapply hoare_bind;
      [apply sees_subaction; [apply follows_bare, Hb|reflexivity]|].
    intros [|]; [apply hoare_ret; intros p Hp; exact Hp|].
    apply hoare_get. intros p0 Hp0.
    eapply hoare_bind with (Q := fun _ p => sees s None b g [] p).
    { eapply hoare_weaken; [apply (same_describe _ _ _ s None b g [])| |auto].
      intros p ->. exact Hp0. }
    intros []. apply hoare_ret. intros p Hp. eapply sees_in_order; [exact Hp|].
    destruct Hs as [-> | ->]; split; auto.
Qed.

Lemma sees_action_steps l b g ls line :
  steady STEPS l b g ls ->
  hoare (sees STEPS l b g ls) (action_steps languages line) settled
    no_second.
Proof.
  intros [He ->]. unfold action_steps.
  destruct (is_fence (PyStr.lstrip line)).
  { eapply hoare_bind; [apply same_statement_steps|]. intros steps.
    apply hoare_get. intros p0 Hp0.
    destruct steps as [|st steps]; [apply hoare_raise; other_failure|].
    eapply hoare_bind with (Q := fun _ p => sees MULTILINE_TEXT l b g [] p).
    { apply hoare_modify. intros p ->. eapply sees_state, Hp0. }
    intros [].
    eapply hoare_bind;
      [apply (same_modify (set_multiline_start (Some (self_line p0))));
       reflexivity|].
    intros [].
    eapply hoare_bind;
      [apply (same_modify
                (set_multiline_terminator
                   (Some (PyStr.take 3 (PyStr.lstrip line)))));
       reflexivity|].
    intros [].
    eapply hoare_bind with (Q := fun _ p => sees MULTILINE_TEXT l b g [] p).
    { destruct (PyStr.lstrip line) as [|c rest];
        [apply hoare_raise; exact I|].
      destruct (PyStr.index line c);
        [apply hoare_ret; auto|apply hoare_raise; exact I]. }
    intros leading.
    eapply hoare_bind;
      [apply (same_modify (set_multiline_leading (Some leading)));
       reflexivity|].
    intros []. apply hoare_ret. intros p Hp.
    eapply sees_in_order; [exact Hp|exact He]. }
  eapply hoare_bind; [apply sees_parse_step|].
  intros [st|]; unfold stepped.
  - eapply hoare_bind; [apply sees_append_step|].
    intros []. apply hoare_ret. intros p (tys & g' & -> & Hp).
    eapply sees_in_order; [exact Hp|].
    split; [apply follows_snoc|reflexivity].
  - eapply hoare_bind; [apply sees_subaction; [exact He|reflexivity]|].
    intros [|]; [apply hoare_ret; intros p Hp; exact Hp|].
    destruct (PyStr.startswith (PyStr.strip line) "|");
      [|apply hoare_ret; intros p Hp; exact (proj1 Hp)].
    eapply hoare_bind; [apply same_statement_steps|]. intros steps.
    apply hoare_get. intros p0 Hp0.
    destruct steps as [|st steps]; [apply hoare_raise; other_failure|].
    eapply hoare_bind with (Q := fun _ p => sees TABLE l b g [] p).
    { apply hoare_modify. intros p ->. eapply sees_state, Hp0. }
    intros [].
    eapply hoare_weaken; [apply same_action_table_row|intros ? H; exact H|].
    intros a p Hp. apply in_order_settled. eapply sees_in_order; [exact Hp|].
    split; [exact He|reflexivity].
Qed.

Lemma sees_action_multiline_text l b g ls line :
  steady MULTILINE_TEXT l b g ls ->
  hoare (sees MULTILINE_TEXT l b g ls)
    (action_multiline_text strip_colon line) settled no_second.
Proof.
  intros He. unfold action_multiline_text.
  apply hoare_get. intros p0 Hp0.
  eapply hoare_bind with
    (Q := fun _ p => sees MULTILINE_TEXT l b g ls p).
  { destruct (self_multiline_terminator p0);
      [apply hoare_ret; intros p ->; exact Hp0|apply hoare_raise; exact I]. }
  intros terminator.
  destruct (PyStr.startswith (PyStr.strip line) terminator).
  - eapply hoare_bind.
    { apply same_update_last_step. intros st. rewrite normalize_type.
      reflexivity. }
    intros [].
    eapply hoare_bind with (Q := fun _ p => sees MULTILINE_TEXT l b g [] p).
    { apply hoare_modify. intros p Hp. eapply sees_lines, Hp. }
    intros [].
    eapply hoare_bind;
      [apply (same_modify (set_multiline_terminator None)); reflexivity|].
    intros [].
    eapply hoare_bind with (Q := fun _ p => sees STEPS l b g [] p).
    { apply hoare_modify. intros p Hp. eapply sees_state, Hp. }
    intros []. apply hoare_ret. intros p Hp.
    eapply sees_in_order; [exact Hp|]. split; [exact He|reflexivity].
  - eapply hoare_bind with
      (Q := fun _ p => exists ls', sees MULTILINE_TEXT l b g ls' p).
    { apply hoare_modify. intros p Hp. eexists.
      destruct Hp as (V & Hs & Hl & Hb & Hg & Hls).
      repeat split; try apply V; try assumption. }
    intros [].
    destruct (PyStr.truthy _);
      [apply hoare_raise; unfold no_second; apply other_head; discriminate|].
    apply hoare_ret. intros p [ls' Hp].
    eapply sees_in_order; [exact Hp|exact He].
Qed.

Lemma sees_action_table l b g ls line :
  steady TABLE l b g ls ->
  hoare (sees TABLE l b g ls) (action_table languages strip_colon line)
    settled no_second.
Proof.
  intros [He ->]. unfold action_table.
  destruct (negb (PyStr.startswith (PyStr.strip line) "|")).
  - apply hoare_get. intros p0 Hp0.
    eapply hoare_bind with (Q := fun _ p => sees TABLE l b g [] p).
    { eapply hoare_weaken with (P' := sees TABLE l b g [])
        (Q' := fun _ => sees TABLE l b g []);
        [|intros p ->; exact Hp0|intros ? ? H; exact H].
      destruct (self_examples p0) as [examples|].
      - assert (same (update "table" examples
                        (set_examples_table (self_table p0));;
                      modify (set_examples None))) as H by same_auto.
        apply H.
      - apply same_update_last_step. intros st. rewrite normalize_type.
        reflexivity. }
    intros [].
    eapply hoare_bind;
      [apply (same_modify (set_table None)); reflexivity|].
    intros [].
    eapply hoare_bind with (Q := fun _ p => sees STEPS l b g [] p).
    { apply hoare_modify. intros p Hp. eapply sees_state, Hp. }
    intros []. apply sees_action_steps. split; [exact He|reflexivity].
  - eapply hoare_weaken; [apply same_action_table_row|intros ? H; exact H|].
    intros a p Hp. apply in_order_settled. eapply sees_in_order; [exact Hp|].
    split; [exact He|reflexivity].
Qed.

(** [Parser.action] keeps the order. *)
Lemma in_order_action line :
  hoare in_order (action languages strip_colon line) (fun _ => in_order)
    no_second.
Proof.
  intros p Hp. destruct (in_order_sees p Hp) as [Hsees Hsteady].
  revert Hsees Hsteady.
  generalize (self_last_step_type p) (block p) (ground p) (self_lines p).
  intros l b g ls Hsees Hsteady.
  unfold action. unfold mbind at 1, M_bind at 1, get.
  destruct (_ && _).
  { destruct (_ || _); [exact Hp|].
    destruct (language_comment _) as [language|]; [|exact Hp].
    assert (same (modify (set_language (Some language));;
                  k ← languages_at languages language;
                  modify (set_keywords (Some k)))) as H by same_auto.
    specialize (H _ _ _ _ _ p Hsees).
    match type of H with
    | match ?m with _ => _ end => destruct m as [[[] q]|e]; [|exact H]
    end.
    eapply sees_in_order; [exact H|exact Hsteady]. }
  assert (forall (handler : string -> M bool),
    hoare (sees (self_state p) l b g ls) (handler line) settled no_second ->
    match
      (accepted ← handler line;
       if accepted : bool then mret tt
       else
         let line := PyStr.strip line in
         p ← get;
         let msg := String PyStr.LF "Parser failure in state=" +:+
                    state_name (self_state p) in
         reason ← ask_parse_failure_oracle languages line;
         raise (ParserError msg (self_line p) (self_filename p) (Some line)
                  reason)) p
    with
    | Ok (_, p') => in_order p'
    | Raise e => no_second e
    end) as Hrun.
  { intros handler H. specialize (H p Hsees).
    unfold mbind at 1, M_bind at 1.
    destruct (handler line p) as [[[|] q]|e]; [exact H| |exact H].
    cbv zeta. unfold mbind at 1, M_bind at 1, get.
    unfold mbind at 1, M_bind at 1.
    pose proof (same_ask_parse_failure_oracle (PyStr.strip line)
                  (self_state q) (self_last_step_type q) (block q)
                  (ground q) (self_lines q) q) as Ho.
    destruct (ask_parse_failure_oracle _ _ q) as [[reason q']|e].
    - unfold raise, no_second. intros E'. inversion E'.
    - apply Ho. split; [exact H|]. repeat split. }
  destruct (self_state p) eqn:Hs; cbn [action_of].
  - apply Hrun, sees_action_initial, Hsteady.
  - apply Hrun, sees_action_feature, Hsteady.
  - apply Hrun, sees_action_rule, Hsteady.
  - apply Hrun. unfold action_background.
    apply sees_action_scenario; [right; reflexivity|exact Hsteady].
  - apply Hrun. apply sees_action_scenario; [left; reflexivity|exact Hsteady].
  - apply Hrun, sees_action_taggable_statement, Hsteady.
  - apply Hrun, sees_action_steps, Hsteady.
  - destruct Hsteady.
  - apply Hrun, sees_action_multiline_text, Hsteady.
  - apply Hrun, sees_action_table, Hsteady.
Qed.

(** [feed] keeps the order. *)
Lemma in_order_feed text_lines :
  hoare in_order (feed languages strip_colon text_lines) (fun _ => in_order)
    no_second.
Proof.
  induction text_lines as [|line rest IH]; intros p Hp; [exact Hp|].
  cbn [feed]. cbv [mbind M_bind modify get mret M_ret].
  set (p1 := set_line (self_line p + 1) p).
  assert (in_order p1) as Hp1 by exact Hp.
  destruct (_ && _); [apply IH, Hp1|].
  pose proof (in_order_action line p1 Hp1) as H.
  destruct (action languages strip_colon line p1) as [[[] q]|e];
    [|exact H].
  apply IH, H.
Qed.

Lemma in_order_after_reset k filename p : in_order (after_reset k filename p).
Proof. repeat split. left. reflexivity. Qed.

(** The end of the text, with an open table. *)
Lemma in_order_close_table p :
  in_order p -> (is_Some (self_table p) -> self_state p = TABLE) ->
  match close_table languages strip_colon p with
  | Ok _ => True
  | Raise e => no_second e
  end.
Proof.
  intros Hp Ht. unfold close_table. cbv [mbind M_bind get mret M_ret].
  destruct (self_table p) as [t|]; [|exact I].
  specialize (Ht (ex_intro _ t eq_refl)).
  destruct (in_order_sees p Hp) as [Hsees Hsteady]. rewrite Ht in *.
  pose proof (sees_action_table _ _ _ _ "" Hsteady p Hsees) as H.
  destruct (action_table _ _ "" p) as [[a q]|e]; [exact I|exact H].
Qed.

End Sweep.
End BlocksFacts.

(** ** The parse so far *)
Section Reads.
Variable languages : gmap string Parser.Keywords.
Variable strip_colon : bool.
Variable id : nat.
Variables language filename : option string.

#[local] Abbreviation reads :=
  (reads languages strip_colon id language filename).

Lemma reset_after filename' p p1 :
  Parser.reset languages filename' p = Ok (tt, p1) ->
  exists k,
    languages !! Parser.or_default (Parser.self_language p) = Some k
    /\ p1 = after_reset k filename' p.
Proof.
  destruct (languages !! Parser.or_default (Parser.self_language p))
    as [k|] eqn:Ek.
  - rewrite (reset_run languages filename' p k Ek). intros [= <-]. eauto.
  - unfold Parser.reset, Parser.languages_at.
    cbv [mbind Parser.M_bind Parser.get Parser.modify mret Parser.M_ret].
    cbn [Parser.self_language Parser.set_language]. rewrite Ek. discriminate.
Qed.

Lemma reads_in_order before p : reads before p -> Blocks.in_order p.
Proof.
  intros (p0 & p1 & _ & Hreset & Hfeed).
  destruct (reset_after _ _ _ Hreset) as (k & _ & ->).
  pose proof (BlocksFacts.in_order_feed languages strip_colon before _
                (BlocksFacts.in_order_after_reset k filename p0)) as H.
  rewrite Hfeed in H. exact H.
Qed.

Lemma reads_sound before p :
  Sound.all_complete languages -> reads before p -> Sound.sound languages p.
Proof.
  intros tables (p0 & p1 & Hinit & Hreset & Hfeed).
  destruct (reset_after _ _ _ Hreset) as (k & Hk & ->).
  pose proof (SoundFacts.feed_sound languages strip_colon tables before
                (after_reset k filename p0)) as H.
  rewrite Hfeed in H. apply H.
  apply (SoundFacts.sound_after_reset languages _ k filename p0 Hk).
  rewrite (SoundFacts.init_store languages _ _ _ _ Hinit). constructor.
Qed.

Lemma reads_at before p :
  reads before p ->
  Parser.self_line p = length before /\ Parser.self_filename p = filename.
Proof.
  intros (p0 & p1 & _ & Hreset & Hfeed).
  destruct (reset_after _ _ _ Hreset) as (k & _ & ->).
  pose proof (LocatedFacts.feed_located languages strip_colon before
                (after_reset k filename p0)) as H.
  rewrite Hfeed in H. exact H.
Qed.

Lemma reads_more before more p p' :
  reads before p ->
  Parser.feed languages strip_colon more p = Ok (tt, p') ->
  reads (before ++ more) p'.
Proof.
  intros (p0 & p1 & Hinit & Hreset & Hfeed) Hmore.
  exists p0, p1. split; [exact Hinit|]. split; [exact Hreset|].
  rewrite feed_app, Hfeed. exact Hmore.
Qed.

(** The parse fails where reading fails. *)
Lemma reads_raise text before rest p e :
  PyStr.splitlines text = before ++ rest ->
  reads before p ->
  Parser.feed languages strip_colon rest p = Raise e ->
  parse_feature languages strip_colon id text language filename
  = with_filename filename (Raise e).
Proof.
  intros Hlines (p0 & p1 & Hinit & Hreset & Hfeed) Hrest.
  unfold parse_feature. rewrite Hinit. f_equal.
  unfold Parser.parse, Parser._parse_loop.
  cbv [mbind Parser.M_bind Parser.get mret Parser.M_ret Parser.modify].
  rewrite Hreset.
  rewrite (TablesFacts.reset_state languages _ _ _ Hreset).
  rewrite bool_decide_eq_false_2 by discriminate.
  rewrite Hlines, feed_app, Hfeed, Hrest. reflexivity.
Qed.

End Reads.
